(* ===== verification/_CoqProject ===== *)
-Q . S2P
Prelude.v
Configs.v
BpfMap.v
Names.v
Log.v
Io.v
Signal.v
Cmdline.v
Main.v
ProgMap.v
Json.v
Net.v
Addr.v
Acl.v
Lb.v
Packet.v
PinMaps.v
Queue.v
Monitor.v
Metrics.v
Klog.v
Inotify.v
Loader.v
Daemon.v
Watches.v
Pipeline.v
System.v
Reconfig.v
Report.v
NetHook.v
Ring.v
KernelLog.v
Services.v
Firewall.v
ConfigWatcher.v
Live.v
DebugServer.v
Inspect.v
