(* ===== verification/Prelude.v ===== *)
(** * hebpf: verification library

    hebpf is a daemon that loads eBPF services (dynamic libraries with a
    kernel program inside), attaches a scheduler program to each network
    interface, chains the services of an interface behind it through pinned
    kernel maps, and follows its configuration files while it runs.  Paths
    below are relative to [src/] of the repository's source tree; the comment
    in front of a definition names the lines it translates.

    ** How the program hangs together

    [main.cc] builds the components and hands them to each other.  The
    configuration watcher ([daemon/config_watcher.cc]) registers the daemon's
    configuration file with the inotify manager ([inotify/]), parses it when it
    changes ([daemon/configs.cc]) and tells its subscribers: the daemon, the
    monitor and the debug server.  The daemon ([daemon/daemon.cc]) compares the
    new program table with the one it has, unloads and loads libraries through
    the loader ([daemon/loader.cc]), adds schedulers, and rewrites the program
    chains through the chain manager ([ebpf/pinned_prog_map.cc]).  The loader
    starts each service ([services/], on top of [ebpf/ebpf_if.tpp] and
    [ebpf/ebpf_with_net_hook.tpp]), inserts its program into the chain maps and
    registers its JSON configuration with the inotify manager.  In the kernel,
    each chained program ends with the macro [CHAIN_NEXT] of
    [ebpf/ebpf_chain.h], which looks up its own index and tail-calls the next
    slot.  A producer thread of the daemon collects the services' metrics into
    a queue ([data/queue.tpp]); a consumer thread of the monitor
    ([monitor/]) turns them into Prometheus counters.

    ** The files

    Foundations:
    - Prelude: results and exceptions, [ASSERT] in its two build modes,
      programs over system calls with arbitrary answers ([prog], [run],
      [always]), the state and exception monad [ST], and generic lemmas.
    - BpfMap: the interface of kernel hash and array maps, with laws, the key
      iteration loop the code writes over it, and reference instances.
    - Json, Net, Addr: the JSON interface, byte order, addresses and packets, and
      what dotted addresses and network byte order mean without the code.
    - Log: the logger registry and its macros ([log/]), the text of an
      exception and of a stack trace ([common/]).

    The process:
    - Cmdline: the options and the generated configuration ([cmdline/]) over an
      interface for CLI11.
    - Signal: the stop flag, both signal handlers, the main loop and the thread
      wrapper as interleaved steps ([signal/], [thread/]).
    - Io: descriptors, handlers, exceptions and the end of the io context
      ([io/]); the order of events is arbitrary.
    - Main: [main.cc] as a program over calls to the parts.

    Configuration:
    - Configs: [daemon/configs.*], [common/enum_name.hpp]; yaml-cpp is the class
      [Yaml] with laws and a reference instance.
    - Inotify: the event parser and the inotify manager.
    - ConfigWatcher, DebugServer: the publisher of the configuration, and the
      debug server with its connections on the io thread, which an exception of
      a handler ends.

    Programs and chains:
    - Names: [getCanonicalName] and the program registry of [ebpf_id.map].
    - ProgMap: regions, the id hash, insertion and chain rewriting of
      [PinnedProgMap], and [CHAIN_NEXT] with the kernel's tail calls.
    - PinMaps: creation, pinning and cleanup of the shared maps, the kernel
      log's ring-buffer map, and the descriptor owner [Fd].
    - Acl, Lb: rules, JSON form, user-space table filling and the kernel
      programs of the two services.  [Acl.Policy] says what a list of rules denies
      in terms of packets, without the encoding of the loader and the filter.
    - Packet: a packet through the dispatch program and the chain, with the
      verdict of every program.
    - NetHook: TC and XDP hooks, the skeleton wrapper and the schedulers.
    - Ring: ring buffers with their moves and callbacks, and the life of the
      user-mode example.
    - Services: the objects the libraries export, as instances of the loader's
      interface [EbpfIf].

    The daemon:
    - Loader: the service table, over the interfaces [EbpfIf],
      [InotifyManagerIf] and [ChainIf].  The last two are discharged by
      instances built from Inotify and ProgMap, and the loader itself
      implements the interface [LoaderIf].
    - Daemon: update, run, stop and what a producer round finds over [LoaderIf],
      and the shutdown protocol as a step relation.
    - Watches: which configuration file is watched for which service, over
      sequences of updates.
    - Report: the debug report of daemon, loader and chain manager.
    - Queue, Monitor, Metrics, Klog: the queue as a small-step relation over
      threads, the monitor over an interface for prometheus-cpp (a counter is a
      double: sums are exact up to 2^53, and a registration may be refused),
      the path of a report from a service to a counter, the kernel log
      formatter.

    Compositions:
    - System: the first update of the daemon, through the loader and the chain
      manager, down to the packets of an interface.
    - Reconfig: every later update, for all hooks at once: the states the chain
      manager and its kernel tables go through while [update] runs, and
      sequences of updates.
    - Firewall: the same with the real service objects: the files of the ACL and
      of the load balancer named in the configuration, down to the packets that
      are dropped or sent to a backend.
    - Pipeline: the daemon's producer, which drops what finds no queue or a full
      one, the queue and the monitor's consumer, under every interleaving of
      their threads.
    - KernelLog: the kernel's log messages through the ring buffer, the formatter
      and the logger into the log file.
    - Inspect: the debug server with the daemon as its subscriber: what a request
      is answered after a sequence of updates.
    - Live: the configuration watcher with the daemon as its first subscriber, in
      front of Reconfig and Firewall: saves of the configuration file and events
      of the file watcher in any order, down to the packets.

    A pure C++ function is a Gallina function; a method that mutates its object
    takes the object and returns the new one; one that may throw returns a
    [result]; one that calls the kernel is a [prog] whose environment may
    answer anything, depending on the whole history of the run; one that goes
    through several collaborators is in [ST].  Machine integers are [Z] with
    the wrap-around or conversion written out where the code has it.

    ** What the theorems show

    - End to end: however the configuration file is edited, once its last save is
      reported the packets of every hook meet the programs it names
      ([Live.saved_file_reaches_packets]), and with the ACL and the load balancer
      in it their two rule files decide ([Live.saved_files_decide]).  Behind the
      watcher: after any sequence of the daemon's updates, each hook runs the
      programs of the last configuration in the configured order
      ([Reconfig.updates_reach_packets]); a scheduler is attached to the interface
      and exactly the packets that the rules of the ACL's file deny are dropped
      ([Firewall.acl_enforced_after_updates]), and what the load balancer's file
      names is sent to the backend it selects ([Firewall.files_decide_after_updates]).
      The sequence may change files, add, replace, rename and remove programs,
      under conditions that are shown to matter: all entries of a hook are on the
      interface of its first region (a later one is never chained,
      [ProgMap.later_region_has_no_chain]), a library is in one entry only
      ([Daemon.shared_library_loaded_once]), a chain does not get shorter
      (slots are never cleared) and a program that stays keeps its position
      (programs that only get other order numbers are not moved,
      [Reconfig.first_to_last_runs_alone]).  What the ACL's rules deny is said by
      [Acl.Policy]; the filter departs from it in the ports it does not read
      ([Acl.acl_udp_ports_ignored]), and frames without a TCP or UDP packet pass.
    - The chain: the regions of two interfaces never overlap; one update
      rewrites the id hash completely; and a packet then runs exactly the
      configured programs in the configured order
      ([Packet.packet_follows_configuration], [ProgMap.chain_runs_in_order]),
      under two conditions that are shown to matter: the interface has the first
      region (the index written is offset by the region's start, the region of a
      later interface is never reached, and an interface without region runs
      the first one's programs) and the slot behind the chain is free (slots
      are never cleared).
    - Reconfiguration: the loader refines a table; an update of the daemon
      reaches the configuration from every state that an update can leave;
      schedulers are never unloaded by an update, a library is loaded at most
      once, and stop empties the table.
    - Services: for every sequence of rules the ACL program drops exactly what
      the rules deny and the load balancer sends a packet to the backend its
      source address selects; both theorems run the user-space code that fills
      the maps and the kernel code that reads them.  A change of the rule file
      is followed through the loader as long as the closure registered for the
      file still reads the library's path, and a bad file, or a path that is
      gone, ends the io thread.
    - Files: the inotify manager refines a table from paths to callbacks; the
      YAML codec round-trips; a changed configuration is told once; after any
      sequence of updates the watches are those of the program table
      ([Watches.watches_follow_updates]), under the condition, shown to matter,
      that no file goes from one library to another
      ([Watches.handed_over_file_unwatched]).
    - Observation: a request to the debug server is answered with every program
      of the last configuration and its position in the chain
      ([Inspect.debug_answer_shows_configuration]), and the rules it shows are the
      rules that are in force ([Inspect.debug_answer_shows_enforced_rules]).
      Every message of a kernel program that finds room in the ring buffer is in
      the log file once and in order ([KernelLog.kernel_log_reaches_file]), so
      the log says which packets were dropped
      ([KernelLog.acl_decisions_are_logged]).  At every moment the counters, the
      queue, the producer and what it dropped together are exactly what the
      services reported ([Pipeline.reports_conserved]).  The debug report describes the state of
      daemon, loader and maps, every request to the debug server is answered
      once while the io thread runs (a report that cannot be dumped ends it), and the user-mode example holds the last event of its ring buffer.
    - Resources: whatever the kernel answers, the chain manager leaks no
      descriptor, and no pin but one that the kernel refuses to unlink; and a
      network hook knows whether it is attached, unless the kernel refused to
      detach it and the clean-up then flushed the filters
      ([NetHook.failed_detach_flushes]).
    - Start and end: when its parts do what they are asked main ends once the
      stop flag is set; it reports success only after every part was shut down in
      order, and a call that fails ends it with the destruction of what exists
      and a failure; the stop is announced before the loop sees it; the io thread ends.
    - Threads: the queue is first-in first-out and bounded under every
      interleaving; the lost wake-up of stop and the two shutdown deadlocks
      are exhibited as reachable states without a successor, and the daemon's
      is shown to be the only one.
    - Where the code deviates from its intent the deviation is a theorem about
      the same definitions (for example [Acl.acl_udp_ports_ignored],
      [NetHook.failed_detach_kills_daemon], [Ring.moved_ring_is_deaf],
      [DebugServer.debug_accept_error_deafens]), with a concrete instance.

    Each theorem with hypotheses is followed, in a module [Sample] ([FirewallSample]
    in Live, or by itself), by an instance on concrete data in which every hypothesis is
    discharged by evaluation.

    ** Bounds

    Most recursion is structural.  The key iteration of BpfMap and of Report
    takes as fuel the size of the map plus one, which the law of [get_next_key]
    makes enough; the kernel's tail calls are limited to 33 as in Linux, more
    than the 32 slots of the program array; loops that eBPF programs unroll have
    the source's constant bound; the main loop has as fuel the number of its
    rounds, and [Main.main_ends] shows that one more than the number of polls
    before the stop flag is enough.

    ** What is not modelled

    Libraries are interfaces with laws or arbitrary answers: the event loop of
    Boost.Asio and the HTTP parsing of Boost.Beast, libbpf, yaml-cpp,
    nlohmann::json, prometheus-cpp, spdlog, CLI11, the unwinder and the
    demangler.  Log messages are left out where they decide nothing, and so are
    the help text and [dupStopFd], which nothing calls.  Headers that only
    declare abstract classes have no definition of their own.  Memory errors
    are modelled where the code causes them by indices (Klog) or null pointers
    ([SEGV]); data races on unprotected fields are modelled in Queue and in the
    two shutdown protocols.

    The closure registered for a configuration file keeps a view of the library
    path, whose storage is freed when [loadService] returns.  The model keeps the
    view ([Loader.StringView], [Loader.ConfigCb]) and gives every call of the
    closure what the storage holds at that moment as an argument
    ([Loader.on_config_changed]); undefined behaviour beyond reading some text is
    not modelled.

    ** Possible extensions

    Interfaces in later regions, whose chains the program never reaches
    ([ProgMap.v]), from the configuration on; edits of the services' JSON files
    between two updates, down to the packets. *)

From Stdlib Require Export ZArith Lia Ascii String.
From stdpp Require Export base option list numbers strings gmap fin_maps.

(** ** Results: a C++ call either returns or throws *)

Inductive result (E A : Type) : Type :=
| Ok (a : A)
| Err (e : E).
Arguments Ok {E A} a.
Arguments Err {E A} e.

#[export] Instance result_ret {E} : MRet (result E) := fun _ a => Ok a.
#[export] Instance result_bind {E} : MBind (result E) :=
  fun _ _ f m => match m with Ok a => f a | Err e => Err e end.
#[export] Instance result_fmap {E} : FMap (result E) :=
  fun _ _ f m => match m with Ok a => Ok (f a) | Err e => Err e end.

Lemma result_bind_inv {E A B} (f : A -> result E B) (m : result E A) b :
  m ≫= f = Ok b -> exists a, m = Ok a /\ f a = Ok b.
Proof. destruct m as [a |]; [| done]. by exists a. Qed.

(** What a C++ call may throw: [EXCEPT(..)] of the project, an exception of a
    library, [std::abort] from a failed [ASSERT] in a debug build, or (for a
    null pointer that is used although the [ASSERT] on it only printed) the
    segmentation fault that ends the process. *)
Inductive exn : Type :=
| EXCEPT (msg : string)
| StdException (what : string)
| ABORT
| SEGV.

(** [ASSERT] (src/common/assert.h) aborts a debug build and only prints in a
    release build, where the function goes on. *)
Class BuildMode : Type := NDEBUG : bool.

(* src/common/assert.h:11-26 ASSERT *)
Definition ASSERT `{BuildMode} (expr : bool) : result exn unit :=
  if expr then Ok tt else if NDEBUG then Ok tt else Err ABORT.

Definition is_ok {E A} (r : result E A) : bool :=
  match r with Ok _ => true | Err _ => false end.

(** ** Programs that call the outside world

    A [prog C R A] is a computation that issues calls of type [C] (system
    calls, library calls), receives responses of type [R] and ends with an
    [A].  The outside world is universally quantified: an environment [env]
    chooses every response from the whole history of the run. *)

Inductive prog (C R A : Type) : Type :=
| Ret (a : A)
| Call (c : C) (k : R -> prog C R A).
Arguments Ret {C R A} a.
Arguments Call {C R A} c k.

Fixpoint prog_bind {C R A B} (p : prog C R A) (f : A -> prog C R B) : prog C R B :=
  match p with
  | Ret a => f a
  | Call c k => Call c (fun r => prog_bind (k r) f)
  end.

#[export] Instance prog_mret {C R} : MRet (prog C R) := fun _ a => Ret a.
#[export] Instance prog_mbind {C R} : MBind (prog C R) := fun _ _ f p => prog_bind p f.

Definition env (C R : Type) : Type := list (C * R) -> C -> R.

(** [run e p tr] runs [p] after the history [tr] and returns its result with
    the extended history. *)
Fixpoint run {C R A} (e : env C R) (p : prog C R A) (tr : list (C * R)) : A * list (C * R) :=
  match p with
  | Ret a => (a, tr)
  | Call c k => run e (k (e tr c)) (tr ++ [(c, e tr c)])
  end.

Lemma run_bind {C R A B} (e : env C R) (p : prog C R A) (f : A -> prog C R B) tr :
  run e (prog_bind p f) tr = let '(a, tr') := run e p tr in run e (f a) tr'.
Proof. revert tr. induction p as [a | c k IH]; intros tr; cbn; [done | apply IH]. Qed.

(** [always Q p tr]: whatever the outside world answers, [p] started after
    the history [tr] ends with a result and a history that satisfy [Q]. *)
Fixpoint always {C R A} (Q : A -> list (C * R) -> Prop) (p : prog C R A) (tr : list (C * R)) : Prop :=
  match p with
  | Ret a => Q a tr
  | Call c k => forall r, always Q (k r) (tr ++ [(c, r)])
  end.

Lemma always_run {C R A} (Q : A -> list (C * R) -> Prop) (p : prog C R A) tr e :
  always Q p tr -> Q (run e p tr).1 (run e p tr).2.
Proof. revert tr. induction p as [a | c k IH]; intros tr; cbn; [done |]. intros Hk. apply IH, Hk. Qed.

Lemma always_bind {C R A B} (Q : A -> list (C * R) -> Prop) (Q' : B -> list (C * R) -> Prop)
    (p : prog C R A) (f : A -> prog C R B) tr :
  always Q p tr -> (forall a tr', Q a tr' -> always Q' (f a) tr') -> always Q' (prog_bind p f) tr.
Proof.
  intros Hp Hf. revert tr Hp. induction p as [a | c k IH]; intros tr; cbn; [apply Hf |].
  intros Hk r. apply IH, Hk.
Qed.

Lemma always_mono {C R A} (Q Q' : A -> list (C * R) -> Prop) (p : prog C R A) tr :
  always Q p tr -> (forall a tr', Q a tr' -> Q' a tr') -> always Q' p tr.
Proof.
  intros Hp HQ. revert tr Hp. induction p as [a | c k IH]; intros tr; cbn; [apply HQ |].
  intros Hk r. apply IH, Hk.
Qed.

Definition call {C R} (c : C) : prog C R R := Call c Ret.

(** ** Iteration order of std::unordered_map

    The order in which a C++ [unordered_map] is iterated is unspecified: the
    loops of the code are folded over [uiter m], any permutation of the
    bindings. *)
Class UMapOrder (K : Type) `{Countable K} : Type := {
  uiter : forall {V : Type}, gmap K V -> list (K * V);
  uiter_perm : forall {V : Type} (m : gmap K V), uiter m ≡ₚ map_to_list m
}.

Definition default_order (K : Type) `{Countable K} : UMapOrder K :=
  {| uiter := fun V m => map_to_list m; uiter_perm := fun V m => Permutation_refl _ |}.

(** ** Machine integers *)

Definition wrap (w x : Z) : Z := (x mod 2 ^ w)%Z.
Definition u16 : Z -> Z := wrap 16.
Definition u32 : Z -> Z := wrap 32.
Definition u64 : Z -> Z := wrap 64.
(** two's complement reinterpretation of the low [w] bits *)
Definition swrap (w x : Z) : Z :=
  let y := wrap w x in if (y <? 2 ^ (w - 1))%Z then y else (y - 2 ^ w)%Z.
Definition i32 : Z -> Z := swrap 32.
Definition i64 : Z -> Z := swrap 64.

(** byte swap of a 16-bit integer: [htons] and [ntohs] on a little-endian host *)
Definition bswap16 (x : Z) : Z := Z.lor (Z.shiftl (Z.land x 255) 8) (Z.shiftr x 8).

(** ** Stateful code with exceptions

    A method of an object with state [S]: it returns or throws, and keeps the
    changes made before a throw. *)

Definition ST (S A : Type) : Type := S -> result exn A * S.

#[export] Instance st_ret {S} : MRet (ST S) := fun _ a s => (Ok a, s).
#[export] Instance st_bind {S} : MBind (ST S) := fun _ _ f m s =>
  match m s with (Ok a, s') => f a s' | (Err e, s') => (Err e, s') end.

Definition get {S} : ST S S := fun s => (Ok s, s).
Definition modify {S} (f : S -> S) : ST S unit := fun s => (Ok tt, f s).
Definition throw {S A} (e : exn) : ST S A := fun s => (Err e, s).
Definition lift {S A} (r : result exn A) : ST S A := fun s => (r, s).

(** [try { m } catch (const std::exception &) { h }]: [std::abort] and a
    segmentation fault are not caught *)
Definition catch {S} (m h : ST S unit) : ST S unit := fun s =>
  match m s with
  | (Err (EXCEPT _), s') | (Err (StdException _), s') => h s'
  | r => r
  end.

Fixpoint for_each {X S} (f : X -> ST S unit) (l : list X) : ST S unit :=
  match l with
  | [] => mret tt
  | x :: l => _ ← f x; for_each f l
  end.

(** total correctness without exceptions *)
Definition succeeds {S A} (P : S -> Prop) (m : ST S A) (Q : A -> S -> Prop) : Prop :=
  forall s, P s -> exists a s', m s = (Ok a, s') /\ Q a s'.

Lemma succeeds_ret {S A} (a : A) (Q : A -> S -> Prop) : succeeds (Q a) (mret a) Q.
Proof. intros s HP. by exists a, s. Qed.

Lemma succeeds_bind {S A B} (P : S -> Prop) (R : A -> S -> Prop) (Q : B -> S -> Prop) (m : ST S A) (f : A -> ST S B) :
  succeeds P m R -> (forall a, succeeds (R a) (f a) Q) -> succeeds P (m ≫= f) Q.
Proof.
  intros Hm Hf s HP. destruct (Hm s HP) as (a & s' & Hms & HR).
  destruct (Hf a s' HR) as (b & s'' & Hfs & HQ). exists b, s''. split; [| done].
  cbv [mbind st_bind]. by rewrite Hms.
Qed.

Lemma succeeds_weaken {S A} (P P' : S -> Prop) (Q Q' : A -> S -> Prop) (m : ST S A) :
  succeeds P m Q -> (forall s, P' s -> P s) -> (forall a s, Q a s -> Q' a s) -> succeeds P' m Q'.
Proof. intros Hm HP HQ s Hs. destruct (Hm s (HP s Hs)) as (a & s' & Hms & Hq). exists a, s'. eauto. Qed.

Lemma succeeds_for_each {X S} (Inv : list X -> S -> Prop) (f : X -> ST S unit) (l : list X) :
  (forall before x after, l = before ++ x :: after -> succeeds (Inv before) (f x) (fun _ => Inv (before ++ [x]))) ->
  succeeds (Inv []) (for_each f l) (fun _ => Inv l).
Proof.
  intros Hstep.
  assert (Hgen : forall before after, l = before ++ after ->
    succeeds (Inv before) (for_each f after) (fun _ => Inv l)).
  { intros before after. revert before. induction after as [| x after IH]; intros before Hl; cbn [for_each].
    - rewrite app_nil_r in Hl. rewrite <- Hl. apply (succeeds_ret tt (fun _ => Inv l)).
    - eapply succeeds_bind; [by eapply Hstep |]. intros []. apply IH. by rewrite <- app_assoc. }
  by apply Hgen.
Qed.

(** ** Lists *)

(** a list is cut in one way at an element that occurs once *)
Lemma cut_unique {A} (l1 l2 r1 r2 : list A) (x : A) :
  x ∉ l1 -> x ∉ l2 -> l1 ++ x :: r1 = l2 ++ x :: r2 -> l1 = l2 /\ r1 = r2.
Proof.
  revert l2. induction l1 as [| y l1 IH]; intros [| z l2]; cbn; intros H1 H2 Heq; simplify_eq.
  - done.
  - destruct H2. left.
  - destruct H1. left.
  - destruct (IH l2) as [-> ->]; set_solver.
Qed.

(** what comes after an element is not among what comes up to it *)
Lemma later_not_earlier {A} (xs bf af bf' af' : list A) (x y : A) :
  NoDup xs -> xs = bf ++ y :: af -> xs = bf' ++ x :: af' -> y ∈ bf' -> x ∉ bf ++ [y].
Proof.
  intros Hnd -> Heq (l1 & l2 & ->)%list_elem_of_split Hx. rewrite <- app_assoc in Heq. cbn in Heq.
  pose proof Hnd as Hnd'. rewrite Heq in Hnd'.
  apply NoDup_app in Hnd as (_ & Hd & _). pose proof Hnd' as (_ & Hd' & _)%NoDup_app.
  destruct (cut_unique bf l1 af (l2 ++ x :: af') y) as [-> ->]; [| | done |].
  - intros Hy. apply (Hd y Hy). left.
  - intros Hy. apply (Hd' y Hy). left.
  - rewrite (app_assoc l1 [y] (l2 ++ x :: af') : l1 ++ y :: l2 ++ x :: af' = _) in Hnd'.
    apply NoDup_app in Hnd' as (_ & Hdis & _). apply (Hdis x Hx). set_solver.
Qed.
