(* ===== verification/Configs.v ===== *)
(** * Configuration objects and their YAML codec

    [src/daemon/configs.hpp], [src/daemon/configs.cc] and
    [src/common/enum_name.hpp]: the hook types, one eBPF program's
    configuration, the whole configuration file, and the two
    [YAML::convert] specialisations, against an interface for yaml-cpp. *)

From S2P Require Import Prelude.

(** ** Reflected enumerations (magic_enum behind enum_name.hpp) *)

(** What magic_enum provides for an enumeration type: its values in
    declaration order and the identifier of each. *)
Class CEnum (A : Type) `{EqDecision A} : Type := {
  enum_values : list A;
  enum_name : A -> string
}.

Class CEnumLaws (A : Type) `{CEnum A} : Prop := {
  enum_values_all : forall e : A, e ∈ enum_values;
  enum_name_inj : forall a b : A, enum_name a = enum_name b -> a = b
}.

(* src/common/enum_name.hpp:12-21 enumName *)
Definition enumName {A} `{CEnum A} (e : A) : string := enum_name e.

(* src/common/enum_name.hpp:23-35 enumNameList *)
Definition enumNameList (A : Type) `{CEnum A} : list string :=
  enumName <$> enum_values (A := A).

(* src/common/enum_name.hpp:37-46 stringEnum *)
Definition stringEnum {A} `{CEnum A} (str : string) : option A :=
  snd <$> list_find (fun e => enum_name e = str) enum_values.

#[global] Arguments enumName : simpl never.
#[global] Arguments stringEnum : simpl never.

(* src/daemon/configs.hpp:37-37 HookType *)
Inductive HookType : Type := TC | XDP_GENERIC | XDP_NATIVE | XDP_OFFLOAD | KProbe | UNKNOWN.

#[export] Instance HookType_eq_dec : EqDecision HookType.
Proof. solve_decision. Defined.

Definition HookType_to_nat (h : HookType) : nat :=
  match h with
  | TC => 0 | XDP_GENERIC => 1 | XDP_NATIVE => 2 | XDP_OFFLOAD => 3 | KProbe => 4 | UNKNOWN => 5
  end.
Definition HookType_of_nat (n : nat) : HookType :=
  match n with
  | 0 => TC | 1 => XDP_GENERIC | 2 => XDP_NATIVE | 3 => XDP_OFFLOAD | 4 => KProbe | _ => UNKNOWN
  end.
#[export] Instance HookType_countable : Countable HookType.
Proof. apply (inj_countable' HookType_to_nat HookType_of_nat). by intros []. Defined.

#[export] Instance HookType_enum : CEnum HookType := {
  enum_values := [TC; XDP_GENERIC; XDP_NATIVE; XDP_OFFLOAD; KProbe; UNKNOWN];
  enum_name := fun h =>
    match h with
    | TC => "TC" | XDP_GENERIC => "XDP_GENERIC" | XDP_NATIVE => "XDP_NATIVE"
    | XDP_OFFLOAD => "XDP_OFFLOAD" | KProbe => "KProbe" | UNKNOWN => "UNKNOWN"
    end
}.

(** ** One eBPF program's configuration *)

Module ConfigEbpf.

(* src/daemon/configs.hpp:39-68 ConfigEbpf *)
Record t : Type := mk {
  lib_ : string;
  config_ : string;
  hook_ : HookType;
  ifindex_ : Z;
  order_ : Z
}.

(* src/daemon/configs.cc:10-12 ConfigEbpf::ConfigEbpf *)
Definition default : t :=
  mk "/path/to/libhebpf_xx.so" "/path/to/config.json" UNKNOWN (-1) 0.

(* src/daemon/configs.cc:23-28 ConfigEbpf::setLib *)
Definition setLib (lib : string) (c : t) : t :=
  mk lib (config_ c) (hook_ c) (ifindex_ c) (order_ c).
(* src/daemon/configs.cc:30-35 ConfigEbpf::getLib *)
Definition getLib (c : t) : string := lib_ c.
(* src/daemon/configs.cc:37-42 ConfigEbpf::setConfig *)
Definition setConfig (config : string) (c : t) : t :=
  mk (lib_ c) config (hook_ c) (ifindex_ c) (order_ c).
(* src/daemon/configs.cc:44-49 ConfigEbpf::getConfig *)
Definition getConfig (c : t) : string := config_ c.
(* src/daemon/configs.cc:51-56 ConfigEbpf::setHook *)
Definition setHook (hook : HookType) (c : t) : t :=
  mk (lib_ c) (config_ c) hook (ifindex_ c) (order_ c).
(* src/daemon/configs.cc:58-63 ConfigEbpf::getHook *)
Definition getHook (c : t) : HookType := hook_ c.
(* src/daemon/configs.cc:65-70 ConfigEbpf::setIfindex *)
Definition setIfindex (ifindex : Z) (c : t) : t :=
  mk (lib_ c) (config_ c) (hook_ c) ifindex (order_ c).
(* src/daemon/configs.cc:72-77 ConfigEbpf::getIfindex *)
Definition getIfindex (c : t) : Z := ifindex_ c.
(* src/daemon/configs.cc:79-84 ConfigEbpf::setOrder *)
Definition setOrder (order : Z) (c : t) : t :=
  mk (lib_ c) (config_ c) (hook_ c) (ifindex_ c) order.
(* src/daemon/configs.cc:86-91 ConfigEbpf::getOrder *)
Definition getOrder (c : t) : Z := order_ c.

(** The five-argument constructor runs the setters on the uninitialised
    object [c]; the result does not depend on it. *)
(* src/daemon/configs.cc:14-21 ConfigEbpf::ConfigEbpf *)
Definition make (c : t) (lib config : string) (hook : HookType) (ifindex order : Z) : t :=
  setOrder order (setIfindex ifindex (setHook hook (setConfig config (setLib lib c)))).

(* src/daemon/configs.cc:93-96 ConfigEbpf::operator== *)
Definition eqb (a b : t) : bool :=
  (lib_ a =? lib_ b)%string && (config_ a =? config_ b)%string &&
  bool_decide (hook_ a = hook_ b) && (ifindex_ a =? ifindex_ b)%Z && (order_ a =? order_ b)%Z.

(* src/daemon/configs.cc:98-98 ConfigEbpf::operator!= *)
Definition neqb (a b : t) : bool := negb (eqb a b).

#[export] Instance eq_dec : EqDecision t.
Proof. solve_decision. Defined.

End ConfigEbpf.

(** ** The whole configuration *)

Module Configs.

(* src/daemon/configs.hpp:70-111 Configs *)
Record t : Type := mk {
  prometheus_enabled_ : bool;
  prometheus_listen_ : string;
  dbgserv_enabled_ : bool;
  dbgserv_addr_ : string;
  dbgserv_port_ : Z;
  ebpfs_ : gmap string ConfigEbpf.t
}.

(* src/daemon/configs.hpp:105-110 Configs::Configs *)
Definition default : t :=
  mk false "0.0.0.0:8080" false "127.0.0.1" 9999 {["example" := ConfigEbpf.default]}.

(* src/daemon/configs.cc:128-133 Configs::setPrometheusEnabled *)
Definition setPrometheusEnabled (enabled : bool) (c : t) : t :=
  mk enabled (prometheus_listen_ c) (dbgserv_enabled_ c) (dbgserv_addr_ c) (dbgserv_port_ c) (ebpfs_ c).
(* src/daemon/configs.cc:135-141 Configs::getPrometheusEnabled *)
Definition getPrometheusEnabled (c : t) : bool := prometheus_enabled_ c.
(* src/daemon/configs.cc:143-150 Configs::setPrometheusListen *)
Definition setPrometheusListen (listen : string) (c : t) : t :=
  mk (prometheus_enabled_ c) listen (dbgserv_enabled_ c) (dbgserv_addr_ c) (dbgserv_port_ c) (ebpfs_ c).
(* src/daemon/configs.cc:152-157 Configs::getPrometheusListen *)
Definition getPrometheusListen (c : t) : string := prometheus_listen_ c.
(* src/daemon/configs.cc:159-164 Configs::setDebugServerEnabled *)
Definition setDebugServerEnabled (enabled : bool) (c : t) : t :=
  mk (prometheus_enabled_ c) (prometheus_listen_ c) enabled (dbgserv_addr_ c) (dbgserv_port_ c) (ebpfs_ c).
(* src/daemon/configs.cc:166-172 Configs::getDebugServerEnabled *)
Definition getDebugServerEnabled (c : t) : bool := dbgserv_enabled_ c.
(* src/daemon/configs.cc:174-179 Configs::setDebugServerAddr *)
Definition setDebugServerAddr (address : string) (c : t) : t :=
  mk (prometheus_enabled_ c) (prometheus_listen_ c) (dbgserv_enabled_ c) address (dbgserv_port_ c) (ebpfs_ c).
(* src/daemon/configs.cc:181-186 Configs::getDebugServerAddr *)
Definition getDebugServerAddr (c : t) : string := dbgserv_addr_ c.
(* src/daemon/configs.cc:188-193 Configs::setDebugServerPort *)
Definition setDebugServerPort (port : Z) (c : t) : t :=
  mk (prometheus_enabled_ c) (prometheus_listen_ c) (dbgserv_enabled_ c) (dbgserv_addr_ c) port (ebpfs_ c).
(* src/daemon/configs.cc:195-200 Configs::getDebugServerPort *)
Definition getDebugServerPort (c : t) : Z := dbgserv_port_ c.
(* src/daemon/configs.cc:202-207 Configs::setEbpfs *)
Definition setEbpfs (ebpf_so : gmap string ConfigEbpf.t) (c : t) : t :=
  mk (prometheus_enabled_ c) (prometheus_listen_ c) (dbgserv_enabled_ c) (dbgserv_addr_ c) (dbgserv_port_ c) ebpf_so.
(* src/daemon/configs.cc:209-214 Configs::getEbpfs *)
Definition getEbpfs (c : t) : gmap string ConfigEbpf.t := ebpfs_ c.

(* src/daemon/configs.cc:216-240 Configs::appendEbpf *)
Definition appendEbpf (name lib config : string) (hook : HookType) (ifindex order : Z) (c : t) : t :=
  if (name =? "")%string then c
  else
    let cfg := ConfigEbpf.make ConfigEbpf.default lib config hook ifindex order in
    match ebpfs_ c !! name with
    | Some _ => setEbpfs (alter (fun _ => cfg) name (ebpfs_ c)) c      (* iter->second = ... *)
    | None => setEbpfs (<[name := cfg]> (ebpfs_ c)) c                  (* emplace *)
    end.

(* src/daemon/configs.cc:242-256 Configs::deleteEbpf *)
Definition deleteEbpf (name : string) (c : t) : t :=
  if (name =? "")%string then c
  else match ebpfs_ c !! name with
       | Some _ => setEbpfs (delete name (ebpfs_ c)) c
       | None => c
       end.

(** [std::map] equality: same size and, in key order, equal keys and values *)
Definition ebpfs_eqb (m1 m2 : gmap string ConfigEbpf.t) : bool :=
  (size m1 =? size m2)%nat &&
  forallb (fun kv => match m2 !! kv.1 with Some v => ConfigEbpf.eqb kv.2 v | None => false end)
    (map_to_list m1).

(* src/daemon/configs.cc:258-263 Configs::operator== *)
Definition eqb (a b : t) : bool :=
  Bool.eqb (prometheus_enabled_ a) (prometheus_enabled_ b) &&
  (prometheus_listen_ a =? prometheus_listen_ b)%string &&
  Bool.eqb (dbgserv_enabled_ a) (dbgserv_enabled_ b) &&
  (dbgserv_addr_ a =? dbgserv_addr_ b)%string &&
  (dbgserv_port_ a =? dbgserv_port_ b)%Z && ebpfs_eqb (ebpfs_ a) (ebpfs_ b).

(* src/daemon/configs.cc:265-265 Configs::operator!= *)
Definition neqb (a b : t) : bool := negb (eqb a b).

End Configs.

(** ** The YAML codec *)

(** What configs.hpp uses of yaml-cpp: [node[key]] on a node that is read
    (which throws for a scalar), the [as<T>] conversions (which throw), building
    a map node key by key, and the library's own [std::map] converter. *)
Class YamlLib (node : Type) : Type := {
  yget : node -> string -> result exn (option node);
  ynew : node;
  ymapping : node -> bool;       (* node.IsMap() || node.IsNull() *)
  yset : node -> string -> node -> node;
  as_string : node -> result exn string;
  as_int : node -> result exn Z;
  as_u16 : node -> result exn Z;
  as_bool : node -> result exn bool;
  as_map : node -> result exn (list (string * node));
  of_string : string -> node;
  of_int : Z -> node;
  of_u16 : Z -> node;
  of_bool : bool -> node;
  of_map : list (string * node) -> node
}.

(** Documented behaviour: a key reads back what was assigned to it, and each
    conversion reads back what the same conversion wrote. *)
Class YamlLaws (node : Type) `{YamlLib node} : Prop := {
  yget_new : forall k, yget ynew k = Ok None;
  ymapping_new : ymapping ynew = true;
  ymapping_set : forall n k v, ymapping n = true -> ymapping (yset n k v) = true;
  yget_set : forall n k v k', ymapping n = true -> yget (yset n k v) k' =
    if decide (k = k') then Ok (Some v) else yget n k';
  as_of_string : forall s, as_string (of_string s) = Ok s;
  as_of_int : forall z, (- 2 ^ 31 <= z < 2 ^ 31)%Z -> as_int (of_int z) = Ok z;
  as_of_u16 : forall z, (0 <= z < 2 ^ 16)%Z -> as_u16 (of_u16 z) = Ok z;
  as_of_bool : forall b, as_bool (of_bool b) = Ok b;
  as_of_map : forall l, NoDup l.*1 -> as_map (of_map l) = Ok l
}.

Section Codec.
Context {node : Type} `{YamlLib node}.

(** [if (node[key]) { conf.set(node[key].as<T>()); }] *)
Definition when_key {A B} (n : node) (key : string) (as_ : node -> result exn A)
  (set_ : A -> B -> B) (c : B) : result exn B :=
  found ← yget n key;
  match found with
  | Some v => x ← as_ v; Ok (set_ x c)
  | None => Ok c
  end.

(* src/daemon/configs.hpp:120-128 convert<ConfigEbpf>::encode *)
Definition encode_ebpf (conf : ConfigEbpf.t) : node :=
  let n := ynew in
  let n := yset n "lib" (of_string (ConfigEbpf.getLib conf)) in
  let n := yset n "config" (of_string (ConfigEbpf.getConfig conf)) in
  let n := yset n "hook" (of_string (enumName (ConfigEbpf.getHook conf))) in
  let n := yset n "ifindex" (of_int (ConfigEbpf.getIfindex conf)) in
  yset n "order" (of_int (ConfigEbpf.getOrder conf)).

(* src/daemon/configs.hpp:137-151 convert<ConfigEbpf>::decode *)
Definition decode_hook (str : string) (conf : ConfigEbpf.t) : ConfigEbpf.t :=
  match stringEnum str with
  | Some h => ConfigEbpf.setHook h conf
  | None => ConfigEbpf.setHook UNKNOWN conf
  end.

(* src/daemon/configs.hpp:130-159 convert<ConfigEbpf>::decode *)
Definition decode_ebpf (n : node) (conf : ConfigEbpf.t) : result exn ConfigEbpf.t :=
  conf ← when_key n "lib" as_string ConfigEbpf.setLib conf;
  conf ← when_key n "config" as_string ConfigEbpf.setConfig conf;
  conf ← when_key n "hook" as_string decode_hook conf;
  conf ← when_key n "ifindex" as_int ConfigEbpf.setIfindex conf;
  when_key n "order" as_int ConfigEbpf.setOrder conf.

(** yaml-cpp's [std::map<K,V>] converter on top of the two functions above:
    entries are written and read in iteration order, each value decoded into
    a default-constructed object. *)
Definition encode_ebpfs (m : gmap string ConfigEbpf.t) : node :=
  of_map ((fun kv => (kv.1, encode_ebpf kv.2)) <$> map_to_list m).

Fixpoint decode_entries (l : list (string * node)) (m : gmap string ConfigEbpf.t)
  : result exn (gmap string ConfigEbpf.t) :=
  match l with
  | [] => Ok m
  | (k, n) :: rest =>
      c ← decode_ebpf n ConfigEbpf.default;
      decode_entries rest (<[k := c]> m)
  end.

Definition decode_ebpfs (n : node) : result exn (gmap string ConfigEbpf.t) :=
  l ← as_map n; decode_entries l ∅.

(* src/daemon/configs.hpp:164-182 convert<Configs>::encode *)
Definition encode (conf : Configs.t) : node :=
  let prometheus_node := yset (yset ynew "enabled" (of_bool (Configs.getPrometheusEnabled conf)))
                              "listen" (of_string (Configs.getPrometheusListen conf)) in
  let n := yset ynew "prometheus" prometheus_node in
  let debug_node := yset ynew "enabled" (of_bool (Configs.getDebugServerEnabled conf)) in
  let debug_node := yset debug_node "address" (of_string (Configs.getDebugServerAddr conf)) in
  let debug_node := yset debug_node "port" (of_u16 (Configs.getDebugServerPort conf)) in
  let n := yset n "debug_server" debug_node in
  let vector := Configs.getEbpfs conf in
  if decide (vector = ∅) then n else yset n "ebpf" (encode_ebpfs vector).

(* src/daemon/configs.hpp:185-193 convert<Configs>::decode *)
Definition decode_prometheus (n : node) (conf : Configs.t) : result exn Configs.t :=
  found ← yget n "prometheus";
  match found with
  | Some prom_node =>
      conf ← when_key prom_node "enabled" as_bool Configs.setPrometheusEnabled conf;
      when_key prom_node "listen" as_string Configs.setPrometheusListen conf
  | None => Ok conf
  end.

(* src/daemon/configs.hpp:194-205 convert<Configs>::decode *)
Definition decode_debug_server (n : node) (conf : Configs.t) : result exn Configs.t :=
  found ← yget n "debug_server";
  match found with
  | Some debug_node =>
      conf ← when_key debug_node "enabled" as_bool Configs.setDebugServerEnabled conf;
      conf ← when_key debug_node "address" as_string Configs.setDebugServerAddr conf;
      when_key debug_node "port" as_u16 Configs.setDebugServerPort conf
  | None => Ok conf
  end.

(* src/daemon/configs.hpp:184-210 convert<Configs>::decode *)
Definition decode (n : node) (conf : Configs.t) : result exn Configs.t :=
  conf ← decode_prometheus n conf;
  conf ← decode_debug_server n conf;
  when_key n "ebpf" decode_ebpfs Configs.setEbpfs conf.

(** [Configs::loadFromConfig] over the file system of the moment: what
    [fs::is_regular_file], [fs::is_empty] and [YAML::LoadFile] answer or throw. *)
Record FileSystem : Type := {
  is_regular_file : string -> result exn bool;
  is_empty : string -> result exn bool;
  LoadFile : string -> result exn node
}.

(* src/daemon/configs.cc:108-126 Configs::loadFromConfig *)
Definition loadFromConfig (fs : FileSystem) (filepath : string) : result exn Configs.t :=
  regular ← is_regular_file fs filepath;
  empty ← (if regular : bool then is_empty fs filepath else Ok true);
  if empty : bool then Ok Configs.default
  else n ← LoadFile fs filepath; decode n Configs.default.

(* src/daemon/configs.cc:100-106 Configs::Configs *)
Definition fromPath (fs : FileSystem) (configs_path : string) : result exn Configs.t :=
  match loadFromConfig fs configs_path with
  | Ok c => Ok c
  | Err (StdException _ | EXCEPT _) => Ok Configs.default  (* logged *)
  | Err e => Err e
  end.

End Codec.
Arguments FileSystem node : clear implicits.

(** ** A reference instance of the YAML interface *)

Module RefYaml.

Inductive node : Type :=
| Null
| Str (s : string)
| Int (z : Z)
| Bool (b : bool)
| Mapping (l : list (string * node)).

Fixpoint assoc (l : list (string * node)) (k : string) : option node :=
  match l with
  | [] => None
  | (k', v) :: rest => if decide (k' = k) then Some v else assoc rest k
  end.

#[global] Instance lib : YamlLib node := {
  yget := fun n k => match n with
                     | Null => Ok None
                     | Mapping l => Ok (assoc l k)
                     | _ => Err (StdException "operator[] call on a scalar")
                     end;
  ynew := Null;
  ymapping := fun n => match n with Null | Mapping _ => true | _ => false end;
  yset := fun n k v => match n with
                       | Null => Mapping [(k, v)]
                       | Mapping l => Mapping ((k, v) :: l)
                       | _ => n
                       end;
  as_string := fun n => match n with Str s => Ok s | _ => Err (StdException "bad conversion") end;
  as_int := fun n => match n with Int z => Ok z | _ => Err (StdException "bad conversion") end;
  as_u16 := fun n => match n with Int z => Ok z | _ => Err (StdException "bad conversion") end;
  as_bool := fun n => match n with Bool b => Ok b | _ => Err (StdException "bad conversion") end;
  as_map := fun n => match n with Mapping l => Ok l | _ => Err (StdException "bad conversion") end;
  of_string := Str;
  of_int := Int;
  of_u16 := Int;
  of_bool := Bool;
  of_map := Mapping
}.

#[global] Instance laws : YamlLaws node.
Proof. split; try done; intros []; cbn; try done; intros *; repeat case_decide; naive_solver. Qed.

End RefYaml.

(** ** Theorems *)

#[export] Instance HookType_enum_laws : CEnumLaws HookType.
Proof.
  split; [intros []; cbn; set_solver | intros [] []; cbn; congruence].
Qed.

Lemma stringEnum_enumName `{CEnumLaws A} (e : A) : stringEnum (enumName e) = Some e.
Proof.
  unfold stringEnum, enumName.
  destruct (list_find_elem_of (fun e' => enum_name e' = enum_name e) enum_values e)
    as [[i e'] Hf]; [apply enum_values_all | done |].
  rewrite Hf; cbn. apply list_find_Some in Hf as (_ & Heq & _).
  f_equal. by apply enum_name_inj.
Qed.

Lemma stringEnum_Some `{CEnumLaws A} (s : string) (e : A) :
  stringEnum s = Some e <-> s = enumName e.
Proof.
  split; [| intros ->; apply stringEnum_enumName].
  unfold stringEnum. intros [[i e'] [Hf ->]]%fmap_Some. cbn.
  apply list_find_Some in Hf as (_ & Heq & _). done.
Qed.

(** *** Reading back what the encoder wrote *)

Section CodecTheorems.
Context {node : Type} `{YamlLaws node}.

Create HintDb yaml.
#[local] Hint Resolve ymapping_new ymapping_set : yaml.

(** rewrites reads of assigned keys; the side conditions are mapping nodes *)
Ltac yaml_simpl :=
  repeat (first
    [ rewrite yget_set by eauto 20 with yaml
    | rewrite yget_new
    | rewrite as_of_string | rewrite as_of_bool
    | rewrite as_of_int by assumption | rewrite as_of_u16 by assumption
    | rewrite decide_False by done | rewrite decide_True by done ]; cbn).

Definition in_int32 (z : Z) : Prop := (- 2 ^ 31 <= z < 2 ^ 31)%Z.
Definition in_uint16 (z : Z) : Prop := (0 <= z < 2 ^ 16)%Z.

Definition ebpf_wf (c : ConfigEbpf.t) : Prop :=
  in_int32 (ConfigEbpf.ifindex_ c) /\ in_int32 (ConfigEbpf.order_ c).

Definition configs_wf (c : Configs.t) : Prop :=
  in_uint16 (Configs.dbgserv_port_ c) /\ map_Forall (fun _ => ebpf_wf) (Configs.ebpfs_ c).

Lemma decode_encode_ebpf c0 c : ebpf_wf c -> decode_ebpf (encode_ebpf c) c0 = Ok c.
Proof.
  intros [Hif Hord]. destruct c as [lib conf hook ifi ord]; cbn in *.
  unfold decode_ebpf, encode_ebpf, when_key, decode_hook; cbn.
  yaml_simpl. rewrite stringEnum_enumName; cbn. yaml_simpl. done.
Qed.

Lemma decode_entries_encode l (m : gmap string ConfigEbpf.t) :
  Forall (fun kv : string * ConfigEbpf.t => ebpf_wf kv.2) l ->
  decode_entries ((fun kv => (kv.1, encode_ebpf kv.2)) <$> l) m
  = Ok (foldl (fun m kv => <[kv.1 := kv.2]> m) m l).
Proof.
  intros Hl; revert m. induction Hl as [| [k c] l Hc _ IH]; intros m; [done |].
  cbn. cbn in Hc. rewrite decode_encode_ebpf by done. cbn. apply IH.
Qed.

Lemma foldl_insert_list_to_map (l : list (string * ConfigEbpf.t)) (m : gmap string ConfigEbpf.t) :
  NoDup l.*1 -> foldl (fun m kv => <[kv.1 := kv.2]> m) m l = list_to_map l ∪ m.
Proof.
  revert m. induction l as [| [k c] l IH]; intros m; cbn; [by rewrite map_empty_union |].
  intros [Hk Hl]%NoDup_cons. rewrite IH by done.
  rewrite <- insert_union_l, insert_union_r; [done |].
  by apply not_elem_of_list_to_map_1.
Qed.

Lemma decode_encode_ebpfs m :
  map_Forall (fun _ => ebpf_wf) m -> decode_ebpfs (encode_ebpfs m) = Ok m.
Proof.
  intros Hm. unfold decode_ebpfs, encode_ebpfs.
  rewrite as_of_map.
  - cbn. rewrite decode_entries_encode.
    + rewrite foldl_insert_list_to_map by apply NoDup_fst_map_to_list.
      by rewrite map_union_empty, list_to_map_to_list.
    + apply Forall_forall. intros [k c] Hin%elem_of_map_to_list. by eapply Hm.
  - rewrite <- list_fmap_compose. apply NoDup_fst_map_to_list.
Qed.

(** C26: encoding a configuration to YAML and decoding the document yields the
    same configuration, whatever object it is decoded into, provided the
    program table is not empty. *)
Theorem config_yaml_roundtrip (c c0 : Configs.t)
  (Hwf : configs_wf c) (Hne : Configs.ebpfs_ c <> ∅) :
  decode (encode c) c0 = Ok c.
Proof.
  destruct Hwf as [Hport Hmap]. destruct c as [pe pl de da dp eb]; cbn in *.
  unfold decode, encode, decode_prometheus, decode_debug_server, when_key; cbn.
  rewrite decide_False by done. yaml_simpl.
  rewrite decode_encode_ebpfs by done. done.
Qed.

(** a configuration whose program table is empty does not survive the
    file: the encoder drops the [ebpf] key, so what is loaded back holds the
    placeholder entry of the default configuration instead of no program. *)
Theorem config_empty_table_lost (c : Configs.t)
  (Hport : in_uint16 (Configs.dbgserv_port_ c)) (He : Configs.ebpfs_ c = ∅) :
  decode (encode c) Configs.default
  = Ok (Configs.setEbpfs {["example" := ConfigEbpf.default]} c).
Proof.
  destruct c as [pe pl de da dp eb]; cbn in *; subst eb.
  unfold decode, encode, decode_prometheus, decode_debug_server, when_key; cbn.
  rewrite decide_True by done. yaml_simpl. done.
Qed.

End CodecTheorems.

(** *** Table operations and equality *)

Lemma ebpf_eqb_spec a b : ConfigEbpf.eqb a b = true <-> a = b.
Proof.
  destruct a as [l1 c1 h1 i1 o1], b as [l2 c2 h2 i2 o2]; unfold ConfigEbpf.eqb; cbn.
  rewrite !andb_true_iff, !String.eqb_eq, bool_decide_eq_true, !Z.eqb_eq. naive_solver.
Qed.

Lemma ebpfs_eqb_spec m1 m2 : Configs.ebpfs_eqb m1 m2 = true <-> m1 = m2.
Proof.
  unfold Configs.ebpfs_eqb. rewrite andb_true_iff, Nat.eqb_eq, forallb_forall. split.
  - intros [Hsz Hall].
    assert (Hsub : m1 ⊆ m2).
    { apply map_subseteq_spec. intros k v Hk.
      specialize (Hall (k, v)). cbn in Hall.
      destruct (m2 !! k) as [v'|] eqn:E.
      - f_equal. symmetry. apply ebpf_eqb_spec, Hall.
        by apply list_elem_of_In, elem_of_map_to_list.
      - discriminate Hall. by apply list_elem_of_In, elem_of_map_to_list. }
    by apply map_subseteq_size_eq; [| lia].
  - intros <-. split; [done |]. intros [k v] Hin%list_elem_of_In%elem_of_map_to_list.
    cbn. rewrite Hin. by apply ebpf_eqb_spec.
Qed.

(** the configuration comparison the watcher relies on is exactly
    equality of every field and of the whole program table. *)
Theorem configs_eqb_spec (a b : Configs.t) : Configs.eqb a b = true <-> a = b.
Proof.
  destruct a, b; unfold Configs.eqb; cbn.
  rewrite !andb_true_iff, !Bool.eqb_true_iff, !String.eqb_eq, Z.eqb_eq, ebpfs_eqb_spec.
  naive_solver.
Qed.

Lemma appendEbpf_table name lib conf hook ifi ord c :
  Configs.ebpfs_ (Configs.appendEbpf name lib conf hook ifi ord c)
  = if (name =? "")%string then Configs.ebpfs_ c
    else <[name := ConfigEbpf.mk lib conf hook ifi ord]> (Configs.ebpfs_ c).
Proof.
  unfold Configs.appendEbpf. destruct (name =? "")%string; [done |].
  destruct (Configs.ebpfs_ c !! name) eqn:E; cbn; [| done].
  apply map_eq; intros k. rewrite lookup_alter, lookup_insert.
  case_decide; subst; [by rewrite E | done].
Qed.

Lemma deleteEbpf_table name c :
  Configs.ebpfs_ (Configs.deleteEbpf name c)
  = if (name =? "")%string then Configs.ebpfs_ c else delete name (Configs.ebpfs_ c).
Proof.
  unfold Configs.deleteEbpf. destruct (name =? "")%string; [done |].
  destruct (Configs.ebpfs_ c !! name) eqn:E; cbn; [done |].
  symmetry. by apply delete_id.
Qed.

(** adding a program under a fresh non-empty name and deleting it again
    restores the table; in between, exactly that name is added. *)
Theorem append_delete_roundtrip (name lib conf : string) (hook : HookType) (ifi ord : Z) (c : Configs.t)
  (Hname : name <> ""%string) (Hfresh : Configs.ebpfs_ c !! name = None) :
  let c' := Configs.appendEbpf name lib conf hook ifi ord c in
  dom (Configs.ebpfs_ c') = {[name]} ∪ dom (Configs.ebpfs_ c) /\
  Configs.ebpfs_ (Configs.deleteEbpf name c') = Configs.ebpfs_ c.
Proof.
  cbn zeta. rewrite deleteEbpf_table, appendEbpf_table.
  rewrite (proj2 (String.eqb_neq name "") Hname). split; [apply dom_insert_L |].
  by rewrite delete_insert_id.
Qed.

(** *** Witnesses *)

Definition sample_ebpf : ConfigEbpf.t :=
  ConfigEbpf.mk "/opt/libhebpf_acl_xdp.so" "acl.json" XDP_GENERIC 2 1.
Definition sample_configs : Configs.t :=
  Configs.mk true "0.0.0.0:9100" true "127.0.0.1" 9999 {["acl" := sample_ebpf]}.

Lemma config_yaml_roundtrip_witness :
  configs_wf sample_configs /\
  decode (node := RefYaml.node) (encode sample_configs) Configs.default = Ok sample_configs.
Proof.
  assert (Hwf : configs_wf sample_configs).
  { split; [unfold in_uint16; cbn; lia |].
    apply map_Forall_singleton. split; unfold in_int32; cbn; lia. }
  split; [exact Hwf |]. apply (config_yaml_roundtrip sample_configs Configs.default Hwf).
  intros E. discriminate (f_equal (fun m => m !! "acl"%string) E).
Defined.

Lemma config_empty_table_lost_witness :
  decode (node := RefYaml.node) (encode (Configs.setEbpfs ∅ sample_configs)) Configs.default
  = Ok (Configs.setEbpfs {["example" := ConfigEbpf.default]} (Configs.setEbpfs ∅ sample_configs)).
Proof.
  apply (config_empty_table_lost (Configs.setEbpfs ∅ sample_configs));
    [unfold in_uint16; cbn; lia | reflexivity].
Defined.

Lemma append_delete_roundtrip_witness :
  Configs.ebpfs_ (Configs.deleteEbpf "lb"
    (Configs.appendEbpf "lb" "/opt/libhebpf_lb_xdp.so" "lb.json" XDP_GENERIC 2 2 sample_configs))
  = Configs.ebpfs_ sample_configs.
Proof.
  apply (append_delete_roundtrip "lb" "/opt/libhebpf_lb_xdp.so" "lb.json" XDP_GENERIC 2 2 sample_configs);
    [discriminate | reflexivity].
Defined.
