(* ===== verification/BpfMap.v ===== *)
(** * Kernel BPF maps, as the user-space code sees them

    The kernel is not part of the program: this file states the interface of
    [bpf_map_lookup_elem], [bpf_map_update_elem], [bpf_map_delete_elem] and
    [bpf_map_get_next_key] that the services and the program-chain manager
    rely on, with the documented laws, the loops the code writes over it,
    and a reference instance that the witnesses compute with. *)

From S2P Require Import Prelude.

(** ** Hash maps *)

Class BpfHash (M K V : Type) : Type := {
  bpf_lookup : M -> K -> option V;       (* None: the call fails *)
  bpf_update : M -> K -> V -> option M;  (* BPF_ANY; None: the call fails *)
  bpf_delete : M -> K -> option M;       (* None: the call fails *)
  bpf_next_key : M -> option K -> option K;
  bpf_keys : M -> list K;                (* the order [bpf_next_key] follows *)
  bpf_max : M -> nat                     (* max_entries *)
}.

(** What bpf(2) documents: an update replaces or inserts and fails when the
    map is full, a delete removes the key and fails when it is absent,
    get_next_key walks the keys and starts again at the first key when the
    given key is absent. *)
Class BpfHashLaws (M K V : Type) `{EqDecision K} `{BpfHash M K V} : Prop := {
  bpf_keys_nodup : forall m : M, NoDup (bpf_keys m);
  bpf_keys_lookup : forall (m : M) k, k ∈ bpf_keys m <-> is_Some (bpf_lookup m k);
  bpf_update_lookup : forall (m m' : M) k v, bpf_update m k v = Some m' ->
    forall k', bpf_lookup m' k' = if decide (k = k') then Some v else bpf_lookup m k';
  bpf_update_room : forall (m : M) k v, length (bpf_keys m) < bpf_max m -> is_Some (bpf_update m k v);
  bpf_update_full : forall (m : M) k v, bpf_max m <= length (bpf_keys m) ->
    bpf_lookup m k = None -> bpf_update m k v = None;
  bpf_update_max : forall (m m' : M) k v, bpf_update m k v = Some m' -> bpf_max m' = bpf_max m;
  bpf_delete_lookup : forall (m m' : M) k, bpf_delete m k = Some m' ->
    forall k', bpf_lookup m' k' = if decide (k = k') then None else bpf_lookup m k';
  bpf_delete_ok : forall (m : M) k, is_Some (bpf_delete m k) <-> is_Some (bpf_lookup m k);
  bpf_delete_max : forall (m m' : M) k, bpf_delete m k = Some m' -> bpf_max m' = bpf_max m;
  bpf_next_first : forall m : M, bpf_next_key m None = head (bpf_keys m);
  bpf_next_absent : forall (m : M) k, k ∉ bpf_keys m -> bpf_next_key m (Some k) = head (bpf_keys m);
  bpf_next_present : forall (m : M) l1 k l2, bpf_keys m = l1 ++ k :: l2 ->
    bpf_next_key m (Some k) = head l2
}.

(** ** Program arrays

    A slot holds the program a file descriptor named when it was written. *)
Class BpfProgArray (A P : Type) : Type := {
  pa_lookup : A -> Z -> option P;
  pa_update : A -> Z -> Z -> option A    (* index, program fd; None: the call fails *)
}.

Class BpfProgArrayLaws (A P : Type) `{BpfProgArray A P} (prog_of_fd : Z -> option P) (max : Z) : Prop := {
  pa_update_ok : forall (a : A) i fd,
    is_Some (pa_update a i fd) <-> (0 <= i < max)%Z /\ is_Some (prog_of_fd fd);
  pa_update_lookup : forall (a a' : A) i fd, pa_update a i fd = Some a' ->
    forall j, pa_lookup a' j = if decide (i = j) then prog_of_fd fd else pa_lookup a j
}.

(** ** Arrays

    Every slot exists from the start and none can be deleted:
    [bpf_map_delete_elem] on an array fails. *)
Class BpfArray (B V : Type) : Type := {
  arr_lookup : B -> Z -> option V;
  arr_update : B -> Z -> V -> option B;
  arr_delete : B -> Z -> option B;
  arr_keys : B -> list Z                 (* what [bpf_map_get_next_key] walks *)
}.

Class BpfArrayLaws (B V : Type) `{BpfArray B V} (max : Z) : Prop := {
  arr_lookup_range : forall (b : B) i, is_Some (arr_lookup b i) <-> (0 <= i < max)%Z;
  arr_update_range : forall (b : B) i v, is_Some (arr_update b i v) <-> (0 <= i < max)%Z;
  arr_update_lookup : forall (b b' : B) i v, arr_update b i v = Some b' ->
    forall j, arr_lookup b' j = if decide (i = j) then Some v else arr_lookup b j;
  arr_delete_none : forall (b : B) i, arr_delete b i = None
}.

(** ** Loops over a map *)

Section Loops.
Context {M K V : Type} `{BpfHash M K V}.

(** A delete whose return value the code ignores. *)
Definition bpf_delete' (m : M) (k : K) : M := default m (bpf_delete m k).

(** [while (bpf_map_get_next_key(fd, &key, &next_key) == 0)
       { bpf_map_delete_elem(fd, &next_key); key = next_key; }] *)
Fixpoint delete_loop (fuel : nat) (m : M) (key : K) : option M :=
  match fuel with
  | 0 => None
  | S fuel =>
      match bpf_next_key m (Some key) with
      | Some next_key => delete_loop fuel (bpf_delete' m next_key) next_key
      | None => Some m
      end
  end.

(** [do { keys.push_back(k); } while (bpf_map_get_next_key(fd, &k, &k) == 0)] *)
Fixpoint collect_loop (fuel : nat) (m : M) (k : K) (keys : list K) : option (list K) :=
  match fuel with
  | 0 => None
  | S fuel =>
      let keys := keys ++ [k] in
      match bpf_next_key m (Some k) with
      | Some k' => collect_loop fuel m k' keys
      | None => Some keys
      end
  end.

(** the whole enumeration, started from the null key *)
Definition collect_keys (fuel : nat) (m : M) : option (list K) :=
  match bpf_next_key m None with
  | Some first => collect_loop fuel m first []
  | None => Some []
  end.

(** [for (const auto &k : keys) bpf_map_delete_elem(fd, &k);] *)
Definition delete_all (keys : list K) (m : M) : M := foldl bpf_delete' m keys.

End Loops.

(** ** Facts about the loops *)

Section LoopFacts.
Context {M K V : Type} `{BpfHashLaws M K V}.
Implicit Types (m : M) (k : K) (v : V).

Lemma bpf_delete'_lookup m k k' :
  bpf_lookup (bpf_delete' m k) k' = if decide (k = k') then None else bpf_lookup m k'.
Proof.
  unfold bpf_delete'. destruct (bpf_delete m k) eqn:E; cbn; [by eapply bpf_delete_lookup |].
  case_decide as Hk; [subst k' | done].
  apply eq_None_not_Some. rewrite <- bpf_delete_ok, E. apply is_Some_None.
Qed.

Lemma bpf_delete'_max m k : bpf_max (bpf_delete' m k) = bpf_max m.
Proof.
  unfold bpf_delete'. destruct (bpf_delete m k) eqn:E; cbn; [by eapply bpf_delete_max | done].
Qed.

(** keys as a set, to count them *)
Lemma keys_perm_of_lookup m m' l :
  NoDup l -> (forall k, k ∈ l <-> is_Some (bpf_lookup m k)) -> bpf_keys m ≡ₚ l.
Proof.
  intros Hl Hiff. apply NoDup_Permutation; [apply bpf_keys_nodup | done |].
  intros k. by rewrite bpf_keys_lookup, Hiff.
Qed.

Lemma bpf_delete'_keys m k :
  bpf_keys (bpf_delete' m k) ≡ₚ filter (fun k' => k' <> k) (bpf_keys m).
Proof.
  apply keys_perm_of_lookup; [done | apply NoDup_filter, bpf_keys_nodup |].
  intros k'. rewrite list_elem_of_filter, bpf_keys_lookup, bpf_delete'_lookup.
  case_decide as Hk; split; [naive_solver | by intros [? [=]] | naive_solver | naive_solver].
Qed.

Lemma bpf_delete'_length m k :
  k ∈ bpf_keys m -> length (bpf_keys (bpf_delete' m k)) < length (bpf_keys m).
Proof.
  intros Hk. rewrite (Permutation_length (bpf_delete'_keys m k)).
  by apply length_filter_lt with k; [| naive_solver].
Qed.

Lemma keys_nil_lookup m : bpf_keys m = [] -> forall k, bpf_lookup m k = None.
Proof.
  intros Hnil k. apply eq_None_not_Some. rewrite <- bpf_keys_lookup, Hnil. apply not_elem_of_nil.
Qed.

(** With its key absent, the deletion loop empties the map, in one iteration
    per entry and one to notice the end. *)
Lemma delete_loop_absent fuel m key :
  key ∉ bpf_keys m -> length (bpf_keys m) < fuel ->
  exists m', delete_loop fuel m key = Some m' /\ bpf_keys m' = [] /\ bpf_max m' = bpf_max m.
Proof.
  revert m key. induction fuel as [| fuel IH]; intros m key Habs Hlen; [lia |]. cbn.
  rewrite bpf_next_absent by done.
  destruct (bpf_keys m) as [| k ks] eqn:Hks; cbn; [by exists m |].
  assert (Hin : k ∈ bpf_keys m) by (rewrite Hks; left).
  destruct (IH (bpf_delete' m k) k) as (m' & Heq & Hnil & Hmax).
  - rewrite bpf_keys_lookup, bpf_delete'_lookup, decide_True by done. apply is_Some_None.
  - pose proof (bpf_delete'_length m k Hin) as Hl. rewrite Hks in Hl; cbn in Hl. cbn in Hlen. lia.
  - exists m'. by rewrite Heq, Hmax, bpf_delete'_max.
Qed.

(** Whatever key it starts from, the loop ends within one iteration per entry
    plus one. *)
Lemma delete_loop_enough m key :
  exists m', delete_loop (S (length (bpf_keys m))) m key = Some m' /\ bpf_max m' = bpf_max m.
Proof.
  destruct (decide (key ∈ bpf_keys m)) as [Hin | Hout].
  - apply list_elem_of_split in Hin as (l1 & l2 & Hks). cbn.
    rewrite (bpf_next_present _ _ _ _ Hks). destruct l2 as [| k l2]; cbn; [by exists m |].
    assert (Hk : k ∈ bpf_keys m) by (rewrite Hks; set_solver).
    destruct (delete_loop_absent (length (bpf_keys m)) (bpf_delete' m k) k) as (m' & Heq & _ & Hmax).
    + rewrite bpf_keys_lookup, bpf_delete'_lookup, decide_True by done. apply is_Some_None.
    + by apply bpf_delete'_length.
    + exists m'. by rewrite Hmax, bpf_delete'_max.
  - destruct (delete_loop_absent (S (length (bpf_keys m))) m key) as (m' & Heq & _ & Hmax); [done | lia |].
    by exists m'.
Qed.

Lemma collect_loop_spec fuel m k acc l1 l2 :
  bpf_keys m = l1 ++ k :: l2 -> length l2 < fuel ->
  collect_loop fuel m k acc = Some (acc ++ k :: l2).
Proof.
  revert k acc l1 l2. induction fuel as [| fuel IH]; intros k acc l1 l2 Hks Hlen; [lia |]. cbn.
  rewrite (bpf_next_present m l1 k l2 Hks). destruct l2 as [| k' l2]; cbn; [done |].
  rewrite (IH k' (acc ++ [k]) (l1 ++ [k]) l2).
  - by rewrite <- app_assoc.
  - rewrite Hks, <- app_assoc. done.
  - cbn in Hlen. lia.
Qed.

(** The enumeration returns every key once, in iteration order. *)
Lemma collect_keys_spec fuel m :
  length (bpf_keys m) <= fuel -> collect_keys fuel m = Some (bpf_keys m).
Proof.
  intros Hlen. unfold collect_keys. rewrite bpf_next_first.
  destruct (bpf_keys m) as [| k ks] eqn:Hks; cbn; [done |].
  rewrite (collect_loop_spec fuel m k [] [] ks); [done | done |]. cbn in Hlen. lia.
Qed.

Lemma delete_all_lookup keys m k :
  bpf_lookup (delete_all keys m) k = if decide (k ∈ keys) then None else bpf_lookup m k.
Proof.
  unfold delete_all. revert m. induction keys as [| k0 keys IH]; intros m; cbn.
  - rewrite decide_False; [done | apply not_elem_of_nil].
  - rewrite IH, bpf_delete'_lookup. repeat case_decide; set_solver.
Qed.

Lemma delete_all_max keys m : bpf_max (delete_all keys m) = bpf_max m.
Proof.
  unfold delete_all. revert m. induction keys as [| k keys IH]; intros m; cbn; [done |].
  by rewrite IH, bpf_delete'_max.
Qed.

(** Deleting every enumerated key leaves the map empty. *)
Lemma delete_all_keys m : bpf_keys (delete_all (bpf_keys m) m) = [].
Proof.
  apply elem_of_nil_inv. intros k. rewrite bpf_keys_lookup, delete_all_lookup.
  case_decide as Hk; [apply is_Some_None |]. by rewrite <- bpf_keys_lookup.
Qed.

Lemma bpf_update_keys_le m m' k v :
  bpf_update m k v = Some m' -> length (bpf_keys m') <= S (length (bpf_keys m)).
Proof.
  intros Hu. change (S (length (bpf_keys m))) with (length (k :: bpf_keys m)).
  apply submseteq_length, NoDup_submseteq; [apply bpf_keys_nodup |].
  intros k' Hk'. apply bpf_keys_lookup in Hk'. rewrite (bpf_update_lookup _ _ _ _ Hu) in Hk'.
  case_decide; [subst; left | right]. by apply bpf_keys_lookup.
Qed.

(** A list of updates none of which fails, as one step: the last write to a
    key wins. *)
Fixpoint last_of (l : list (K * V)) (k : K) : option V :=
  match l with
  | [] => None
  | (k', v) :: rest =>
      match last_of rest k with
      | Some v => Some v
      | None => if decide (k' = k) then Some v else None
      end
  end.

Lemma last_of_elem l k v : last_of l k = Some v -> (k, v) ∈ l.
Proof.
  induction l as [| [k' v'] l IH]; cbn; [done |].
  destruct (last_of l k); [intros [= ->]; right; auto |]. case_decide; intros; simplify_eq. left.
Qed.

Lemma last_of_None l k : last_of l k = None <-> k ∉ l.*1.
Proof.
  induction l as [| [k' v'] l IH]; cbn; [split; [intros _; apply not_elem_of_nil | done] |].
  rewrite not_elem_of_cons, <- IH. destruct (last_of l k); [naive_solver |].
  case_decide; naive_solver.
Qed.

End LoopFacts.

(** ** A reference instance: association lists with a capacity *)

Module RefHash.
Section Ref.
Context {K V : Type} `{EqDecision K}.

Record t : Type := mk { max_ : nat; assocs : list (K * V); nodup_ : bool_decide (NoDup assocs.*1) }.

Fixpoint find (l : list (K * V)) (k : K) : option V :=
  match l with
  | [] => None
  | (k', v) :: rest => if decide (k' = k) then Some v else find rest k
  end.

Fixpoint set (l : list (K * V)) (k : K) (v : V) : list (K * V) :=
  match l with
  | [] => [(k, v)]
  | (k', v') :: rest => if decide (k' = k) then (k, v) :: rest else (k', v') :: set rest k v
  end.

Fixpoint remove (l : list (K * V)) (k : K) : list (K * V) :=
  match l with
  | [] => []
  | (k', v') :: rest => if decide (k' = k) then rest else (k', v') :: remove rest k
  end.

(** the key after [k], or the first one when [k] is absent *)
Fixpoint after (keys : list K) (k : K) : option (option K) :=
  match keys with
  | [] => None
  | k' :: rest => if decide (k' = k) then Some (head rest) else after rest k
  end.

Lemma find_elem l k : k ∈ l.*1 <-> is_Some (find l k).
Proof.
  induction l as [| [k' v'] l IH]; cbn.
  - split; [by intros ?%not_elem_of_nil | by intros [? [=]]].
  - rewrite elem_of_cons, IH. case_decide; subst; naive_solver.
Qed.

Lemma find_set l k v k' : find (set l k v) k' = if decide (k = k') then Some v else find l k'.
Proof.
  induction l as [| [k0 v0] l IH]; cbn; [done |].
  repeat (case_decide; cbn; simplify_eq; try done).
Qed.

Lemma set_keys l k v : (set l k v).*1 = if decide (k ∈ l.*1) then l.*1 else l.*1 ++ [k].
Proof.
  induction l as [| [k0 v0] l IH]; cbn; [done |].
  destruct (decide (k0 = k)) as [-> | Hne]; cbn; [by rewrite decide_True by set_solver |].
  rewrite IH. repeat case_decide; set_solver.
Qed.

Lemma remove_sublist l k : (remove l k).*1 `sublist_of` l.*1.
Proof.
  induction l as [| [k0 v0] l IH]; cbn; [done |].
  case_decide; cbn; [by apply sublist_cons | by apply sublist_skip].
Qed.

Lemma find_remove l k k' :
  NoDup l.*1 -> find (remove l k) k' = if decide (k = k') then None else find l k'.
Proof.
  induction l as [| [k0 v0] l IH]; cbn; [by case_decide |].
  intros [Hk Hnd]%NoDup_cons. rewrite find_elem in Hk.
  repeat (case_decide; cbn; simplify_eq; try done); try by rewrite IH, ?decide_True, ?decide_False.
  destruct (find l k'); [| done]. by destruct Hk.
Qed.

Lemma after_spec l1 k l2 : NoDup (l1 ++ k :: l2) -> after (l1 ++ k :: l2) k = Some (head l2).
Proof.
  induction l1 as [| k1 l1 IH]; cbn; [by rewrite decide_True |].
  intros [Hk Hnd]%NoDup_cons. rewrite decide_False by set_solver. auto.
Qed.

Lemma after_absent l k : k ∉ l -> after l k = None.
Proof.
  induction l as [| k1 l IH]; cbn; [done |]. intros Hk.
  rewrite decide_False by set_solver. apply IH. set_solver.
Qed.

Lemma set_nodup l k v : NoDup l.*1 -> NoDup (set l k v).*1.
Proof.
  intros Hl. rewrite set_keys. case_decide; [done |].
  apply NoDup_app; split_and!; [done | set_solver | apply NoDup_singleton].
Qed.

Lemma remove_nodup l k : NoDup l.*1 -> NoDup (remove l k).*1.
Proof. intros Hl. by eapply sublist_NoDup, remove_sublist. Qed.

Definition empty (max : nat) : t := mk max [] (bool_decide_pack _ NoDup_nil_2).

Definition set_t (m : t) (k : K) (v : V) : t :=
  mk (max_ m) (set (assocs m) k v)
    (bool_decide_pack _ (set_nodup _ k v (bool_decide_unpack _ (nodup_ m)))).
Definition remove_t (m : t) (k : K) : t :=
  mk (max_ m) (remove (assocs m) k)
    (bool_decide_pack _ (remove_nodup _ k (bool_decide_unpack _ (nodup_ m)))).

#[global] Instance ops : BpfHash t K V := {
  bpf_lookup := fun m k => find (assocs m) k;
  bpf_update := fun m k v =>
    match find (assocs m) k with
    | Some _ => Some (set_t m k v)
    | None => if decide (length (assocs m) < max_ m) then Some (set_t m k v) else None
    end;
  bpf_delete := fun m k => match find (assocs m) k with Some _ => Some (remove_t m k) | None => None end;
  bpf_next_key := fun m ok =>
    match ok with
    | None => head (assocs m).*1
    | Some k => default (head (assocs m).*1) (after (assocs m).*1 k)
    end;
  bpf_keys := fun m => (assocs m).*1;
  bpf_max := max_
}.

#[global] Instance ops_laws : BpfHashLaws t K V.
Proof.
  split; cbn.
  - intros m. exact (bool_decide_unpack _ (nodup_ m)).
  - intros m k. apply find_elem.
  - intros m m' k v Hu k'.
    destruct (find (assocs m) k); [| destruct (decide (length (assocs m) < max_ m))];
      simplify_eq; apply find_set.
  - intros m k v Hlen. rewrite length_fmap in Hlen. repeat case_match; eauto. by case_decide.
  - intros m k v Hlen ->. rewrite length_fmap in Hlen. case_decide; [lia | done].
  - intros m m' k v Hu. repeat case_match; by simplify_eq.
  - intros m m' k Hd k'. destruct (find (assocs m) k); simplify_eq. apply find_remove.
    exact (bool_decide_unpack _ (nodup_ m)).
  - intros m k. by case_match; split; intros [? [=]]; eauto.
  - intros m m' k Hd. case_match; by simplify_eq.
  - done.
  - intros m k Hk. by rewrite after_absent.
  - intros m l1 k l2 Hks. pose proof (bool_decide_unpack _ (nodup_ m)) as Hnd.
    rewrite Hks in *. by rewrite after_spec.
Qed.

End Ref.
Arguments t K V {_}.
End RefHash.


(** ** A reference program array *)

Module RefArray.
Section Ref.
Context {P : Type} (prog_of_fd : Z -> option P) (max : Z).

Definition ops : BpfProgArray (gmap Z P) P := {|
  pa_lookup := fun a i => a !! i;
  pa_update := fun a i fd =>
    if decide (0 <= i < max)%Z then (fun p => <[i := p]> a) <$> prog_of_fd fd else None
|}.

Lemma array_ops_laws : BpfProgArrayLaws (H := ops) (gmap Z P) P prog_of_fd max.
Proof.
  split; cbn.
  - intros a i fd. case_decide; [rewrite fmap_is_Some; naive_solver |].
    split; [by intros [? [=]] | naive_solver].
  - intros a a' i fd Hu j. case_decide; [| done].
    apply fmap_Some in Hu as (p & Hp & ->). rewrite lookup_insert, Hp. done.
Qed.

End Ref.
End RefArray.

(** ** A reference array *)

Module RefArrayMap.
Section Ref.
Context {V : Type} (max : Z).

(** the zero value, and what has been written over it *)
Record t : Type := mk { zero : V; written : gmap Z V }.

Definition ops : BpfArray t V := {|
  arr_lookup := fun b i =>
    if decide (0 <= i < max)%Z then Some (default (zero b) (written b !! i)) else None;
  arr_update := fun b i v =>
    if decide (0 <= i < max)%Z then Some (mk (zero b) (<[i := v]> (written b))) else None;
  arr_delete := fun _ _ => None;
  arr_keys := fun _ => seqZ 0 max
|}.

Lemma map_ops_laws : BpfArrayLaws (H := ops) t V max.
Proof.
  split; cbn.
  - intros b i. case_decide; [naive_solver |]. split; [by intros [? [=]] | naive_solver].
  - intros b i v. case_decide; [naive_solver |]. split; [by intros [? [=]] | naive_solver].
  - intros b b' i v Hu j. case_decide; simplify_eq/=. rewrite lookup_insert.
    repeat case_decide; subst; cbn; done || lia.
  - done.
Qed.

End Ref.
Arguments t : clear implicits.
End RefArrayMap.
