(* ===== verification/Names.v ===== *)
(** * Names: canonical program names and the program registry

    [PinnedProgMap::getCanonicalName] of [src/ebpf/pinned_prog_map.cc], the
    string operations it is written with, and the name -> (id, hook) table
    that [ebpf_id.map] fixes at build time. *)

From S2P Require Import Prelude Configs.

#[local] Open Scope string_scope.

(** ** std::string and std::filesystem operations *)

(** the part after the last occurrence of [c] *)
Fixpoint after_last (c : ascii) (s : string) : option string :=
  match s with
  | EmptyString => None
  | String a r =>
      match after_last c r with
      | Some t => Some t
      | None => if (a =? c)%char then Some r else None
      end
  end.

(** [s.substr(0, s.find_last_of(c))] *)
Fixpoint before_last (c : ascii) (s : string) : option string :=
  match s with
  | EmptyString => None
  | String a r =>
      match before_last c r with
      | Some t => Some (String a t)
      | None => if (a =? c)%char then Some EmptyString else None
      end
  end.

(** [s.substr(0, s.find(c))] *)
Fixpoint before_first (c : ascii) (s : string) : option string :=
  match s with
  | EmptyString => None
  | String a r => if (a =? c)%char then Some EmptyString else String a <$> before_first c r
  end.

(** [fs::path(s).filename()] *)
Definition filename (s : string) : string := default s (after_last "/" s).

Definition starts_with (s prefix : string) : bool := String.prefix prefix s.
Definition ends_with (s suffix : string) : bool :=
  (String.length suffix <=? String.length s)%nat &&
  (substring (String.length s - String.length suffix) (String.length suffix) s =? suffix).
Definition substr_to (s : string) (n : nat) : string := substring 0 n s.
Definition substr_from (s : string) (n : nat) : string := substring n (String.length s - n) s.

(** [::toupper] in the "C" locale, and [std::transform] with it *)
Definition toupper (a : ascii) : ascii :=
  let n := nat_of_ascii a in
  if (97 <=? n)%nat && (n <=? 122)%nat then ascii_of_nat (n - 32) else a.
Fixpoint upcase (s : string) : string :=
  match s with EmptyString => EmptyString | String a r => String (toupper a) (upcase r) end.

Fixpoint no_char (c : ascii) (s : string) : bool :=
  match s with EmptyString => true | String a r => negb (a =? c)%char && no_char c r end.

(** ** Canonical names *)

(* src/ebpf/pinned_prog_map.h:49-49 PinnedProgMap::UnofficialName *)
Inductive UnofficialName : Type := PROGRAM | LIBRARY.

(* src/ebpf/pinned_prog_map.h:16-19 SCHEDULER_XDP_LIB *)
Definition SCHEDULER_XDP_LIB : string := "build/src/services/scheduler/libhebpf_scheduler_xdp.so".
(* src/ebpf/pinned_prog_map.h:19-19 SCHEDULER_TC_LIB *)
Definition SCHEDULER_TC_LIB : string := "build/src/services/scheduler/libhebpf_scheduler.so".

(** The library branch: [inl path] is the early return with the unchanged
    name, [inr base] the service name cut out of the file name. *)
(* src/ebpf/pinned_prog_map.cc:394-421 PinnedProgMap::getCanonicalName *)
Definition library_base (name : string) : string + string :=
  let path := name in
  let file := filename path in
  let file := if ends_with file ".so" then substr_to file (String.length file - 3) else file in
  let prefix := "libhebpf_" in
  if negb (starts_with file prefix) then inl path
  else
    let path := substr_from file (String.length prefix) in
    match before_first "_" path with
    | Some base => inr base
    | None => inr path
    end.

(* src/ebpf/pinned_prog_map.cc:376-427 PinnedProgMap::getCanonicalName *)
Definition getCanonicalName `{BuildMode} (hook_type : HookType) (type : UnofficialName)
  (name : string) : result exn string :=
  _ ← ASSERT (negb (bool_decide (hook_type = UNKNOWN)));
  _ ← ASSERT (negb (name =? ""));
  let official path := upcase path +:+ "_" +:+ enumName hook_type in
  match type with
  | PROGRAM => Ok (official name)
  | LIBRARY =>
      match library_base name with
      | inl path => Ok path
      | inr path => Ok (official path)
      end
  end.

(* src/ebpf/pinned_prog_map.cc:515-523 PinnedProgMap::getPinPath *)
Definition getPinPath (map_name : string) : string := "/sys/fs/bpf/" +:+ map_name.

(** ** The registry *)

(** [ProgInfo] and [getDefaultProgMap] are generated from [ebpf_id.map] by
    cmake/EbpfIdMap.cmake: one entry per non-comment line. *)
(* cmake/ebpf_prog_map.h.in:13-16 ProgInfo *)
Record ProgInfo : Type := { id : Z; hook : HookType }.

(* ebpf_id.map:1-9 ebpf_id.map *)
Definition ebpf_id_map : list (string * Z * HookType) :=
  [ ("HELLO", 0%Z, KProbe);
    ("USERMODE", 1%Z, KProbe);
    ("ACL_TC", 2%Z, TC);
    ("ACL_XDP_GENERIC", 3%Z, XDP_GENERIC);
    ("SCHEDULER_TC", 4%Z, TC);
    ("SCHEDULER_XDP_GENERIC", 5%Z, XDP_GENERIC);
    ("LB_TC", 6%Z, TC);
    ("LB_XDP_GENERIC", 7%Z, XDP_GENERIC) ].

(* cmake/ebpf_prog_map.h.in:18-33 getDefaultProgMap *)
Definition getDefaultProgMap : gmap string ProgInfo :=
  list_to_map ((fun '(name, i, h) => (name, {| id := i; hook := h |})) <$> ebpf_id_map).

(** ** Facts about the string operations *)

#[local] Arguments String.append !_ _ / : simpl nomatch.

Lemma string_app_assoc s t u : s +:+ (t +:+ u) = (s +:+ t) +:+ u.
Proof. induction s as [| a s IH]; cbn; [done |]. by rewrite IH. Qed.

Lemma string_app_nil_r s : s +:+ "" = s.
Proof. induction s as [| a s IH]; cbn; [done |]. by rewrite IH. Qed.

Lemma no_char_app c s t : no_char c (s +:+ t) = no_char c s && no_char c t.
Proof. induction s as [| a s IH]; cbn; [done |]. by rewrite IH, andb_assoc. Qed.

Lemma after_last_None c s : no_char c s = true -> after_last c s = None.
Proof.
  induction s as [| a s IH]; cbn; [done |]. intros [Ha Hs]%andb_true_iff.
  rewrite IH by done. apply negb_true_iff in Ha. by rewrite Ha.
Qed.

Lemma after_last_app c s t :
  no_char c t = true -> after_last c (s +:+ String c t) = Some t.
Proof.
  intros Ht. induction s as [| a s IH]; cbn.
  - rewrite after_last_None by done. by rewrite Ascii.eqb_refl.
  - by rewrite IH.
Qed.

Lemma before_last_None c s : no_char c s = true -> before_last c s = None.
Proof.
  induction s as [| a s IH]; cbn; [done |]. intros [Ha Hs]%andb_true_iff.
  rewrite IH by done. apply negb_true_iff in Ha. by rewrite Ha.
Qed.

Lemma before_last_app c s t :
  no_char c t = true -> before_last c (s +:+ String c t) = Some s.
Proof.
  intros Ht. induction s as [| a s IH]; cbn.
  - rewrite before_last_None by done. by rewrite Ascii.eqb_refl.
  - by rewrite IH.
Qed.

Lemma before_first_None c s : no_char c s = true -> before_first c s = None.
Proof.
  induction s as [| a s IH]; cbn; [done |]. intros [Ha Hs]%andb_true_iff.
  apply negb_true_iff in Ha. by rewrite Ha, IH.
Qed.

Lemma before_first_app c s t :
  no_char c s = true -> before_first c (s +:+ String c t) = Some s.
Proof.
  induction s as [| a s IH]; cbn; [by rewrite Ascii.eqb_refl |].
  intros [Ha Hs]%andb_true_iff. apply negb_true_iff in Ha. by rewrite Ha, IH.
Qed.

Lemma string_length_app s t : String.length (s +:+ t) = String.length s + String.length t.
Proof. induction s as [| a s IH]; cbn; [done |]. by rewrite IH. Qed.

Lemma substring_full s : substring 0 (String.length s) s = s.
Proof. induction s as [| a s IH]; cbn; [done |]. by rewrite IH. Qed.

Lemma substr_to_app s t : substr_to (s +:+ t) (String.length s) = s.
Proof.
  unfold substr_to. induction s as [| a s IH]; cbn; [by destruct t |]. by rewrite IH.
Qed.

Lemma substring_skip s t n : substring (String.length s) n (s +:+ t) = substring 0 n t.
Proof. induction s as [| a s IH]; cbn; [done |]. exact IH. Qed.

Lemma substr_from_app s t : substr_from (s +:+ t) (String.length s) = t.
Proof.
  unfold substr_from. rewrite substring_skip, string_length_app.
  replace (String.length s + String.length t - String.length s) with (String.length t) by lia.
  apply substring_full.
Qed.

Lemma starts_with_app s t : starts_with (s +:+ t) s = true.
Proof.
  unfold starts_with. induction s as [| a s IH]; cbn; [by destruct t |].
  destruct (ascii_dec a a); [done | congruence].
Qed.

Lemma ends_with_app s t : ends_with (s +:+ t) t = true.
Proof.
  unfold ends_with. rewrite string_length_app.
  replace (String.length s + String.length t - String.length t) with (String.length s) by lia.
  rewrite substring_skip, substring_full, String.eqb_refl.
  apply andb_true_iff. split; [apply Nat.leb_le; lia | done].
Qed.

Lemma filename_app dir f : no_char "/" f = true -> filename (dir +:+ String "/" f) = f.
Proof. intros Hf. unfold filename. by rewrite after_last_app. Qed.

(** ** Canonical names *)

Lemma library_base_spec dir base suf :
  no_char "/" base = true -> no_char "_" base = true -> no_char "/" suf = true ->
  suf = "" \/ (exists t, suf = String "_" t) ->
  library_base (dir +:+ "/libhebpf_" +:+ base +:+ suf +:+ ".so") = inr base.
Proof.
  intros Hb Hu Hs Hsuf. unfold library_base.
  change ("/libhebpf_" +:+ base +:+ suf +:+ ".so")
    with (String "/" ("libhebpf_" +:+ (base +:+ suf +:+ ".so"))).
  rewrite filename_app by (rewrite !no_char_app, Hb, Hs; done).
  rewrite (string_app_assoc base suf ".so"), (string_app_assoc "libhebpf_" _ ".so").
  rewrite ends_with_app, string_length_app.
  replace (String.length ("libhebpf_" +:+ base +:+ suf) + String.length ".so" - 3)
    with (String.length ("libhebpf_" +:+ base +:+ suf)) by (cbn; lia).
  rewrite substr_to_app, starts_with_app, substr_from_app. cbn [negb].
  destruct Hsuf as [-> | [t ->]].
  - rewrite string_app_nil_r, before_first_None; done.
  - by rewrite before_first_app.
Qed.

(** C27: the name under which the daemon puts a library into a chain and the
    name under which the loader inserts the running service agree: for a
    library [.../libhebpf_<base>[_<variant>].so] the canonical name computed
    from the path is the one computed from the service name [<base>], and it
    depends on neither the directory nor the variant. *)
Theorem canonical_name_library_program `{BuildMode} (hook_type : HookType) (dir base suf : string)
  (Hhook : hook_type <> UNKNOWN) (Hbase : base <> "")
  (Hslash : no_char "/" (base +:+ suf) = true) (Hunder : no_char "_" base = true)
  (Hsuf : suf = "" \/ exists t, suf = String "_" t) :
  getCanonicalName hook_type LIBRARY (dir +:+ "/libhebpf_" +:+ base +:+ suf +:+ ".so")
    = getCanonicalName hook_type PROGRAM base /\
  getCanonicalName hook_type PROGRAM base
    = Ok (upcase base +:+ "_" +:+ enumName hook_type).
Proof.
  rewrite no_char_app in Hslash. apply andb_true_iff in Hslash as [Hb Hs].
  unfold getCanonicalName. rewrite bool_decide_eq_false_2 by done.
  rewrite (proj2 (String.eqb_neq base "") Hbase), library_base_spec by done.
  replace (dir +:+ _ =? "") with false; [done |].
  symmetry. apply String.eqb_neq. by destruct dir.
Qed.

Lemma canonical_name_library_program_witness :
  let NDEBUG : BuildMode := false in
  getCanonicalName XDP_GENERIC LIBRARY ("build/src/services/acl" +:+ "/libhebpf_" +:+ "acl" +:+ "_xdp" +:+ ".so")
    = getCanonicalName XDP_GENERIC PROGRAM "acl" /\
  getCanonicalName XDP_GENERIC PROGRAM "acl" = Ok "ACL_XDP_GENERIC".
Proof.
  cbn zeta.
  apply (canonical_name_library_program (H := false) XDP_GENERIC "build/src/services/acl" "acl" "_xdp");
    [discriminate | discriminate | reflexivity | reflexivity | right; exists "xdp"; reflexivity].
Defined.

(** The scheduler's canonical name, per chained hook, is registered with that hook. *)
Definition scheduler_lib (hook_type : HookType) : string :=
  if bool_decide (hook_type = TC) then SCHEDULER_TC_LIB else SCHEDULER_XDP_LIB.

Lemma scheduler_registered `{BuildMode} hook_type :
  hook_type = TC \/ hook_type = XDP_GENERIC ->
  exists name info, getCanonicalName hook_type LIBRARY (scheduler_lib hook_type) = Ok name /\
    getDefaultProgMap !! name = Some info /\ hook info = hook_type.
Proof.
  intros [-> | ->].
  - exists "SCHEDULER_TC", {| id := 4; hook := TC |}. split_and!; [by vm_compute | by vm_compute | done].
  - exists "SCHEDULER_XDP_GENERIC", {| id := 5; hook := XDP_GENERIC |}.
    split_and!; [by vm_compute | by vm_compute | done].
Qed.
