(* ===== verification/Log.v ===== *)
(** * Logging and error reports

    The logger registry of [src/log/logger.cc] with the macros of
    [src/log/logger.h], over spdlog's logger objects; the text of an exception
    ([src/common/exception.cc]) and of a stack trace
    ([src/common/stack_frame.cc]). *)

From stdpp Require Import pretty.
From S2P Require Import Prelude Configs Names.

#[local] Open Scope string_scope.
#[local] Open Scope Z_scope.
#[local] Open Scope list_scope.

(* src/log/logger.h:30-43 Id *)
Inductive Id : Type :=
| Id_cmdline | Id_daemon | Id_debug_server | Id_ebpf | Id_fd | Id_hebpf | Id_inotify | Id_io | Id_monitor
| Id_prometheus | Id_signal | Id_MAXSIZE.
#[export] Instance Id_eq_dec : EqDecision Id.
Proof. solve_decision. Defined.
#[export] Instance Id_enum : CEnum Id := {
  enum_values := [Id_cmdline; Id_daemon; Id_debug_server; Id_ebpf; Id_fd; Id_hebpf; Id_inotify; Id_io; Id_monitor;
                  Id_prometheus; Id_signal; Id_MAXSIZE];
  enum_name := fun i =>
    match i with
    | Id_cmdline => "cmdline" | Id_daemon => "daemon" | Id_debug_server => "debug_server" | Id_ebpf => "ebpf"
    | Id_fd => "fd" | Id_hebpf => "hebpf" | Id_inotify => "inotify" | Id_io => "io" | Id_monitor => "monitor"
    | Id_prometheus => "prometheus" | Id_signal => "signal" | Id_MAXSIZE => "MAXSIZE"
    end
}.

(* src/log/logger.h:44-44 Level *)
Inductive Level : Type := trace | debug | info | warn | error | critical | off | MAXSIZE.
#[export] Instance Level_eq_dec : EqDecision Level.
Proof. solve_decision. Defined.
#[export] Instance Level_enum : CEnum Level := {
  enum_values := [trace; debug; info; warn; error; critical; off; MAXSIZE];
  enum_name := fun l =>
    match l with
    | trace => "trace" | debug => "debug" | info => "info" | warn => "warn" | error => "error"
    | critical => "critical" | off => "off" | MAXSIZE => "MAXSIZE"
    end
}.
#[export] Instance Level_enum_laws : CEnumLaws Level.
Proof. split; [intros []; cbn; set_solver | intros [] []; cbn; congruence]. Qed.

(** [static_cast<uint32_t>(level)], also spdlog's number of the level *)
Definition level_num (l : Level) : Z :=
  match l with
  | trace => 0 | debug => 1 | info => 2 | warn => 3 | error => 4 | critical => 5 | off => 6 | MAXSIZE => 7
  end.

(* src/log/logger.h:46-46 LOGLEVEL_DEFAULT *)
Definition LOGLEVEL_DEFAULT : Level := info.
Definition HEBPF_PROJECT : string := "hebpf".
(* src/log/logger.h:47-47 LOGFILE_DEFAULT *)
Definition LOGFILE_DEFAULT : string := "/var/run/log/hebpf.log".

(** ** The registry *)

(** A spdlog logger: its file, whether it also writes to the terminal, and the
    level it was given; [logger->log] passes a message on when its level is
    not below the logger's. *)
Record LoggerType : Type := mkLogger { sink_file : string; sink_stdout : bool; logger_level : Level }.

(** one message that reached a sink *)
Record line : Type := mkLine { l_file : string; l_stdout : bool; l_logger : string; l_level : Level; l_text : string }.

(** the file-local variables, and what has been written *)
(* src/log/logger.cc:15-19 g_map *)
Record Log : Type := mkLog {
  g_map : gmap string LoggerType;
  g_level : Level;
  g_logfile : string;
  g_stdout : bool;
  written : list line
}.

Definition initial : Log := mkLog ∅ LOGLEVEL_DEFAULT LOGFILE_DEFAULT false [].

Section Registry.
(** whether spdlog can open a file (its sink throws otherwise), and
    [std::filesystem::is_directory], which throws when the path cannot be
    examined *)
Context (can_open : string -> bool) (is_directory : string -> result exn bool).

(** creation of the logger of a name that has none *)
(* src/log/logger.cc:93-110 Logger::getLogger *)
Definition new_logger (log_name : string) (s : Log) : Log :=
  mkLog (<[log_name := mkLogger (g_logfile s) (g_stdout s) (g_level s)]> (g_map s)) (g_level s) (g_logfile s)
    (g_stdout s) (written s).

(* src/log/logger.cc:83-112 Logger::getLogger *)
Definition getLogger (log_name : string) : ST Log LoggerType :=
  let log_name2 := if (log_name =? "")%string then HEBPF_PROJECT else log_name in
  s ← get;
  match g_map s !! log_name2 with
  | Some l => mret l
  | None =>
      if can_open (g_logfile s) then
        _ ← modify (new_logger log_name2);
        mret (mkLogger (g_logfile s) (g_stdout s) (g_level s))
      else throw (StdException "Failed opening file for writing")
  end.

(* src/log/logger.cc:114-126 Logger::getLevel *)
Definition getLevel (s : Log) : Level := g_level s.

(** the macro: the level is compared with the global one before a logger is
    asked for, and with the logger's own inside spdlog *)
(* src/log/logger.h:80-93 GLOBAL_LOG_TO *)
Definition LOG_TO (logger : string) (lev : Level) (text : string) : ST Log unit :=
  s ← get;
  if level_num lev <? level_num (getLevel s) then mret tt
  else
    l ← getLogger logger;
    if level_num lev <? level_num (logger_level l) then mret tt
    else
      modify (fun s => mkLog (g_map s) (g_level s) (g_logfile s) (g_stdout s)
                (written s ++ [mkLine (sink_file l) (sink_stdout l)
                   (if (logger =? "")%string then HEBPF_PROJECT else logger) lev text])).

(* src/log/logger.h:97-97 GLOBAL_LOG *)
Definition GLOBAL_LOG (lev : Level) (text : string) : ST Log unit := LOG_TO HEBPF_PROJECT lev text.

(** [LOG] in a class derived from [Loggable<id>] *)
(* src/log/logger.tpp:17-20 Loggable::getModuleLogger *)
Definition LOG (id : Id) (lev : Level) (text : string) : ST Log unit := LOG_TO (enumName id) lev text.

(* src/log/logger.cc:21-31 LogConfig::setLevel *)
Definition setLevel (level : Level) : ST Log unit :=
  modify (fun s => mkLog (g_map s) level (g_logfile s) (g_stdout s) (written s)).

(* src/log/logger.cc:33-43 LogConfig::setLevel *)
Definition setLevel_str (level_str : string) : ST Log unit :=
  _ ← GLOBAL_LOG info level_str;
  setLevel (match stringEnum level_str with Some l => l | None => LOGLEVEL_DEFAULT end).

(** [std::filesystem::path::operator/=] with a relative right-hand side *)
Definition path_append (dir file : string) : string :=
  if ends_with dir "/" then dir +:+ file else dir +:+ "/" +:+ file.

(* src/log/logger.cc:65-73 LogConfig::setLogFile *)
Definition store_log_path (log_path : string) : ST Log unit :=
  dir ← lift (is_directory log_path);
  let log_path := if dir : bool then path_append log_path "hebpf.log" else log_path in
  modify (fun s => mkLog (g_map s) (g_level s) log_path (g_stdout s) (written s)).

(* src/log/logger.cc:52-74 LogConfig::setLogFile *)
Definition setLogFile (file : string) : ST Log unit :=
  _ ← (if (file =? "")%string then mret tt else GLOBAL_LOG info file);
  store_log_path (if (file =? "")%string then LOGFILE_DEFAULT else file).

(* src/log/logger.cc:76-81 LogConfig::setStdout *)
Definition setStdout (set : bool) : ST Log unit :=
  modify (fun s => mkLog (g_map s) (g_level s) (g_logfile s) set (written s)).

(** the logging part of [main] *)
(* main.cc:102-105 main *)
Definition configure_logging (file : string) (level : Level) : ST Log unit :=
  _ ← setStdout true;
  _ ← setLogFile file;
  setLevel level.

(** ** What the configuration of the log has an effect on *)

Inductive log_op : Type :=
| SetLevel (l : Level)
| SetLevelStr (s : string)
| SetLogFile (file : string)
| SetStdout (b : bool)
| Global (lev : Level) (text : string)
| Module_ (id : Id) (lev : Level) (text : string).

(** an operation; an exception of spdlog leaves the state as it is *)
Definition log_exec (s : Log) (op : log_op) : Log :=
  match op with
  | SetLevel l => (setLevel l s).2
  | SetLevelStr str => (setLevel_str str s).2
  | SetLogFile file => (setLogFile file s).2
  | SetStdout b => (setStdout b s).2
  | Global lev text => (GLOBAL_LOG lev text s).2
  | Module_ id lev text => (LOG id lev text s).2
  end.

(** one step of the log: loggers are only added, with the settings of the
    moment, and messages only appended *)
Definition grows (s s' : Log) : Prop :=
  g_map s ⊆ g_map s' /\ exists new, written s' = written s ++ new /\
    Forall (fun m => exists l, g_map s' !! l_logger m = Some l /\ l_file m = sink_file l /\ l_stdout m = sink_stdout l /\
      level_num (logger_level l) <= level_num (l_level m)) new.

#[local] Instance grows_refl : Reflexive grows.
Proof. intros s. split; [done |]. exists []. by rewrite app_nil_r. Qed.

#[local] Instance grows_trans : Transitive grows.
Proof.
  intros s1 s2 s3 [H1 (n1 & E1 & F1)] [H2 (n2 & E2 & F2)]. split; [by etrans |].
  exists (n1 ++ n2). split; [by rewrite E2, E1, app_assoc |]. apply Forall_app. split; [| done].
  eapply Forall_impl; [exact F1 |]. intros m (l & Hl & ?). exists l. split; [| done]. by eapply lookup_weaken.
Qed.

Lemma grows_settings s lvl file out :
  grows s (mkLog (g_map s) lvl file out (written s)).
Proof. split; [done |]. exists []. by rewrite app_nil_r. Qed.

Lemma getLogger_grows name s : grows s (getLogger name s).2.
Proof.
  unfold getLogger. cbv [mbind st_bind get]. set (n := if (name =? "")%string then _ else _).
  destruct (g_map s !! n) as [l |] eqn:E; [done |]. destruct (can_open _); [| done].
  split; cbn; [by apply insert_subseteq |]. exists []. by rewrite app_nil_r.
Qed.

Lemma getLogger_stores name s l s' :
  getLogger name s = (Ok l, s') -> g_map s' !! (if (name =? "")%string then HEBPF_PROJECT else name) = Some l.
Proof.
  unfold getLogger. cbv [mbind st_bind get]. set (n := if (name =? "")%string then _ else _).
  destruct (g_map s !! n) as [l0 |] eqn:E; [by intros [= <- <-] |].
  destruct (can_open _); [| done]. cbn. intros [= <- <-]. apply lookup_insert_eq.
Qed.

Lemma log_grows name lev text s : grows s (LOG_TO name lev text s).2.
Proof.
  unfold LOG_TO. cbv [mbind st_bind get]. destruct (level_num lev <? level_num (getLevel s)); [done |].
  pose proof (getLogger_grows name s) as Hg. pose proof (getLogger_stores name s) as Hst.
  destruct (getLogger name s) as [[l | e] s1]; [| exact Hg]. cbn in Hg. specialize (Hst l s1 eq_refl).
  destruct (level_num lev <? level_num (logger_level l)) eqn:Hl; [exact Hg |]. apply Z.ltb_ge in Hl.
  etrans; [exact Hg |]. cbn. split; [done |]. eexists. split; [reflexivity |]. apply Forall_singleton. cbn. by exists l.
Qed.

Lemma store_log_path_grows p s : grows s (store_log_path p s).2.
Proof. unfold store_log_path, lift. cbv [mbind st_bind]. destruct (is_directory p); [apply grows_settings | done]. Qed.

Lemma log_exec_grows s op : grows s (log_exec s op).
Proof.
  destruct op as [l | str | file | b | lev text | id lev text]; cbn [log_exec].
  - apply grows_settings.
  - unfold setLevel_str, GLOBAL_LOG. cbv [mbind st_bind]. pose proof (log_grows HEBPF_PROJECT info str s) as Hg.
    destruct (LOG_TO _ _ _ s) as [[u | e] s1]; [| exact Hg]. etrans; [exact Hg |]. apply grows_settings.
  - unfold setLogFile, GLOBAL_LOG. cbv [mbind st_bind].
    destruct (file =? "")%string; [apply store_log_path_grows |]. pose proof (log_grows HEBPF_PROJECT info file s) as Hg.
    destruct (LOG_TO _ _ _ s) as [[u | e] s1]; [| exact Hg]. etrans; [exact Hg |]. apply store_log_path_grows.
  - apply grows_settings.
  - apply log_grows.
  - apply log_grows.
Qed.

Lemma log_run_grows ops : forall s, grows s (foldl log_exec s ops).
Proof. induction ops as [| op ops IH]; intros s; cbn; [done |]. etrans; [apply log_exec_grows | apply IH]. Qed.

(** a logger keeps for ever the file, the terminal switch and the level it
    was created with, whatever is configured later, and every message written
    went to the sinks of its logger and passed that logger's level. *)
Theorem loggers_frozen (s : Log) (ops : list log_op) (name : string) (l : LoggerType)
  (Hl : g_map s !! name = Some l) :
  let s' := foldl log_exec s ops in
  g_map s' !! name = Some l /\ exists new, written s' = written s ++ new /\
    forall m, m ∈ new -> l_logger m = name ->
      l_file m = sink_file l /\ l_stdout m = sink_stdout l /\ level_num (logger_level l) <= level_num (l_level m).
Proof.
  cbv zeta. destruct (log_run_grows ops s) as [Hsub (new & Hnew & Hall)].
  assert (Hl' : g_map (foldl log_exec s ops) !! name = Some l) by (by eapply lookup_weaken).
  split; [done |]. exists new. split; [done |]. intros m Hm <-.
  eapply Forall_forall in Hall as (l2 & Hl2 & ?); [| exact Hm]. by simplify_eq.
Qed.

(** the options for the log file and the log level do not reach the global
    logger: setting the file logs its name, which creates the logger with the
    default file and the default level before either is set; afterwards no
    global message below "info" is ever written, and all others go to the
    default file. *)
Theorem log_options_ignored (file : string) (level : Level) (ops : list log_op) (dir : bool)
  (Hfile : file ≠ "") (Hdir : is_directory file = Ok dir) (Hopen : can_open LOGFILE_DEFAULT = true) :
  let s := (configure_logging file level initial).2 in
  (configure_logging file level initial).1 = Ok tt /\ g_level s = level /\
  exists new, written (foldl log_exec s ops) = written s ++ new /\
    forall m, m ∈ new -> l_logger m = HEBPF_PROJECT ->
      l_file m = LOGFILE_DEFAULT /\ level_num info <= level_num (l_level m).
Proof.
  cbv zeta.
  assert (Hrun : configure_logging file level initial =
    (Ok tt, mkLog {[HEBPF_PROJECT := mkLogger LOGFILE_DEFAULT true info]} level
       (if dir then path_append file "hebpf.log" else file) true
       [mkLine LOGFILE_DEFAULT true HEBPF_PROJECT info file])).
  { unfold configure_logging, setLogFile, store_log_path, lift, setStdout, GLOBAL_LOG, LOG_TO, getLogger. apply String.eqb_neq in Hfile.
    cbv [mbind st_bind modify get mret st_ret]. cbn. rewrite Hfile. cbn. rewrite Hopen. cbn. rewrite Hdir. done. }
  rewrite Hrun. cbn [fst snd g_level]. split; [done |]. split; [done |].
  set (s := mkLog _ _ _ _ _). destruct (log_run_grows ops s) as [Hsub (new & Hnew & Hall)].
  exists new. split; [done |]. intros m Hm Hname. eapply Forall_forall in Hall as (l & Hl & Hf & _ & Hlev); [| exact Hm].
  rewrite Hname in Hl. assert (Hg : g_map s !! HEBPF_PROJECT = Some (mkLogger LOGFILE_DEFAULT true info)) by done.
  eapply lookup_weaken in Hg; [| exact Hsub]. rewrite Hg in Hl. injection Hl as <-. by rewrite Hf.
Qed.

End Registry.

(** ** Exceptions and stack traces *)

(* src/common/exception.h:12-24 Exception *)
Record Exception : Type := mkException { msg_ : string; err_ : Z; stack_ : string }.

(** [std::to_string] of a non-negative number *)
Definition decimal (n : Z) : string := pretty (Z.to_N n).

(** [strerror_r err]: the message the C library leaves in the buffer, and
    whether its result compares equal to 0 *)
(* src/common/exception.cc:13-32 Exception::Exception *)
Definition newException (strerror_r : Z -> string * bool) (show_errno : Z -> string) (stack : string) (errno : Z)
  (file : string) (line : Z) (msg : string) (is_errno : bool) : Exception :=
  let text := "[" +:+ file +:+ ":" +:+ decimal line +:+ "] " +:+ msg in
  let text :=
    if is_errno && negb (errno =? 0) then
      let '(err_msg, zero) := strerror_r errno in
      if zero then text +:+ " (" +:+ show_errno errno +:+ " -- " +:+ err_msg +:+ ")" else text
    else text in
  mkException text errno stack.

(** [demangle]: the symbol's C++ name, empty when it is not one *)
Section Frames.
Context (demangle : string -> string).

(** at most [n] leading characters that satisfy [p], and the rest *)
Fixpoint scan_set (p : ascii -> bool) (n : nat) (s : string) : string * string :=
  match n, s with
  | S n, String c s' => if p c then let '(a, b) := scan_set p n s' in (String c a, b) else ("", s)
  | _, _ => ("", s)
  end.

Definition is_space (c : ascii) : bool :=
  match c with
  | " " | "009" | "010" | "011" | "012" | "013" => true
  | _ => false
  end%char.

(** the conversions [%*[^(]], [(] and [%127[^)+]] one after the other; the text
    of the last one when all three match *)
Definition scan_cxx (symbol : string) : option string :=
  let '(before, rest) := scan_set (fun c => negb (Ascii.eqb c "(")) (String.length symbol) symbol in
  if (before =? "")%string then None
  else
    match rest with
    | String "(" rest =>
        let '(name, _) := scan_set (fun c => negb (Ascii.eqb c ")") && negb (Ascii.eqb c "+")) 127 rest in
        if (name =? "")%string then None else Some name
    | _ => None
    end.

(** the conversion [%127s] *)
Definition scan_word (symbol : string) : option string :=
  let '(_, rest) := scan_set is_space (String.length symbol) symbol in
  let '(word, _) := scan_set (fun c => negb (is_space c)) 127 rest in
  if (word =? "")%string then None else Some word.

(* src/common/stack_frame.cc:24-49 demangleWrapper *)
Definition demangleWrapper (symbol : string) : string :=
  let cxx := match scan_cxx symbol with Some name => demangle name | None => "" end in
  if negb (cxx =? "")%string then cxx
  else match scan_word symbol with Some word => word | None => symbol end.

(* src/common/stack_frame.cc:75-81 stackTrace *)
Fixpoint frames (i : nat) (symbols : list string) : string :=
  match symbols with
  | [] => ""
  | symbol :: rest =>
      "[" +:+ decimal (Z.of_nat i) +:+ "] " +:+ demangleWrapper symbol +:+ String "010" "" +:+ frames (S i) rest
  end.

(** [backtrace] gives the innermost 256 frames at most; with
    [async_signal_safe] they go to the standard error stream.  [described]:
    whether [backtrace_symbols] could allocate its answer *)
(* src/common/stack_frame.cc:51-84 stackTrace *)
Definition stackTrace (async_signal_safe described : bool) (backtrace : list string) : string :=
  if async_signal_safe then "" else if described then frames 2 (drop 2 (take 256 backtrace)) else "".

(** a string without the character *)
Fixpoint avoids (c : ascii) (s : string) : bool :=
  match s with "" => true | String d s => negb (Ascii.eqb d c) && avoids c s end.

Lemma scan_set_all p s t n :
  (forall i c, String.get i s = Some c -> p c = true) ->
  (forall c t', t = String c t' -> p c = false) -> (String.length s <= n)%nat -> scan_set p n (s +:+ t) = (s, t).
Proof.
  revert n. induction s as [| c s IH]; intros n Hs Ht Hn.
  - change ("" +:+ t) with t. destruct n, t as [| d t]; try done. cbn. by rewrite (Ht d t eq_refl).
  - destruct n as [| n]; cbn in Hn; [lia |]. change (String c s +:+ t) with (String c (s +:+ t)). cbn. rewrite (Hs 0%nat c eq_refl).
    rewrite IH; [done | intros i d Hd; by apply (Hs (S i) d) | done | lia].
Qed.

Lemma avoids_get c s : avoids c s = true -> forall i d, String.get i s = Some d -> negb (Ascii.eqb d c) = true.
Proof.
  induction s as [| d s IH]; intros Hs i e; [by destruct i |]. cbn in Hs. apply andb_true_iff in Hs as [H1 H2].
  destruct i as [| i]; cbn; [by intros [= <-] | by apply IH].
Qed.

Lemma string_length_prefix s t : (String.length s <= String.length (s +:+ t))%nat.
Proof. rewrite string_length_app. lia. Qed.

(** a frame "library(symbol+offset) [address]" is shown under the
    demangled name of its symbol when it has one. *)
Theorem frame_demangled (library symbol rest : string)
  (Hlib : library ≠ "") (Hl : avoids "(" library = true)
  (Hsym : symbol ≠ "") (Hs1 : avoids ")" symbol = true) (Hs2 : avoids "+" symbol = true)
  (Hlen : (String.length symbol <= 127)%nat)
  (Hrest : rest = "" \/ exists r, rest = String ")" r \/ rest = String "+" r)
  (Hname : demangle symbol ≠ "") :
  demangleWrapper (library +:+ String "(" (symbol +:+ rest)) = demangle symbol.
Proof.
  unfold demangleWrapper, scan_cxx.
  rewrite scan_set_all; [| by apply avoids_get | by intros c t' [= <- _] | apply string_length_prefix].
  rewrite (proj2 (String.eqb_neq _ _) Hlib).
  rewrite scan_set_all; [| | | done].
  - rewrite (proj2 (String.eqb_neq _ _) Hsym). by rewrite (proj2 (String.eqb_neq _ _) Hname).
  - intros i c Hc. by rewrite (avoids_get _ _ Hs1 i c Hc), (avoids_get _ _ Hs2 i c Hc).
  - intros c t' ->. by destruct Hrest as [[=] | (r & [[= -> _] | [= -> _]])].
Qed.

End Frames.

(** with the C library of GNU, whose [strerror_r] returns a pointer and
    not an error number, no exception carries the text of errno. *)
Theorem errno_text_lost (strerror_r : Z -> string * bool) (show_errno : Z -> string) (stack : string) (errno : Z)
  (file msg : string) (line : Z) (is_errno : bool)
  (Hgnu : forall e, (strerror_r e).2 = false) :
  newException strerror_r show_errno stack errno file line msg is_errno =
    newException strerror_r show_errno stack errno file line msg false.
Proof.
  unfold newException. destruct (is_errno && negb (errno =? 0)); [| done].
  specialize (Hgnu errno). destruct (strerror_r errno) as [m z]. cbn in Hgnu. by subst z.
Qed.

(** ** Concrete runs *)

Module Sample.

Definition anywhere (file : string) : bool := true.
Definition no_directory (file : string) : result exn bool := Ok false.

Lemma loggers_frozen_witness :
  g_map (foldl (log_exec anywhere no_directory)
    (log_exec anywhere no_directory initial (Global info "start")) [SetLevel debug; SetStdout true; Global debug "x"])
    !! "hebpf" = Some (mkLogger LOGFILE_DEFAULT false info).
Proof.
  apply (loggers_frozen anywhere no_directory (log_exec anywhere no_directory initial (Global info "start"))
    [SetLevel debug; SetStdout true; Global debug "x"] "hebpf" (mkLogger LOGFILE_DEFAULT false info)).
  vm_compute. reflexivity.
Defined.

Lemma log_options_ignored_witness :
  g_level (configure_logging anywhere no_directory "/tmp/my.log" debug initial).2 = debug /\
  exists new, written (foldl (log_exec anywhere no_directory)
      (configure_logging anywhere no_directory "/tmp/my.log" debug initial).2 [Global debug "a"; Global info "b"]) =
    written (configure_logging anywhere no_directory "/tmp/my.log" debug initial).2 ++ new /\
    forall m, m ∈ new -> l_logger m = HEBPF_PROJECT ->
      l_file m = LOGFILE_DEFAULT /\ level_num info <= level_num (l_level m).
Proof.
  apply (log_options_ignored anywhere no_directory "/tmp/my.log" debug [Global debug "a"; Global info "b"] false);
    [discriminate | reflexivity | reflexivity].
Defined.

Definition demangled (s : string) : string := if (s =? "_Zf")%string then "f()" else "".

Lemma frame_demangled_witness : demangleWrapper demangled "libx.so(_Zf+0x10) [0x55]" = "f()".
Proof.
  apply (frame_demangled demangled "libx.so" "_Zf" "+0x10) [0x55]");
    [discriminate | reflexivity | discriminate | reflexivity | reflexivity | cbn; lia | | discriminate].
  right. exists "0x10) [0x55]". right. reflexivity.
Defined.

Definition gnu (e : Z) : string * bool := ("Permission denied", false).

Lemma errno_text_lost_witness :
  msg_ (newException gnu decimal "" 13 "a.cc" 7 "Failed" true) = msg_ (newException gnu decimal "" 13 "a.cc" 7 "Failed" false).
Proof. apply (f_equal msg_), (errno_text_lost gnu decimal "" 13 "a.cc" "Failed" 7 true). reflexivity. Defined.

End Sample.
