(* ===== verification/Io.v ===== *)
(** * The IO context

    [Io] of [src/io/io.cc]: one thread that runs the read handlers of the
    registered descriptors, and the shared ownership of a descriptor between
    its owner, the queue of posted functions and a running handler.  The
    scheduling of boost::asio is left open: a run is any sequence of events
    that its documentation allows.  The named function wrapper of
    [src/callback/] is here too, since every handler is one. *)

From S2P Require Import Prelude.

(** ** Callbacks *)

(* src/callback/callback.h:15-31 Callback *)
Record Callback (A R : Type) : Type := mkCallback { name_ : string; func_ : option (A -> R) }.
Arguments mkCallback {A R} name_ func_.
Arguments name_ {A R} c : rename.
Arguments func_ {A R} c : rename.

(** an empty [std::function] throws when it is called *)
(* src/callback/callback.tpp:14-25 Callback::operator() *)
Definition invoke {S A R} (c : Callback A (ST S R)) (args : A) : ST S R :=
  match func_ c with Some f => f args | None => throw (StdException "bad_function_call") end.

(* src/callback/callback.tpp:27-37 Callback::name *)
Definition name {A R} (c : Callback A R) : string := name_ c.

(* src/callback/callback.tpp:39-50 Callback::operator bool *)
Definition callable {A R} (c : Callback A R) : bool := match func_ c with Some _ => true | None => false end.

Section Io.
(** what the handlers work on *)
Context {S : Type}.

Definition IoCb : Type := Callback unit (ST S unit).

(** ** State *)

(** A registered descriptor: its handler, whether the owner still has the
    pointer [addReadCb] returned, whether the function posted by [addReadCb]
    is still queued, and whether a wait for readability is pending. *)
(* src/io/io.cc:23-60 DescriptorBase *)
Record DescriptorBase : Type := mkDescriptor { handler_ : IoCb; owned : bool; posted : bool; waiting : bool }.

(** the thread that runs [io_context::run] *)
Inductive worker : Type := Idle | Running (id : nat) | Ended.
#[export] Instance worker_eq_dec : EqDecision worker.
Proof. solve_decision. Defined.

(* src/io/io.cc:66-96 Io::IoContext *)
Record Io : Type := mkIo { descriptors : list DescriptorBase; thread : worker; stopped : bool; world : S }.

Definition set_descriptor (id : nat) (d : DescriptorBase) (io : Io) : Io :=
  mkIo (<[id := d]> (descriptors io)) (thread io) (stopped io) (world io).
Definition set_thread (t : worker) (io : Io) : Io := mkIo (descriptors io) t (stopped io) (world io).
Definition set_world (s : S) (io : Io) : Io := mkIo (descriptors io) (thread io) (stopped io) s.

(** somebody holds the object: the weak pointer of the wait can be locked *)
Definition alive (io : Io) (id : nat) : bool :=
  match descriptors io !! id with
  | Some d => owned d || posted d || bool_decide (thread io = Running id)
  | None => false
  end.

(** ** Operations *)

(** [dup_ok]: whether the descriptor could be duplicated *)
(* src/io/io.cc:102-113 Io::addReadCb *)
Definition addReadCb (dup_ok : bool) (callback : IoCb) (io : Io) : result exn (nat * Io) :=
  if dup_ok then
    Ok (length (descriptors io),
        mkIo (descriptors io ++ [mkDescriptor callback true true false]) (thread io) (stopped io) (world io))
  else Err (EXCEPT "dup failed").

(** the owner drops its pointer *)
Definition release (id : nat) (io : Io) : Io :=
  match descriptors io !! id with
  | Some d => set_descriptor id (mkDescriptor (handler_ d) false (posted d) (waiting d)) io
  | None => io
  end.

(** the posted function runs: [start] puts the wait *)
(* src/io/io.cc:34-38 DescriptorBase::start *)
Definition start (d : DescriptorBase) : DescriptorBase := mkDescriptor (handler_ d) (owned d) false true.

(** the wait is over, and not put again *)
Definition completed (d : DescriptorBase) : DescriptorBase :=
  mkDescriptor (handler_ d) (owned d) (posted d) false.

(** What can happen next.  [AddRead] and [Release] are done by other threads;
    [Posted], [Readable], [WaitError], [Finish] and [Exit] by the thread of
    the context; [Stop] is the beginning of the destructor, which then joins
    the thread. *)
Inductive event : Type :=
| AddRead (callback : IoCb)
| Release (id : nat)
| Posted (id : nat)
| Readable (id : nat)
| WaitError (id : nat)
| Finish
| Stop
| Exit.

(** The handler's effects are put at its end.  An exception leaves
    [io_context::run], is logged and ends the thread, and what is no exception
    (an abort, a fault) ends the process and with it the thread; otherwise the
    wait is put again. *)
(* src/io/io.cc:45-55 DescriptorBase::async_wait *)
Definition finish (id : nat) (d : DescriptorBase) (io : Io) : Io :=
  match invoke (handler_ d) tt (world io) with
  | (Ok _, s) => set_thread Idle (set_descriptor id (mkDescriptor (handler_ d) (owned d) (posted d) true) (set_world s io))
  | (Err _, s) => set_thread Ended (set_world s io)
  end.

(** the loop takes the next function only while the context is not stopped *)
Definition may_run (io : Io) : bool := bool_decide (thread io = Idle) && negb (stopped io).

(* src/io/io.cc:70-89 IoContext::IoContext *)
Definition step (e : event) (io : Io) : option Io :=
  match e with
  | AddRead callback => match addReadCb true callback io with Ok (_, io') => Some io' | Err _ => None end
  | Release id => Some (release id io)
  | Posted id =>
      match descriptors io !! id with
      | Some d => if may_run io && posted d then Some (set_descriptor id (start d) io) else None
      | None => None
      end
  | Readable id =>
      match descriptors io !! id with
      | Some d =>
          if may_run io && waiting d && alive io id then
            let io := set_descriptor id (completed d) io in
            Some (if callable (handler_ d) then set_thread (Running id) io else io)
          else None
      | None => None
      end
  | WaitError id =>
      match descriptors io !! id with
      | Some d => if may_run io && waiting d then Some (set_descriptor id (completed d) io) else None
      | None => None
      end
  | Finish =>
      match thread io with
      | Running id => match descriptors io !! id with Some d => Some (finish id d io) | None => None end
      | _ => None
      end
  | Stop => Some (mkIo (descriptors io) (thread io) true (world io))
  | Exit => if bool_decide (thread io = Idle) && stopped io then Some (set_thread Ended io) else None
  end.

Fixpoint io_run (es : list event) (io : Io) : option Io :=
  match es with
  | [] => Some io
  | e :: es => match step e io with Some io' => io_run es io' | None => None end
  end.

(* src/io/io.cc:98-98 Io::Io *)
Definition newIo (s : S) : Io := mkIo [] Idle false s.

(** ** Invariant *)

(** While the posted function is queued there is no wait; while a handler
    runs its wait is not pending and the descriptor exists. *)
Record io_inv (io : Io) : Prop := {
  inv_posted : forall id d, descriptors io !! id = Some d -> posted d = true -> waiting d = false;
  inv_running : forall id, thread io = Running id ->
    exists d, descriptors io !! id = Some d /\ posted d = false /\ waiting d = false
}.

Lemma newIo_inv s : io_inv (newIo s).
Proof. by split. Qed.

Lemma may_run_true io : may_run io = true -> thread io = Idle /\ stopped io = false.
Proof. intros [H1 H2]%andb_true_iff. apply bool_decide_eq_true in H1. by apply negb_true_iff in H2. Qed.

(** a change of one descriptor while no handler runs *)
Lemma set_descriptor_idle id d io :
  io_inv io -> thread io = Idle -> (posted d = true -> waiting d = false) -> io_inv (set_descriptor id d io).
Proof.
  intros [Hp _] Hidle Hd. split; cbn.
  - intros id' d'. destruct (decide (id = id')) as [<- |]; [| rewrite list_lookup_insert_ne by done; apply Hp].
    intros H. destruct (decide (id < length (descriptors io))%nat) as [Hlt | Hge].
    + rewrite list_lookup_insert_eq in H by done. by injection H as <-.
    + rewrite list_insert_ge in H by lia. by eapply Hp.
  - by rewrite Hidle.
Qed.

Lemma release_inv id io : io_inv io -> io_inv (release id io).
Proof.
  intros [Hp Hr]. unfold release. destruct (descriptors io !! id) as [d |] eqn:Ed; [| by split].
  pose proof (lookup_lt_Some _ _ _ Ed) as Hlt. split; cbn.
  - intros id' d'. destruct (decide (id = id')) as [<- |]; [| rewrite list_lookup_insert_ne by done; apply Hp].
    rewrite list_lookup_insert_eq by done. intros [= <-]. cbn. by eapply Hp.
  - intros id' (d' & Hd' & Hpo & Hw)%Hr. destruct (decide (id = id')) as [<- |].
    + rewrite list_lookup_insert_eq by done. eexists. split; [done |]. rewrite Ed in Hd'. by injection Hd' as <-.
    + rewrite list_lookup_insert_ne by done. by exists d'.
Qed.

Lemma io_step_inv e io io' : io_inv io -> step e io = Some io' -> io_inv io'.
Proof.
  intros Hinv. destruct e as [cb | id | id | id | id | | |]; cbn [step].
  - cbn. intros [= <-]. destruct Hinv as [Hp Hr]. split; cbn.
    + intros id d. rewrite lookup_app. destruct (descriptors io !! id) as [d0 |] eqn:E; [intros [= <-]; by eapply Hp |].
      intros [_ <-]%list_lookup_singleton_Some. done.
    + intros id (d & Hd & ?)%Hr. exists d. split; [by apply lookup_app_l_Some | done].
  - intros [= <-]. by apply release_inv.
  - destruct (descriptors io !! id) as [d |] eqn:Ed; [| done]. case_match eqn:Hg; [| done]. intros [= <-].
    apply andb_true_iff in Hg as [[Hi _]%may_run_true _]. by apply set_descriptor_idle.
  - destruct (descriptors io !! id) as [d |] eqn:Ed; [| done]. case_match eqn:Hg; [| done].
    rewrite !andb_true_iff in Hg. destruct Hg as [[[Hi _]%may_run_true Hw] _].
    assert (Hc : io_inv (set_descriptor id (completed d) io)) by by apply set_descriptor_idle.
    destruct (callable (handler_ d)); intros [= <-]; [| done]. destruct Hc as [Hp _]. split; [exact Hp |].
    intros id' [= <-]. exists (completed d). cbn. rewrite list_lookup_insert_eq by (by eapply lookup_lt_Some).
    split; [done |]. split; [| done]. destruct (posted d) eqn:Hpo; [| done].
    by rewrite (inv_posted io Hinv id d Ed Hpo) in Hw.
  - destruct (descriptors io !! id) as [d |] eqn:Ed; [| done]. case_match eqn:Hg; [| done]. intros [= <-].
    apply andb_true_iff in Hg as [[Hi _]%may_run_true _]. by apply set_descriptor_idle.
  - destruct (thread io) as [| id |] eqn:Ht; [done | | done]. destruct (descriptors io !! id) as [d |] eqn:Ed; [| done].
    intros [= <-]. unfold finish. destruct (invoke _ _ _) as [[u | x] s].
    + destruct (inv_running io Hinv id Ht) as (d0 & Hd0 & Hpo & _). rewrite Ed in Hd0. injection Hd0 as <-.
      assert (Hidle : io_inv (set_thread Idle io)) by (destruct Hinv; by split).
      pose proof (set_descriptor_idle id (mkDescriptor (handler_ d) (owned d) (posted d) true) _ Hidle eq_refl) as Hs.
      cbn in Hs. destruct (Hs ltac:(by rewrite Hpo)) as [Hp Hr]. by split.
    + destruct Hinv as [Hp _]. by split.
  - intros [= <-]. destruct Hinv. by split.
  - case_match; [| done]. intros [= <-]. destruct Hinv as [Hp _]. by split.
Qed.

Lemma io_run_inv es : forall io io', io_inv io -> io_run es io = Some io' -> io_inv io'.
Proof.
  induction es as [| e es IH]; intros io io' Hinv; cbn; [by intros [= <-] |].
  destruct (step e io) as [io1 |] eqn:E; [| done]. eapply IH. by eapply io_step_inv.
Qed.

(** ** An exception ends the thread *)

Lemma ended_step e io io' : thread io = Ended -> step e io = Some io' ->
  thread io' = Ended /\ world io' = world io /\ (forall id, e <> Posted id /\ e <> Readable id).
Proof.
  intros Ht. assert (Hno : may_run io = false) by (unfold may_run; by rewrite Ht).
  destruct e as [cb | id | id | id | id | | |]; cbn [step]; rewrite ?Hno, ?Ht; try (case_match; done); try done.
  - cbn. by intros [= <-].
  - intros [= <-]. unfold release. by case_match.
  - by intros [= <-].
Qed.

Lemma ended_run es : forall io io', thread io = Ended -> io_run es io = Some io' ->
  thread io' = Ended /\ world io' = world io /\ (forall id, (Posted id ∉ es) /\ (Readable id ∉ es)).
Proof.
  induction es as [| e es IH]; intros io io' Ht; cbn.
  { intros [= <-]. split; [done |]. split; [done |]. intros id. set_solver. }
  destruct (step e io) as [io1 |] eqn:E; [| done]. intros Hrun.
  destruct (ended_step e io io1 Ht E) as (Ht1 & Hw1 & Hne). destruct (IH io1 io' Ht1 Hrun) as (? & Hw & Hno).
  split; [done |]. split; [congruence |]. intros id. specialize (Hne id). specialize (Hno id). set_solver.
Qed.

Lemma finish_throws io id d x s es io' :
  thread io = Running id -> descriptors io !! id = Some d -> invoke (handler_ d) tt (world io) = (Err x, s) ->
  io_run (Finish :: es) io = Some io' ->
  thread io' = Ended /\ world io' = s /\ (forall id', (Posted id' ∉ es) /\ (Readable id' ∉ es)).
Proof.
  intros Hrunning Hd Hthrow Hrun. cbn in Hrun. rewrite Hrunning, Hd in Hrun. cbn in Hrun. unfold finish in Hrun.
  rewrite Hthrow in Hrun. exact (ended_run es (set_thread Ended (set_world s io)) io' eq_refl Hrun).
Qed.

(** an exception that leaves a read handler ends the thread of the
    context: nothing the handlers work on is changed any more, no handler is
    called and no new descriptor is ever waited for, although registering
    one still succeeds. *)
Theorem handler_exception_ends_io (io : Io) (id : nat) (d : DescriptorBase) (x : exn) (s : S) (es : list event) (io' : Io)
  (Hrunning : thread io = Running id) (Hd : descriptors io !! id = Some d)
  (Hthrow : invoke (handler_ d) tt (world io) = (Err x, s)) (Hrun : io_run (Finish :: es) io = Some io') :
  thread io' = Ended /\ world io' = s /\ (forall id', (Posted id' ∉ es) /\ (Readable id' ∉ es)) /\
  forall cb, is_ok (addReadCb true cb io') = true.
Proof.
  by destruct (finish_throws io id d x s es io' Hrunning Hd Hthrow Hrun) as (? & ? & ?).
Qed.

(** ** Handlers that do not throw are served for ever *)

Definition returns (cb : IoCb) : Prop := forall s, exists s', invoke cb tt s = (Ok tt, s').

(** no destructor, no failed wait, and only good handlers *)
Definition orderly (e : event) : Prop :=
  match e with AddRead cb => returns cb | WaitError _ | Stop => False | _ => True end.

Definition attended (io : Io) (id : nat) (d : DescriptorBase) : Prop :=
  posted d = true \/ waiting d = true \/ thread io = Running id.

Record serving (io : Io) : Prop := {
  sv_thread : thread io <> Ended;
  sv_stopped : stopped io = false;
  sv_each : forall id d, descriptors io !! id = Some d -> returns (handler_ d) /\ attended io id d
}.

Lemma newIo_serving s : serving (newIo s).
Proof. split; [done | done |]. by intros []. Qed.

Lemma returns_callable cb (s : S) : returns cb -> callable cb = true.
Proof. intros H. destruct (H s) as [s' Hs]. unfold invoke in Hs. unfold callable. by destruct (func_ cb). Qed.

(** a changed descriptor that is still attended to *)
Lemma serving_set id d0 d t io :
  serving io -> descriptors io !! id = Some d0 -> handler_ d = handler_ d0 -> t <> Ended ->
  (posted d = true \/ waiting d = true \/ t = Running id) -> (forall id', id' <> id -> thread io = Running id' -> t = Running id') ->
  serving (set_thread t (set_descriptor id d io)).
Proof.
  intros [_ Hs Heach] Hd0 Hh Ht Hd Hother. split; [done | done |]. intros id' d' Hd'. cbn in Hd'.
  destruct (decide (id = id')) as [<- | Hne].
  - rewrite list_lookup_insert_eq in Hd' by (by eapply lookup_lt_Some). injection Hd' as <-. rewrite Hh.
    split; [by eapply Heach | exact Hd].
  - rewrite list_lookup_insert_ne in Hd' by done. destruct (Heach id' d' Hd') as [? Ha]. split; [done |].
    unfold attended in *. cbn. destruct Ha as [? | [? | Hr]]; [by left | by right; left |]. right. right. by apply Hother.
Qed.

Lemma set_thread_same io : set_thread (thread io) io = io.
Proof. by destruct io. Qed.

Lemma serving_step e io io' : serving io -> orderly e -> step e io = Some io' -> serving io'.
Proof.
  intros Hs Ho. destruct e as [cb | id | id | id | id | | |]; cbn [step]; try done.
  - cbn. intros [= <-]. destruct Hs as [H1 H2 H3]. split; [done | done |]. cbn. intros id d. rewrite lookup_app.
    destruct (descriptors io !! id) as [d0 |] eqn:E; [intros [= <-]; by apply H3 |].
    intros [_ <-]%list_lookup_singleton_Some. split; [exact Ho | by left].
  - intros [= <-]. unfold release. destruct (descriptors io !! id) as [d |] eqn:Ed; [| done].
    destruct (sv_each io Hs id d Ed) as [_ Ha]. rewrite <- (set_thread_same (set_descriptor _ _ _)).
    eapply serving_set; [done | exact Ed | done | apply Hs | exact Ha | done].
  - destruct (descriptors io !! id) as [d |] eqn:Ed; [| done]. case_match eqn:Hg; [| done]. intros [= <-].
    rewrite <- (set_thread_same (set_descriptor _ _ _)).
    eapply serving_set; [done | exact Ed | done | apply Hs | by right; left | done].
  - destruct (descriptors io !! id) as [d |] eqn:Ed; [| done]. case_match eqn:Hg; [| done].
    destruct (sv_each io Hs id d Ed) as [Hr _]. rewrite (returns_callable _ (world io) Hr). intros [= <-].
    rewrite !andb_true_iff in Hg. destruct Hg as [[[Hidle _]%may_run_true _] _].
    eapply serving_set; [done | exact Ed | done | done | by right; right | by rewrite Hidle].
  - destruct (thread io) as [| id |] eqn:Ht; [done | | done]. destruct (descriptors io !! id) as [d |] eqn:Ed; [| done].
    intros [= <-]. unfold finish. destruct (sv_each io Hs id d Ed) as [Hr _]. destruct (Hr (world io)) as [s' ->].
    assert (Hs' : serving (set_world s' io)) by (destruct Hs; by split).
    eapply (serving_set id d); [exact Hs' | exact Ed | done | done | by right; left |].
    intros id' Hne. cbn. rewrite Ht. intros [= <-]. done.
  - case_match eqn:Hg; [| done]. apply andb_true_iff in Hg as [_ Hst]. by rewrite (sv_stopped io Hs) in Hst.
Qed.

Lemma serving_run es : forall io io', serving io -> Forall orderly es -> io_run es io = Some io' -> serving io'.
Proof.
  induction es as [| e es IH]; intros io io' Hs Hes; cbn; [by intros [= <-] |]. inversion_clear Hes as [| ? ? He Hes'].
  destruct (step e io) as [io1 |] eqn:E; [| done]. apply IH; [by eapply serving_step | done].
Qed.

(** C24: as long as no handler throws, every descriptor whose owner keeps it
    can be served: its posted function or its handler can run now, or can
    once the handler under way has returned, however the registrations,
    releases and calls before were interleaved. *)
Theorem io_keeps_serving (s : S) (es : list event) (io : Io) (id : nat) (d : DescriptorBase)
  (Hes : Forall orderly es) (Hrun : io_run es (newIo s) = Some io)
  (Hd : descriptors io !! id = Some d) (Howned : owned d = true) :
  match thread io with
  | Idle => is_Some (step (Posted id) io) \/ exists io', step (Readable id) io = Some io' /\ thread io' = Running id
  | Running _ => exists io', step Finish io = Some io' /\ thread io' = Idle
  | Ended => False
  end.
Proof.
  assert (Hs : serving io) by (eapply serving_run; [apply newIo_serving | exact Hes | exact Hrun]).
  pose proof (io_run_inv es _ io (newIo_inv s) Hrun) as Hinv.
  destruct (thread io) as [| id' |] eqn:Ht; [| | by apply (sv_thread io Hs)].
  - destruct (sv_each io Hs id d Hd) as [Hr Ha]. cbn. rewrite Hd.
    assert (Hmay : may_run io = true) by (unfold may_run; by rewrite Ht, (sv_stopped io Hs)). rewrite Hmay.
    destruct Ha as [Hp | [Hw | Hrunning]]; [| | by rewrite Ht in Hrunning].
    + left. by rewrite Hp.
    + right. unfold alive. rewrite Hd, Hw, Howned, (returns_callable _ s Hr). by eexists.
  - destruct (inv_running io Hinv id' Ht) as (d' & Hd' & _). cbn. rewrite Ht, Hd'. eexists. split; [done |].
    unfold finish. destruct (sv_each io Hs id' d' Hd') as [Hr _]. by destruct (Hr (world io)) as [s' ->].
Qed.

(** ** Releasing a descriptor *)

Definition unowned (io : Io) (id : nat) : Prop := exists d, descriptors io !! id = Some d /\ owned d = false.

Lemma unowned_step e io io' id : io_inv io -> unowned io id -> step e io = Some io' -> unowned io' id /\ e <> Readable id.
Proof.
  intros Hinv (d & Hd & Hown).
  assert (Hset : forall id' d' t st w, (id' = id -> owned d' = false) ->
    unowned (mkIo (<[id' := d']> (descriptors io)) t st w) id).
  { intros id' d' t st w Hd'. unfold unowned. cbn. destruct (decide (id' = id)) as [-> | Hne].
    - exists d'. rewrite list_lookup_insert_eq by (by eapply lookup_lt_Some). by split; [| apply Hd'].
    - exists d. by rewrite list_lookup_insert_ne. }
  destruct e as [cb | id' | id' | id' | id' | | |]; cbn [step].
  - cbn. intros [= <-]. split; [| done]. exists d. split; [by apply lookup_app_l_Some | done].
  - intros [= <-]. split; [| done]. unfold release. destruct (descriptors io !! id') as [d' |]; [| by exists d]. by apply Hset.
  - destruct (descriptors io !! id') as [d' |] eqn:Ed; [| done]. case_match; [| done]. intros [= <-]. split; [| done].
    apply Hset. intros ->. cbn. by simplify_eq.
  - destruct (descriptors io !! id') as [d' |] eqn:Ed; [| done]. case_match eqn:Hg; [| done].
    rewrite !andb_true_iff in Hg. destruct Hg as [[[Hidle _]%may_run_true Hw] Hal].
    assert (Hne : id' <> id).
    { intros ->. simplify_eq. unfold alive in Hal. rewrite Hd, Hown, Hidle in Hal. cbn in Hal.
      destruct (posted d) eqn:Hpo; [| done]. by rewrite (inv_posted io Hinv id d Hd Hpo) in Hw. }
    intros [= <-]. split; [| congruence]. destruct (callable _); by apply Hset.
  - destruct (descriptors io !! id') as [d' |] eqn:Ed; [| done]. case_match; [| done]. intros [= <-]. split; [| done].
    apply Hset. intros ->. cbn. by simplify_eq.
  - destruct (thread io) as [| id' |] eqn:Ht; [done | | done]. destruct (descriptors io !! id') as [d' |] eqn:Ed; [| done].
    intros [= <-]. split; [| done]. unfold finish. destruct (invoke _ _ _) as [[u | x] w]; [| by exists d].
    apply Hset. intros ->. cbn. by simplify_eq.
  - intros [= <-]. split; [by exists d | done].
  - case_match; [| done]. intros [= <-]. split; [by exists d | done].
Qed.

Lemma unowned_run es id : forall io io', io_inv io -> unowned io id -> io_run es io = Some io' -> Readable id ∉ es.
Proof.
  induction es as [| e es IH]; intros io io' Hinv Hu; cbn; [intros _; set_solver |].
  destruct (step e io) as [io1 |] eqn:E; [| done]. intros Hrun.
  destruct (unowned_step e io io1 id Hinv Hu E) as [Hu1 Hne].
  pose proof (IH io1 io' (io_step_inv e io io1 Hinv E) Hu1 Hrun). set_solver.
Qed.

(** once the owner of a descriptor has dropped its pointer, no call of
    the handler begins any more; but dropping it does not wait for a call
    under way, which still changes the world afterwards. *)
Theorem release_does_not_wait (s : S) (before after : list event) (io io' : Io) (id : nat) (d : DescriptorBase)
  (Hbefore : io_run before (newIo s) = Some io) (Hd : descriptors io !! id = Some d)
  (Hafter : io_run (Release id :: after) io = Some io') :
  (Readable id ∉ after) /\
  (thread io = Running id ->
    exists io2, io_run [Release id; Finish] io = Some io2 /\ world io2 = (invoke (handler_ d) tt (world io)).2).
Proof.
  pose proof (io_run_inv before _ io (newIo_inv s) Hbefore) as Hinv. cbn in Hafter.
  assert (Hu : unowned (release id io) id).
  { unfold release, unowned. rewrite Hd. cbn. eexists. split; [apply list_lookup_insert_eq; by eapply lookup_lt_Some | done]. }
  split; [exact (unowned_run after id _ io' (release_inv id io Hinv) Hu Hafter) |].
  intros Ht. cbn. unfold release at 1 2. rewrite Hd. cbn. rewrite Ht, list_lookup_insert_eq by (by eapply lookup_lt_Some).
  eexists. split; [done |]. assert (Hw : world (release id io) = world io) by (unfold release; by rewrite Hd).
  unfold finish. cbn. rewrite Hw. by destruct (invoke _ _ _) as [[u | x] w].
Qed.

(** ** The destructor *)

(** what the thread of the context does itself *)
Definition own_step (e : event) : Prop :=
  match e with Posted _ | Readable _ | WaitError _ | Finish | Exit => True | _ => False end.

Definition steps_left (io : Io) : nat := match thread io with Ended => 0 | Idle => 1 | Running _ => 2 end.

Lemma stopped_step e io io' :
  stopped io = true -> own_step e -> step e io = Some io' -> stopped io' = true /\ steps_left io' < steps_left io.
Proof.
  intros Hst He. assert (Hno : may_run io = false) by (unfold may_run; rewrite Hst; apply andb_false_r).
  destruct e as [cb | id | id | id | id | | |]; cbn [step]; try done; rewrite ?Hno; cbn [andb];
    try (destruct (descriptors io !! id); done).
  - unfold steps_left. destruct (thread io) as [| id |] eqn:Ht; [done | | done].
    destruct (descriptors io !! id) as [d |]; [| done]. intros [= <-]. unfold finish.
    destruct (invoke _ _ _) as [[u | x] w]; cbn; (split; [done | lia]).
  - case_match eqn:Hg; [| done]. intros [= <-]. apply andb_true_iff in Hg as [Hi%bool_decide_eq_true _].
    split; [done |]. unfold steps_left. rewrite Hi. cbn. lia.
Qed.

Lemma stopped_run es : forall io io', stopped io = true -> Forall own_step es -> io_run es io = Some io' ->
  length es + steps_left io' <= steps_left io.
Proof.
  induction es as [| e es IH]; intros io io' Hst Hes; cbn; [by intros [= <-] |]. inversion_clear Hes as [| ? ? He Hes'].
  destruct (step e io) as [io1 |] eqn:E; [| done]. intros Hrun.
  destruct (stopped_step e io io1 Hst He E) as [Hst1 Hlt]. specialize (IH io1 io' Hst1 Hes' Hrun). lia.
Qed.

(** the join in the destructor ends: once the context is stopped its
    thread makes at most two more steps, finishing the handler under way,
    and is never stuck before it has ended. *)
Theorem io_destructor_ends (s : S) (before es : list event) (io io' : Io)
  (Hbefore : io_run before (newIo s) = Some io) (Hown : Forall own_step es)
  (Hrun : io_run (Stop :: es) io = Some io') :
  length es <= 2 /\ (thread io' <> Ended -> exists e, own_step e /\ is_Some (step e io')).
Proof.
  pose proof (io_run_inv before _ io (newIo_inv s) Hbefore) as Hinv.
  set (io1 := mkIo (descriptors io) (thread io) true (world io)). assert (Hinv1 : io_inv io1) by (by destruct Hinv).
  change (io_run es io1 = Some io') in Hrun. pose proof (stopped_run es io1 io' eq_refl Hown Hrun) as Hlen.
  split; [unfold steps_left in Hlen at 2; destruct (thread io1); lia |]. intros Hne.
  pose proof (io_run_inv es io1 io' Hinv1 Hrun) as Hinv'.
  assert (Hst : stopped io' = true).
  { clear - Hown Hrun. assert (H1 : stopped io1 = true) by done. revert Hown Hrun H1. generalize io1.
    induction es as [| e es IH]; intros i Hown; cbn; [by intros [= <-] |]. inversion_clear Hown as [| ? ? He Hes'].
    destruct (step e i) as [i1 |] eqn:E; [| done]. intros Hrun Hst. eapply IH; [done | exact Hrun |].
    by apply (stopped_step e i i1). }
  destruct (thread io') as [| id |] eqn:Ht; [| | done].
  - exists Exit. split; [done |]. cbn. rewrite Ht, Hst. by eexists.
  - exists Finish. split; [done |]. cbn. rewrite Ht. destruct (inv_running io' Hinv' id Ht) as (d & -> & _). by eexists.
Qed.

End Io.

Arguments Io : clear implicits.
Arguments IoCb : clear implicits.
Arguments event : clear implicits.

(** ** Concrete runs *)

Module Sample.

(** a handler that counts its calls, and one that throws *)
Definition count : IoCb nat := mkCallback "io.cc:1" (Some (fun _ n => (Ok tt, S n))).
Definition broken : IoCb nat := mkCallback "io.cc:2" (Some (fun _ n => (Err (EXCEPT "bad file"), S n))).

Lemma count_returns : returns count.
Proof. intros n. by exists (S n). Qed.

Definition served : list (event nat) := [AddRead count; Posted 0; Readable 0; Finish; AddRead count; Readable 0].

Lemma io_keeps_serving_witness : exists io, io_run served (newIo 0) = Some io /\
  exists io', step Finish io = Some io' /\ thread io' = Idle.
Proof.
  set (io := default (newIo 0) (io_run served (newIo 0))). exists io. split; [vm_compute; reflexivity |].
  apply (io_keeps_serving 0 served io 1 (mkDescriptor count true true false)); [| vm_compute; reflexivity ..].
  repeat constructor; apply count_returns.
Defined.

Lemma handler_exception_ends_io_witness : exists io,
  io_run [AddRead broken; AddRead count; Posted 0; Posted 1; Readable 0; Finish; Release 0; Stop] (newIo 0) = Some io /\
  thread io = Ended /\ world io = 1.
Proof.
  set (before := default (newIo 0) (io_run [AddRead broken; AddRead count; Posted 0; Posted 1; Readable 0] (newIo 0))).
  set (io := default before (io_run [Finish; Release 0; Stop] before)). exists io. split; [vm_compute; reflexivity |].
  destruct (handler_exception_ends_io before 0 (mkDescriptor broken true false false) (EXCEPT "bad file") 1 [Release 0; Stop] io)
    as (Hended & Hworld & _); [vm_compute; reflexivity .. |]. exact (conj Hended Hworld).
Defined.

Lemma release_does_not_wait_witness : exists io io2,
  io_run [AddRead count; Posted 0; Readable 0] (newIo 0) = Some io /\
  io_run [Release 0; Finish] io = Some io2 /\ world io2 = 1.
Proof.
  set (before := [AddRead count; Posted 0; Readable 0]). set (io := default (newIo 0) (io_run before (newIo 0))).
  destruct (release_does_not_wait 0 before [Finish] io (default io (io_run [Release 0; Finish] io)) 0
              (mkDescriptor count true false false)) as (_ & Hlate); [vm_compute; reflexivity .. |].
  destruct (Hlate ltac:(vm_compute; reflexivity)) as (io2 & Hrun & Hw). exists io, io2.
  split; [vm_compute; reflexivity | split; [exact Hrun | exact Hw]].
Defined.

Lemma io_destructor_ends_witness : exists io,
  io_run [AddRead count; Posted 0; Readable 0; Stop; Finish] (newIo 0) = Some io /\
  exists e, own_step e /\ is_Some (step e io).
Proof.
  set (before := [AddRead count; Posted 0; Readable 0]).
  set (io := default (newIo 0) (io_run (before ++ [Stop; Finish]) (newIo 0))).
  destruct (io_destructor_ends 0 before [Finish] (default (newIo 0) (io_run before (newIo 0))) io) as (_ & Hmore);
    [vm_compute; reflexivity | by constructor | vm_compute; reflexivity |].
  exists io. split; [vm_compute; reflexivity |]. apply Hmore. vm_compute. discriminate.
Defined.

End Sample.
