(* ===== verification/Signal.v ===== *)
(** * Signals and the end of the main loop

    [Signal] of [src/signal/signal.cc]: the stop flag, the event descriptor
    that announces it, and the two handlers, which may interrupt each other
    and the main loop of [main.cc] anywhere; and the thread wrapper of
    [src/thread/thread.cc]. *)

From S2P Require Import Prelude.

#[local] Open Scope string_scope.
#[local] Open Scope list_scope.

(** ** The stop flag *)

Inductive sig : Type := SIGINT | SIGTERM | SIGSEGV | SIGOTHER.
#[export] Instance sig_eq_dec : EqDecision sig.
Proof. solve_decision. Defined.

(* src/signal/signal.cc:72-87 Signal::commonSignalHandler *)
Definition sig_str (s : sig) : string :=
  match s with SIGINT => "SIGINT" | SIGTERM => "SIGTERM" | SIGSEGV => "SIGSEGV" | SIGOTHER => "UNKNOWN" end.

(** where a handler is; the first four belong to [commonSignalHandler], the
    rest to [crashSignalHandler] *)
Inductive hpc : Type :=
| Print            (* about to write the name of the signal *)
| TestStop         (* triggerStop: about to read stop_ *)
| StoreStop        (* about to set stop_ *)
| WriteFd          (* about to write to stop_fd_ *)
| Trace            (* about to print the stack *)
| RestoreDefault   (* about to put the default disposition back *)
| Raise            (* about to raise the signal again *)
| Returned.

(** where the main loop is *)
Inductive mpc : Type := LoopTest | LoopSleep | LoopLeft.
#[export] Instance mpc_eq_dec : EqDecision mpc.
Proof. solve_decision. Defined.

Record handler : Type := mkHandler { h_sig : sig; h_pc : hpc }.

(** [default_crash]: SIGSEGV has its default disposition again *)
(* src/signal/signal.h:14-35 Signal *)
Record Signal : Type := mkSignal {
  stop_ : bool;
  stop_fd_ : Z;                 (* the counter of the event descriptor *)
  handlers : list handler;
  main_ : mpc;
  default_crash : bool;
  killed : bool;
  printed : list string
}.

(* src/signal/signal.cc:111-116 Signal::Signal *)
Definition newSignal : Signal := mkSignal false 0 [] LoopTest false false [].

(* src/signal/signal.cc:32-38 Signal::shouldStop *)
Definition shouldStop (s : Signal) : bool := stop_ s.

Definition set_handler (i : nat) (h : handler) (s : Signal) : Signal :=
  mkSignal (stop_ s) (stop_fd_ s) (<[i := h]> (handlers s)) (main_ s) (default_crash s) (killed s) (printed s).
Definition set_main (m : mpc) (s : Signal) : Signal :=
  mkSignal (stop_ s) (stop_fd_ s) (handlers s) m (default_crash s) (killed s) (printed s).
Definition kill (s : Signal) : Signal :=
  mkSignal (stop_ s) (stop_fd_ s) (handlers s) (main_ s) (default_crash s) true (printed s).

(** a non-blocking event descriptor refuses what would overflow it *)
Definition eventfd_write (counter : Z) : Z := if (counter + 1 <=? 2 ^ 64 - 2)%Z then (counter + 1)%Z else counter.

(** where a handler goes when [triggerStop] returns *)
Definition after_trigger (h : sig) : hpc := match h with SIGSEGV => Trace | _ => Returned end.

(** one step of a handler *)
(* src/signal/signal.cc:50-109 Signal::triggerStop *)
Definition handler_step (i : nat) (h : handler) (s : Signal) : option Signal :=
  let go pc := set_handler i (mkHandler (h_sig h) pc) s in
  match h_pc h with
  | Print =>
      let s' := go TestStop in
      Some (mkSignal (stop_ s') (stop_fd_ s') (handlers s') (main_ s') (default_crash s') (killed s')
              (printed s' ++ [(String "009" "Caught signal: " ++ sig_str (h_sig h) ++ String "010" EmptyString)%string]))
  | TestStop => Some (go (if shouldStop s then after_trigger (h_sig h) else StoreStop))
  | StoreStop =>
      let s' := go WriteFd in
      Some (mkSignal true (stop_fd_ s') (handlers s') (main_ s') (default_crash s') (killed s') (printed s'))
  | WriteFd =>
      let s' := go (after_trigger (h_sig h)) in
      Some (mkSignal (stop_ s') (eventfd_write (stop_fd_ s')) (handlers s') (main_ s') (default_crash s') (killed s') (printed s'))
  | Trace => Some (go RestoreDefault)
  | RestoreDefault =>
      let s' := go Raise in
      Some (mkSignal (stop_ s') (stop_fd_ s') (handlers s') (main_ s') true (killed s') (printed s'))
  | Raise => Some (kill s)
  | Returned => None
  end.

(** What may happen: a signal arrives, a handler goes on, the main loop goes
    on.  [main] has registered the handlers of the first three signals. *)
Inductive event : Type := Deliver (s : sig) | Handle (i : nat) | MainStep.

(* src/signal/signal.cc:97-109 Signal::crashSignalHandler *)
Definition step (e : event) (s : Signal) : option Signal :=
  if killed s then None
  else
    match e with
    | Deliver SIGOTHER => Some (kill s)
    | Deliver sg =>
        if bool_decide (sg = SIGSEGV) && default_crash s then Some (kill s)
        else Some (mkSignal (stop_ s) (stop_fd_ s) (handlers s ++ [mkHandler sg Print]) (main_ s) (default_crash s) false (printed s))
    | Handle i => match handlers s !! i with Some h => handler_step i h s | None => None end
    | MainStep =>
        match main_ s with
        | LoopTest => Some (set_main (if shouldStop s then LoopLeft else LoopSleep) s)
        | LoopSleep => Some (set_main LoopTest s)
        | LoopLeft => None
        end
    end.

Fixpoint sig_run (es : list event) (s : Signal) : option Signal :=
  match es with
  | [] => Some s
  | e :: es => match step e s with Some s' => sig_run es s' | None => None end
  end.

(** ** Invariant *)

Definition before_store (h : handler) : bool := match h_pc h with Print | TestStop | StoreStop => true | _ => false end.
Definition at_write (h : handler) : bool := match h_pc h with WriteFd => true | _ => false end.

(** every handler that is past the store has seen the flag set; the flag is
    announced, or about to be; and a delivered signal has set it or is about to *)
Record sig_inv (s : Signal) : Prop := {
  si_past : forall i h, handlers s !! i = Some h -> before_store h = false -> stop_ s = true;
  si_quiet : stop_ s = false -> stop_fd_ s = 0%Z;
  si_told : stop_ s = true -> (1 <= stop_fd_ s)%Z \/ exists i h, handlers s !! i = Some h /\ at_write h = true;
  si_cause : stop_ s = true -> handlers s <> [];
  si_range : (0 <= stop_fd_ s <= 2 ^ 64 - 2)%Z;
  si_left : main_ s = LoopLeft -> stop_ s = true
}.

Lemma newSignal_inv : sig_inv newSignal.
Proof. split; cbn; try done; lia. Qed.

Lemma kill_inv s : sig_inv s -> sig_inv (kill s).
Proof. intros []. by split. Qed.

Lemma eventfd_write_spec c : (0 <= c <= 2 ^ 64 - 2)%Z -> (1 <= eventfd_write c <= 2 ^ 64 - 2)%Z.
Proof. intros H. unfold eventfd_write. destruct (Z.leb_spec (c + 1) (2 ^ 64 - 2)); lia. Qed.

Lemma lookup_set {A} (i j : nat) (h h0 h' : A) (l : list A) : l !! i = Some h0 -> <[i := h]> l !! j = Some h' -> h' = h \/ j <> i /\ l !! j = Some h'.
Proof.
  intros Hi. destruct (decide (i = j)) as [<- | Hne].
  - rewrite list_lookup_insert_eq by (by eapply lookup_lt_Some). intros [= <-]. by left.
  - rewrite list_lookup_insert_ne by done. by right.
Qed.

(** a handler that moves within the same phase *)
Lemma move_inv i h pc s dc out :
  sig_inv s -> handlers s !! i = Some h -> (before_store (mkHandler (h_sig h) pc) = false -> stop_ s = true) ->
  (at_write h = true -> (1 <= stop_fd_ s)%Z) ->
  sig_inv (mkSignal (stop_ s) (stop_fd_ s) (<[i := mkHandler (h_sig h) pc]> (handlers s)) (main_ s) dc (killed s) out).
Proof.
  intros [Hp Hq Ht Hc Hr Hl] Hi Hpc Hw. split; cbn; [| done | | | done | done].
  - intros j h' [-> | [_ Hj]]%(lookup_set i j _ h); [exact Hpc | by eapply Hp | done].
  - intros Hs. destruct (Ht Hs) as [H1 | (j & hj & Hj & Hwj)]; [by left |]. destruct (decide (i = j)) as [<- | Hne].
    + rewrite Hi in Hj. injection Hj as <-. left. by apply Hw.
    + right. exists j, hj. by rewrite list_lookup_insert_ne.
  - intros Hs Hnil. apply (Hc Hs). apply length_zero_iff_nil. rewrite <- (length_insert _ i (mkHandler (h_sig h) pc)), Hnil. done.
Qed.

Lemma handler_step_inv i h s s' : sig_inv s -> handlers s !! i = Some h -> handler_step i h s = Some s' -> sig_inv s'.
Proof.
  intros Hinv Hi. pose proof (si_past s Hinv i h Hi) as Hpast. pose proof (lookup_lt_Some _ _ _ Hi) as Hlt.
  unfold handler_step. destruct h as [sg pc]. destruct pc; cbn [h_pc h_sig]; try (intros [= <-]); try done.
  - by apply (move_inv i (mkHandler sg Print) TestStop s).
  - eapply (move_inv i (mkHandler sg TestStop) _ s); [done | exact Hi | | done]. unfold shouldStop. by destruct (stop_ s).
  - destruct Hinv as [Hp Hq Ht Hc Hr Hl]. split; cbn; try done.
    + intros _. right. exists i, (mkHandler sg WriteFd). by rewrite list_lookup_insert_eq.
    + intros _ Hnil. apply (f_equal length) in Hnil. rewrite length_insert in Hnil. cbn in Hnil. lia.
  - assert (Hs : stop_ s = true) by by apply Hpast. destruct Hinv as [Hp Hq Ht Hc Hr Hl].
    pose proof (eventfd_write_spec _ Hr) as He. split; cbn; try done.
    + by rewrite Hs.
    + intros _. left. lia.
    + intros _ Hnil. apply (f_equal length) in Hnil. rewrite length_insert in Hnil. cbn in Hnil. lia.
    + lia.
  - eapply (move_inv i (mkHandler sg Trace) RestoreDefault s); [done | exact Hi | intros _; by apply Hpast | done].
  - eapply (move_inv i (mkHandler sg RestoreDefault) Raise s); [done | exact Hi | intros _; by apply Hpast | done].
  - by apply kill_inv.
Qed.

Lemma deliver_inv sg s :
  sig_inv s ->
  sig_inv (mkSignal (stop_ s) (stop_fd_ s) (handlers s ++ [mkHandler sg Print]) (main_ s) (default_crash s) false (printed s)).
Proof.
  intros [Hp Hq Ht Hc Hr Hl]. split; cbn; try done.
  - intros i h. rewrite lookup_app. destruct (handlers s !! i) as [h0 |] eqn:E; [intros [= <-]; by eapply Hp |].
    by intros [_ <-]%list_lookup_singleton_Some.
  - intros Hs. destruct (Ht Hs) as [? | (j & hj & Hj & Hw)]; [by left | right]. exists j, hj.
    split; [by apply lookup_app_l_Some | done].
  - intros Hs Hnil. by apply app_eq_nil in Hnil as [_ [=]].
Qed.

Lemma sig_step_inv e s s' : sig_inv s -> step e s = Some s' -> sig_inv s'.
Proof.
  intros Hinv. unfold step. destruct (killed s); [done |]. destruct e as [sg | i |].
  - destruct sg; cbn; try (intros [= <-]; by apply deliver_inv); [| intros [= <-]; by apply kill_inv].
    intros Hstep. assert (Hs : s' = kill s \/ s' = mkSignal (stop_ s) (stop_fd_ s) (handlers s ++ [mkHandler SIGSEGV Print])
      (main_ s) (default_crash s) false (printed s)) by (destruct (default_crash s); injection Hstep as <-; [by left | by right]).
    destruct Hs as [-> | ->]; [by apply kill_inv | by apply deliver_inv].
  - destruct (handlers s !! i) as [h |] eqn:Ei; [| done]. by apply handler_step_inv.
  - destruct Hinv as [Hp Hq Ht Hc Hr Hl]. unfold shouldStop.
    destruct (main_ s); [| | done]; intros [= <-]; split; cbn; try done. by destruct (stop_ s).
Qed.

Lemma sig_run_inv es : forall s s', sig_inv s -> sig_run es s = Some s' -> sig_inv s'.
Proof.
  induction es as [| e es IH]; intros s s' Hinv; cbn; [by intros [= <-] |].
  destruct (step e s) as [s1 |] eqn:E; [| done]. apply IH. by eapply sig_step_inv.
Qed.

(** C25: however handlers interrupt each other and the main loop, the flag and
    the event descriptor agree: the loop is left only after the flag is set,
    the flag is set only by a handler, the descriptor stays silent until then,
    and once every handler has returned a delivered signal has both set the
    flag and made the descriptor readable. *)
Theorem stop_is_announced (es : list event) (s : Signal)
  (Hrun : sig_run es newSignal = Some s) :
  (main_ s = LoopLeft -> shouldStop s = true) /\
  (shouldStop s = true -> handlers s <> []) /\
  (shouldStop s = false -> stop_fd_ s = 0%Z) /\
  ((forall i h, handlers s !! i = Some h -> h_pc h = Returned) -> handlers s <> [] ->
     shouldStop s = true /\ (1 <= stop_fd_ s)%Z).
Proof.
  pose proof (sig_run_inv es _ s newSignal_inv Hrun) as [Hp Hq Ht Hc Hr Hl]. unfold shouldStop.
  split; [exact Hl |]. split; [exact Hc |]. split; [exact Hq |]. intros Hall Hne.
  destruct (handlers s) as [| h hs] eqn:Eh; [done |].
  assert (Hs : stop_ s = true).
  { apply (Hp 0 h); [done |]. unfold before_store. by rewrite (Hall 0 h eq_refl). }
  split; [done |]. destruct (Ht Hs) as [? | (j & hj & Hj & Hw)]; [done |]. unfold at_write in Hw. by rewrite (Hall j hj Hj) in Hw.
Qed.

(** ** The end of the main loop *)

Definition is_main (e : event) : bool := match e with MainStep => true | _ => false end.
Definition main_steps (es : list event) : nat := length (filter (fun e => is_main e = true) es).
Definition steps_left (m : mpc) : nat := match m with LoopLeft => 0 | LoopTest => 1 | LoopSleep => 2 end.

Lemma handler_step_main i h s s' :
  handler_step i h s = Some s' -> main_ s' = main_ s /\ (stop_ s = true -> stop_ s' = true).
Proof. unfold handler_step. destruct h as [sg []]; cbn; by intros [= <-]. Qed.

Lemma stopping_step e s s' :
  stop_ s = true -> step e s = Some s' ->
  stop_ s' = true /\ ((if is_main e then 1 else 0) + steps_left (main_ s') <= steps_left (main_ s))%nat.
Proof.
  intros Hs. unfold step. destruct (killed s); [done |]. destruct e as [sg | i |]; cbn [is_main].
  - destruct sg; cbn; try (by intros [= <-]). by destruct (default_crash s); intros [= <-].
  - destruct (handlers s !! i) as [h |]; [| done]. intros [Hm Hst]%handler_step_main. rewrite Hm. split; [by apply Hst | done].
  - unfold shouldStop. destruct (main_ s) eqn:Em; [| | done]; intros [= <-]; cbn; rewrite ?Hs; (split; [done | cbn; lia]).
Qed.

Lemma main_steps_cons e es : main_steps (e :: es) = ((if is_main e then 1 else 0) + main_steps es)%nat.
Proof. unfold main_steps. cbn. by destruct (is_main e). Qed.

Lemma stopping_run es : forall s s', stop_ s = true -> sig_run es s = Some s' ->
  stop_ s' = true /\ (main_steps es + steps_left (main_ s') <= steps_left (main_ s))%nat.
Proof.
  induction es as [| e es IH]; intros s s' Hs; cbn [sig_run]; [by intros [= <-] |].
  destruct (step e s) as [s1 |] eqn:E; [| done]. intros Hrun. destruct (stopping_step e s s1 Hs E) as [Hs1 Hm1].
  destruct (IH s1 s' Hs1 Hrun) as [Hs' Hm]. split; [done |].
  rewrite main_steps_cons. lia.
Qed.

(** the main loop ends: from the moment the flag is set, whatever other
    signals arrive and however the handlers are scheduled, the loop makes at
    most two more steps, and until it has been left it can always make one
    unless the process has been killed. *)
Theorem main_loop_ends (before es : list event) (s s' : Signal)
  (Hbefore : sig_run before newSignal = Some s) (Hstop : shouldStop s = true) (Hrun : sig_run es s = Some s') :
  (main_steps es <= 2)%nat /\ (killed s' = false -> main_ s' <> LoopLeft -> is_Some (step MainStep s')).
Proof.
  destruct (stopping_run es s s' Hstop Hrun) as [Hs' Hle]. split; [destruct (main_ s); cbn in Hle; lia |].
  intros Hk Hm. unfold step. rewrite Hk. destruct (main_ s'); [by eexists .. | done].
Qed.

(** a crash is never survived: once the handler of a segmentation fault
    has put the default disposition back, its next step kills the process, with
    the stop flag set but nothing shut down by the handler. *)
Theorem crash_kills (es : list event) (s : Signal) (i : nat) (h : handler)
  (Hrun : sig_run es newSignal = Some s) (Halive : killed s = false)
  (Hh : handlers s !! i = Some h) (Hpc : h_pc h = Raise) :
  exists s', step (Handle i) s = Some s' /\ killed s' = true /\ shouldStop s' = true /\ forall e, step e s' = None.
Proof.
  pose proof (sig_run_inv es _ s newSignal_inv Hrun) as Hinv.
  assert (Hs : stop_ s = true).
  { apply (si_past s Hinv i h Hh). unfold before_store. by rewrite Hpc. }
  exists (kill s). unfold step. rewrite Halive, Hh. unfold handler_step. by rewrite Hpc.
Qed.

(** ** Threads *)

Section Thread.
Context {S : Type}.

(** the name, and whether a thread has been started and not joined yet *)
(* src/thread/thread.h:11-23 Thread *)
Record Thread : Type := mkThread { name_ : string; thread_ : bool }.

(* src/thread/thread.cc:12-17 Thread::setName *)
Definition setName (thread_name : string) (t : Thread) : Thread := mkThread thread_name (thread_ t).
(* src/thread/thread.cc:19-24 Thread::getName *)
Definition getName (t : Thread) : string := name_ t.
(* src/thread/thread.cc:58-65 Thread::joinable *)
Definition joinable (t : Thread) : bool := thread_ t.
(* src/thread/thread.cc:47-56 Thread::join *)
Definition join (t : Thread) : Thread := if joinable t then mkThread (name_ t) false else t.

(** assigning to a thread that has not been joined terminates the process *)
(* src/thread/thread.cc:26-45 Thread::start *)
Definition start (t : Thread) : result exn Thread :=
  if joinable t then Err ABORT else Ok (mkThread (name_ t) true).

(** what the new thread runs, and what it logs *)
(* src/thread/thread.cc:31-44 Thread::start *)
Definition body (name : string) (func : ST S unit) (s : S) : result exn S * list string :=
  match func s with
  | (Ok _, s') => (Ok s', [])
  | (Err (EXCEPT what), s') | (Err (StdException what), s') =>
      (Ok s', ["Thread " ++ name ++ " caught exception: " ++ what]%string)
  | (Err x, _) => (Err x, [])
  end.

Lemma join_not_joinable t : joinable (join t) = false.
Proof. unfold join. by destruct (joinable t) eqn:E. Qed.

Lemma start_join t : start (join t) = Ok (mkThread (name_ t) true).
Proof. unfold start. rewrite join_not_joinable. unfold join. by destruct (joinable t). Qed.
End Thread.

(** ** Concrete runs *)

Module Sample.

(** SIGTERM while the handler of SIGINT is about to set the flag *)
Definition two_signals : list event :=
  [MainStep; Deliver SIGINT; Handle 0; Handle 0; Deliver SIGTERM; Handle 1; Handle 1; Handle 0; Handle 0; Handle 1; Handle 1].

Lemma stop_is_announced_witness : exists s, sig_run two_signals newSignal = Some s /\ (1 <= stop_fd_ s)%Z.
Proof.
  set (s := default newSignal (sig_run two_signals newSignal)). exists s. split; [vm_compute; reflexivity |].
  destruct (stop_is_announced two_signals s) as (_ & _ & _ & Hall); [vm_compute; reflexivity |].
  apply Hall; [| vm_compute; discriminate].
  intros [| [| i]] h; vm_compute; [intros [= <-]; reflexivity .. | discriminate].
Defined.

Lemma main_loop_ends_witness : exists s, sig_run (two_signals ++ [MainStep; MainStep]) newSignal = Some s /\
  (main_steps [MainStep; MainStep] <= 2)%nat /\ main_ s = LoopLeft.
Proof.
  set (s := default newSignal (sig_run (two_signals ++ [MainStep; MainStep]) newSignal)). exists s.
  split; [vm_compute; reflexivity |]. split; [| vm_compute; reflexivity].
  destruct (main_loop_ends two_signals [MainStep; MainStep] (default newSignal (sig_run two_signals newSignal)) s)
    as [Hle _]; [vm_compute; reflexivity .. | exact Hle].
Defined.

Definition fault : list event := [Deliver SIGSEGV; Handle 0; Handle 0; Handle 0; Handle 0; Handle 0; Handle 0].

Lemma crash_kills_witness : exists s s', sig_run fault newSignal = Some s /\ step (Handle 0) s = Some s' /\ killed s' = true.
Proof.
  set (s := default newSignal (sig_run fault newSignal)).
  destruct (crash_kills fault s 0 (mkHandler SIGSEGV Raise)) as (s' & Hstep & Hk & _); [vm_compute; reflexivity .. |].
  exists s, s'. split; [vm_compute; reflexivity | split; [exact Hstep | exact Hk]].
Defined.

End Sample.
