(* ===== verification/Cmdline.v ===== *)
(** * The command line

    [Cmdline] of [src/cmdline/cmdline.cc] and [CmdlineConfig] of
    [src/cmdline/cmdline_config.h], over the option parser CLI11, which is an
    interface with its documented behaviour and a reference instance; and the
    configuration file that [main.cc] writes for [--get-conf]. *)

From S2P Require Import Prelude Configs Log.

#[local] Open Scope string_scope.
#[local] Open Scope list_scope.

(* src/daemon/configs.hpp:18-18 CONFIGS_DEFAULT *)
Definition CONFIGS_DEFAULT : string := "hebpf.yaml".

(** ** The result of parsing *)

(* src/cmdline/cmdline_config.h:12-19 CmdlineConfig *)
Record CmdlineConfig : Type := mkCmdline {
  help_ : bool;
  config_ : Configs.t;
  gen_empty_ : bool;
  log_ : string;
  loglevel_ : Log.Level
}.

Definition CmdlineConfig_default : CmdlineConfig :=
  mkCmdline false Configs.default false Log.LOGFILE_DEFAULT Log.LOGLEVEL_DEFAULT.

(** ** The option parser *)

(** a check CLI11 runs on a value before it assigns it *)
Inductive validator : Type := NoCheck | ExistingFile | IsMember (names : list string).

(** the member variables that options are bound to *)
Inductive target : Type := config_path_ | gen_empty | loglevel_str_ | logfile_str_.
#[export] Instance target_eq_dec : EqDecision target.
Proof. solve_decision. Defined.

#[export] Instance validator_eq_dec : EqDecision validator.
Proof. solve_decision. Defined.

Record cli_option : Type := mkOption {
  names : string;
  bound : target;
  is_flag : bool;
  default_str : string;      (* shown in the help text, not assigned *)
  check : validator
}.
#[export] Instance cli_option_eq_dec : EqDecision cli_option.
Proof. solve_decision. Defined.

(** [app.parse] ends normally with the values of the options that were given,
    throws a [CLI::ParseError], for which [app.exit] prints a text and answers
    a code, or throws something else. *)
Inductive cli_result : Type :=
| Parsed (values : list (target * string))
| ParseError (exit_code : Z)
| OtherError (what : string).

Class CLI : Type := {
  app_parse : list cli_option -> list string -> cli_result;
  file_exists : string -> bool
}.

Definition passes `{CLI} (v : validator) (s : string) : Prop :=
  match v with NoCheck => True | ExistingFile => file_exists s = true | IsMember l => s ∈ l end.

(** Documented behaviour: only values that pass the check of their option are
    assigned, and only to declared variables. *)
Class CLILaws `{CLI} : Prop := {
  values_checked : forall options argv values t s,
    app_parse options argv = Parsed values -> (t, s) ∈ values ->
    exists o, o ∈ options /\ bound o = t /\ passes (check o) s
}.

(** ** Cmdline *)

(** the names of the levels without the last one, [MAXSIZE] *)
(* src/cmdline/cmdline.cc:72-73 Cmdline::setup *)
Definition info_vec : list string := removelast (enumNameList Log.Level).

(* src/cmdline/cmdline.cc:58-85 Cmdline::setup *)
Definition setup : list cli_option :=
  [mkOption "-c,--config" config_path_ false CONFIGS_DEFAULT ExistingFile;
   mkOption "--get-conf" gen_empty true "" NoCheck;
   mkOption "--log-level" loglevel_str_ false (enumName Log.LOGLEVEL_DEFAULT) (IsMember info_vec);
   mkOption "-l,--log-file" logfile_str_ false Log.LOGFILE_DEFAULT NoCheck].

(** a variable after parsing: the last value given, or what it was before *)
Definition assigned (t : target) (values : list (target * string)) (initial : string) : string :=
  foldl (fun acc ts => if decide (ts.1 = t) then ts.2 else acc) initial values.

Section Parse.
Context `{CLI} {node : Type} `{YamlLib node}.

(** the part of [parse] after the library has succeeded *)
(* src/cmdline/cmdline.cc:24-40 Cmdline::parse *)
Definition from_values (fs : FileSystem node) (values : list (target * string)) : result exn CmdlineConfig :=
  let config_path := assigned config_path_ values "" in
  let config_path := if (config_path =? "")%string then CONFIGS_DEFAULT else config_path in
  config ← loadFromConfig fs config_path;
  let loglevel := match stringEnum (assigned loglevel_str_ values "") with
                  | Some l => l
                  | None => loglevel_ CmdlineConfig_default
                  end in
  let gen := (assigned gen_empty values "false" =? "true")%string in
  let logfile := assigned logfile_str_ values "" in
  let log := if (logfile =? "")%string then log_ CmdlineConfig_default else logfile in
  Ok (mkCmdline false config gen log loglevel).

(** Exceptions of the library and of the configuration file are caught; a
    failed assertion or a null pointer is not. *)
(* src/cmdline/cmdline.cc:13-49 Cmdline::parse *)
Definition parse (fs : FileSystem node) (argv : list string) : result exn (CmdlineConfig * bool) :=
  match app_parse setup argv with
  | ParseError code =>
      if (code =? 0)%Z then Ok (mkCmdline true Configs.default false Log.LOGFILE_DEFAULT Log.LOGLEVEL_DEFAULT, true)
      else Ok (CmdlineConfig_default, false)
  | OtherError _ => Ok (CmdlineConfig_default, false)
  | Parsed values =>
      match from_values fs values with
      | Ok c => Ok (c, true)
      | Err (EXCEPT _) | Err (StdException _) => Ok (CmdlineConfig_default, false)
      | Err x => Err x
      end
  end.

Lemma assigned_cases t values initial :
  (assigned t values initial = initial /\ forall s, (t, s) ∉ values) \/ (t, assigned t values initial) ∈ values.
Proof.
  unfold assigned. induction values as [| [t' s'] values IH] using rev_ind; [left; split; [done | set_solver] |].
  rewrite foldl_app. cbn. destruct (decide (t' = t)) as [-> | Hne].
  - right. set_solver.
  - destruct IH as [[-> Hno] | Hin]; [left | right; set_solver]. split; [done |]. intros s. specialize (Hno s). set_solver.
Qed.

Lemma info_vec_levels s : s ∈ info_vec -> exists l, s = enumName l /\ l <> Log.MAXSIZE.
Proof.
  unfold info_vec. cbn. intros Hs.
  repeat (apply elem_of_cons in Hs as [-> | Hs]; [eexists; split; [by unfold enumName |]; done |]).
  by apply elem_of_nil in Hs.
Qed.

Lemma level_values `{!CLILaws} argv values s :
  app_parse setup argv = Parsed values -> (loglevel_str_, s) ∈ values -> exists l, s = enumName l /\ l <> Log.MAXSIZE.
Proof.
  intros Hcli Hs. destruct (values_checked setup argv values _ s Hcli Hs) as (o & Ho & Hb & Hc).
  unfold setup in Ho. rewrite !elem_of_cons, elem_of_nil in Ho.
  destruct Ho as [-> | [-> | [-> | [-> | []]]]]; try done. by apply info_vec_levels.
Qed.

Lemma path_values `{!CLILaws} argv values s :
  app_parse setup argv = Parsed values -> (config_path_, s) ∈ values -> file_exists s = true.
Proof.
  intros Hcli Hs. destruct (values_checked setup argv values _ s Hcli Hs) as (o & Ho & Hb & Hc).
  unfold setup in Ho. rewrite !elem_of_cons, elem_of_nil in Ho.
  by destruct Ho as [-> | [-> | [-> | [-> | []]]]].
Qed.

(** an accepted command line always gives a proper log level: the one
    whose name was given, or the default one when the option is absent, and
    never the end marker of the enumeration; and the configuration is the
    decoded file of the path given, which exists, or of the default path. *)
Theorem parsed_options_wf `{!CLILaws} (fs : FileSystem node) (argv : list string) (c : CmdlineConfig)
  (Hparse : parse fs argv = Ok (c, true)) (Hhelp : help_ c = false) :
  exists values, app_parse setup argv = Parsed values /\ loglevel_ c <> Log.MAXSIZE /\
    ((loglevel_str_, enumName (loglevel_ c)) ∈ values \/
     loglevel_ c = Log.LOGLEVEL_DEFAULT /\ forall s, (loglevel_str_, s) ∉ values) /\
    exists path, loadFromConfig fs path = Ok (config_ c) /\
      (path = CONFIGS_DEFAULT \/ file_exists path = true /\ (config_path_, path) ∈ values).
Proof.
  unfold parse in Hparse.
  destruct (app_parse setup argv) as [values | code | what] eqn:Hcli; [| by case_match; simplify_eq | done].
  exists values. split; [done |]. unfold from_values in Hparse.
  set (path := if (assigned config_path_ values "" =? "")%string then _ else _) in Hparse.
  destruct (loadFromConfig fs path) as [config | x] eqn:Hload; cbn in Hparse; [| by destruct x].
  injection Hparse as <-. cbn in Hhelp |- *.
  assert (Hpath : path = CONFIGS_DEFAULT \/ file_exists path = true /\ (config_path_, path) ∈ values).
  { subst path. destruct (assigned config_path_ values "" =? "")%string eqn:E; [by left |]. right.
    destruct (assigned_cases config_path_ values "") as [[Heq _] | Hin]; [by rewrite Heq in E |].
    split; [by eapply path_values | done]. }
  destruct (assigned_cases loglevel_str_ values "") as [[Heq Hno] | Hin].
  - rewrite Heq. split; [done |]. split; [by right | by exists path].
  - destruct (level_values argv values _ Hcli Hin) as (l & Hl & Hne). rewrite Hl in Hin |- *. rewrite stringEnum_enumName.
    split; [done |]. split; [by left | by exists path].
Qed.

End Parse.

(** ** The generated configuration file *)

Section Emitter.
(** what is streamed into [YAML::Emitter]; [Emit] is a value or a whole node *)
Inductive yaml_event : Type :=
| BeginMap | EndMap | Key (key : string) | Emit (value : RefYaml.node) | Newline | Comment (text : string).

(** a mapping under construction: its entries so far, last first, and the key
    whose value comes next *)
Definition frame : Type := list (string * RefYaml.node) * option string.

Definition put (n : RefYaml.node) (stack : list frame) : list frame :=
  match stack with
  | (entries, Some k) :: rest => ((k, n) :: entries, None) :: rest
  | _ => stack
  end.

(** The document that the emitted text denotes: entries in the order of
    emission, duplicate keys kept, comments dropped. *)
Fixpoint read_document (events : list yaml_event) (stack : list frame) : option RefYaml.node :=
  match events, stack with
  | [], _ => None
  | BeginMap :: events, _ => read_document events (([], None) :: stack)
  | EndMap :: events, [(entries, _)] => Some (RefYaml.Mapping (rev entries))
  | EndMap :: events, (entries, _) :: stack => read_document events (put (RefYaml.Mapping (rev entries)) stack)
  | EndMap :: events, [] => None
  | Key k :: events, (entries, _) :: stack => read_document events ((entries, Some k) :: stack)
  | Key _ :: _, [] => None
  | Emit n :: events, _ => read_document events (put n stack)
  | (Newline | Comment _) :: events, _ => read_document events stack
  end.

(** what is streamed out for a configuration; the program passes the default *)
(* main.cc:35-63 generateEmptyConfigFile *)
Definition emitted (config : Configs.t) : list yaml_event :=
  [BeginMap;
   Key "prometheus"; BeginMap;
   Key "enabled"; Emit (RefYaml.Bool (Configs.getPrometheusEnabled config));
   Key "listen"; Emit (RefYaml.Str (Configs.getPrometheusListen config));
   EndMap;
   Key "debug_server"; BeginMap;
   Key "enabled"; Emit (RefYaml.Bool (Configs.getDebugServerEnabled config));
   Key "listen"; Emit (RefYaml.Str (Configs.getDebugServerAddr config));
   Key "listen"; Emit (RefYaml.Int (Configs.getDebugServerPort config));
   EndMap;
   Newline; Comment "eBPF programs"; Newline; Comment "  # hook: [TC, XDP_GENERIC, XDP_NATIVE, XDP_OFFLOAD]"; Newline] ++
  (if decide (Configs.getEbpfs config = ∅) then [] else [Key "ebpf"; Emit (encode_ebpfs (Configs.getEbpfs config))]) ++
  [EndMap].

Lemma emitted_document c :
  Configs.ebpfs_ c <> ∅ ->
  read_document (emitted c) [] = Some (RefYaml.Mapping
    [("prometheus", RefYaml.Mapping [("enabled", RefYaml.Bool (Configs.prometheus_enabled_ c));
                                     ("listen", RefYaml.Str (Configs.prometheus_listen_ c))]);
     ("debug_server", RefYaml.Mapping [("enabled", RefYaml.Bool (Configs.dbgserv_enabled_ c));
                                       ("listen", RefYaml.Str (Configs.dbgserv_addr_ c));
                                       ("listen", RefYaml.Int (Configs.dbgserv_port_ c))]);
     ("ebpf", encode_ebpfs (Configs.ebpfs_ c))]).
Proof. intros He. unfold emitted, Configs.getEbpfs. by rewrite decide_False. Qed.

(** the file written for a configuration gives back everything except the
    address and the port of the debug server, which are both written under
    the key "listen" and read back as those of the object it is decoded into;
    for the default configuration, the one the program writes, the result is
    the default configuration all the same. *)
Theorem generated_config_read_back (c c0 : Configs.t)
  (Hwf : configs_wf c) (Hne : Configs.ebpfs_ c <> ∅) :
  exists n, read_document (emitted c) [] = Some n /\
    decode n c0 = Ok (Configs.mk (Configs.prometheus_enabled_ c) (Configs.prometheus_listen_ c) (Configs.dbgserv_enabled_ c)
      (Configs.dbgserv_addr_ c0) (Configs.dbgserv_port_ c0) (Configs.ebpfs_ c)).
Proof.
  eexists. split; [by apply emitted_document |]. destruct Hwf as [_ Hwf].
  unfold decode, decode_prometheus, decode_debug_server, when_key. cbn -[decode_ebpfs encode_ebpfs].
  repeat (first [rewrite decide_True by done | rewrite decide_False by done]; cbn -[decode_ebpfs encode_ebpfs]).
  by rewrite decode_encode_ebpfs.
Qed.
End Emitter.

(** ** Concrete runs *)

Module Sample.

(** a parser in the place of CLI11, for the options of [setup] *)
Definition option_of (s : string) : option target :=
  if decide (s = "-c") then Some config_path_
  else if decide (s = "--log-level") then Some loglevel_str_
  else if decide (s = "-l") then Some logfile_str_ else None.

Definition allowed (t : target) (s : string) : bool :=
  match t with config_path_ => bool_decide (s = "my.yaml") | loglevel_str_ => bool_decide (s ∈ info_vec) | _ => true end.

Definition add_value (v : target * string) (r : cli_result) : cli_result :=
  match r with Parsed vs => Parsed (v :: vs) | r => r end.

Fixpoint ref_parse (pending : option target) (argv : list string) : cli_result :=
  match argv, pending with
  | [], None => Parsed []
  | [], Some _ => ParseError 114
  | s :: argv, Some t => if allowed t s then add_value (t, s) (ref_parse None argv) else ParseError 105
  | s :: argv, None =>
      if decide (s = "-h") then ParseError 0
      else if decide (s = "--get-conf") then add_value (gen_empty, "true") (ref_parse None argv)
      else match option_of s with Some t => ref_parse (Some t) argv | None => ParseError 109 end
  end.

#[export] Instance cli : CLI := {
  app_parse := fun options argv => if decide (options = setup) then ref_parse None argv else ParseError 1;
  file_exists := fun s => bool_decide (s = "my.yaml")
}.

Lemma add_value_inv v r vs : add_value v r = Parsed vs -> exists vs', r = Parsed vs' /\ vs = v :: vs'.
Proof. destruct r; cbn; [intros [= <-]; by eexists | done ..]. Qed.

Lemma ref_parse_allowed argv : forall pending vs t s,
  ref_parse pending argv = Parsed vs -> (t, s) ∈ vs -> allowed t s = true.
Proof.
  induction argv as [| a argv IH]; intros pending vs t s; cbn; [destruct pending; [done | intros [= <-]; set_solver] |].
  destruct pending as [p |].
  - destruct (allowed p a) eqn:Ea; [| done]. intros (vs' & Hvs & ->)%add_value_inv.
    rewrite elem_of_cons. intros [[= -> ->] | Hin]; [done | by eapply IH].
  - destruct (decide (a = "-h")); [done |]. destruct (decide (a = "--get-conf")).
    + intros (vs' & Hvs & ->)%add_value_inv. rewrite elem_of_cons. intros [[= -> ->] | Hin]; [done | by eapply IH].
    + destruct (option_of a); [apply IH | done].
Qed.

#[export] Instance cli_laws : CLILaws.
Proof.
  split. intros options argv values t s. cbn. destruct (decide (options = setup)) as [-> |]; [| done].
  intros Hp Hin. pose proof (ref_parse_allowed _ _ _ _ _ Hp Hin) as Ha. unfold setup. destruct t.
  - eexists. split; [apply list_elem_of_here |]. split; [done |]. exact Ha.
  - eexists. split; [apply list_elem_of_further, list_elem_of_here |]. done.
  - eexists. split; [do 2 apply list_elem_of_further; apply list_elem_of_here |]. split; [done |].
    cbn. by apply bool_decide_eq_true in Ha.
  - eexists. split; [do 3 apply list_elem_of_further; apply list_elem_of_here |]. done.
Qed.

Definition my_yaml : FileSystem RefYaml.node := {|
  is_regular_file := fun s => Ok (bool_decide (s = "my.yaml"));
  is_empty := fun _ => Ok false;
  LoadFile := fun _ => Ok (encode sample_configs)
|}.

Lemma parsed_options_wf_witness : exists c,
  parse my_yaml ["-c"; "my.yaml"; "--log-level"; "debug"] = Ok (c, true) /\ loglevel_ c = debug /\ loglevel_ c <> MAXSIZE.
Proof.
  eexists. split; [vm_compute; reflexivity |]. split; [reflexivity |].
  match goal with |- loglevel_ ?c <> _ =>
    destruct (parsed_options_wf my_yaml ["-c"; "my.yaml"; "--log-level"; "debug"] c) as (vs & _ & Hlevel & _);
      [vm_compute; reflexivity | reflexivity | exact Hlevel]
  end.
Defined.

Lemma generated_config_read_back_witness : exists n,
  read_document (emitted Configs.default) [] = Some n /\ decode n Configs.default = Ok Configs.default.
Proof.
  apply (generated_config_read_back Configs.default Configs.default).
  - split; [unfold in_uint16; cbn; lia |]. apply map_Forall_singleton. split; unfold in_int32; cbn; lia.
  - intros E. discriminate (f_equal (fun m => m !! "example"%string) E).
Defined.

End Sample.
