(* ===== verification/Main.v ===== *)
(** * The program entry

    [main] of [main.cc]: the order in which the parts are built, connected,
    run and shut down, as a program over calls to the parts.  A call may
    return, refuse or throw, whatever it likes; the parts themselves are
    modelled in their own files. *)

From S2P Require Import Prelude Configs Log Cmdline.

#[local] Open Scope string_scope.
#[local] Open Scope list_scope.

(** ** Calls *)

Inductive signal : Type := SIGINT | SIGTERM | SIGSEGV.
Inductive handler : Type := commonSignalHandler | crashSignalHandler.

(** the objects [main] holds, in the order they are made *)
Inductive part : Type :=
| IoCtx | Inotify | ChainMgr | LoaderObj | DaemonObj | Watcher | StatusQueue | MonitorObj | HttpDebug | KlogObj.
#[export] Instance part_eq_dec : EqDecision part.
Proof. solve_decision. Defined.

Inductive mcall : Type :=
| RegisterSignal (sig : signal) (h : handler)
| PrintError (text : string)
| OpenConfigFile (path : string)
| WriteConfigFile (document : list yaml_event)
| PrintLine (text : string)
| ConfigureLogging (file : string) (level : Level)
| LogInfo (text : string)
| New (p : part)
| Drop (p : part)                       (* main's pointer goes out of scope *)
| InitInotify | InitChainMgr | SetIoContext | SetInotifyManager | SetProgChainManager
| WatcherAttach (p : part)
| MonitorSetQueue | MonitorRun (listen : string)
| DebugAttachDaemon | DebugStart (address : string) (port : Z)
| StartWatching (path : string)
| DaemonSetQueue | DaemonRun
| ShouldStop | Sleep
| DebugDetachDaemon | DebugStop | DestroyInotify | DaemonStop | MonitorStop | KlogUnpin.

(** what a call answers; [Returns false] is a refusal where the call has one *)
Inductive answer : Type := Returns (b : bool) | Throws (x : exn).

Definition main_trace : Type := list (mcall * answer).
Definition mprog (A : Type) : Type := prog mcall answer (result exn A).

Definition ask (c : mcall) : mprog bool :=
  Call c (fun r => Ret (match r with Returns b => Ok b | Throws x => Err x end)).
Definition bindm {A B} (p : mprog A) (f : A -> mprog B) : mprog B :=
  prog_bind p (fun r => match r with Ok a => f a | Err x => Ret (Err x) end).
Definition raise {A} (x : exn) : mprog A := Ret (Err x).
Definition done {A} (a : A) : mprog A := Ret (Ok a).

Declare Scope main_scope.
#[local] Open Scope main_scope.
(** a call whose answer is not looked at *)
Notation "c ;; p" := (bindm (ask c) (fun _ => p)) (at level 100, p at level 200, right associativity) : main_scope.
Notation "'ensure' c 'otherwise' text ;; p" :=
  (bindm (ask c) (fun ok : bool => if ok then p else raise (EXCEPT text)))
  (at level 100, c at level 99, text at level 0, p at level 200, right associativity) : main_scope.

(** an exception unwinds the stack; an abort or a segmentation fault does not *)
Definition unwinds {A} (r : result exn A) : bool := match r with Err ABORT | Err SEGV => false | _ => true end.

(** [p] exists while [k] runs, and is dropped when it returns or throws *)
Definition holding {A} (p : part) (k : mprog A) : mprog A :=
  bindm (ask (New p)) (fun _ => prog_bind k (fun r => if unwinds r then Call (Drop p) (fun _ => Ret r) else Ret r)).

(** ** The function *)

Inductive status : Type := Running | Exit (code : Z).
Definition EXIT_SUCCESS : Z := 0.
Definition EXIT_FAILURE : Z := 1.

(* main.cc:32-75 generateEmptyConfigFile *)
Definition generateEmptyConfigFile : mprog unit :=
  bindm (ask (OpenConfigFile CONFIGS_DEFAULT)) (fun opened =>
    if opened then
      WriteConfigFile (emitted Configs.default) ;;
      PrintLine "Configuration hebpf.yaml generated in current directory" ;; done tt
    else PrintError "Cannot create config file" ;; done tt).

(** [fuel]: for how many rounds to follow the loop *)
(* main.cc:160-163 main *)
Fixpoint main_loop (fuel : nat) (shut_down : mprog status) : mprog status :=
  match fuel with
  | O => done Running
  | S fuel => bindm (ask ShouldStop) (fun stop => if stop then shut_down else Sleep ;; main_loop fuel shut_down)
  end.

(* main.cc:165-177 main *)
Definition shut_down : mprog status :=
  DebugDetachDaemon ;; DebugStop ;; DestroyInotify ;; DaemonStop ;; MonitorStop ;; KlogUnpin ;;
  LogInfo "Shutting down" ;; done (Exit EXIT_SUCCESS).

(** from the configuration watcher to the end *)
(* main.cc:154-177 main *)
Definition serve (fuel : nat) : mprog status :=
  holding KlogObj (
    StartWatching CONFIGS_DEFAULT ;; DaemonSetQueue ;; DaemonRun ;; main_loop fuel shut_down).

(** a call made only when the configuration says so *)
Definition when {A} (b : bool) (c : mcall) (k : mprog A) : mprog A := if b then c ;; k else k.

(* main.cc:133-152 main *)
Definition observers (fuel : nat) (configs : Configs.t) : mprog status :=
  holding StatusQueue (
  holding MonitorObj (
    WatcherAttach MonitorObj ;; MonitorSetQueue ;;
    when (Configs.getPrometheusEnabled configs) (MonitorRun (Configs.getPrometheusListen configs)) (
  holding HttpDebug (
    WatcherAttach HttpDebug ;; DebugAttachDaemon ;;
    when (Configs.getDebugServerEnabled configs)
      (DebugStart (Configs.getDebugServerAddr configs) (Configs.getDebugServerPort configs))
      (serve fuel))))).

(* main.cc:109-131 main *)
Definition build (fuel : nat) (configs : Configs.t) : mprog status :=
  holding IoCtx (
  holding Inotify (
    InitInotify ;;
  holding ChainMgr (
    ensure InitChainMgr otherwise "Failed to initialize program chain manager" ;;
  holding LoaderObj (
    ensure SetIoContext otherwise "Failed to setup io context" ;;
    ensure SetInotifyManager otherwise "Failed to setup inotify manager" ;;
    ensure SetProgChainManager otherwise "Failed to setup program chain manager" ;;
  holding DaemonObj (
  holding Watcher (
    WatcherAttach DaemonObj ;;
    observers fuel configs)))))).

(** [parsed]: what [Cmdline::parse] answers *)
(* main.cc:80-177 main *)
Definition main_body (fuel : nat) (parsed : result exn (CmdlineConfig * bool)) : mprog status :=
  RegisterSignal SIGINT commonSignalHandler ;;
  RegisterSignal SIGTERM commonSignalHandler ;;
  RegisterSignal SIGSEGV crashSignalHandler ;;
  match parsed with
  | Err x => raise x
  | Ok (_, false) => PrintError "[error] Configuration parsing failed" ;; done (Exit EXIT_FAILURE)
  | Ok (cmd_config, true) =>
      if help_ cmd_config then done (Exit EXIT_SUCCESS)
      else if gen_empty_ cmd_config then bindm generateEmptyConfigFile (fun _ => done (Exit EXIT_SUCCESS))
      else
        ConfigureLogging (log_ cmd_config) (loglevel_ cmd_config) ;;
        LogInfo "Launch" ;; LogInfo "Log level" ;;
        build fuel (config_ cmd_config)
  end.

(** An exception of the project or of a library is printed; an abort or a
    segmentation fault ends the process. *)
(* main.cc:77-189 main *)
Definition main (fuel : nat) (parsed : result exn (CmdlineConfig * bool)) : mprog status :=
  prog_bind (main_body fuel parsed) (fun r =>
    match r with
    | Ok s => done s
    | Err (EXCEPT text) | Err (StdException text) => Call (PrintError text) (fun _ => Ret (Ok (Exit EXIT_FAILURE)))
    | Err x => Ret (Err x)
    end).

(** ** Reasoning about calls *)

Definition calls (tr : main_trace) : list mcall := tr.*1.

Lemma calls_snoc tr c r : calls (tr ++ [(c, r)]) = calls tr ++ [c].
Proof. unfold calls. by rewrite fmap_app. Qed.

(** [I] holds of the history all along, whatever is answered *)
Definition keeps {A} (I : main_trace -> Prop) (p : prog mcall answer A) : Prop :=
  forall tr, I tr -> always (fun _ => I) p tr.

(** a call after which [I] still holds *)
Definition harmless (I : main_trace -> Prop) (c : mcall) : Prop := forall tr r, I tr -> I (tr ++ [(c, r)]).

Section Keeps.
Context {I : main_trace -> Prop}.

Lemma keeps_ret {A} (a : A) : keeps I (Ret a).
Proof. by intros tr Htr. Qed.

Lemma keeps_prog_bind {A B} (p : prog mcall answer A) (f : A -> prog mcall answer B) :
  keeps I p -> (forall a, keeps I (f a)) -> keeps I (prog_bind p f).
Proof. intros Hp Hf tr Htr. eapply always_bind; [by apply Hp |]. intros a tr'. apply Hf. Qed.

Lemma keeps_ask c : harmless I c -> keeps I (ask c).
Proof. intros Hc tr Htr r. by apply Hc. Qed.

Lemma keeps_bindm {A B} (p : mprog A) (f : A -> mprog B) : keeps I p -> (forall a, keeps I (f a)) -> keeps I (bindm p f).
Proof. intros Hp Hf. apply keeps_prog_bind; [done |]. intros [a | x]; [apply Hf | apply keeps_ret]. Qed.

Lemma keeps_holding {A} p (k : mprog A) : harmless I (New p) -> harmless I (Drop p) -> keeps I k -> keeps I (holding p k).
Proof.
  intros Hn Hd Hk. apply keeps_bindm; [by apply keeps_ask |]. intros _. apply keeps_prog_bind; [done |].
  intros r. destruct (unwinds r); [| apply keeps_ret]. intros tr Htr a. by apply Hd.
Qed.

Lemma keeps_when {A} b c (k : mprog A) : (b = true -> harmless I c) -> keeps I k -> keeps I (when b c k).
Proof. intros Hc Hk. destruct b; [| done]. apply keeps_bindm; [by apply keeps_ask, Hc |]. by intros _. Qed.

Lemma keeps_if {A} (b : bool) (p q : mprog A) : keeps I p -> keeps I q -> keeps I (if b then p else q).
Proof. by destruct b. Qed.

Lemma keeps_loop fuel shut : harmless I ShouldStop -> harmless I Sleep -> keeps I shut -> keeps I (main_loop fuel shut).
Proof.
  intros Hs Hw Hk. induction fuel as [| fuel IH]; [apply keeps_ret |].
  apply keeps_bindm; [by apply keeps_ask |]. intros [|]; [done |].
  apply keeps_bindm; [by apply keeps_ask |]. by intros _.
Qed.

End Keeps.

(** walks through a program, leaving the calls *)
Ltac keeps_tac :=
  repeat (first [apply keeps_holding | apply keeps_when | apply keeps_bindm | apply keeps_ask | apply keeps_ret
    | apply keeps_if | apply keeps_loop | intros ?]).

(** *** Which configuration reaches which part *)

(** what the arguments of a call are, for a command line *)
Definition configured (cmd : CmdlineConfig) (c : mcall) : Prop :=
  match c with
  | StartWatching path | OpenConfigFile path => path = CONFIGS_DEFAULT
  | WriteConfigFile doc => doc = emitted Configs.default
  | ConfigureLogging file level => file = log_ cmd /\ level = loglevel_ cmd
  | MonitorRun listen => Configs.getPrometheusEnabled (config_ cmd) = true /\ listen = Configs.getPrometheusListen (config_ cmd)
  | DebugStart address port =>
      Configs.getDebugServerEnabled (config_ cmd) = true /\
      address = Configs.getDebugServerAddr (config_ cmd) /\ port = Configs.getDebugServerPort (config_ cmd)
  | _ => True
  end.

Lemma configured_harmless cmd c : configured cmd c -> harmless (fun tr => Forall (configured cmd) (calls tr)) c.
Proof. intros Hc tr r Htr. rewrite calls_snoc. apply Forall_app. split; [done |]. by apply Forall_singleton. Qed.

Lemma main_configured fuel cmd b : keeps (fun tr => Forall (configured cmd) (calls tr)) (main fuel (Ok (cmd, b))).
Proof.
  unfold main. apply keeps_prog_bind.
  - unfold main_body, generateEmptyConfigFile, build, observers, serve, shut_down. destruct b; keeps_tac;
      by apply configured_harmless.
  - intros [st | []]; try apply keeps_ret; intros tr Htr r; by apply configured_harmless.
Qed.

(** the option for the configuration file reaches only half of the
    program: the log, the monitor and the debug server get what the file of
    the option says, but the file that is watched, from which the daemon takes
    its programs, is the default one whatever the option says. *)
Theorem config_option_not_watched `{CLI} {node : Type} `{YamlLib node} (fs : FileSystem node) (argv : list string)
  (fuel : nat) (cmd : CmdlineConfig) (ok : bool) (e : env mcall answer)
  (Hparse : parse fs argv = Ok (cmd, ok)) :
  let tr := (run e (main fuel (parse fs argv)) []).2 in
  forall c, c ∈ calls tr -> configured cmd c.
Proof.
  cbv zeta. rewrite Hparse. intros c Hc.
  pose proof (always_run _ _ [] e (main_configured fuel cmd ok [] ltac:(constructor))) as Hall. cbn in Hall.
  by eapply Forall_forall in Hall.
Qed.

(** *** Nothing is stopped half *)

Definition returned (tr : main_trace) (c : mcall) : Prop := exists b, (c, Returns b) ∈ tr.
Definition shutdown_calls : list mcall := [DebugDetachDaemon; DebugStop; DestroyInotify; DaemonStop; MonitorStop; KlogUnpin].

(** the shut-down is begun by the stop flag only, and goes on only after each
    of its calls has returned *)
Definition orderly (tr : main_trace) : Prop :=
  (forall c, c ∈ shutdown_calls -> c ∈ calls tr -> (ShouldStop, Returns true) ∈ tr) /\
  (forall before c after, shutdown_calls = before ++ c :: after -> c ∈ calls tr -> Forall (returned tr) before).

Definition outcome (r : result exn status) (tr : main_trace) : Prop :=
  orderly tr /\ (r = Ok (Exit EXIT_SUCCESS) -> Forall (returned tr) shutdown_calls).

Definition stops_orderly (p : mprog status) : Prop := forall tr, orderly tr -> always outcome p tr.

Lemma returned_mono tr c c' r : returned tr c -> returned (tr ++ [(c', r)]) c.
Proof. intros [b Hb]. exists b. apply elem_of_app. by left. Qed.

Lemma returned_all_mono tr l c r : Forall (returned tr) l -> Forall (returned (tr ++ [(c, r)])) l.
Proof. intros H. eapply Forall_impl; [exact H |]. intros x. apply returned_mono. Qed.

Lemma orderly_harmless c : c ∉ shutdown_calls -> harmless orderly c.
Proof.
  intros Hc tr r [H1 H2]. split.
  - intros c' Hc' Hin. rewrite calls_snoc in Hin. apply elem_of_app in Hin as [Hin | ->%list_elem_of_singleton]; [| done].
    apply elem_of_app. left. by eapply H1.
  - intros before c' after Hl Hin. apply returned_all_mono. rewrite calls_snoc in Hin.
    apply elem_of_app in Hin as [Hin | ->%list_elem_of_singleton]; [by eapply H2 |].
    destruct Hc. rewrite Hl. set_solver.
Qed.

(** a shut-down call in its turn *)
Lemma orderly_shutdown before c after tr r :
  shutdown_calls = before ++ c :: after -> (ShouldStop, Returns true) ∈ tr -> Forall (returned tr) before ->
  orderly tr -> orderly (tr ++ [(c, r)]).
Proof.
  intros Hl Hstop Hb [H1 H2]. split.
  - intros c' _ _. apply elem_of_app. by left.
  - intros before' c' after' Hl' Hin. apply returned_all_mono. rewrite calls_snoc in Hin.
    apply elem_of_app in Hin as [Hin | ->%list_elem_of_singleton]; [by eapply H2 |].
    assert (Hu : NoDup shutdown_calls) by (unfold shutdown_calls; repeat (constructor; [set_solver |]); constructor).
    rewrite Hl in Hl', Hu. replace before' with before; [done |].
    clear - Hl' Hu. revert before' Hl'. induction before as [| x before IH]; intros [| x' before'] Hl'; cbn in *; simplify_eq.
    + done.
    + apply NoDup_cons in Hu as [Hn _]. set_solver.
    + apply NoDup_cons in Hu as [Hn _]. set_solver.
    + apply NoDup_cons in Hu as [_ Hu]. f_equal. by apply IH.
Qed.

Lemma outcome_end st tr : st <> Exit EXIT_SUCCESS -> orderly tr -> outcome (Ok st) tr.
Proof. intros Hst Htr. split; [done |]. intros [= Heq]. by destruct Hst. Qed.

Lemma outcome_raise x tr : orderly tr -> outcome (Err x) tr.
Proof. by intros Htr. Qed.

Lemma so_ask c f : c ∉ shutdown_calls -> (forall b, stops_orderly (f b)) -> stops_orderly (bindm (ask c) f).
Proof.
  intros Hc Hf tr Htr [b | x]; cbn; [apply Hf | apply outcome_raise]; by apply (orderly_harmless c).
Qed.

Lemma so_when b c k : c ∉ shutdown_calls -> stops_orderly k -> stops_orderly (when b c k).
Proof. intros Hc Hk. destruct b; [| done]. apply so_ask; [done |]. by intros _. Qed.

Lemma so_holding p k : stops_orderly k -> stops_orderly (holding p k).
Proof.
  intros Hk. apply so_ask; [set_solver |]. intros _ tr Htr. eapply always_bind; [by apply Hk |].
  intros r tr' [Ho Hr]. destruct (unwinds r); [| by split]. intros a.
  split; [apply orderly_harmless; [set_solver | done] |]. intros Hok. by apply returned_all_mono, Hr.
Qed.

(** one more call of the shut-down *)
Lemma so_shutdown before c after k tr :
  shutdown_calls = before ++ c :: after -> (ShouldStop, Returns true) ∈ tr -> Forall (returned tr) before -> orderly tr ->
  (forall tr', (ShouldStop, Returns true) ∈ tr' -> Forall (returned tr') (before ++ [c]) -> orderly tr' -> always outcome k tr') ->
  always outcome (c ;; k) tr.
Proof.
  intros Hl Hstop Hb Ho Hk r. pose proof (orderly_shutdown before c after tr r Hl Hstop Hb Ho) as Ho'.
  destruct r as [b | x]; cbn; [| by apply outcome_raise].
  apply Hk; [apply elem_of_app; by left | | done]. apply Forall_app. split; [by apply returned_all_mono |].
  apply Forall_singleton. exists b. set_solver.
Qed.

Lemma shut_down_orderly tr : (ShouldStop, Returns true) ∈ tr -> orderly tr -> always outcome shut_down tr.
Proof.
  intros Hs Ho. unfold shut_down.
  eapply (so_shutdown []); [reflexivity | done | constructor | done | cbn; intros tr1 Hs1 H1 Ho1].
  eapply (so_shutdown [_]); [reflexivity | done | done | done | cbn; intros tr2 Hs2 H2 Ho2].
  eapply (so_shutdown [_; _]); [reflexivity | done | done | done | cbn; intros tr3 Hs3 H3 Ho3].
  eapply (so_shutdown [_; _; _]); [reflexivity | done | done | done | cbn; intros tr4 Hs4 H4 Ho4].
  eapply (so_shutdown [_; _; _; _]); [reflexivity | done | done | done | cbn; intros tr5 Hs5 H5 Ho5].
  eapply (so_shutdown [_; _; _; _; _]); [reflexivity | done | done | done | cbn; intros tr6 Hs6 H6 Ho6].
  intros [b | x]; cbn; [| apply outcome_raise, orderly_harmless; [set_solver | done]].
  split; [apply orderly_harmless; [set_solver | done] |]. intros _. by apply returned_all_mono.
Qed.

Lemma main_loop_orderly fuel : stops_orderly (main_loop fuel shut_down).
Proof.
  induction fuel as [| fuel IH]; [intros tr Htr; by apply outcome_end |]. intros tr Htr r.
  assert (Ho : orderly (tr ++ [(ShouldStop, r)])) by (apply orderly_harmless; [set_solver | done]).
  destruct r as [[|] | x]; [| | by apply outcome_raise]; cbn [prog_bind].
  - apply shut_down_orderly; [set_solver | done].
  - revert Ho. generalize (tr ++ [(ShouldStop, Returns false)]). apply (so_ask Sleep); [set_solver |]. by intros _.
Qed.

Ltac so_tac :=
  repeat (first [apply so_holding | apply so_when; [set_solver |] | apply so_ask; [set_solver |] | apply main_loop_orderly
    | lazymatch goal with |- forall b : bool, _ => intros [] end
    | lazymatch goal with |- stops_orderly (raise _) => by intros ? ?; apply outcome_raise end ]).

Lemma build_orderly fuel configs : stops_orderly (build fuel configs).
Proof. unfold build, observers, serve. so_tac. Qed.

Lemma main_orderly fuel cmd :
  help_ cmd = false -> gen_empty_ cmd = false -> stops_orderly (main fuel (Ok (cmd, true))).
Proof.
  intros Hhelp Hgen tr Htr. unfold main.
  eapply always_bind with (Q := outcome).
  - revert tr Htr. change (stops_orderly (main_body fuel (Ok (cmd, true)))). unfold main_body. rewrite Hhelp, Hgen.
    do 3 (apply so_ask; [set_solver | intros _]). do 3 (apply so_ask; [set_solver | intros _]). apply build_orderly.
  - intros [st | []] tr' [Ho Hr]; try (by split). all: intros r; apply outcome_end; [done | apply orderly_harmless; [set_solver | done]].
Qed.

(** *** What a failing call ends *)

(** the calls that [main] looks at the answer of *)
Definition ensured (c : mcall) : option string :=
  match c with
  | InitChainMgr => Some "Failed to initialize program chain manager"
  | SetIoContext => Some "Failed to setup io context"
  | SetInotifyManager => Some "Failed to setup inotify manager"
  | SetProgChainManager => Some "Failed to setup program chain manager"
  | _ => None
  end.
(** a call fails when it throws, or refuses where [main] asks for more *)
Definition failure (c : mcall) (a : answer) : option exn :=
  match a with
  | Throws x => Some x
  | Returns true => None
  | Returns false => EXCEPT <$> ensured c
  end.

(** the calls on the way out *)
Definition ending (c : mcall) : bool := match c with Drop _ | PrintError _ => true | _ => false end.

(** the parts that exist, the latest first *)
Definition alive_step (l : list part) (c : mcall) : list part :=
  match c with New p => p :: l | Drop _ => tail l | _ => l end.
Definition alive (l : list mcall) : list part := foldl alive_step [] l.

(** what is left to do after a failure: the parts are dropped and the text of
    the exception is printed, or nothing *)
Definition farewell (x : exn) : list mcall :=
  match x with EXCEPT text | StdException text => [PrintError text] | _ => [] end.
Definition way_out (x : exn) (l : list part) : list mcall :=
  if unwinds (A := unit) (Err x) then (Drop <$> l) ++ farewell x else [].
Definition exit_of (x : exn) : result exn status :=
  match x with EXCEPT _ | StdException _ => Ok (Exit EXIT_FAILURE) | x => Err x end.

Definition untroubled (tr : main_trace) : Prop := Forall (fun ca => ending ca.1 = true \/ failure ca.1 ca.2 = None) tr.

(** a run that a call ended: [l] is what is still to be dropped *)
Definition troubled (x : exn) (l : list part) (tr : main_trace) : Prop :=
  exists before c a after dropped, tr = before ++ (c, a) :: after /\ untroubled before /\ ending c = false /\ failure c a = Some x /\
    alive (calls before) = dropped ++ l /\ calls after = if unwinds (A := unit) (Err x) then Drop <$> dropped else [].

Lemma alive_snoc l c : alive (l ++ [c]) = alive_step (alive l) c.
Proof. unfold alive. by rewrite foldl_app. Qed.

Lemma untroubled_snoc tr c a : untroubled tr -> ending c = true \/ failure c a = None -> untroubled (tr ++ [(c, a)]).
Proof. intros Htr Hc. apply Forall_app. split; [done | by apply Forall_singleton]. Qed.

(** [p] leaves what existed before, and gives up at the first call that fails *)
Definition gives_up {A} (V : A -> Prop) (p : mprog A) : Prop := forall tr, untroubled tr ->
  always (fun r tr' =>
    match r with
    | Ok v => untroubled tr' /\ alive (calls tr') = alive (calls tr) /\ V v
    | Err x => troubled x (alive (calls tr)) tr'
    end) p tr.

Lemma troubled_now x tr c a : untroubled tr -> ending c = false -> failure c a = Some x -> troubled x (alive (calls tr)) (tr ++ [(c, a)]).
Proof. intros Htr Hc Hx. exists tr, c, a, [], []. split_and!; try done. by destruct (unwinds _). Qed.

Lemma gu_ask {A} (V : A -> Prop) c f : ending c = false -> ensured c = None -> (forall l, alive_step l c = l) ->
  (forall b, gives_up V (f b)) -> gives_up V (bindm (ask c) f).
Proof.
  intros Hc Hens Hal Hf tr Htr [b | x]; cbn; [| by apply troubled_now].
  assert (Hno : failure c (Returns b) = None) by (cbn; rewrite Hens; by destruct b).
  pose proof (Hf b _ (untroubled_snoc tr c (Returns b) Htr (or_intror Hno))) as H.
  by rewrite calls_snoc, alive_snoc, Hal in H.
Qed.

(** a call that must not refuse *)
Lemma gu_ensure {A} (V : A -> Prop) c text (p : mprog A) : ending c = false -> ensured c = Some text ->
  (forall l, alive_step l c = l) -> gives_up V p ->
  gives_up V (bindm (ask c) (fun ok : bool => if ok then p else raise (EXCEPT text))).
Proof.
  intros Hc Hens Hal Hp tr Htr [[|] | x]; cbn; [| | by apply troubled_now].
  - pose proof (Hp _ (untroubled_snoc tr c (Returns true) Htr (or_intror eq_refl))) as H.
    by rewrite calls_snoc, alive_snoc, Hal in H.
  - apply troubled_now; [done | done |]. cbn. by rewrite Hens.
Qed.

Lemma gu_when {A} (V : A -> Prop) b c (k : mprog A) : ending c = false -> ensured c = None -> (forall l, alive_step l c = l) ->
  gives_up V k -> gives_up V (when b c k).
Proof. intros Hc He Ha Hk. destruct b; [| done]. apply gu_ask; [done .. |]. by intros _. Qed.

Lemma gu_done {A} (V : A -> Prop) (v : A) : V v -> gives_up V (done v).
Proof. by intros Hv tr Htr. Qed.

Lemma gu_holding {A} (V : A -> Prop) p (k : mprog A) : gives_up V k -> gives_up V (holding p k).
Proof.
  intros Hk tr Htr [b | x]; cbn [prog_bind]; [| by apply troubled_now].
  assert (Hno : failure (New p) (Returns b) = None) by by destruct b.
  pose proof (Hk _ (untroubled_snoc tr (New p) (Returns b) Htr (or_intror Hno))) as H.
  rewrite calls_snoc, alive_snoc in H. cbn [alive_step] in H.
  eapply always_bind; [exact H |]. intros [v | x] tr'; cbn [unwinds].
  - intros (Htr' & Hal & Hv) a. split; [apply untroubled_snoc; [done | by left] |]. split; [| done].
    by rewrite calls_snoc, alive_snoc, Hal.
  - intros (before & c & a & after & dropped & -> & Hb & Hc & Hx & Hal & Hafter).
    assert (Hcons : alive (calls before) = (dropped ++ [p]) ++ alive (calls tr)) by (by rewrite Hal, <- app_assoc).
    destruct x; cbn in Hafter |- *; [intros a' | intros a' | |].
    1,2: exists before, c, a, (after ++ [(Drop p, a')]), (dropped ++ [p]); split_and!;
      [by rewrite <- app_assoc | done | done | done | done | rewrite calls_snoc, Hafter; cbn; by rewrite fmap_app].
    all: exists before, c, a, after, (dropped ++ [p]); by split_and!.
Qed.

Definition no_failure (st : status) : Prop := st = Running \/ st = Exit EXIT_SUCCESS.

Lemma gu_loop fuel shut : gives_up no_failure shut -> gives_up no_failure (main_loop fuel shut).
Proof.
  intros Hshut. induction fuel as [| fuel IH]; [apply gu_done; by left |]. apply gu_ask; [done .. |]. intros [|]; [done |].
  apply gu_ask; [done .. |]. by intros _.
Qed.

Ltac gu_tac :=
  repeat (first [apply gu_holding | apply gu_loop | apply gu_when; [done | done | done |] | apply gu_ensure; [done | done | done |]
    | apply gu_ask; [done | done | done | intros _] | apply gu_done; by right]).

Lemma body_gives_up fuel cmd : help_ cmd = false -> gen_empty_ cmd = false -> gives_up no_failure (main_body fuel (Ok (cmd, true))).
Proof. intros Hhelp Hgen. unfold main_body. rewrite Hhelp, Hgen. unfold build, observers, serve, shut_down. gu_tac. Qed.

(** how [main] ends: nothing failed, or the first call that did ended it *)
Definition ended (r : result exn status) (tr : main_trace) : Prop :=
  (untroubled tr /\ exists st, r = Ok st /\ no_failure st) \/
  exists before c a after x, tr = before ++ (c, a) :: after /\ untroubled before /\ ending c = false /\ failure c a = Some x /\
    calls after = way_out x (alive (calls before)) /\ r = exit_of x.

Lemma main_ended fuel cmd : help_ cmd = false -> gen_empty_ cmd = false -> always ended (main fuel (Ok (cmd, true))) [].
Proof.
  intros Hhelp Hgen. unfold main. eapply always_bind; [by apply (body_gives_up fuel cmd Hhelp Hgen []); constructor |].
  intros [st | x] tr'; [intros (Htr & _ & Hst); left; eauto |].
  intros (before & c & a & after & dropped & -> & Hb & Hc & Hx & Hal & Hafter). rewrite app_nil_r in Hal.
  destruct x as [text | text | |]; cbn in Hafter |- *; [intros a' | intros a' | |]; right.
  1,2: exists before, c, a, (after ++ [(PrintError text, a')]); eexists; split_and!; [by rewrite <- app_assoc | done | done | exact Hx | | done];
    rewrite calls_snoc, Hafter; by rewrite Hal.
  all: exists before, c, a, after; eexists; split_and!; [done | done | done | exact Hx | exact Hafter | done].
Qed.

(** a program ended by a call knows no other call that failed *)
Lemma ended_at r tr c a x : ended r tr -> (c, a) ∈ tr -> ending c = false -> failure c a = Some x ->
  exists before after, tr = before ++ (c, a) :: after /\ calls after = way_out x (alive (calls before)) /\ r = exit_of x.
Proof.
  intros Hend Hin Hc Hx.
  assert (Hnot : forall l, untroubled l -> (c, a) ∉ l).
  { intros l Hl Hl'. apply (proj1 (Forall_forall _ _) Hl) in Hl' as [H | H]; cbn in H; congruence. }
  destruct Hend as [[Htr _] | (before & c' & a' & after & x' & -> & Hb & _ & Hx' & Hafter & Hr)]; [by destruct (Hnot tr Htr) |].
  apply elem_of_app in Hin as [Hin | [Heq | Hin]%elem_of_cons]; [by destruct (Hnot before Hb) | |].
  - injection Heq as -> ->. rewrite Hx in Hx'. injection Hx' as <-. by exists before, after.
  - exfalso. assert (Hcall : c ∈ calls after) by (unfold calls; apply list_elem_of_fmap; by exists (c, a)).
    rewrite Hafter in Hcall. unfold way_out in Hcall. destruct (unwinds _); [| by apply elem_of_nil in Hcall].
    apply elem_of_app in Hcall as [(p & -> & _)%list_elem_of_fmap | Hcall]; [done |].
    destruct x'; cbn in Hcall; try (by apply elem_of_nil in Hcall); apply list_elem_of_singleton in Hcall as ->; done.
Qed.

(** C23: Success means that everything was shut down.  The exit code is a success
    only when the debug server, the file watches, the daemon, the monitor and
    the kernel log have all been stopped, in this order, and nothing is stopped
    before the stop flag has been seen.  Any call that throws, from the first
    to the last, or that refuses to set a part up, ends the program at once:
    the calls after it are exactly the destruction of the parts that exist, the
    latest first, and the message of the exception, and the exit code is a
    failure (an abort or a segmentation fault ends the process without
    either); so every later step is skipped, the shut-down too.  Destructors
    do not throw.  Without such a call the program does not end in failure. *)
Theorem success_means_shut_down (fuel : nat) (cmd : CmdlineConfig) (e : env mcall answer) (r : result exn status) (tr : main_trace)
  (Hhelp : help_ cmd = false) (Hgen : gen_empty_ cmd = false)
  (Hrun : run e (main fuel (Ok (cmd, true))) [] = (r, tr)) :
  (r = Ok (Exit EXIT_SUCCESS) -> Forall (returned tr) shutdown_calls) /\
  (forall before c after, shutdown_calls = before ++ c :: after -> c ∈ calls tr ->
    (ShouldStop, Returns true) ∈ tr /\ Forall (returned tr) before) /\
  (forall c a x, (c, a) ∈ tr -> ending c = false -> failure c a = Some x ->
    exists before after, tr = before ++ (c, a) :: after /\ calls after = way_out x (alive (calls before)) /\ r = exit_of x) /\
  ((forall c a, (c, a) ∈ tr -> ending c = false -> failure c a = None) -> r = Ok Running \/ r = Ok (Exit EXIT_SUCCESS)).
Proof.
  assert (Hstart : orderly []) by (split; [intros ? _ Hin | intros ? ? ? _ Hin]; by apply elem_of_nil in Hin).
  pose proof (always_run _ _ [] e (main_orderly fuel cmd Hhelp Hgen [] Hstart)) as [[H1 H2] Hr]. rewrite Hrun in H1, H2, Hr.
  pose proof (always_run _ _ [] e (main_ended fuel cmd Hhelp Hgen)) as Hend. rewrite Hrun in Hend. cbn [fst snd] in Hend.
  split; [exact Hr |]. split; [| split; [by intros c a x; apply ended_at |]].
  - intros before c after Hl Hc. split; [| by eapply H2]. eapply H1; [| exact Hc]. rewrite Hl. set_solver.
  - intros Hall. destruct Hend as [(_ & st & -> & [-> | ->]) | (before & c & a & after & x & -> & _ & Hc & Hx & _)]; [by left | by right |].
    rewrite (Hall c a) in Hx by (done || set_solver). discriminate Hx.
Qed.

(** *** A run without trouble *)

Definition is_poll (c : mcall) : bool := match c with ShouldStop => true | _ => false end.
Definition polls (l : list mcall) : nat := length (filter (fun c => is_poll c = true) l).

(** every part does what it is asked, and the stop flag is seen at the poll
    after [n] others *)
Record polite (n : nat) (e : env mcall answer) : Prop := {
  po_yes : forall tr c, is_poll c = false -> e tr c = Returns true;
  po_stop : forall tr, e tr ShouldStop = Returns (n <=? polls (calls tr))%nat
}.

(** the calls of a program in such a world, with the polls still to come *)
Fixpoint politely {A} (n : nat) (p : prog mcall answer A) : A * list mcall :=
  match p with
  | Ret a => (a, [])
  | Call c k =>
      let '(a, l) := if is_poll c then politely (pred n) (k (Returns (n =? 0)%nat)) else politely n (k (Returns true)) in
      (a, c :: l)
  end.

Lemma polls_app l1 l2 : polls (l1 ++ l2) = (polls l1 + polls l2)%nat.
Proof. unfold polls. by rewrite filter_app, length_app. Qed.

Lemma polite_run {A} n e (p : prog mcall answer A) tr : polite n e ->
  (run e p tr).1 = (politely (n - polls (calls tr)) p).1 /\
  calls (run e p tr).2 = calls tr ++ (politely (n - polls (calls tr)) p).2.
Proof.
  intros He. revert tr. induction p as [a | c k IH]; intros tr; cbn [run politely]; [by rewrite app_nil_r |].
  destruct (is_poll c) eqn:Hc.
  - destruct c; try discriminate. rewrite (po_stop n e He). specialize (IH (Returns (n <=? polls (calls tr))%nat) (tr ++ [(ShouldStop, Returns (n <=? polls (calls tr))%nat)])).
    rewrite calls_snoc, polls_app in IH. change (polls [ShouldStop]) with 1%nat in IH.
    replace (n - (polls (calls tr) + 1))%nat with (pred (n - polls (calls tr))) in IH by lia.
    replace (n - polls (calls tr) =? 0)%nat with (n <=? polls (calls tr))%nat
      by (destruct (Nat.leb_spec n (polls (calls tr))), (Nat.eqb_spec (n - polls (calls tr)) 0); lia).
    destruct (politely _ (k _)) as [a l]. cbn in IH |- *. destruct IH as [IH1 IH2]. split; [done |].
    rewrite IH2, <- app_assoc. done.
  - rewrite (po_yes n e He) by done. specialize (IH (Returns true) (tr ++ [(c, Returns true)])).
    rewrite calls_snoc, polls_app in IH. replace (polls [c]) with 0%nat in IH by (unfold polls; cbn; by rewrite Hc).
    rewrite Nat.add_0_r in IH. destruct (politely _ (k _)) as [a l]. cbn in IH |- *. destruct IH as [IH1 IH2].
    split; [done |]. rewrite IH2, <- app_assoc. done.
Qed.

(** the polls of the loop, a second apart *)
Fixpoint waits (n : nat) : list mcall :=
  match n with O => [ShouldStop] | S n => ShouldStop :: Sleep :: waits n end.

Lemma politely_bind {A B} n (p : prog mcall answer A) (f : A -> prog mcall answer B) :
  politely n (prog_bind p f) =
    let '(a, l) := politely n p in let '(b, l') := politely (n - polls l) (f a) in (b, l ++ l').
Proof.
  revert n. induction p as [a | c k IH]; intros n; cbn [prog_bind politely].
  - rewrite Nat.sub_0_r. by destruct (politely n (f a)).
  - destruct (is_poll c) eqn:Hc; rewrite IH; destruct (politely _ (k _)) as [a l];
      (replace (polls (c :: l)) with ((if is_poll c then 1 else 0) + polls l)%nat
        by (unfold polls; cbn; rewrite Hc; by destruct (is_poll c)));
      rewrite Hc; cbn [plus].
    + replace (n - S (polls l))%nat with (pred n - polls l)%nat by lia. by destruct (politely _ (f a)).
    + by destruct (politely _ (f a)).
Qed.

Lemma politely_loop n fuel (shut : mprog status) : (n < fuel)%nat ->
  politely n (main_loop fuel shut) = ((politely 0 shut).1, waits n ++ (politely 0 shut).2).
Proof.
  revert n. induction fuel as [| fuel IH]; intros n Hn; [lia |]. destruct n as [| n]; cbn.
  - by destruct (politely 0 shut).
  - rewrite IH by lia. done.
Qed.

Definition startup (cmd : CmdlineConfig) : list mcall :=
  [RegisterSignal SIGINT commonSignalHandler; RegisterSignal SIGTERM commonSignalHandler;
   RegisterSignal SIGSEGV crashSignalHandler; ConfigureLogging (log_ cmd) (loglevel_ cmd); LogInfo "Launch"; LogInfo "Log level";
   New IoCtx; New Inotify; InitInotify; New ChainMgr; InitChainMgr; New LoaderObj; SetIoContext; SetInotifyManager;
   SetProgChainManager; New DaemonObj; New Watcher; WatcherAttach DaemonObj; New StatusQueue; New MonitorObj;
   WatcherAttach MonitorObj; MonitorSetQueue] ++
  (if Configs.getPrometheusEnabled (config_ cmd) then [MonitorRun (Configs.getPrometheusListen (config_ cmd))] else []) ++
  [New HttpDebug; WatcherAttach HttpDebug; DebugAttachDaemon] ++
  (if Configs.getDebugServerEnabled (config_ cmd)
   then [DebugStart (Configs.getDebugServerAddr (config_ cmd)) (Configs.getDebugServerPort (config_ cmd))] else []) ++
  [New KlogObj; StartWatching CONFIGS_DEFAULT; DaemonSetQueue; DaemonRun].

Definition scope_end : list mcall :=
  [Drop KlogObj; Drop HttpDebug; Drop MonitorObj; Drop StatusQueue; Drop Watcher; Drop DaemonObj; Drop LoaderObj;
   Drop ChainMgr; Drop Inotify; Drop IoCtx].

(** C22: when every part does what it is asked, the program ends with success
    as soon as the stop flag is set: it builds and connects its parts, polls
    the flag once a second, shuts down in the reverse direction of the data
    (debug server, file watches, daemon, monitor, kernel log) and drops the
    parts in the reverse order of their construction. *)
Theorem main_ends (fuel n : nat) (cmd : CmdlineConfig) (e : env mcall answer)
  (Hhelp : help_ cmd = false) (Hgen : gen_empty_ cmd = false) (He : polite n e) (Hfuel : (n < fuel)%nat) :
  (run e (main fuel (Ok (cmd, true))) []).1 = Ok (Exit EXIT_SUCCESS) /\
  calls (run e (main fuel (Ok (cmd, true))) []).2 =
    startup cmd ++ waits n ++ shutdown_calls ++ [LogInfo "Shutting down"] ++ scope_end.
Proof.
  destruct (polite_run n e (main fuel (Ok (cmd, true))) [] He) as [H1 H2]. rewrite H1, H2. cbn [calls fmap list_fmap polls app].
  rewrite Nat.sub_0_r. unfold main, main_body. rewrite Hhelp, Hgen. unfold build, observers, when, serve, startup.
  destruct (Configs.getPrometheusEnabled (config_ cmd)), (Configs.getDebugServerEnabled (config_ cmd)); cbn;
    repeat (rewrite politely_bind || rewrite politely_loop by done; cbn); by rewrite <- !app_assoc.
Qed.

(** with the option that writes a configuration file nothing is built: the
    default file is opened and, when that works, gets the default
    configuration; when it does not work the exit code is a success too. *)
Theorem get_conf_reports_success (fuel : nat) (cmd : CmdlineConfig) (e : env mcall answer) (opened : bool)
  (Hhelp : help_ cmd = false) (Hgen : gen_empty_ cmd = true)
  (He : forall tr c, e tr c = Returns (match c with OpenConfigFile _ => opened | _ => true end)) :
  (run e (main fuel (Ok (cmd, true))) []).1 = Ok (Exit EXIT_SUCCESS) /\
  calls (run e (main fuel (Ok (cmd, true))) []).2 =
    [RegisterSignal SIGINT commonSignalHandler; RegisterSignal SIGTERM commonSignalHandler;
     RegisterSignal SIGSEGV crashSignalHandler; OpenConfigFile CONFIGS_DEFAULT] ++
    (if opened then [WriteConfigFile (emitted Configs.default); PrintLine "Configuration hebpf.yaml generated in current directory"]
     else [PrintError "Cannot create config file"]).
Proof.
  unfold main, main_body. rewrite Hhelp, Hgen. cbn. repeat (rewrite !He; cbn). destruct opened; cbn; by repeat (rewrite !He; cbn).
Qed.

(** ** Concrete runs *)

Module Sample.

#[local] Existing Instance Cmdline.Sample.cli.

Definition cmd : CmdlineConfig := mkCmdline false sample_configs false "/tmp/h.log" debug.

(** every part is willing; the flag is seen at the third poll *)
Definition willing : env mcall answer := fun tr c =>
  match c with ShouldStop => Returns (2 <=? polls (calls tr))%nat | _ => Returns true end.

Lemma willing_polite : polite 2 willing.
Proof. split; [by intros tr [] | done]. Qed.

(** the same, but closing the watches fails *)
Definition failing : env mcall answer := fun tr c =>
  match c with DestroyInotify => Throws (StdException "inotify") | c => willing tr c end.

Lemma main_ends_witness :
  (run willing (main 3 (Ok (cmd, true))) []).1 = Ok (Exit EXIT_SUCCESS) /\
  StartWatching "hebpf.yaml" ∈ calls (run willing (main 3 (Ok (cmd, true))) []).2.
Proof.
  destruct (main_ends 3 2 cmd willing eq_refl eq_refl willing_polite ltac:(lia)) as [H1 H2]. split; [exact H1 |].
  rewrite H2. unfold startup. cbn. repeat (first [apply list_elem_of_here | apply list_elem_of_further]).
Defined.

Lemma success_means_shut_down_witness :
  let '(r, tr) := run failing (main 3 (Ok (cmd, true))) [] in
  r = Ok (Exit EXIT_FAILURE) /\ ~ DaemonStop ∈ calls tr /\
  exists before after, tr = before ++ (DestroyInotify, Throws (StdException "inotify")) :: after /\
    calls after = scope_end ++ [PrintError "inotify"].
Proof.
  destruct (run failing (main 3 (Ok (cmd, true))) []) as [r tr] eqn:Hrun.
  destruct (success_means_shut_down 3 cmd failing r tr) as (_ & Horder & Hfail & _); [reflexivity | reflexivity | exact Hrun |].
  vm_compute in Hrun. injection Hrun as <- <-. split; [reflexivity |]. split.
  - intros Hin. destruct (Horder [DebugDetachDaemon; DebugStop; DestroyInotify] DaemonStop [MonitorStop; KlogUnpin]) as [_ Hret];
      [reflexivity | exact Hin |].
    apply Forall_cons in Hret as [_ [_ [(b & Hb) _]%Forall_cons]%Forall_cons]. clear Hin Horder Hfail. apply list_elem_of_In in Hb.
    cbn in Hb. intuition discriminate.
  - destruct (Hfail DestroyInotify (Throws (StdException "inotify")) (StdException "inotify")) as (before & after & Htr & Hafter & _);
      [apply list_elem_of_In; cbn; tauto | reflexivity | reflexivity |].
    exists before, after. split; [exact Htr |]. rewrite Hafter. clear Hafter Hfail Horder.
    repeat (destruct before as [| ca before]; cbn [app] in Htr; [first [discriminate Htr | reflexivity] | injection Htr as <- Htr]).
    by destruct before.
Defined.

(** what the option "-c my.yaml" gives *)
Definition with_option : CmdlineConfig :=
  mkCmdline false sample_configs false LOGFILE_DEFAULT LOGLEVEL_DEFAULT.

Lemma config_option_not_watched_witness :
  configured with_option (MonitorRun "0.0.0.0:9100") /\ configured with_option (StartWatching "hebpf.yaml").
Proof.
  assert (Hparse : parse Cmdline.Sample.my_yaml ["-c"; "my.yaml"] = Ok (with_option, true)) by (vm_compute; reflexivity).
  pose proof (config_option_not_watched Cmdline.Sample.my_yaml ["-c"; "my.yaml"] 3 with_option true willing Hparse) as Hall.
  cbv zeta in Hall. split; apply Hall; rewrite Hparse; apply list_elem_of_In; vm_compute; tauto.
Defined.

Lemma get_conf_reports_success_witness :
  (run (fun tr c => Returns (match c with OpenConfigFile _ => false | _ => true end))
     (main 1 (Ok (mkCmdline false Configs.default true "" info, true))) []).1 = Ok (Exit EXIT_SUCCESS).
Proof.
  apply (get_conf_reports_success 1 (mkCmdline false Configs.default true "" info)
    (fun tr c => Returns (match c with OpenConfigFile _ => false | _ => true end)) false); reflexivity.
Defined.

End Sample.
