(* ===== verification/ProgMap.v ===== *)
(** * The program-chain manager: regions, chain mapping, program insertion

    [PinnedProgMap] of [src/ebpf/pinned_prog_map.cc] over kernel maps given
    by the interface of BpfMap, and the kernel-side macro [CHAIN_NEXT] of
    [src/ebpf/ebpf_chain.h] that walks what it writes.  (Creating, pinning and
    closing the maps is in PinMaps.) *)

From S2P Require Import Prelude Configs BpfMap Names.

#[local] Open Scope Z_scope.

(* src/ebpf/ebpf_common.h:3-5 MAX_CHAIN_PROGS *)
Definition MAX_NIC_HOOK : Z := 4.
(* src/ebpf/ebpf_common.h:4-4 MAX_PER_NIC_PROGS *)
Definition MAX_PER_NIC_PROGS : Z := 8.
(* src/ebpf/ebpf_common.h:5-5 MAX_CHAIN_PROGS *)
Definition MAX_CHAIN_PROGS : Z := MAX_NIC_HOOK * MAX_PER_NIC_PROGS.

(* src/ebpf/ebpf_common.h:8-14 CHAIN_KEY *)
Definition CHAIN_KEY (ifindex id : Z) : Z :=
  Z.lor (u64 (Z.shiftl (u64 ifindex) 32)) (u32 id).

(* src/ebpf/pinned_prog_map.h:54-59 PinnedProgMap::HookMaps *)
Record HookMaps : Type := mkHookMaps {
  prog_array_fd : Z;
  id_hash_fd : Z;
  pin_path_prog_array : string;
  pin_path_id_to_index : string
}.

(* src/ebpf/pinned_prog_map.h:60-62 PinnedProgMap::Region *)
Record Region : Type := mkRegion { start_index : Z }.

(* src/ebpf/pinned_prog_map.h:67-76 PinnedProgMap *)
Record PinnedProgMap : Type := mkProgMap {
  hook_maps_ : gmap HookType HookMaps;
  regions_ : gmap HookType (gmap Z Region);
  initialized_ : bool;
  prog_registry_ : gmap string ProgInfo
}.

Definition set_regions (r : gmap HookType (gmap Z Region)) (p : PinnedProgMap) : PinnedProgMap :=
  mkProgMap (hook_maps_ p) r (initialized_ p) (prog_registry_ p).

(** [regions_[hook_type]]: the entry, created empty when absent *)
Definition hook_regions (p : PinnedProgMap) (hook_type : HookType) : gmap Z Region :=
  default ∅ (regions_ p !! hook_type).

(** one iteration of the search for the first index after every region *)
(* src/ebpf/pinned_prog_map.cc:155-159 PinnedProgMap::allocateRegion *)
Definition next_start_step (next_start : Z) (entry : Z * Region) : Z :=
  if next_start <=? start_index entry.2 then start_index entry.2 + MAX_PER_NIC_PROGS
  else next_start.

(* src/ebpf/pinned_prog_map.cc:137-168 PinnedProgMap::allocateRegion *)
Definition allocateRegion `{BuildMode} `{!UMapOrder Z} (hook_type : HookType) (ifindex : Z)
  (p : PinnedProgMap) : result exn (Z * PinnedProgMap) :=
  _ ← ASSERT (0 <? ifindex);
  let regions := hook_regions p hook_type in
  let p := set_regions (<[hook_type := regions]> (regions_ p)) p in
  match regions !! ifindex with
  | Some region => Ok (start_index region, p)
  | None =>
      let next_start := foldl next_start_step 0 (uiter regions) in
      if MAX_CHAIN_PROGS <? next_start + MAX_PER_NIC_PROGS then Ok (-1, p)
      else
        let regions := <[ifindex := mkRegion next_start]> regions in
        Ok (next_start, set_regions (<[hook_type := regions]> (regions_ p)) p)
  end.

(* src/ebpf/pinned_prog_map.cc:170-179 PinnedProgMap::releaseRegion *)
Definition releaseRegion (hook_type : HookType) (ifindex : Z) (p : PinnedProgMap) : PinnedProgMap :=
  set_regions (<[hook_type := delete ifindex (hook_regions p hook_type)]> (regions_ p)) p.

(* src/ebpf/pinned_prog_map.cc:181-199 PinnedProgMap::getStartIndex *)
Definition getStartIndex (hook_type : HookType) (ifindex : Z) (p : PinnedProgMap) : Z :=
  match regions_ p !! hook_type with
  | None => -1
  | Some regions =>
      match regions !! ifindex with
      | None => -1
      | Some region => start_index region
      end
  end.

(* src/ebpf/pinned_prog_map.cc:355-374 PinnedProgMap::lookupProgInfo *)
Definition lookupProgInfo (name : string) (p : PinnedProgMap) : option ProgInfo :=
  prog_registry_ p !! name.

(** ** Kernel maps by file descriptor *)

Section Chain.
Context {M A P : Type} `{BpfHash M Z Z} `{BpfProgArray A P}.
Context `{BuildMode} `{!UMapOrder Z}.

Record Kernel : Type := mkKernel { hashes : gmap Z M; arrays : gmap Z A }.

Definition set_hash (fd : Z) (m : M) (k : Kernel) : Kernel :=
  mkKernel (<[fd := m]> (hashes k)) (arrays k).

Definition sys_hash_update (fd key value : Z) (k : Kernel) : option Kernel :=
  m ← hashes k !! fd; m' ← bpf_update m key value; Some (set_hash fd m' k).

Definition sys_hash_lookup (fd key : Z) (k : Kernel) : option Z :=
  m ← hashes k !! fd; bpf_lookup m key.

Definition sys_array_update (fd index prog_fd : Z) (k : Kernel) : option Kernel :=
  a ← arrays k !! fd; a' ← pa_update a index prog_fd;
  Some (mkKernel (hashes k) (<[fd := a']> (arrays k))).

(** The loop that empties the id hash, started from key 0.  One iteration per
    entry and one more to notice the end ([delete_loop_enough]). *)
(* src/ebpf/pinned_prog_map.cc:228-233 PinnedProgMap::updateChain *)
Definition clear_hash (fd : Z) (k : Kernel) : Kernel :=
  match hashes k !! fd with
  | None => k
  | Some m => set_hash fd (default m (delete_loop (S (length (bpf_keys m))) m 0)) k
  end.

(* src/ebpf/pinned_prog_map.cc:235-245 PinnedProgMap::updateChain *)
Definition group_by_ifindex (ordered_names : list (string * Z)) : gmap Z (list string) :=
  foldl (fun m elem => <[elem.2 := default [] (m !! elem.2) ++ [elem.1]]> m) ∅ ordered_names.

(** The programs of one NIC, numbered from [index]. *)
(* src/ebpf/pinned_prog_map.cc:262-281 PinnedProgMap::updateChain *)
Fixpoint chain_names (hook_type : HookType) (hash_fd ifindex index : Z) (names : list string)
  (p : PinnedProgMap) (k : Kernel) : bool * Kernel :=
  match names with
  | [] => (true, k)
  | name :: rest =>
      match lookupProgInfo name p with
      | None => chain_names hook_type hash_fd ifindex index rest p k
      | Some info =>
          if bool_decide (hook info <> hook_type) then
            chain_names hook_type hash_fd ifindex index rest p k
          else
            match sys_hash_update hash_fd (CHAIN_KEY ifindex (id info)) (u32 index) k with
            | None => (false, k)
            | Some k => chain_names hook_type hash_fd ifindex (index + 1) rest p k
            end
      end
  end.

(* src/ebpf/pinned_prog_map.cc:247-283 PinnedProgMap::updateChain *)
Fixpoint chain_nics (hook_type : HookType) (hash_fd : Z) (orders : list (Z * list string))
  (p : PinnedProgMap) (k : Kernel) : result exn (bool * Kernel) :=
  match orders with
  | [] => Ok (true, k)
  | (ifindex, names) :: rest =>
      let index := getStartIndex hook_type ifindex p in
      _ ← ASSERT (0 <=? index);
      if MAX_PER_NIC_PROGS <=? index then chain_nics hook_type hash_fd rest p k
      else
        scheduler ← getCanonicalName hook_type LIBRARY
                      (if bool_decide (hook_type = TC) then SCHEDULER_TC_LIB else SCHEDULER_XDP_LIB);
        match chain_names hook_type hash_fd ifindex index (scheduler :: names) p k with
        | (false, k) => Ok (false, k)
        | (true, k) => chain_nics hook_type hash_fd rest p k
        end
  end.

(* src/ebpf/pinned_prog_map.cc:201-288 PinnedProgMap::updateChain *)
Definition updateChain (hook_type : HookType) (ordered_names : list (string * Z))
  (p : PinnedProgMap) (k : Kernel) : result exn (bool * Kernel) :=
  if negb (initialized_ p) then Ok (false, k)
  else
    match hook_maps_ p !! hook_type with
    | None => Ok (false, k)
    | Some maps =>
        let hash_fd := id_hash_fd maps in
        let k := clear_hash hash_fd k in
        chain_nics hook_type hash_fd (uiter (group_by_ifindex ordered_names)) p k
    end.

(* src/ebpf/pinned_prog_map.cc:290-353 PinnedProgMap::insertProg *)
Definition insertProg (hook_type : HookType) (name : string) (prog_fd ifindex : Z)
  (p : PinnedProgMap) (k : Kernel) : result exn (bool * Kernel) :=
  _ ← ASSERT (0 <=? prog_fd);
  if negb (initialized_ p) then Ok (false, k)
  else
    match hook_maps_ p !! hook_type with
    | None => Ok (false, k)
    | Some maps =>
        match lookupProgInfo name p with
        | None => Ok (false, k)
        | Some info =>
            if bool_decide (hook info <> hook_type) then Ok (false, k)
            else
              match sys_hash_lookup (id_hash_fd maps) (CHAIN_KEY ifindex (id info)) k with
              | None => Ok (false, k)
              | Some index =>
                  match sys_array_update (prog_array_fd maps) index prog_fd k with
                  | None => Ok (false, k)
                  | Some k => Ok (true, k)
                  end
              end
        end
    end.

(** ** The kernel side: following the chain *)

(** The program [CHAIN_NEXT] jumps to, if any: the index registered for the
    running program, plus one, when that slot of the program array is set. *)
(* src/ebpf/ebpf_chain.h:52-66 CHAIN_NEXT *)
Definition chain_next (hash : M) (array : A) (ifindex this_id : Z) : option P :=
  match bpf_lookup hash (CHAIN_KEY ifindex this_id) with
  | None => None
  | Some idx =>
      let next := u32 (idx + 1) in
      if next <? MAX_CHAIN_PROGS then pa_lookup array next else None
  end.

(** Everything that runs after program [this_id] when each program ends with
    [CHAIN_NEXT]: the ids of the programs tail-called, at most [fuel] of them
    (the kernel stops a run after 33 tail calls). *)
Fixpoint run_chain (prog_id : P -> Z) (fuel : nat) (hash : M) (array : A) (ifindex this_id : Z) : list Z :=
  match fuel with
  | O => []
  | S fuel =>
      match chain_next hash array ifindex this_id with
      | None => []
      | Some q => prog_id q :: run_chain prog_id fuel hash array ifindex (prog_id q)
      end
  end.

(** the insertions of all programs of a NIC, in the order they are loaded *)
Fixpoint insert_all (hook_type : HookType) (ifindex : Z) (l : list (string * Z))
  (p : PinnedProgMap) (k : Kernel) : result exn (bool * Kernel) :=
  match l with
  | [] => Ok (true, k)
  | (name, fd) :: rest =>
      r ← insertProg hook_type name fd ifindex p k;
      if r.1 : bool then insert_all hook_type ifindex rest p r.2 else Ok (false, r.2)
  end.

End Chain.
Arguments Kernel : clear implicits.

(** ** Regions: facts *)

(** the sizes of the program array, as numerals *)
Ltac chain_consts := unfold MAX_CHAIN_PROGS, MAX_NIC_HOOK, MAX_PER_NIC_PROGS in *.

Section Regions.
Context `{BuildMode} `{!UMapOrder Z}.
Implicit Types (p : PinnedProgMap) (h : HookType) (m : gmap Z Region).

(** The regions of one hook: aligned, inside the program array, one per NIC. *)
Definition regions_wf (m : gmap Z Region) : Prop :=
  (forall i r, m !! i = Some r -> 0 <= start_index r <= MAX_CHAIN_PROGS - MAX_PER_NIC_PROGS /\
                              start_index r mod MAX_PER_NIC_PROGS = 0) /\
  (forall i j r s, m !! i = Some r -> m !! j = Some s -> start_index r = start_index s -> i = j).

Definition progmap_wf (p : PinnedProgMap) : Prop := forall h, regions_wf (hook_regions p h).

Lemma next_start_foldl l n :
  let r := foldl next_start_step n l in
  (r = n \/ exists e, e ∈ l /\ r = start_index e.2 + MAX_PER_NIC_PROGS) /\
  n <= r /\ forall e, e ∈ l -> start_index e.2 < r.
Proof.
  revert n. induction l as [| e l IH]; intros n; cbn.
  - split_and!; [by left | lia | by intros e ?%not_elem_of_nil].
  - destruct (IH (next_start_step n e)) as (Hr & Hle & Hall).
    assert (Hstep : n <= next_start_step n e /\ start_index e.2 < next_start_step n e /\
              (next_start_step n e = n \/ next_start_step n e = start_index e.2 + MAX_PER_NIC_PROGS)).
    { unfold next_start_step. chain_consts. case_match; lia. }
    split_and!.
    + destruct Hr as [-> | (e' & Hin & ->)]; [| right; exists e'; set_solver].
      destruct Hstep as (_ & _ & [-> | ->]); [by left | right; exists e; set_solver].
    + lia.
    + intros e' [-> | Hin]%elem_of_cons; [lia | auto].
Qed.

(** The search result does not depend on the iteration order: it is above
    every region, and is 0 or the end of one. *)
Lemma next_start_spec m :
  let r := foldl next_start_step 0 (uiter m) in
  (r = 0 \/ exists i s, m !! i = Some s /\ r = start_index s + MAX_PER_NIC_PROGS) /\
  0 <= r /\ forall i s, m !! i = Some s -> start_index s < r.
Proof.
  pose proof (next_start_foldl (uiter m) 0) as (Hr & Hle & Hall). cbn zeta.
  assert (Hiff : forall i s, (i, s) ∈ uiter m <-> m !! i = Some s).
  { intros i s. rewrite uiter_perm. apply elem_of_map_to_list. }
  split_and!; [| done | intros i s Hm; by apply (Hall (i, s)), Hiff].
  destruct Hr as [-> | ([i s] & Hin & ->)]; [by left | right].
  exists i, s. by rewrite <- Hiff.
Qed.

Lemma hook_regions_set p h h' m :
  hook_regions (set_regions (<[h := m]> (regions_ p)) p) h' = if decide (h = h') then m else hook_regions p h'.
Proof. unfold hook_regions; cbn. rewrite lookup_insert. by case_decide. Qed.

Lemma getStartIndex_regions p h i :
  getStartIndex h i p = match hook_regions p h !! i with Some r => start_index r | None => -1 end.
Proof.
  unfold getStartIndex, hook_regions. destruct (regions_ p !! h); cbn; [done |]. by rewrite lookup_empty.
Qed.

Lemma regions_wf_insert m i :
  let s := foldl next_start_step 0 (uiter m) in
  regions_wf m -> m !! i = None -> s + MAX_PER_NIC_PROGS <= MAX_CHAIN_PROGS ->
  regions_wf (<[i := mkRegion s]> m) /\
  forall j r, m !! j = Some r -> start_index r + MAX_PER_NIC_PROGS <= s.
Proof.
  intros s [Hwf Hinj] Hnone Hfit. subst s. revert Hfit.
  pose proof (next_start_spec m) as (Hr & Hle & Hall). revert Hr Hle Hall.
  generalize (foldl next_start_step 0 (uiter m)) as s. intros s Hr Hle Hall Hfit.
  chain_consts.
  assert (Hs : s mod 8 = 0).
  { destruct Hr as [-> | (j & r & Hj & ->)]; [done |]. destruct (Hwf j r Hj) as [_ Hm].
    rewrite <- Z.add_mod_idemp_l, Hm by lia. done. }
  assert (Hbelow : forall j r, m !! j = Some r -> start_index r + 8 <= s).
  { intros j r Hj. specialize (Hall j r Hj). destruct (Hwf j r Hj) as [_ Hm].
    apply Z.div_exact in Hm; [| lia]. apply Z.div_exact in Hs; [| lia]. lia. }
  split; [split |]; [| | done].
  - intros j r. rewrite lookup_insert. case_decide; [intros [= <-]; simpl; chain_consts; split; [lia | exact Hs] | apply Hwf].
  - intros j j' r r'. rewrite !lookup_insert.
    repeat case_decide; intros; simplify_eq; cbn in *; try done; eauto.
    + specialize (Hbelow j' r'). naive_solver lia.
    + specialize (Hbelow j r). naive_solver lia.
Qed.

(** The result of an allocation, on every branch. *)
Lemma allocateRegion_inv h i p r p' :
  allocateRegion h i p = Ok (r, p') ->
  (hook_regions p' h = hook_regions p h /\
     match hook_regions p h !! i with
     | Some reg => r = start_index reg
     | None => r = -1 /\ MAX_CHAIN_PROGS < foldl next_start_step 0 (uiter (hook_regions p h)) + MAX_PER_NIC_PROGS
     end
   \/ hook_regions p h !! i = None /\ r = foldl next_start_step 0 (uiter (hook_regions p h)) /\
      r + MAX_PER_NIC_PROGS <= MAX_CHAIN_PROGS /\
      hook_regions p' h = <[i := mkRegion r]> (hook_regions p h)) /\
  forall h', h' <> h -> hook_regions p' h' = hook_regions p h'.
Proof.
  unfold allocateRegion. destruct (ASSERT _) as [[] |]; cbn; [| done].
  destruct (hook_regions p h !! i) as [reg |] eqn:Hi.
  - intros [= <- <-]. split; [left | intros h' Hne]; rewrite hook_regions_set.
    + by rewrite decide_True.
    + by rewrite decide_False.
  - case_match eqn:Hcap; intros [= <- <-].
    + apply Z.ltb_lt in Hcap. split; [left | intros h' Hne]; rewrite hook_regions_set.
      * by rewrite decide_True.
      * by rewrite decide_False.
    + apply Z.ltb_ge in Hcap. split; [right | intros h' Hne]; unfold hook_regions; cbn.
      * by rewrite lookup_insert_eq.
      * by rewrite !lookup_insert_ne.
Qed.

Lemma allocateRegion_wf h i p r p' :
  progmap_wf p -> allocateRegion h i p = Ok (r, p') -> progmap_wf p'.
Proof.
  intros Hwf Ha h'. destruct (allocateRegion_inv _ _ _ _ _ Ha) as [Hcase Hother].
  destruct (decide (h' = h)) as [-> | Hne]; [| rewrite Hother by done; apply Hwf].
  destruct Hcase as [[-> _] | (Hnone & -> & Hfit & ->)]; [apply Hwf |].
  by apply regions_wf_insert; [apply Hwf | |].
Qed.

Lemma releaseRegion_wf h i p : progmap_wf p -> progmap_wf (releaseRegion h i p).
Proof.
  intros Hwf h'. unfold releaseRegion. rewrite hook_regions_set. case_decide; [subst | apply Hwf].
  destruct (Hwf h') as [Hw Hinj]. split.
  - intros j r [_ Hj]%lookup_delete_Some. eauto.
  - intros j j' r r' [_ Hj]%lookup_delete_Some [_ Hj']%lookup_delete_Some. eauto.
Qed.

(** the manager's region operations as steps *)
Inductive region_step : PinnedProgMap -> PinnedProgMap -> Prop :=
| step_allocate h i r p p' : allocateRegion h i p = Ok (r, p') -> region_step p p'
| step_release h i p : region_step p (releaseRegion h i p).

Definition no_regions (p : PinnedProgMap) : Prop := regions_ p = ∅.

(** C12: after any sequence of allocations and releases, for every hook the
    regions of two NICs are disjoint blocks of eight slots inside the
    32-entry program array. *)
Theorem regions_always_disjoint (p0 p : PinnedProgMap) (h : HookType) (i j : Z) (r s : Region)
  (Hinit : no_regions p0) (Hreach : rtc region_step p0 p)
  (Hi : hook_regions p h !! i = Some r) (Hj : hook_regions p h !! j = Some s) (Hne : i <> j) :
  0 <= start_index r /\ start_index r + MAX_PER_NIC_PROGS <= MAX_CHAIN_PROGS /\
  (start_index r + MAX_PER_NIC_PROGS <= start_index s \/
   start_index s + MAX_PER_NIC_PROGS <= start_index r).
Proof.
  assert (Hwf : progmap_wf p).
  { assert (H0 : progmap_wf p0).
    { intros h'. unfold hook_regions. rewrite Hinit, lookup_empty; cbn. split; by intros ?. }
    clear Hi Hj Hinit. induction Hreach as [| p p1 p2 Hs _ IH]; [done |]. apply IH.
    destruct Hs; [by eapply allocateRegion_wf | by apply releaseRegion_wf]. }
  destruct (Hwf h) as [Hw Hinj].
  destruct (Hw i r Hi) as [Hr Hr8], (Hw j s Hj) as [Hs Hs8].
  assert (start_index r <> start_index s) by (intros E; exact (Hne (Hinj _ _ _ _ Hi Hj E))).
  chain_consts.
  apply Z.div_exact in Hr8, Hs8; lia.
Qed.

(** an allocation either returns the NIC's existing region unchanged, or
    records a new block and returns its start, or fails with -1 and changes
    nothing; whatever it returned, allocating again returns the same. *)
Theorem allocateRegion_idempotent (h : HookType) (i r : Z) (p p' : PinnedProgMap)
  (Hwf : progmap_wf p) (Ha : allocateRegion h i p = Ok (r, p')) :
  r = getStartIndex h i p' /\ (r = -1 \/ 0 <= r <= MAX_CHAIN_PROGS - MAX_PER_NIC_PROGS) /\
  (r = -1 -> hook_regions p' h = hook_regions p h) /\
  exists p'', allocateRegion h i p' = Ok (r, p'') /\ hook_regions p'' h = hook_regions p' h.
Proof.
  destruct (allocateRegion_inv _ _ _ _ _ Ha) as [Hcase _].
  assert (Hassert : ASSERT (0 <? i) = Ok tt).
  { unfold allocateRegion in Ha. destruct (ASSERT (0 <? i)) as [[] |]; [done | discriminate Ha]. }
  rewrite getStartIndex_regions. unfold allocateRegion at 1. rewrite Hassert; cbn.
  destruct Hcase as [[Heq Hcase] | (Hnone & Hr & Hfit & Heq)].
  - rewrite Heq. destruct (hook_regions p h !! i) as [reg |] eqn:Hi.
    + destruct (proj1 (Hwf h) i reg Hi) as [Hb _]. subst r. split_and!; [done | by right | lia |].
      eexists. split; [done |]. by rewrite hook_regions_set, decide_True.
    + destruct Hcase as [-> Hcap]. split_and!; [done | by left | done |].
      rewrite (proj2 (Z.ltb_lt _ _) Hcap). eexists. split; [done |]. by rewrite hook_regions_set, decide_True.
  - rewrite Heq, lookup_insert_eq; cbn.
    pose proof (next_start_spec (hook_regions p h)) as (_ & Hle & _).
    split_and!; [done | right; lia | lia |].
    eexists. split; [done |]. by rewrite hook_regions_set, decide_True.
Qed.

(** freed space below the highest region is not reused: while any NIC of
    the hook holds the last block, an allocation for a new NIC fails, however
    many of the other blocks have been released. *)
Theorem allocateRegion_fragmented (h : HookType) (i top : Z) (p : PinnedProgMap)
  (Hpos : 0 < i) (Hnew : hook_regions p h !! i = None)
  (Htop : hook_regions p h !! top = Some (mkRegion (MAX_CHAIN_PROGS - MAX_PER_NIC_PROGS))) :
  exists p', allocateRegion h i p = Ok (-1, p').
Proof.
  unfold allocateRegion, ASSERT. rewrite (proj2 (Z.ltb_lt 0 i) Hpos); cbn. rewrite Hnew.
  pose proof (next_start_spec (hook_regions p h)) as (_ & _ & Hall).
  specialize (Hall top _ Htop). cbn in Hall.
  case_match eqn:Hcap; [by eexists |].
  apply Z.ltb_ge in Hcap. chain_consts. lia.
Qed.

End Regions.


(** ** Chain keys *)

Lemma CHAIN_KEY_parts i d :
  0 <= i < 2 ^ 32 -> Z.shiftr (CHAIN_KEY i d) 32 = i /\ Z.land (CHAIN_KEY i d) (Z.ones 32) = u32 d.
Proof.
  intros Hi. unfold CHAIN_KEY, u64, u32, wrap.
  rewrite (Z.mod_small i) by lia. rewrite Z.shiftl_mul_pow2 by lia.
  rewrite (Z.mod_small (i * 2 ^ 32)) by lia. rewrite <- Z.shiftl_mul_pow2 by lia.
  pose proof (Z.mod_pos_bound d (2 ^ 32) ltac:(lia)) as Hd. split.
  - rewrite Z.shiftr_lor, Z.shiftr_shiftl_l by lia. rewrite Z.sub_diag, Z.shiftl_0_r.
    rewrite (Z.shiftr_div_pow2 (d mod 2 ^ 32)) by lia. by rewrite Z.div_small, Z.lor_0_r.
  - rewrite Z.land_lor_distr_l, !Z.land_ones by lia. rewrite Z.shiftl_mul_pow2 by lia.
    by rewrite Z.mod_mul, Z.lor_0_l, Z.mod_mod.
Qed.

Lemma CHAIN_KEY_inj' i j d e :
  0 <= i < 2 ^ 32 -> 0 <= j < 2 ^ 32 -> CHAIN_KEY i d = CHAIN_KEY j e -> i = j /\ u32 d = u32 e.
Proof.
  intros Hi Hj Heq. destruct (CHAIN_KEY_parts i d Hi) as [Hi1 Hd1], (CHAIN_KEY_parts j e Hj) as [Hj1 He1].
  rewrite Heq in Hi1, Hd1. split; congruence.
Qed.

Lemma u32_small x : 0 <= x < 2 ^ 32 -> u32 x = x.
Proof. apply Z.mod_small. Qed.

Lemma CHAIN_KEY_nonzero i d : 0 < i < 2 ^ 32 -> CHAIN_KEY i d <> 0.
Proof. intros Hi Heq. destruct (CHAIN_KEY_parts i d) as [H0 _]; [lia |]. rewrite Heq, Z.shiftr_0_l in H0. lia. Qed.

(** the key of the id hash determines the NIC and the program: two chain
    entries never share a key. *)
Theorem CHAIN_KEY_inj (i j d e : Z)
  (Hi : 0 <= i < 2 ^ 32) (Hj : 0 <= j < 2 ^ 32) (Hd : 0 <= d < 2 ^ 32) (He : 0 <= e < 2 ^ 32)
  (Heq : CHAIN_KEY i d = CHAIN_KEY j e) : i = j /\ d = e.
Proof.
  destruct (CHAIN_KEY_inj' i j d e Hi Hj Heq) as [-> Hu]. by rewrite !u32_small in Hu.
Qed.

(** ** What updateChain writes *)

Section ChainFacts.
Context {M A P : Type} `{!BpfHash M Z Z, !BpfHashLaws M Z Z} `{!BpfProgArray A P}.
Context `{BuildMode} `{!UMapOrder Z}.
Implicit Types (k : Kernel M A) (m : M) (p : PinnedProgMap).

(** the registered programs of a name list, in order *)
Definition chain_ids (h : HookType) (p : PinnedProgMap) (names : list string) : list Z :=
  omap (fun name => info ← lookupProgInfo name p; if bool_decide (hook info <> h) then None else Some (id info)) names.

(** the entries of one NIC: key and consecutive index *)
Fixpoint number (ifindex index : Z) (ids : list Z) : list (Z * Z) :=
  match ids with
  | [] => []
  | d :: ids => (CHAIN_KEY ifindex d, u32 index) :: number ifindex (index + 1) ids
  end.

(** a hash after a list of successful updates: the last write to a key wins *)
Definition overlay (m : M) (l : list (Z * Z)) (m' : M) : Prop :=
  bpf_max m' = bpf_max m /\ (length (bpf_keys m') <= length (bpf_keys m) + length l)%nat /\
  forall key, bpf_lookup m' key =
    match (list_to_map (reverse l) : gmap Z Z) !! key with Some v => Some v | None => bpf_lookup m key end.

Lemma overlay_nil m : overlay m [] m.
Proof. split_and!; [done | cbn; lia | done]. Qed.

Lemma overlay_app m l1 m1 l2 m2 : overlay m l1 m1 -> overlay m1 l2 m2 -> overlay m (l1 ++ l2) m2.
Proof.
  intros (Hx1 & Hl1 & Hv1) (Hx2 & Hl2 & Hv2). split_and!; [congruence | rewrite length_app; lia |].
  intros key. rewrite Hv2, Hv1, reverse_app, list_to_map_app, lookup_union.
  destruct (list_to_map (reverse l2) !! key), (list_to_map (reverse l1) !! key); done.
Qed.

Lemma overlay_update m key v :
  (length (bpf_keys m) < bpf_max m)%nat -> exists m', bpf_update m key v = Some m' /\ overlay m [(key, v)] m'.
Proof.
  intros Hroom. destruct (bpf_update_room m key v Hroom) as [m' Hu]. exists m'. split; [done |]. split_and!.
  - by eapply bpf_update_max.
  - pose proof (bpf_update_keys_le _ _ _ _ Hu). cbn. lia.
  - intros key'. rewrite (bpf_update_lookup _ _ _ _ Hu). cbn. rewrite lookup_insert, lookup_empty.
    by case_decide.
Qed.

Lemma set_hash_set fd m m' k : set_hash fd m' (set_hash fd m k) = set_hash fd m' k.
Proof. unfold set_hash; cbn. by rewrite insert_insert_eq. Qed.

Lemma chain_names_spec h fd ifindex names p :
  forall index k m, hashes k !! fd = Some m ->
  (length (bpf_keys m) + length (chain_ids h p names) <= bpf_max m)%nat ->
  exists m', chain_names h fd ifindex index names p k = (true, set_hash fd m' k) /\
    overlay m (number ifindex index (chain_ids h p names)) m'.
Proof.
  induction names as [| name names IH]; intros index k m Hm Hroom.
  - exists m. split; [| apply overlay_nil]. cbn. unfold set_hash. rewrite insert_id by done. by destruct k.
  - cbn. cbn in Hroom. destruct (lookupProgInfo name p) as [info |]; cbn in *; [| by apply IH].
    case_bool_decide; cbn in *; [by apply IH |].
    destruct (overlay_update m (CHAIN_KEY ifindex (id info)) (u32 index)) as (m1 & Hu & Ho1); [lia |].
    unfold sys_hash_update. rewrite Hm; cbn. rewrite Hu; cbn. pose proof Ho1 as (Hmax & Hlen & _).
    destruct (IH (index + 1) (set_hash fd m1 k) m1) as (m' & Heq & Ho).
    + unfold set_hash; cbn. apply lookup_insert_eq.
    + rewrite Hmax. cbn in Hlen. unfold chain_ids. lia.
    + exists m'. rewrite Heq, set_hash_set. split; [done |].
      apply (overlay_app m [_] m1); done.
Qed.

(** the scheduler's canonical name is always defined *)
Definition scheduler_name (h : HookType) : string :=
  match getCanonicalName (H := true) h LIBRARY (scheduler_lib h) with Ok s => s | Err _ => "" end.

Lemma scheduler_name_ok h : h <> UNKNOWN -> getCanonicalName h LIBRARY (scheduler_lib h) = Ok (scheduler_name h).
Proof. intros Hh. unfold BuildMode in *. by destruct h; [vm_compute .. |]. Qed.

Definition chained (h : HookType) (p : PinnedProgMap) (names : list string) : list Z :=
  chain_ids h p (scheduler_name h :: names).

(** the entries of one group: none for a NIC whose region starts after the
    first block *)
Definition nic_entries (h : HookType) (p : PinnedProgMap) (nic : Z * list string) : list (Z * Z) :=
  let index := getStartIndex h nic.1 p in
  if MAX_PER_NIC_PROGS <=? index then [] else number nic.1 index (chained h p nic.2).

Definition nics_entries (h : HookType) (p : PinnedProgMap) (l : list (Z * list string)) : list (Z * Z) :=
  l ≫= nic_entries h p.

Lemma length_number i n ids : length (number i n ids) = length ids.
Proof. revert n. induction ids as [| d ids IH]; intros n; cbn; [done |]. by rewrite IH. Qed.

Lemma chain_nics_spec h fd p orders :
  h <> UNKNOWN -> (forall nic, nic ∈ orders -> ASSERT (0 <=? getStartIndex h nic.1 p) = Ok tt) ->
  forall k m, hashes k !! fd = Some m ->
  (length (bpf_keys m) + length (nics_entries h p orders) <= bpf_max m)%nat ->
  exists m', chain_nics h fd orders p k = Ok (true, set_hash fd m' k) /\
    overlay m (nics_entries h p orders) m'.
Proof.
  intros Hh Hidx. induction orders as [| [ifindex names] orders IH]; intros k m Hm Hroom.
  - exists m. split; [| apply overlay_nil]. cbn. unfold set_hash. rewrite insert_id by done. by destruct k.
  - specialize (IH (fun nic Hin => Hidx nic (list_elem_of_further _ _ _ Hin))).
    cbn [chain_nics]. pose proof (Hidx (ifindex, names) (list_elem_of_here _ _)) as H0; cbn in H0.
    rewrite H0; cbn [mbind result_bind].
    change (nics_entries h p ((ifindex, names) :: orders))
      with (nic_entries h p (ifindex, names) ++ nics_entries h p orders) in *.
    rewrite length_app in Hroom. revert Hroom. unfold nic_entries; cbn [fst snd].
    destruct (MAX_PER_NIC_PROGS <=? getStartIndex h ifindex p) eqn:Hbig; intros Hroom; [by apply IH |].
    change (if bool_decide (h = TC) then SCHEDULER_TC_LIB else SCHEDULER_XDP_LIB) with (scheduler_lib h).
    rewrite scheduler_name_ok by done; cbn [mbind result_bind].
    rewrite length_number in Hroom. unfold chained in *.
    destruct (chain_names_spec h fd ifindex (scheduler_name h :: names) p
                (getStartIndex h ifindex p) k m Hm) as (m1 & Heq & Ho1); [lia |].
    rewrite Heq. pose proof Ho1 as (Hmax & Hlen & _). rewrite length_number in Hlen.
    destruct (IH (set_hash fd m1 k) m1) as (m' & -> & Ho).
    + unfold set_hash; cbn. apply lookup_insert_eq.
    + rewrite Hmax. lia.
    + exists m'. rewrite set_hash_set. split; [done |]. by eapply overlay_app.
Qed.

(** the programs configured on one NIC, in order *)
Definition names_of (i : Z) (l : list (string * Z)) : list string :=
  (filter (fun e : string * Z => e.2 = i) l).*1.

Lemma group_by_ifindex_lookup l i :
  group_by_ifindex l !! i = match names_of i l with [] => None | ns => Some ns end.
Proof.
  unfold group_by_ifindex, names_of. induction l as [| [name j] l IH] using rev_ind; [done |].
  rewrite foldl_snoc, filter_app, fmap_app, lookup_insert, filter_cons, filter_nil; cbn.
  destruct (decide (j = i)) as [-> | Hne]; cbn; [| by rewrite app_nil_r].
  rewrite IH. by destruct (filter _ l).*1.
Qed.

(** the value a list of writes leaves at a key: the last one *)
Lemma last_write (l : list (Z * Z)) key v :
  (list_to_map (reverse l) : gmap Z Z) !! key = Some v <->
  exists l1 l2, l = l1 ++ (key, v) :: l2 /\ key ∉ l2.*1.
Proof.
  induction l as [| [key0 v0] l IH].
  - cbn; rewrite lookup_empty. split; [done | by intros ([] & ? & ? & _)].
  - rewrite reverse_cons, list_to_map_app, lookup_union_Some_raw, IH; cbn.
    rewrite insert_empty, lookup_singleton_Some. split.
    + intros [(l1 & l2 & -> & Hk) | (Hnone & -> & ->)]; [by exists ((key0, v0) :: l1), l2 |].
      exists [], l. split; [done |]. rewrite <- not_elem_of_list_to_map, fmap_reverse in Hnone.
      by rewrite elem_of_reverse in Hnone.
    + intros ([| e l1] & l2 & Heq & Hk); simplify_eq/=; [right | left; eauto].
      split; [| done]. apply not_elem_of_list_to_map. by rewrite fmap_reverse, elem_of_reverse.
Qed.

Lemma number_app i n ids1 ids2 :
  number i n (ids1 ++ ids2) = number i n ids1 ++ number i (n + Z.of_nat (length ids1)) ids2.
Proof.
  revert n. induction ids1 as [| d ids1 IH]; intros n; cbn; [by rewrite Z.add_0_r |].
  rewrite IH. do 3 f_equal. lia.
Qed.

Lemma number_split i s ids n d :
  ids !! n = Some d ->
  number i s ids = number i s (take n ids) ++
    (CHAIN_KEY i d, u32 (s + Z.of_nat n)) :: number i (s + Z.of_nat n + 1) (drop (S n) ids).
Proof.
  intros Hn. rewrite <- (take_drop_middle _ _ _ Hn) at 1.
  rewrite number_app, length_take_le by (apply lookup_lt_Some in Hn; lia). done.
Qed.

Lemma elem_of_number i n ids e :
  e ∈ number i n ids -> exists d, d ∈ ids /\ e.1 = CHAIN_KEY i d.
Proof.
  revert n. induction ids as [| d ids IH]; intros n; cbn; [by intros ?%not_elem_of_nil |].
  intros [-> | (d' & Hd & Heq)%IH]%elem_of_cons; [exists d | exists d']; set_solver.
Qed.

Lemma elem_of_nics h p l e :
  e ∈ nics_entries h p l ->
  exists i ns d, (i, ns) ∈ l /\ getStartIndex h i p < MAX_PER_NIC_PROGS /\ d ∈ chained h p ns /\ e.1 = CHAIN_KEY i d.
Proof.
  unfold nics_entries. intros ([i ns] & He & Hin)%list_elem_of_bind. unfold nic_entries in He; cbn [fst snd] in He.
  destruct (MAX_PER_NIC_PROGS <=? getStartIndex h i p) eqn:Hbig; [by apply not_elem_of_nil in He |].
  apply elem_of_number in He as (d & Hd & Heq). apply Z.leb_gt in Hbig. by exists i, ns, d.
Qed.

(** program ids are 32-bit numbers *)
Definition registry_wf (p : PinnedProgMap) : Prop :=
  map_Forall (fun _ info => 0 <= id info < 2 ^ 32) (prog_registry_ p).

Lemma chain_ids_range h p names d : registry_wf p -> d ∈ chain_ids h p names -> 0 <= d < 2 ^ 32.
Proof.
  intros Hwf (name & _ & Hd)%list_elem_of_omap. unfold lookupProgInfo in Hd.
  destruct (prog_registry_ p !! name) as [info |] eqn:Hname; cbn in Hd; [| done].
  case_bool_decide; simplify_eq. by eapply Hwf.
Qed.

(** What the daemon establishes before it updates a chain: the maps exist, no
    entry has key 0, the id hash is large enough, and every NIC has a region (in
    a build without assertions it need not). *)
Record chain_ready (h : HookType) (l : list (string * Z)) (p : PinnedProgMap) (k : Kernel M A)
  (maps : HookMaps) (m : M) : Prop := {
  ready_hook : h <> UNKNOWN;
  ready_init : initialized_ p = true;
  ready_maps : hook_maps_ p !! h = Some maps;
  ready_hash : hashes k !! id_hash_fd maps = Some m;
  ready_keys : bpf_lookup m 0 = None;
  ready_room : (length (nics_entries h p (map_to_list (group_by_ifindex l))) <= bpf_max m)%nat;
  ready_regions : forall e, e ∈ l -> 0 < e.2 < 2 ^ 32 /\ ASSERT (0 <=? getStartIndex h e.2 p) = Ok tt;
  ready_registry : registry_wf p
}.

Lemma group_elem l i ns :
  (i, ns) ∈ uiter (group_by_ifindex l) <-> ns = names_of i l /\ ns <> [].
Proof.
  rewrite uiter_perm, elem_of_map_to_list, group_by_ifindex_lookup.
  destruct (names_of i l) eqn:E; split; naive_solver.
Qed.

Lemma names_of_elem i l : names_of i l <> [] -> exists e, e ∈ l /\ e.2 = i.
Proof.
  unfold names_of. destruct (filter _ l) as [| e r] eqn:E; [done |]. intros _.
  exists e. assert (He : e ∈ filter (fun e : string * Z => e.2 = i) l) by (rewrite E; left).
  by apply list_elem_of_filter in He as [? ?].
Qed.

Lemma group_start h l p k maps m i ns :
  chain_ready h l p k maps m -> (i, ns) ∈ uiter (group_by_ifindex l) ->
  0 < i < 2 ^ 32 /\ ASSERT (0 <=? getStartIndex h i p) = Ok tt.
Proof.
  intros Hr [-> Hne]%group_elem. destruct (names_of_elem _ _ Hne) as (e & He & <-).
  by eapply ready_regions.
Qed.

Lemma updateChain_overlay h l p k maps m :
  chain_ready h l p k maps m ->
  exists m0 m', updateChain h l p k = Ok (true, set_hash (id_hash_fd maps) m' k) /\
    bpf_keys m0 = [] /\ bpf_max m0 = bpf_max m /\ overlay m0 (nics_entries h p (uiter (group_by_ifindex l))) m'.
Proof.
  intros Hr. unfold updateChain. rewrite (ready_init _ _ _ _ _ _ Hr), (ready_maps _ _ _ _ _ _ Hr); cbn [negb].
  unfold clear_hash. rewrite (ready_hash _ _ _ _ _ _ Hr).
  destruct (delete_loop_absent (S (length (bpf_keys m))) m 0) as (m0 & -> & Hnil & Hmax); [| lia |].
  { rewrite bpf_keys_lookup, (ready_keys _ _ _ _ _ _ Hr). apply is_Some_None. }
  cbn [default].
  destruct (chain_nics_spec h (id_hash_fd maps) p (uiter (group_by_ifindex l)) (ready_hook _ _ _ _ _ _ Hr))
    with (k := set_hash (id_hash_fd maps) m0 k) (m := m0) as (m' & Heq & Ho).
  - intros [i ns] Hin. by apply (group_start _ _ _ _ _ _ _ _ Hr Hin).
  - unfold set_hash; cbn. apply lookup_insert_eq.
  - rewrite Hnil, Hmax; cbn. etransitivity; [| exact (ready_room _ _ _ _ _ _ Hr)].
    unfold nics_entries. apply Nat.eq_le_incl, Permutation_length.
    by rewrite uiter_perm.
  - exists m0, m'. rewrite set_hash_set in Heq. split; [exact Heq |]. split; [done |]. by split.
Qed.

(** What the id hash holds afterwards, read in both directions; it is again one
    that can be updated. *)
(** the last write under the key of a program that does not occur again *)
Lemma chained_last_write h l p k maps m i n d :
  chain_ready h l p k maps m -> names_of i l <> [] -> getStartIndex h i p < MAX_PER_NIC_PROGS ->
  chained h p (names_of i l) !! n = Some d -> d ∉ drop (S n) (chained h p (names_of i l)) ->
  (list_to_map (reverse (nics_entries h p (uiter (group_by_ifindex l)))) : gmap Z Z) !! CHAIN_KEY i d
    = Some (u32 (getStartIndex h i p + Z.of_nat n)).
Proof.
  intros Hr Hne Hbig Hn Hlast. pose proof (ready_registry _ _ _ _ _ _ Hr) as Hreg.
  assert (Hin : (i, names_of i l) ∈ uiter (group_by_ifindex l)) by by apply group_elem.
  pose proof (group_start _ _ _ _ _ _ _ _ Hr Hin) as [Hi _].
  apply list_elem_of_split in Hin as (o1 & o2 & Ho).
  assert (Hnd : NoDup (uiter (group_by_ifindex l)).*1) by (rewrite uiter_perm; apply NoDup_fst_map_to_list).
  apply last_write. rewrite Ho. unfold nics_entries. rewrite bind_app, bind_cons.
  unfold nic_entries at 2; cbn [fst snd]. rewrite (proj2 (Z.leb_gt _ _) Hbig).
  rewrite (number_split _ _ _ _ _ Hn).
  set (s := getStartIndex h i p) in *. set (ids := chained h p (names_of i l)) in *.
  exists (nics_entries h p o1 ++ number i s (take n ids)),
         (number i (s + Z.of_nat n + 1) (drop (S n) ids) ++ nics_entries h p o2).
  split; [by rewrite <- !app_assoc |].
  rewrite fmap_app, not_elem_of_app. split.
  + intros ([key v] & Hk & Hin)%list_elem_of_fmap. cbn in Hk; subst key.
    apply elem_of_number in Hin as (d' & Hd' & Heqk). cbn in Heqk.
    apply CHAIN_KEY_inj' in Heqk as [_ Hdd]; [| lia | lia].
    rewrite !u32_small in Hdd; [by subst d' | |].
    * eapply chain_ids_range; [exact Hreg | by eapply elem_of_submseteq, submseteq_drop].
    * by eapply chain_ids_range, list_elem_of_lookup_2.
  + intros ([key v] & Hk & Hin)%list_elem_of_fmap. cbn in Hk; subst key.
    apply elem_of_nics in Hin as (j & ns & d' & Hj & _ & _ & Heqk). cbn in Heqk.
    assert (Hjin : (j, ns) ∈ uiter (group_by_ifindex l)) by (rewrite Ho; set_solver).
    pose proof (group_start _ _ _ _ _ _ _ _ Hr Hjin) as [Hjr _].
    apply CHAIN_KEY_inj' in Heqk as [<- _]; [| lia | lia].
    rewrite Ho, fmap_app, NoDup_app in Hnd. destruct Hnd as (_ & _ & Hnd). cbn in Hnd.
    apply NoDup_cons in Hnd as [Hnot _]. apply Hnot, list_elem_of_fmap. by exists (i, ns).
Qed.

Lemma updateChain_lookup h l p k maps m :
  chain_ready h l p k maps m ->
  exists m', updateChain h l p k = Ok (true, set_hash (id_hash_fd maps) m' k) /\
    bpf_max m' = bpf_max m /\ bpf_lookup m' 0 = None /\
    (forall i n d, names_of i l <> [] -> getStartIndex h i p < MAX_PER_NIC_PROGS ->
       chained h p (names_of i l) !! n = Some d -> d ∉ drop (S n) (chained h p (names_of i l)) ->
       bpf_lookup m' (CHAIN_KEY i d) = Some (u32 (getStartIndex h i p + Z.of_nat n))) /\
    (forall i d v, 0 <= i < 2 ^ 32 -> 0 <= d < 2 ^ 32 -> bpf_lookup m' (CHAIN_KEY i d) = Some v ->
       names_of i l <> [] /\ getStartIndex h i p < MAX_PER_NIC_PROGS /\ d ∈ chained h p (names_of i l)).
Proof.
  intros Hr. destruct (updateChain_overlay _ _ _ _ _ _ Hr) as (m0 & m' & Heq & Hnil & Hmax & Hmax' & _ & Hv).
  pose proof (ready_registry _ _ _ _ _ _ Hr) as Hreg.
  exists m'. split; [done |]. split; [congruence |]. split; [| split].
  - rewrite Hv. destruct (_ !! 0) as [v |] eqn:Hlw; [| by apply keys_nil_lookup].
    apply last_write in Hlw as (l1 & l2 & Hl & _).
    destruct (elem_of_nics h p (uiter (group_by_ifindex l)) (0, v)) as (j & ns & d & Hj & _ & Hd & Heqk).
    { rewrite Hl. set_solver. }
    destruct (CHAIN_KEY_nonzero j d); [by destruct (group_start _ _ _ _ _ _ _ _ Hr Hj) | done].
  - intros i n d Hne Hbig Hn Hlast. rewrite Hv. by rewrite (chained_last_write h l p k maps m i n d Hr Hne Hbig Hn Hlast).
  - intros i d v Hi Hd. rewrite Hv.
    destruct (_ !! CHAIN_KEY i d) as [v' |] eqn:Hlw; [| by rewrite keys_nil_lookup].
    intros _. apply last_write in Hlw as (l1 & l2 & Hl & _).
    destruct (elem_of_nics h p (uiter (group_by_ifindex l)) (CHAIN_KEY i d, v')) as (j & ns & d' & Hj & Hbig & Hd' & Heqk).
    { rewrite Hl. set_solver. }
    pose proof (group_start _ _ _ _ _ _ _ _ Hr Hj) as [Hjr _]. cbn in Heqk.
    apply CHAIN_KEY_inj' in Heqk as [<- Hdd]; [| lia | lia].
    rewrite !u32_small in Hdd; [| by eapply chain_ids_range | done]. subst d'.
    apply group_elem in Hj as [-> Hne]. done.
Qed.

(** ** From the hash to the running chain *)

(** position of a program in a chain *)
Definition position (d : Z) (ids : list Z) : option nat := fst <$> list_find (fun e => e = d) ids.

Lemma position_NoDup d ids n : NoDup ids -> ids !! n = Some d -> position d ids = Some n.
Proof.
  intros Hnd Hn. unfold position. destruct (list_find (fun e => e = d) ids) as [[j e] |] eqn:E; cbn.
  - apply list_find_Some in E as (Hj & -> & _). f_equal. by eapply NoDup_lookup.
  - apply list_find_None, Forall_forall with (x := d) in E; [done |]. by eapply list_elem_of_lookup_2.
Qed.

Lemma position_None d ids : d ∉ ids -> position d ids = None.
Proof.
  intros Hd. unfold position. destruct (list_find (fun e => e = d) ids) as [[j e] |] eqn:E; cbn; [| done].
  apply list_find_Some in E as (Hj & -> & _). by apply list_elem_of_lookup_2 in Hj.
Qed.

Lemma NoDup_not_in_drop (ids : list Z) n d : NoDup ids -> ids !! n = Some d -> d ∉ drop (S n) ids.
Proof.
  intros Hnd Hn Hin. rewrite <- (take_drop_middle _ _ _ Hn) in Hnd.
  apply NoDup_app in Hnd as (_ & _ & Hnd). by apply NoDup_cons in Hnd as [? _].
Qed.

(** the slot [updateChain] gives program [d] of NIC [i] *)
Definition chain_slot (h : HookType) (p : PinnedProgMap) (l : list (string * Z)) (i d : Z) : option Z :=
  if decide (names_of i l <> [] /\ getStartIndex h i p < MAX_PER_NIC_PROGS)
  then (fun n : nat => u32 (getStartIndex h i p + Z.of_nat n)) <$> position d (chained h p (names_of i l))
  else None.

Lemma updateChain_slots h l p k maps m :
  chain_ready h l p k maps m -> (forall i, NoDup (chained h p (names_of i l))) ->
  exists m', updateChain h l p k = Ok (true, set_hash (id_hash_fd maps) m' k) /\
    bpf_max m' = bpf_max m /\ bpf_lookup m' 0 = None /\
    forall i d, 0 <= i < 2 ^ 32 -> 0 <= d < 2 ^ 32 ->
      bpf_lookup m' (CHAIN_KEY i d) = chain_slot h p l i d.
Proof.
  intros Hr Hnd. destruct (updateChain_lookup _ _ _ _ _ _ Hr) as (m' & Heq & Hmax & H0 & Hin & Hout).
  exists m'. do 3 (split; [done |]). intros i d Hi Hd. unfold chain_slot.
  destruct (decide (d ∈ chained h p (names_of i l))) as [Hel | Hnel].
  - apply list_elem_of_lookup_1 in Hel as [n Hn]. case_decide as Hcase.
    + rewrite (position_NoDup _ _ _ (Hnd i) Hn); cbn.
      apply Hin; [tauto | tauto | done | by apply NoDup_not_in_drop].
    + apply eq_None_not_Some. intros [v Hv]. destruct (Hout i d v Hi Hd Hv). tauto.
  - rewrite position_None by done. transitivity (@None Z); [| by case_decide]. apply eq_None_not_Some. intros [v Hv].
    by destruct (Hout i d v Hi Hd Hv) as (_ & _ & ?).
Qed.

(** C15: in one pass updateChain replaces the whole content of a hook's id
    hash: the n-th registered program of a NIC, the scheduler being number 0,
    gets index start + n when the NIC's region is the first block, and no
    other program of any NIC has an entry. *)
Theorem updateChain_indices (h : HookType) (l : list (string * Z)) (p : PinnedProgMap)
  (k : Kernel M A) (maps : HookMaps) (m : M)
  (Hr : chain_ready h l p k maps m) (Hnd : forall i, NoDup (chained h p (names_of i l))) :
  exists k' m', updateChain h l p k = Ok (true, k') /\ hashes k' !! id_hash_fd maps = Some m' /\
    arrays k' = arrays k /\
    forall i d, 0 <= i < 2 ^ 32 -> 0 <= d < 2 ^ 32 ->
      bpf_lookup m' (CHAIN_KEY i d) = chain_slot h p l i d.
Proof.
  destruct (updateChain_slots _ _ _ _ _ _ Hr Hnd) as (m' & Heq & _ & _ & Hm').
  eexists _, m'. split; [exact Heq |]. split_and!; [apply lookup_insert_eq | done | done].
Qed.

(** a NIC whose region is not the first block gets no chain at all:
    after a successful update, whatever the program array holds, no program
    runs behind the scheduler of that NIC. *)
Theorem later_region_has_no_chain (h : HookType) (l : list (string * Z)) (p : PinnedProgMap)
  (k : Kernel M A) (maps : HookMaps) (m : M) (i : Z)
  (Hr : chain_ready h l p k maps m) (Hi : 0 <= i < 2 ^ 32)
  (Hstart : MAX_PER_NIC_PROGS <= getStartIndex h i p) :
  exists k' m', updateChain h l p k = Ok (true, k') /\ hashes k' !! id_hash_fd maps = Some m' /\
    forall (array : A) d, 0 <= d < 2 ^ 32 -> chain_next m' array i d = None.
Proof.
  destruct (updateChain_lookup _ _ _ _ _ _ Hr) as (m' & Heq & _ & _ & _ & Hout).
  eexists _, m'. split; [exact Heq |]. split; [apply lookup_insert_eq |].
  intros array d Hd. unfold chain_next.
  destruct (bpf_lookup m' (CHAIN_KEY i d)) eqn:Hv; [| done].
  destruct (Hout i d _ Hi Hd Hv) as (_ & Hlt & _). lia.
Qed.

(** *** Insertion and execution *)

Context (prog_id : P -> Z) (prog_of_fd : Z -> option P) `{!BpfProgArrayLaws A P prog_of_fd MAX_CHAIN_PROGS}.

(** an insertion the loader performs: program [d] under its registered name,
    with the descriptor of a program whose id is [d] *)
Definition insertion (h : HookType) (p : PinnedProgMap) (nf : string * Z) (d : Z) : Prop :=
  exists info q, lookupProgInfo nf.1 p = Some info /\ hook info = h /\ id info = d /\
    0 <= nf.2 /\ prog_of_fd nf.2 = Some q /\ prog_id q = d.

Lemma insertProg_ok h i p k maps m (a : A) nf d slot :
  initialized_ p = true -> hook_maps_ p !! h = Some maps ->
  hashes k !! id_hash_fd maps = Some m -> arrays k !! prog_array_fd maps = Some a ->
  insertion h p nf d -> bpf_lookup m (CHAIN_KEY i d) = Some slot -> 0 <= slot < MAX_CHAIN_PROGS ->
  exists a' q, insertProg h nf.1 nf.2 i p k = Ok (true, mkKernel (hashes k) (<[prog_array_fd maps := a']> (arrays k))) /\
    prog_id q = d /\ forall j, pa_lookup a' j = if decide (slot = j) then Some q else pa_lookup a j.
Proof.
  intros Hinit Hmaps Hm Ha (info & q & Hreg & Hh & Hid & Hfd & Hq & Hpid) Hslot Hrange.
  destruct (proj2 (pa_update_ok (prog_of_fd := prog_of_fd) (max := MAX_CHAIN_PROGS) a slot nf.2)) as [a' Ha'];
    [rewrite Hq; eauto |].
  exists a', q. unfold insertProg, ASSERT. rewrite (proj2 (Z.leb_le _ _) Hfd); cbn.
  rewrite Hinit, Hmaps, Hreg; cbn. rewrite bool_decide_eq_false_2 by tauto.
  unfold sys_hash_lookup, sys_array_update. rewrite Hm, Hid; cbn. rewrite Hslot, Ha; cbn. rewrite Ha'; cbn.
  split_and!; [done | done |]. intros j. by rewrite (pa_update_lookup _ _ _ _ Ha' j), Hq.
Qed.

Lemma insert_all_ok h i p maps m slot (nfs : list (string * Z)) (ds : list Z) :
  initialized_ p = true -> hook_maps_ p !! h = Some maps ->
  (forall d, d ∈ ds -> bpf_lookup m (CHAIN_KEY i d) = Some (slot d) /\ 0 <= slot d < MAX_CHAIN_PROGS) ->
  (forall d e, d ∈ ds -> e ∈ ds -> slot d = slot e -> d = e) -> NoDup ds ->
  Forall2 (insertion h p) nfs ds ->
  forall k a, hashes k !! id_hash_fd maps = Some m -> arrays k !! prog_array_fd maps = Some a ->
  exists k' a', insert_all h i nfs p k = Ok (true, k') /\ hashes k' = hashes k /\
    arrays k' !! prog_array_fd maps = Some a' /\
    (forall d, d ∈ ds -> exists q, pa_lookup a' (slot d) = Some q /\ prog_id q = d) /\
    (forall j, (forall d, d ∈ ds -> slot d <> j) -> pa_lookup a' j = pa_lookup a j).
Proof.
  intros Hinit Hmaps Hslots Hinj Hnd Hall. induction Hall as [| [name fd] d nfs ds Hnf Hall IH]; intros k a Hm Ha.
  - exists k, a. split_and!; try done. by intros d ?%not_elem_of_nil.
  - apply NoDup_cons in Hnd as [Hd Hnd].
    destruct (Hslots d) as [Hs Hr]; [left |].
    destruct (insertProg_ok h i p k maps m a (name, fd) d (slot d)) as (a1 & q & Heq & Hq & Ha1); try done.
    cbn [fst snd] in Heq. cbn [insert_all]. rewrite Heq; cbn [mbind result_bind fst snd].
    destruct (IH ltac:(set_solver) ltac:(set_solver) Hnd
                (mkKernel (hashes k) (<[prog_array_fd maps := a1]> (arrays k))) a1)
      as (k' & a' & -> & Hk' & Ha' & Hin & Hout); [done | apply lookup_insert_eq |].
    exists k', a'. split_and!; [done | done | done | |].
    + intros e [-> | He]%elem_of_cons; [| by apply Hin].
      exists q. split; [| done]. rewrite Hout, Ha1; [by rewrite decide_True |].
      intros e He Hse. apply Hd. by rewrite (Hinj d e ltac:(set_solver) ltac:(set_solver) (eq_sym Hse)).
    + intros j Hj. rewrite Hout, Ha1 by set_solver. apply decide_False. set_solver.
Qed.

(** The walk over consecutive slots. *)
Lemma run_chain_prefix m (a : A) i ids f n d :
  (forall n d, ids !! n = Some d -> bpf_lookup m (CHAIN_KEY i d) = Some (Z.of_nat n)) ->
  (forall n d, ids !! S n = Some d -> exists q, pa_lookup a (Z.of_nat (S n)) = Some q /\ prog_id q = d) ->
  Z.of_nat (length ids) <= MAX_CHAIN_PROGS ->
  ids !! n = Some d ->
  exists e, last ids = Some e /\
    run_chain prog_id (length (drop (S n) ids) + f) m a i d = drop (S n) ids ++ run_chain prog_id f m a i e.
Proof.
  intros Hhash Harr Hlen. remember (drop (S n) ids) as rest eqn:Hrest. revert n d Hrest.
  induction rest as [| e rest IH]; intros n d Hrest Hn.
  - exists d. split; [| done]. rewrite <- (take_drop_middle _ _ _ Hn), <- Hrest. by rewrite last_snoc.
  - assert (Hn1 : ids !! S n = Some e).
    { replace (S n) with (S n + 0)%nat by lia. by rewrite <- lookup_drop, <- Hrest. }
    destruct (IH (S n) e) as (e' & Hlast & Hrun); [| done |].
    { replace (S (S n)) with (S n + 1)%nat by lia. by rewrite <- drop_drop, <- Hrest. }
    exists e'. split; [done |]. cbn. unfold chain_next. rewrite (Hhash n d Hn).
    pose proof (lookup_lt_Some _ _ _ Hn1) as Hlt.
    rewrite u32_small by (chain_consts; lia).
    replace (Z.of_nat n + 1) with (Z.of_nat (S n)) by lia.
    rewrite (proj2 (Z.ltb_lt _ _)) by lia.
    destruct (Harr n e Hn1) as (q & -> & <-). by rewrite Hrun.
Qed.

(** bpf(2): at most 33 tail calls in a run *)
Definition MAX_TAIL_CALL_CNT : nat := 33.

(** One NIC's reconfiguration: the chain is updated, then every program of
    the chain is inserted, in whatever order the programs are loaded. *)
Record chain_install (h : HookType) (l : list (string * Z)) (p : PinnedProgMap) (k : Kernel M A)
  (maps : HookMaps) (m : M) (a : A) (i : Z) (ids : list Z) (nfs : list (string * Z)) : Prop := {
  install_ready : chain_ready h l p k maps m;
  install_nodup : forall j, NoDup (chained h p (names_of j l));
  install_ids : ids = chained h p (names_of i l);
  install_some : names_of i l <> [];
  install_first : getStartIndex h i p = 0;
  install_nic : 0 <= i < 2 ^ 32;
  install_fits : Z.of_nat (length ids) <= MAX_CHAIN_PROGS;
  install_array : arrays k !! prog_array_fd maps = Some a;
  install_progs : exists ds, Forall2 (insertion h p) nfs ds /\ ds ≡ₚ ids
}.

Lemma chain_installed h l p k maps m a i ids nfs :
  chain_install h l p k maps m a i ids nfs ->
  exists k1 k2 m' a', updateChain h l p k = Ok (true, k1) /\ insert_all h i nfs p k1 = Ok (true, k2) /\
    hashes k2 !! id_hash_fd maps = Some m' /\ arrays k2 !! prog_array_fd maps = Some a' /\
    (forall n d, ids !! n = Some d -> bpf_lookup m' (CHAIN_KEY i d) = Some (Z.of_nat n)) /\
    (forall d, 0 <= d < 2 ^ 32 -> d ∉ ids -> bpf_lookup m' (CHAIN_KEY i d) = None) /\
    (forall n d, ids !! n = Some d -> exists q, pa_lookup a' (Z.of_nat n) = Some q /\ prog_id q = d) /\
    (forall j, Z.of_nat (length ids) <= j -> pa_lookup a' j = pa_lookup a j).
Proof.
  intros [Hr Hnd -> Hsome Hfirst Hi Hfit Ha (ds & Hall & Hperm)].
  set (ids := chained h p (names_of i l)) in *.
  destruct (updateChain_slots _ _ _ _ _ _ Hr Hnd) as (m' & Hu & _ & _ & Hm').
  assert (Hids : forall n d, ids !! n = Some d -> bpf_lookup m' (CHAIN_KEY i d) = Some (Z.of_nat n)).
  { intros n d Hn. rewrite Hm'; [| done |].
    - unfold chain_slot. rewrite decide_True by (rewrite Hfirst; chain_consts; split; [done | lia]).
      fold ids. rewrite (position_NoDup d ids n (Hnd i) Hn); cbn. rewrite Hfirst. f_equal.
      pose proof (lookup_lt_Some _ _ _ Hn). chain_consts. apply u32_small. lia.
    - eapply chain_ids_range; [exact (ready_registry _ _ _ _ _ _ Hr) |]. by eapply list_elem_of_lookup_2. }
  pose (slot d := Z.of_nat (default O (position d ids))).
  assert (Hslot : forall n d, ids !! n = Some d -> slot d = Z.of_nat n).
  { intros n d Hn. unfold slot. by rewrite (position_NoDup d ids n (Hnd i) Hn). }
  assert (Hds : forall d, d ∈ ds -> exists n, ids !! n = Some d).
  { intros d Hd. rewrite Hperm in Hd. by apply list_elem_of_lookup_1. }
  destruct (insert_all_ok h i p maps m' slot nfs ds) with (k := set_hash (id_hash_fd maps) m' k) (a := a)
    as (k2 & a' & Hins & Hk2 & Ha' & Hin & Hout); try done.
  - exact (ready_init _ _ _ _ _ _ Hr).
  - exact (ready_maps _ _ _ _ _ _ Hr).
  - intros d (n & Hn)%Hds. rewrite (Hslot n d Hn), (Hids n d Hn).
    pose proof (lookup_lt_Some _ _ _ Hn). split; [done | lia].
  - intros d e (n & Hn)%Hds (n' & Hn')%Hds. rewrite (Hslot n d Hn), (Hslot n' e Hn').
    intros ->%Nat2Z.inj. by simplify_eq.
  - rewrite Hperm. apply Hnd.
  - apply lookup_insert_eq.
  - eexists _, k2, m', a'. split_and!; [exact Hu | exact Hins | | done | done | | |].
    + rewrite Hk2. apply lookup_insert_eq.
    + intros d Hd Hnot. rewrite Hm' by done. unfold chain_slot. fold ids. rewrite position_None by done.
      by case_decide.
    + intros n d Hn. rewrite <- (Hslot n d Hn). apply Hin. rewrite Hperm. by eapply list_elem_of_lookup_2.
    + intros j Hj. apply Hout. intros d (n & Hn)%Hds. rewrite (Hslot n d Hn).
      pose proof (lookup_lt_Some _ _ _ Hn). lia.
Qed.

Lemma chain_installed_run h l p k maps m a i ids nfs s :
  chain_install h l p k maps m a i ids nfs -> head ids = Some s ->
  exists k1 k2 m' a' f e, updateChain h l p k = Ok (true, k1) /\ insert_all h i nfs p k1 = Ok (true, k2) /\
    hashes k2 !! id_hash_fd maps = Some m' /\ arrays k2 !! prog_array_fd maps = Some a' /\
    (forall d, 0 <= d < 2 ^ 32 -> d ∉ ids -> bpf_lookup m' (CHAIN_KEY i d) = None) /\
    run_chain prog_id MAX_TAIL_CALL_CNT m' a' i s = tail ids ++ run_chain prog_id (S (S f)) m' a' i e /\
    chain_next m' a' i e =
      if Z.of_nat (length ids) <? MAX_CHAIN_PROGS then pa_lookup a (Z.of_nat (length ids)) else None.
Proof.
  intros Hinst Hs. destruct (chain_installed _ _ _ _ _ _ _ _ _ _ Hinst)
    as (k1 & k2 & m' & a' & Hu & Hins & Hm' & Ha' & Hids & Hnone & Hslots & Hrest).
  pose proof (install_fits _ _ _ _ _ _ _ _ _ _ Hinst) as Hfit.
  destruct ids as [| s' ids]; [done |]. injection Hs as ->. cbn [length] in Hfit.
  destruct (run_chain_prefix m' a' i (s :: ids) (MAX_TAIL_CALL_CNT - length ids)%nat 0%nat s)
    as (e & Hlast & Hrun); [done | by intros n d Hn; apply Hslots | done | done |].
  change (drop 1 (s :: ids)) with ids in *. cbn [tail].
  exists k1, k2, m', a', (MAX_TAIL_CALL_CNT - length ids - 2)%nat, e.
  split_and!; try done.
  - replace (S (S _)) with (MAX_TAIL_CALL_CNT - length ids)%nat by (unfold MAX_TAIL_CALL_CNT; chain_consts; lia).
    rewrite <- Hrun. f_equal. unfold MAX_TAIL_CALL_CNT; chain_consts; lia.
  - rewrite last_lookup in Hlast. unfold chain_next. rewrite (Hids _ _ Hlast). cbn [pred length] in *.
    rewrite u32_small by (chain_consts; lia).
    replace (Z.of_nat (length ids) + 1) with (Z.of_nat (S (length ids))) by lia.
    case_match; [| done]. apply Hrest. cbn [length]. lia.
Qed.

(** the walk stops where the configured chain ends when the next slot is free *)
Lemma chain_walk (h : HookType) (l : list (string * Z)) (p : PinnedProgMap) (k : Kernel M A)
  (maps : HookMaps) (m : M) (a : A) (i : Z) (ids : list Z) (nfs : list (string * Z)) (s : Z)
  (Hinst : chain_install h l p k maps m a i ids nfs) (Hs : head ids = Some s)
  (Hfree : pa_lookup a (Z.of_nat (length ids)) = None) :
  exists k1 k2 m' a', updateChain h l p k = Ok (true, k1) /\ insert_all h i nfs p k1 = Ok (true, k2) /\
    hashes k2 !! id_hash_fd maps = Some m' /\ arrays k2 !! prog_array_fd maps = Some a' /\
    run_chain prog_id MAX_TAIL_CALL_CNT m' a' i s = tail ids.
Proof.
  destruct (chain_installed_run _ _ _ _ _ _ _ _ _ _ _ Hinst Hs)
    as (k1 & k2 & m' & a' & f & e & Hu & Hins & Hm' & Ha' & _ & Hrun & Hnext).
  exists k1, k2, m', a'. split_and!; try done. rewrite Hrun. cbn [run_chain]. rewrite Hnext, Hfree.
  case_match; by rewrite app_nil_r.
Qed.

(** after a reconfiguration of the NIC in the first region, a packet that
    enters the scheduler runs exactly the configured programs of that NIC,
    each once, in the configured order, whatever order they were inserted in,
    when the slot behind the chain is free. *)
Theorem chain_runs_in_order (h : HookType) (l : list (string * Z)) (p : PinnedProgMap) (k : Kernel M A)
  (maps : HookMaps) (m : M) (a : A) (i : Z) (ids : list Z) (nfs : list (string * Z)) (s : Z)
  (Hinst : chain_install h l p k maps m a i ids nfs) (Hs : head ids = Some s)
  (Hfree : pa_lookup a (Z.of_nat (length ids)) = None) :
  exists k1 k2 m' a', updateChain h l p k = Ok (true, k1) /\ insert_all h i nfs p k1 = Ok (true, k2) /\
    hashes k2 !! id_hash_fd maps = Some m' /\ arrays k2 !! prog_array_fd maps = Some a' /\
    run_chain prog_id MAX_TAIL_CALL_CNT m' a' i s = tail ids.
Proof. by eapply chain_walk. Qed.

(** the program array is never cleaned: when the slot behind the new
    chain still holds a program of an earlier, longer configuration, that
    program runs after the configured ones although it is configured
    no more. *)
Theorem removed_program_still_runs (h : HookType) (l : list (string * Z)) (p : PinnedProgMap) (k : Kernel M A)
  (maps : HookMaps) (m : M) (a : A) (i : Z) (ids : list Z) (nfs : list (string * Z)) (s : Z) (old : P)
  (Hinst : chain_install h l p k maps m a i ids nfs) (Hs : head ids = Some s)
  (Hroom : Z.of_nat (length ids) < MAX_CHAIN_PROGS)
  (Hold : pa_lookup a (Z.of_nat (length ids)) = Some old)
  (Hid : 0 <= prog_id old < 2 ^ 32) (Hgone : prog_id old ∉ ids) :
  exists k1 k2 m' a', updateChain h l p k = Ok (true, k1) /\ insert_all h i nfs p k1 = Ok (true, k2) /\
    hashes k2 !! id_hash_fd maps = Some m' /\ arrays k2 !! prog_array_fd maps = Some a' /\
    run_chain prog_id MAX_TAIL_CALL_CNT m' a' i s = tail ids ++ [prog_id old].
Proof.
  destruct (chain_installed_run _ _ _ _ _ _ _ _ _ _ _ Hinst Hs)
    as (k1 & k2 & m' & a' & f & e & Hu & Hins & Hm' & Ha' & Hnone & Hrun & Hnext).
  exists k1, k2, m', a'. split_and!; try done. rewrite Hrun. cbn [run_chain].
  rewrite Hnext, (proj2 (Z.ltb_lt _ _) Hroom), Hold. unfold chain_next.
  by rewrite (Hnone _ Hid Hgone).
Qed.

(** A NIC for which no region was left has index -1.  A build without
    assertions chains it all the same: its scheduler gets the last index there
    is, and its programs get the slots of the first region one after the other,
    from 0 on.  Loading its (n+2)-nd program therefore puts it where the NIC
    that owns the first region expects its own (n+1)-st program, and packets of
    that NIC are handed to it. *)
Theorem unplaced_nic_runs_elsewhere (h : HookType) (l : list (string * Z)) (p : PinnedProgMap)
  (k : Kernel M A) (maps : HookMaps) (m : M) (a : A) (i j : Z) (n : nat) (e d : Z) (nf : string * Z)
  (Hr : chain_ready h l p k maps m) (Hnd : forall i, NoDup (chained h p (names_of i l)))
  (Ha : arrays k !! prog_array_fd maps = Some a)
  (Hi : names_of i l <> []) (Hirange : 0 <= i < 2 ^ 32) (Hfirst : getStartIndex h i p = 0)
  (Hj : names_of j l <> []) (Hjrange : 0 <= j < 2 ^ 32) (Hnone : getStartIndex h j p = -1)
  (He : chained h p (names_of i l) !! n = Some e) (Hd : chained h p (names_of j l) !! S (S n) = Some d)
  (Hfits : Z.of_nat (S n) < MAX_CHAIN_PROGS) (Hins : insertion h p nf d) :
  exists k1 k2 m' a' q, updateChain h l p k = Ok (true, k1) /\ insertProg h nf.1 nf.2 j p k1 = Ok (true, k2) /\
    hashes k2 !! id_hash_fd maps = Some m' /\ arrays k2 !! prog_array_fd maps = Some a' /\
    chain_next m' a' i e = Some q /\ prog_id q = d.
Proof.
  destruct (updateChain_slots _ _ _ _ _ _ Hr Hnd) as (m' & Hu & _ & _ & Hm').
  pose proof (ready_registry _ _ _ _ _ _ Hr) as Hreg. chain_consts.
  assert (Hslot : forall x s r c, names_of x l <> [] -> 0 <= x < 2 ^ 32 -> getStartIndex h x p = s -> s < 8 ->
    chained h p (names_of x l) !! r = Some c -> bpf_lookup m' (CHAIN_KEY x c) = Some (u32 (s + Z.of_nat r))).
  { intros x s r c Hx Hxr <- Hs Hc. rewrite Hm'; [| done | eapply chain_ids_range, list_elem_of_lookup_2; done].
    unfold chain_slot. rewrite decide_True by done. by rewrite (position_NoDup c _ r (Hnd x) Hc). }
  destruct (insertProg_ok h j p (set_hash (id_hash_fd maps) m' k) maps m' a nf d (Z.of_nat (S n)))
    as (a' & q & Hi1 & Hq & Ha'); try done.
  - apply Hr.
  - apply Hr.
  - apply lookup_insert_eq.
  - rewrite (Hslot j (-1) (S (S n)) d) by (done || lia). f_equal. rewrite u32_small; lia.
  - exists (set_hash (id_hash_fd maps) m' k). eexists _, m', a', q. split; [exact Hu |]. split; [exact Hi1 |].
    split; [apply lookup_insert_eq |]. split; [apply lookup_insert_eq |]. split; [| done].
    unfold chain_next. rewrite (Hslot i 0 n e) by (done || lia). rewrite (u32_small (0 + _)) by lia.
    replace (0 + Z.of_nat n + 1) with (Z.of_nat (S n)) by lia. rewrite u32_small by lia. chain_consts.
    rewrite (proj2 (Z.ltb_lt _ _)) by lia. rewrite Ha'. by rewrite decide_True.
Qed.

End ChainFacts.

(** ** Witnesses *)

Module Sample.

#[local] Instance release : BuildMode := true.
#[local] Instance order_Z : UMapOrder Z := default_order Z.

Definition fresh : PinnedProgMap := mkProgMap ∅ ∅ true getDefaultProgMap.
Definition reg2 (p : PinnedProgMap) (hi : HookType * Z) : PinnedProgMap :=
  match allocateRegion hi.1 hi.2 p with Ok (_, p) => p | Err _ => p end.
Definition full : PinnedProgMap :=
  foldl reg2 fresh [(TC, 2); (TC, 3); (TC, 4); (TC, 5)].

Lemma reg2_step p h i : region_step p (reg2 p (h, i)).
Proof.
  unfold reg2; cbn [fst snd]. destruct (allocateRegion h i p) as [[r p'] |] eqn:E; [by econstructor |].
  exfalso. revert E. unfold allocateRegion, ASSERT, release. destruct (0 <? i); cbn; by repeat case_match.
Qed.

(** programs are their ids; descriptor 100 + id names program id *)
Definition prog_of_fd (fd : Z) : option Z := if 100 <=? fd then Some (fd - 100) else None.
#[local] Instance array_ops : BpfProgArray (gmap Z Z) Z := RefArray.ops prog_of_fd MAX_CHAIN_PROGS.
#[local] Instance array_laws : BpfProgArrayLaws (gmap Z Z) Z prog_of_fd MAX_CHAIN_PROGS :=
  RefArray.array_ops_laws prog_of_fd MAX_CHAIN_PROGS.

Definition maps : HookMaps := mkHookMaps 10 11 "/sys/fs/bpf/XDP_Gen_parray" "/sys/fs/bpf/XDP_Gen_idhash".
Definition manager : PinnedProgMap :=
  mkProgMap {[XDP_GENERIC := maps]} {[XDP_GENERIC := <[3 := mkRegion 8]> {[2 := mkRegion 0]}]} true getDefaultProgMap.
Definition hash : RefHash.t Z Z := RefHash.empty 32.
Definition kernel (a : gmap Z Z) : Kernel (RefHash.t Z Z) (gmap Z Z) :=
  mkKernel {[11 := hash]} {[10 := a]}.
Definition conf : list (string * Z) :=
  [("ACL_XDP_GENERIC", 2); ("LB_XDP_GENERIC", 2); ("ACL_XDP_GENERIC", 3)]%string.

Lemma registry_ok : registry_wf manager.
Proof. refine (bool_decide_unpack _ _). vm_compute. exact I. Qed.

Lemma ready a : chain_ready XDP_GENERIC conf manager (kernel a) maps hash.
Proof.
  split; try reflexivity; [discriminate | | | exact registry_ok].
  - vm_compute. lia.
  - intros e He. repeat (apply elem_of_cons in He as [-> | He]); [.. | by apply not_elem_of_nil in He];
      vm_compute; intuition discriminate.
Qed.

Lemma nodup i : NoDup (chained XDP_GENERIC manager (names_of i conf)).
Proof.
  unfold conf, names_of. rewrite !filter_cons, filter_nil; cbn [snd].
  repeat case_decide; try lia; refine (bool_decide_unpack _ _); vm_compute; exact I.
Qed.

Lemma install a :
  chain_install Datatypes.id prog_of_fd XDP_GENERIC conf manager (kernel a) maps hash a 2 [5; 3; 7]
    [("LB_XDP_GENERIC", 107); ("SCHEDULER_XDP_GENERIC", 105); ("ACL_XDP_GENERIC", 103)]%string.
Proof.
  split; try reflexivity; [apply ready | exact nodup | by vm_compute | lia | vm_compute; discriminate |].
  exists [7; 5; 3]. split; [| refine (bool_decide_unpack _ _); vm_compute; exact I].
  repeat constructor; eexists (Build_ProgInfo _ _), _; cbn [fst snd]; split_and!;
    try (vm_compute; reflexivity); lia.
Qed.

Lemma regions_always_disjoint_witness :
  0 <= 8 /\ 8 + MAX_PER_NIC_PROGS <= MAX_CHAIN_PROGS /\ (8 + MAX_PER_NIC_PROGS <= 24 \/ 24 + MAX_PER_NIC_PROGS <= 8).
Proof.
  refine (regions_always_disjoint (H := release) (UMapOrder0 := order_Z)
            fresh full TC 3 5 (mkRegion 8) (mkRegion 24) _ _ _ _ _);
    [reflexivity | | reflexivity | reflexivity | discriminate].
  unfold full. cbn [foldl]. do 4 (eapply rtc_r; [| apply reg2_step]). apply rtc_refl.
Defined.

Lemma allocateRegion_idempotent_witness :
  exists p' p'', allocateRegion TC 2 fresh = Ok (0, p') /\
    allocateRegion TC 2 p' = Ok (0, p'').
Proof.
  destruct (allocateRegion TC 2 fresh) as [[r p'] |] eqn:E;
    [| discriminate E].
  assert (Hr : r = 0) by (vm_compute in E; congruence). subst r.
  destruct (allocateRegion_idempotent TC 2 0 fresh p')
    as (_ & _ & _ & p'' & Hp & _); [| exact E | exists p', p''; split; [reflexivity | exact Hp]].
  intros h. split; [intros j s Hs | intros j j' s s' Hs]; destruct h; discriminate Hs.
Defined.

Lemma allocateRegion_fragmented_witness :
  exists p', allocateRegion TC 7
    (releaseRegion TC 2 (releaseRegion TC 3 (releaseRegion TC 4 full))) = Ok (-1, p').
Proof.
  apply (allocateRegion_fragmented TC 7 5);
    [lia | reflexivity | reflexivity].
Defined.

Lemma CHAIN_KEY_inj_witness : exists i, CHAIN_KEY 3 7 = CHAIN_KEY i 7 /\ 3 = i /\ 7 = 7.
Proof. exists 3. split; [reflexivity |]. apply (CHAIN_KEY_inj 3 3 7 7); [lia .. | reflexivity]. Defined.

Lemma updateChain_indices_witness :
  exists k' m', updateChain XDP_GENERIC conf manager (kernel ∅) = Ok (true, k') /\
    hashes k' !! 11 = Some m' /\ bpf_lookup m' (CHAIN_KEY 2 7) = Some 2.
Proof.
  destruct (updateChain_indices XDP_GENERIC conf
              manager (kernel ∅) maps hash (ready ∅) nodup)
    as (k' & m' & Hu & Hm & _ & Hslot).
  exists k', m'. split; [exact Hu |]. split; [exact Hm |].
  rewrite Hslot by lia. vm_compute. reflexivity.
Defined.

Lemma later_region_has_no_chain_witness :
  exists k' m', updateChain XDP_GENERIC conf manager (kernel ∅) = Ok (true, k') /\
    hashes k' !! 11 = Some m' /\ chain_next m' ({[1 := 3]} : gmap Z Z) 3 5 = None.
Proof.
  destruct (later_region_has_no_chain XDP_GENERIC conf
              manager (kernel ∅) maps hash 3 (ready ∅))
    as (k' & m' & Hu & Hm & Hnext); [lia | vm_compute; discriminate |].
  exists k', m'. split; [exact Hu |]. split; [exact Hm | apply Hnext; lia].
Defined.

Lemma chain_runs_in_order_witness :
  exists m' (a' : gmap Z Z), run_chain Datatypes.id MAX_TAIL_CALL_CNT (m' : RefHash.t Z Z) a' 2 5 = [3; 7].
Proof.
  destruct (chain_runs_in_order Datatypes.id prog_of_fd
              XDP_GENERIC conf manager (kernel ∅) maps hash ∅ 2 [5; 3; 7]
              _ 5 (install ∅) eq_refl (lookup_empty 3))
    as (k1 & k2 & m' & a' & _ & _ & _ & _ & Hrun).
  exists m', a'. exact Hrun.
Defined.

Lemma removed_program_still_runs_witness :
  exists m' (a' : gmap Z Z), run_chain Datatypes.id MAX_TAIL_CALL_CNT (m' : RefHash.t Z Z) a' 2 5 = [3; 7; 40].
Proof.
  destruct (removed_program_still_runs Datatypes.id prog_of_fd
              XDP_GENERIC conf manager (kernel {[3 := 40]}) maps hash {[3 := 40]} 2
              [5; 3; 7] _ 5 40 (install _) eq_refl)
    as (k1 & k2 & m' & a' & _ & _ & _ & _ & Hrun);
    [vm_compute; reflexivity | reflexivity | unfold Datatypes.id; lia | refine (bool_decide_unpack _ _); vm_compute; exact I |].
  exists m', a'. exact Hrun.
Defined.

(** five NICs on one hook: the fifth has no region *)
Definition crowded : PinnedProgMap :=
  mkProgMap {[TC := maps]}
    (regions_ (foldl reg2 fresh [(TC, 2); (TC, 3); (TC, 4); (TC, 5); (TC, 6)])) true getDefaultProgMap.
Definition crowded_conf : list (string * Z) :=
  [("ACL_TC", 2); ("ACL_TC", 6); ("LB_TC", 6)]%string.

Lemma crowded_ready : chain_ready TC crowded_conf crowded (kernel ∅) maps hash.
Proof.
  split; try reflexivity; [discriminate | | |].
  - vm_compute. lia.
  - intros e He. repeat (apply elem_of_cons in He as [-> | He]); [.. | by apply not_elem_of_nil in He];
      vm_compute; intuition discriminate.
  - refine (bool_decide_unpack _ _). vm_compute. exact I.
Qed.

Lemma crowded_nodup i : NoDup (chained TC crowded (names_of i crowded_conf)).
Proof.
  unfold crowded_conf, names_of. rewrite !filter_cons, filter_nil; cbn [snd].
  repeat case_decide; try lia; refine (bool_decide_unpack _ _); vm_compute; exact I.
Qed.

(** the load balancer of NIC 6 runs behind the scheduler of NIC 2 *)
Lemma unplaced_nic_runs_elsewhere_witness :
  exists (m' : RefHash.t Z Z) (a' : gmap Z Z), chain_next m' a' 2 4 = Some 6.
Proof.
  destruct (unplaced_nic_runs_elsewhere Datatypes.id prog_of_fd TC crowded_conf crowded (kernel ∅) maps hash ∅
              2 6 0 4 6 ("LB_TC", 106)%string crowded_ready crowded_nodup)
    as (k1 & k2 & m' & a' & q & _ & _ & _ & _ & Hnext & Hq);
    [reflexivity | discriminate | lia | reflexivity | discriminate | lia | reflexivity | reflexivity | reflexivity
    | vm_compute; reflexivity | |].
  - eexists (Build_ProgInfo _ _), _. cbn [fst snd]. split_and!; try (vm_compute; reflexivity); lia.
  - exists m', a'. rewrite Hnext, <- Hq. reflexivity.
Defined.

End Sample.
