(* ===== verification/Json.v ===== *)
(** * JSON values, as the services use nlohmann::json

    The library is not part of the repository: this file states the interface
    that [from_json] and [to_json] functions are written with, its documented
    laws, helper functions for the pattern the code repeats, and a reference
    instance for the witnesses. *)

From S2P Require Import Prelude.

Class JsonLib (json : Type) : Type := {
  jget : json -> string -> option json;        (* contains(key), at(key) *)
  jobject : list (string * json) -> json;      (* json{{key, value}, ...} *)
  jarray : list json -> json;
  jstring : string -> json;
  jnumber : Z -> json;
  get_string : json -> result exn string;      (* get<std::string>() *)
  get_number : json -> result exn Z;           (* the number a value holds *)
  get_array : json -> result exn (list json)   (* what get<std::vector<T>>() iterates *)
}.

Class JsonLaws (json : Type) `{JsonLib json} : Prop := {
  jget_object : forall l k v, NoDup l.*1 -> (k, v) ∈ l -> jget (jobject l) k = Some v;
  jget_object_none : forall l k, k ∉ l.*1 -> jget (jobject l) k = None;
  get_jstring : forall s, get_string (jstring s) = Ok s;
  get_jnumber : forall z, (0 <= z < 2 ^ 16)%Z -> get_number (jnumber z) = Ok z;
  get_jarray : forall l, get_array (jarray l) = Ok l
}.

Section Codec.
Context {json : Type} `{JsonLib json}.

(** [get<uint16_t>()]: the number, converted to the type *)
Definition get_u16 (j : json) : result exn Z := z ← get_number j; Ok (u16 z).

(** [if (json.contains(key)) { obj.set(json.at(key).get<T>()); }] *)
Definition json_key {A B} (j : json) (key : string) (get : json -> result exn A)
  (set_ : A -> B -> B) (b : B) : result exn B :=
  match jget j key with
  | Some v => a ← get v; Ok (set_ a b)
  | None => Ok b
  end.

(** [get<std::vector<T>>()]: every element decoded into a default-constructed
    object; the first exception ends the conversion. *)
Fixpoint decode_list {A} (from_json : json -> result exn A) (l : list json) : result exn (list A) :=
  match l with
  | [] => Ok []
  | j :: rest => a ← from_json j; r ← decode_list from_json rest; Ok (a :: r)
  end.

Definition get_vector {A} (from_json : json -> result exn A) (j : json) : result exn (list A) :=
  l ← get_array j; decode_list from_json l.

Lemma get_u16_range j z : get_u16 j = Ok z -> (0 <= z < 2 ^ 16)%Z.
Proof.
  unfold get_u16. destruct (get_number j) as [y |]; cbn; [| done]. intros [= <-]. unfold u16, wrap.
  apply Z.mod_pos_bound. lia.
Qed.

(** a property of the object kept by the setter of a key *)
Lemma json_key_keeps {A B} (P : B -> Prop) (Q : A -> Prop) j key (get : json -> result exn A) (set_ : A -> B -> B) b b' :
  json_key j key get set_ b = Ok b' -> P b -> (forall v a, get v = Ok a -> Q a) -> (forall a, Q a -> P b -> P (set_ a b)) -> P b'.
Proof.
  unfold json_key. destruct (jget j key) as [v |]; [| by intros [= <-]].
  destruct (get v) as [a |] eqn:Hg; [| done]. intros [= <-] HP HQ Hset. apply Hset; [by eapply HQ | done].
Qed.

Lemma decode_list_Forall {A} (P : A -> Prop) (from_json : json -> result exn A) l l' :
  (forall j a, from_json j = Ok a -> P a) -> decode_list from_json l = Ok l' -> Forall P l'.
Proof.
  intros HP. revert l'. induction l as [| j l IH]; intros l'; cbn; [by intros [= <-] |].
  destruct (from_json j) as [a |] eqn:Hj; [| done]. cbn. destruct (decode_list from_json l) as [r |]; [| done].
  intros [= <-]. constructor; [by eapply HP | by apply IH].
Qed.

Lemma get_vector_Forall {A} (P : A -> Prop) (from_json : json -> result exn A) j l :
  (forall j a, from_json j = Ok a -> P a) -> get_vector from_json j = Ok l -> Forall P l.
Proof. intros HP. unfold get_vector. destruct (get_array j); [| done]. cbn. by apply decode_list_Forall. Qed.

Context `{!JsonLaws json}.

Lemma get_u16_jnumber z : (0 <= z < 2 ^ 16)%Z -> get_u16 (jnumber z) = Ok z.
Proof. intros Hz. unfold get_u16. rewrite get_jnumber by done. cbn. unfold u16, wrap. by rewrite Z.mod_small. Qed.

Lemma json_key_object {A B} l key v (get : json -> result exn A) (set_ : A -> B -> B) a b :
  NoDup l.*1 -> (key, v) ∈ l -> get v = Ok a -> json_key (jobject l) key get set_ b = Ok (set_ a b).
Proof. intros Hnd Hin Hg. unfold json_key. by rewrite (jget_object _ _ _ Hnd Hin), Hg. Qed.

Lemma decode_list_fmap {A} (from_json : json -> result exn A) (to_json : A -> json) (l : list A) :
  (forall a, a ∈ l -> from_json (to_json a) = Ok a) -> decode_list from_json (to_json <$> l) = Ok l.
Proof.
  induction l as [| a l IH]; intros Hl; [done |]. cbn.
  rewrite Hl by set_solver; cbn. rewrite IH by set_solver. done.
Qed.

Lemma get_vector_jarray {A} (from_json : json -> result exn A) (to_json : A -> json) (l : list A) :
  (forall a, a ∈ l -> from_json (to_json a) = Ok a) ->
  get_vector from_json (jarray (to_json <$> l)) = Ok l.
Proof. intros Hl. unfold get_vector. rewrite get_jarray; cbn. by apply decode_list_fmap. Qed.

End Codec.

(** ** A reference instance *)

Module RefJson.

Inductive t : Type :=
| Null
| Str (s : string)
| Num (z : Z)
| Arr (l : list t)
| Obj (l : list (string * t)).

Fixpoint find (l : list (string * t)) (k : string) : option t :=
  match l with
  | [] => None
  | (k', v) :: rest => if decide (k' = k) then Some v else find rest k
  end.

Definition type_error : exn := StdException "type must be other".

#[global] Instance ops : JsonLib t := {
  jget := fun j k => match j with Obj l => find l k | _ => None end;
  jobject := Obj;
  jarray := Arr;
  jstring := Str;
  jnumber := Num;
  get_string := fun j => match j with Str s => Ok s | _ => Err type_error end;
  get_number := fun j => match j with Num z => Ok z | _ => Err type_error end;
  get_array := fun j => match j with Arr l => Ok l | _ => Err type_error end
}.

#[global] Instance laws : JsonLaws t.
Proof.
  split; cbn; try done.
  - intros l k v Hnd. induction l as [| [k' v'] l IH]; cbn; [by intros ?%not_elem_of_nil |].
    cbn in Hnd. apply NoDup_cons in Hnd as [Hk Hnd]. intros [[= -> ->] | Hin]%elem_of_cons; [by rewrite decide_True |].
    rewrite decide_False; [auto |]. intros ->. apply Hk, list_elem_of_fmap. by exists (k, v).
  - intros l k. induction l as [| [k' v'] l IH]; cbn; [done |]. intros Hk.
    rewrite decide_False by set_solver. apply IH. set_solver.
Qed.

End RefJson.
