(* ===== verification/Net.v ===== *)
(** * Network byte order, addresses and packets

    What the services take from the C library ([htons], [inet_pton]) and from
    the packet in memory: fields are read little-endian from a list of
    bytes, with the verifier-enforced bound checks as comparisons of
    offsets. *)

From S2P Require Import Prelude.

#[local] Open Scope Z_scope.

Definition IPPROTO_ICMP : Z := 1.
Definition IPPROTO_TCP : Z := 6.
Definition IPPROTO_UDP : Z := 17.

Definition htons (x : Z) : Z := bswap16 x.
Definition ntohs (x : Z) : Z := bswap16 x.

(** ** inet_pton(AF_INET, ..)

    glibc's parser: four decimal octets without leading zeros, none above
    255, separated by single dots. *)

Definition digit (a : ascii) : option Z :=
  let n := Z.of_nat (nat_of_ascii a) in
  if (48 <=? n) && (n <=? 57) then Some (n - 48) else None.

(** [done]: finished octets, most recent first; [cur]: the octet being read,
    once a digit has been seen *)
Fixpoint pton_loop (s : string) (finished : list Z) (cur : option Z) : option (list Z) :=
  match s with
  | EmptyString =>
      match cur with
      | Some c => if (length finished =? 3)%nat then Some (reverse (c :: finished)) else None
      | None => None
      end
  | String a r =>
      match digit a with
      | Some d =>
          match cur with
          | None => pton_loop r finished (Some d)
          | Some c =>
              if c =? 0 then None
              else let n := c * 10 + d in if 255 <? n then None else pton_loop r finished (Some n)
          end
      | None =>
          if (a =? ".")%char then
            match cur with
            | Some c => if (length finished =? 3)%nat then None else pton_loop r (c :: finished) None
            | None => None
            end
          else None
      end
  end.

(** the C string inside a std::string *)
Fixpoint c_str (s : string) : string :=
  match s with
  | EmptyString => EmptyString
  | String a r => if (a =? "000")%char then EmptyString else String a (c_str r)
  end.

(** bytes in memory order as a little-endian integer *)
Fixpoint le (bytes : list Z) : Z :=
  match bytes with
  | [] => 0
  | b :: r => b + 256 * le r
  end.

Definition inet_pton (s : string) : option Z := le <$> pton_loop (c_str s) [] None.

(** ** sscanf(.., "%hhx:%hhx:%hhx:%hhx:%hhx:%hhx", ..) *)

Definition hex_digit (a : ascii) : option Z :=
  let n := Z.of_nat (nat_of_ascii a) in
  if (48 <=? n) && (n <=? 57) then Some (n - 48)
  else if (65 <=? n) && (n <=? 70) then Some (n - 55)
  else if (97 <=? n) && (n <=? 102) then Some (n - 87)
  else None.

Definition is_space (a : ascii) : bool :=
  let n := Z.of_nat (nat_of_ascii a) in (n =? 32) || ((9 <=? n) && (n <=? 13)).

Fixpoint skip_space (s : string) : string :=
  match s with String a r => if is_space a then skip_space r else s | EmptyString => s end.

(** the digits of a hexadecimal number, saturating like strtoul *)
Fixpoint hex_digits (s : string) (acc : Z) : Z * string :=
  match s with
  | String a r =>
      match hex_digit a with
      | Some d => hex_digits r (Z.min (acc * 16 + d) (2 ^ 64 - 1))
      | None => (acc, s)
      end
  | EmptyString => (acc, s)
  end.

Definition hex_number (s : string) : option (Z * string) :=
  match s with
  | String a _ => match hex_digit a with Some _ => Some (hex_digits s 0) | None => None end
  | EmptyString => None
  end.

(** one [%hhx]: the stored byte and the rest of the input *)
Definition scan_hhx (s : string) : option (Z * string) :=
  let s := skip_space s in
  let '(neg, s) := match s with
                   | String "-" r => (true, r)
                   | String "+" r => (false, r)
                   | _ => (false, s)
                   end%char in
  let s := match s with
           | String "0" (String "x" r) | String "0" (String "X" r) => r
           | _ => s
           end%char in
  '(v, rest) ← hex_number s;
  Some ((if neg : bool then (- v) mod 256 else v mod 256), rest).

(** the bytes stored before the first mismatch, at most [n] *)
Fixpoint scan_hex_bytes (n : nat) (s : string) : list Z :=
  match n with
  | O => []
  | S n =>
      match scan_hhx s with
      | None => []
      | Some (b, rest) =>
          b :: match n, rest with
               | S _, String ":" rest => scan_hex_bytes n rest
               | _, _ => []
               end%char
      end
  end.

Definition scan_mac (s : string) : list Z := scan_hex_bytes 6 (c_str s).

Definition htonl (x : Z) : Z :=
  Z.lor (Z.shiftl (bswap16 (Z.land x 65535)) 16) (bswap16 (Z.land (Z.shiftr x 16) 65535)).

(** ** Packets *)

Definition byte_at (data : list Z) (off : nat) : Z := nth off data 0.
Definition load16 (data : list Z) (off : nat) : Z := le [byte_at data off; byte_at data (off + 1)].
Definition load32 (data : list Z) (off : nat) : Z :=
  le [byte_at data off; byte_at data (off + 1); byte_at data (off + 2); byte_at data (off + 3)].

(** sizes of the kernel's header structures *)
Definition sizeof_ethhdr : nat := 14.
Definition sizeof_iphdr : nat := 20.
Definition sizeof_tcphdr : nat := 20.
Definition sizeof_udphdr : nat := 8.

(** [eth->h_proto], [ip->ihl], [ip->protocol], [ip->saddr], [ip->daddr] *)
Definition h_proto (data : list Z) : Z := load16 data 12.
Definition ihl (data : list Z) : Z := Z.land (byte_at data 14) 15.
Definition ip_protocol (data : list Z) : Z := byte_at data (14 + 9).
(** [eth->h_dest] and [eth->h_source] are bytes 0 to 5 and 6 to 11 *)
Definition ETH_ALEN : nat := 6.
Definition ip_saddr (data : list Z) : Z := load32 data (14 + 12).
Definition ip_daddr (data : list Z) : Z := load32 data (14 + 16).

(** what [bpf_htons(ETH_P_IP)] is on a little-endian host *)
Definition ETH_P_IP : Z := 2048.

Definition is_byte (b : Z) : Prop := 0 <= b < 256.

Lemma htons_htons x : 0 <= x < 2 ^ 16 -> htons (htons x) = x.
Proof.
  intros Hx. unfold htons, bswap16. apply Z.bits_inj'. intros n Hn.
  assert (Hhigh : forall m, 16 <= m -> Z.testbit x m = false).
  { intros m Hm. destruct (decide (x = 0)) as [-> | ?]; [by rewrite Z.bits_0 |].
    apply Z.bits_above_log2; [lia |]. apply Z.log2_lt_pow2; [lia |].
    eapply Z.lt_le_trans; [apply Hx |]. apply Z.pow_le_mono_r; lia. }
  change 255 with (Z.ones 8).
  rewrite !Z.lor_spec, Z.shiftr_spec, Z.lor_spec, Z.shiftr_spec by lia.
  destruct (decide (n < 8)) as [Hlt | Hge].
  - rewrite !Z.shiftl_spec_low by lia. rewrite Z.shiftl_spec by lia.
    rewrite Z.land_spec, (Z.ones_spec_low 8) by lia. cbn [orb].
    rewrite (Hhigh (n + 8 + 8)) by lia.
    replace (n + 8 - 8) with n by lia. by destruct (Z.testbit x n).
  - rewrite Z.shiftl_spec by lia. rewrite Z.land_spec, Z.lor_spec, (Z.shiftr_spec x 8) by lia.
    rewrite (Z.shiftl_spec _ 8 (n + 8)) by lia. rewrite Z.land_spec.
    replace (n + 8 - 8) with n by lia. replace (n - 8 + 8) with n by lia.
    rewrite (Z.ones_spec_high 8 n), andb_false_r by lia.
    rewrite (Hhigh (n + 8 + 8)) by lia.
    destruct (decide (n < 16)).
    + rewrite (Z.ones_spec_low 8 (n - 8)), Z.shiftl_spec_low by lia. by destruct (Z.testbit x n).
    + rewrite (Z.ones_spec_high 8 (n - 8)), andb_false_r by lia. rewrite (Hhigh n) by lia. done.
Qed.

Lemma htons_inj x y : 0 <= x < 2 ^ 16 -> 0 <= y < 2 ^ 16 -> htons x = htons y -> x = y.
Proof. intros Hx Hy Heq. rewrite <- (htons_htons x), <- (htons_htons y) by done. by rewrite Heq. Qed.
