(* ===== verification/Addr.v ===== *)
(** * Addresses and ports as people write them

    What a rule and a packet mean, stated without the parser and the byte
    order of the code: an address is four bytes, written in dotted decimal; a
    port in a packet is a big-endian number.  The lemmas relate them to what
    the code uses: [inet_pton], little-endian loads and [htons]. *)

From stdpp Require Import pretty.
From S2P Require Import Prelude Names Net.

#[local] Open Scope Z_scope.

(** linear arithmetic with quotients and remainders by constants *)
#[local] Ltac dlia := Z.to_euclidean_division_equations; lia.

(** the four bytes of an address, in the order of the dotted notation *)
Definition address (a : list Z) : Prop := length a = 4%nat /\ Forall is_byte a.

(** "10.0.0.1" *)
Fixpoint dotted (a : list Z) : string :=
  match a with
  | [] => ""
  | [b] => pretty b
  | b :: rest => pretty b +:+ "." +:+ dotted rest
  end.

(** a 16-bit number in network order *)
Definition be16 (data : list Z) (off : nat) : Z := 256 * byte_at data off + byte_at data (off + 1).

(** ** The parser reads the dotted notation, and nothing else *)

(** the text in front of the octets that are still to come *)
Definition finished_text (finished : list Z) : string :=
  foldr (fun b s => pretty b +:+ "." +:+ s) "" (reverse finished).
Definition current_text (cur : option Z) : string := match cur with Some c => pretty c | None => "" end.

Lemma bytes_forall (P : Z -> Prop) : Forall P (seqZ 0 256) -> forall b, is_byte b -> P b.
Proof. intros HP b Hb. rewrite Forall_forall in HP. apply HP, elem_of_seqZ. unfold is_byte in Hb. lia. Qed.

Lemma digit_inv a d : digit a = Some d -> 0 <= d <= 9 /\ pretty d = String a "".
Proof.
  destruct a as [[] [] [] [] [] [] [] []]; vm_compute; intros [=]; subst d; (split; [split; intros [=] | reflexivity]).
Qed.

Lemma pretty_digit a c d : digit a = Some d -> 0 < c <= 25 -> pretty (c * 10 + d) = pretty c +:+ String a "".
Proof.
  intros Ha Hc. destruct (digit_inv _ _ Ha) as [Hd <-]. clear Ha.
  assert (Hall : Forall (fun c => Forall (fun d => pretty (c * 10 + d) = pretty c +:+ pretty d) (seqZ 0 10)) (seqZ 1 25))
    by (refine (bool_decide_unpack _ _); vm_compute; exact I).
  rewrite Forall_forall in Hall. specialize (Hall c). rewrite elem_of_seqZ, Forall_forall in Hall.
  apply Hall; [lia |]. rewrite elem_of_seqZ. lia.
Qed.

Lemma finished_text_snoc f c : finished_text (c :: f) = finished_text f +:+ pretty c +:+ ".".
Proof.
  unfold finished_text. rewrite reverse_cons, foldr_app. cbn [foldr].
  induction (reverse f) as [| b l IH]; cbn [foldr]; [done |]. rewrite IH. by rewrite !string_app_assoc.
Qed.

Lemma finished_text_dotted f c : finished_text f +:+ pretty c = dotted (reverse (c :: f)).
Proof.
  rewrite reverse_cons. unfold finished_text. induction (reverse f) as [| b l IH]; [done |].
  cbn [foldr app]. rewrite <- !string_app_assoc, IH. by destruct l.
Qed.

Lemma pton_loop_dotted s : forall finished cur a,
  Forall is_byte finished -> (forall c, cur = Some c -> is_byte c) ->
  pton_loop s finished cur = Some a ->
  address a /\ finished_text finished +:+ current_text cur +:+ s = dotted a.
Proof.
  induction s as [| ch s IH]; intros finished cur a Hf Hc; cbn [pton_loop].
  - destruct cur as [c |]; [| done]. destruct (Nat.eqb_spec (length finished) 3) as [Hlen |]; [| done].
    intros [= <-]. cbn [current_text]. rewrite string_app_nil_r. split; [| apply finished_text_dotted]. split.
    + rewrite length_reverse. cbn. lia.
    + apply Forall_reverse. constructor; auto.
  - destruct (digit ch) as [d |] eqn:Hd.
    + destruct (digit_inv _ _ Hd) as [Hr Hp]. destruct cur as [c |].
      * destruct (Z.eqb_spec c 0) as [| Hne]; [done |]. cbv zeta. destruct (Z.ltb_spec 255 (c * 10 + d)) as [| Hle]; [done |].
        specialize (Hc c eq_refl). unfold is_byte in Hc. intros Ha.
        apply IH in Ha as [Haddr <-]; [| done | intros ? [= <-]; unfold is_byte; lia]. split; [done |].
        cbn [current_text]. rewrite (pretty_digit _ _ _ Hd) by lia. by rewrite <- !string_app_assoc.
      * intros Ha. apply IH in Ha as [Haddr <-]; [| done | intros ? [= <-]; unfold is_byte; lia]. split; [done |].
        cbn [current_text]. by rewrite Hp.
    + destruct (Ascii.eqb_spec ch ".") as [-> |]; [| done]. destruct cur as [c |]; [| done].
      destruct (_ =? 3)%nat; [done |]. intros Ha.
      apply IH in Ha as [Haddr <-]; [| constructor; auto | done]. split; [done |].
      rewrite finished_text_snoc. cbn [current_text]. by rewrite <- !string_app_assoc.
Qed.

Lemma digit_of d : 0 <= d <= 9 -> exists a, digit a = Some d.
Proof.
  intros Hd. exists (ascii_of_nat (Z.to_nat (48 + d))).
  assert (Hall : Forall (fun d => digit (ascii_of_nat (Z.to_nat (48 + d))) = Some d) (seqZ 0 10))
    by (refine (bool_decide_unpack _ _); vm_compute; exact I).
  rewrite Forall_forall in Hall. apply Hall. rewrite elem_of_seqZ. lia.
Qed.

(** one more digit behind an octet *)
Lemma pton_loop_more b s finished :
  (forall s, pton_loop (pretty (b / 10) +:+ s) finished None = pton_loop s finished (Some (b / 10))) ->
  10 <= b < 256 -> pton_loop (pretty b +:+ s) finished None = pton_loop s finished (Some b).
Proof.
  intros IH Hb. assert (Hsplit : b = b / 10 * 10 + b mod 10) by dlia.
  assert (Hq : 0 < b / 10 <= 25) by dlia. assert (Hr : 0 <= b mod 10 <= 9) by dlia.
  destruct (digit_of (b mod 10) Hr) as [a Ha]. rewrite Hsplit at 1.
  rewrite (pretty_digit _ _ _ Ha Hq), <- string_app_assoc, IH. change (String a "" +:+ s) with (String a s). cbn [pton_loop]. rewrite Ha.
  rewrite (proj2 (Z.eqb_neq _ _)) by dlia. rewrite <- Hsplit. cbv zeta. by rewrite (proj2 (Z.ltb_ge _ _)) by dlia.
Qed.

Lemma pton_loop_octet b s finished : is_byte b -> pton_loop (pretty b +:+ s) finished None = pton_loop s finished (Some b).
Proof.
  intros Hb. unfold is_byte in Hb.
  assert (Hone : forall b s, 0 <= b <= 9 -> pton_loop (pretty b +:+ s) finished None = pton_loop s finished (Some b)).
  { intros b' s' Hb'. destruct (digit_of b' Hb') as [a Ha]. destruct (digit_inv _ _ Ha) as [_ ->].
    change (String a "" +:+ s') with (String a s'). cbn [pton_loop]. by rewrite Ha. }
  destruct (decide (b <= 9)); [apply Hone; dlia |]. apply pton_loop_more; [| dlia]. intros s'.
  destruct (decide (b / 10 <= 9)); [apply Hone; dlia |]. apply pton_loop_more; [| dlia]. intros s''. apply Hone. dlia.
Qed.

Lemma pton_loop_reads a : address a -> pton_loop (dotted a) [] None = Some a.
Proof.
  intros [Hlen Ha]. destruct a as [| a [| b [| c [| d [|]]]]]; try discriminate.
  repeat match goal with H : Forall _ (_ :: _) |- _ => apply Forall_cons in H as [? H] end.
  cbn [dotted].
  assert (Hdot : forall c t f, (length f <? 3)%nat = true -> pton_loop ("." +:+ t) f (Some c) = pton_loop t (c :: f) None).
  { intros c' t f Hf. apply Nat.ltb_lt in Hf. change ("." +:+ t) with (String "." t). cbn [pton_loop].
    change (digit ".") with (@None Z). cbn -[Nat.eqb]. by rewrite (proj2 (Nat.eqb_neq _ _)) by lia. }
  do 3 rewrite pton_loop_octet, Hdot by done.
  rewrite <- (string_app_nil_r (pretty d)), pton_loop_octet by done. done.
Qed.

Lemma le_inj a b : address a -> address b -> le a = le b -> a = b.
Proof.
  intros [La Ha] [Lb Hb].
  destruct a as [| a0 [| a1 [| a2 [| a3 [|]]]]]; try discriminate. destruct b as [| b0 [| b1 [| b2 [| b3 [|]]]]]; try discriminate.
  repeat match goal with H : Forall _ (_ :: _) |- _ => apply Forall_cons in H as [? H] end.
  unfold is_byte in *. cbn [le]. intros Heq. repeat f_equal; lia.
Qed.

(** exactly the dotted notation of the address is accepted *)
Lemma inet_pton_dotted s a : address a -> inet_pton s = Some (le a) <-> c_str s = dotted a.
Proof.
  intros Ha. unfold inet_pton. split.
  - intros (b & Hb & Hle)%fmap_Some. apply pton_loop_dotted in Hb as [Haddr Ht]; [| constructor | done].
    rewrite (le_inj a b) by done. exact Ht.
  - intros ->. by rewrite pton_loop_reads.
Qed.

Lemma inet_pton_some s : is_Some (inet_pton s) <-> exists a, address a /\ c_str s = dotted a.
Proof.
  unfold inet_pton. rewrite fmap_is_Some. split.
  - intros [a Ha]. exists a. apply pton_loop_dotted in Ha as [Haddr Ht]; [by split | constructor | done].
  - intros (a & Ha & ->). exists a. by apply pton_loop_reads.
Qed.

(** ** Numbers in a packet *)

Lemma byte_at_byte data off : Forall is_byte data -> is_byte (byte_at data off).
Proof.
  intros Hd. unfold byte_at. destruct (nth_in_or_default off data 0) as [Hin | ->]; [| unfold is_byte; lia].
  rewrite Forall_forall in Hd. by apply Hd, list_elem_of_In.
Qed.

Lemma be16_range data off : Forall is_byte data -> 0 <= be16 data off < 2 ^ 16.
Proof.
  intros Hd. pose proof (byte_at_byte data off Hd). pose proof (byte_at_byte data (off + 1) Hd).
  unfold is_byte, be16 in *. lia.
Qed.

Lemma htons_arith x : 0 <= x < 2 ^ 16 -> htons x = 256 * (x mod 256) + x / 256.
Proof.
  intros Hx. unfold htons, bswap16. change 255 with (Z.ones 8).
  rewrite Z.land_ones, Z.shiftr_div_pow2, Z.shiftl_mul_pow2 by dlia. change (2 ^ 8) with 256.
  rewrite <- Z.add_lor_land, (Z.mul_comm (x mod 256) 256).
  assert (Hz : Z.land (256 * (x mod 256)) (x / 256) = 0); [| dlia].
  apply Z.bits_inj'. intros n Hn. rewrite Z.land_spec, Z.bits_0.
  rewrite (Z.mul_comm 256). change 256 with (2 ^ 8) at 2. rewrite <- Z.shiftl_mul_pow2 by dlia.
  destruct (decide (n < 8)); [rewrite Z.shiftl_spec_low by dlia; done |].
  apply andb_false_intro2. rewrite <- (Z.mod_small (x / 256) (2 ^ 8)) by dlia.
  apply Z.mod_pow2_bits_high. dlia.
Qed.

Lemma load16_be data off : Forall is_byte data -> load16 data off = htons (be16 data off).
Proof.
  intros Hd. pose proof (byte_at_byte data off Hd) as H1. pose proof (byte_at_byte data (off + 1) Hd) as H2.
  rewrite htons_arith by (by apply be16_range). unfold load16, be16, is_byte in *. cbn [le]. dlia.
Qed.

Lemma take_drop_bytes data off n : Forall is_byte data -> (off + n <= length data)%nat ->
  length (take n (drop off data)) = n /\ Forall is_byte (take n (drop off data)).
Proof.
  intros Hd Hlen. split; [rewrite length_take, length_drop; dlia | by apply Forall_take, Forall_drop].
Qed.

Lemma load32_le data off : (off + 4 <= length data)%nat -> load32 data off = le (take 4 (drop off data)).
Proof.
  intros Hlen. unfold load32, byte_at.
  assert (Hnth : forall i, nth (off + i) data 0 = nth i (drop off data) 0).
  { intros i. rewrite <- (take_drop off data) at 1. rewrite app_nth2; rewrite length_take_le by dlia; [f_equal; dlia | dlia]. }
  rewrite <- (Nat.add_0_r off) at 1. rewrite !Hnth.
  assert (Hl : (4 <= length (drop off data))%nat) by (rewrite length_drop; dlia).
  destruct (drop off data) as [| a [| b [| c [| d r]]]]; cbn [length] in Hl; try dlia. done.
Qed.
