(* ===== verification/Acl.v ===== *)
(** * The ACL service: rules, their JSON form, the user-space loader and the
      kernel-side filter

    [src/services/acl/acl_rules.{h,cc}], [acl_base.tpp], [acl.bpf.h],
    [acl.bpf.c] and [acl_xdp.bpf.c].

    Module [Policy] says what rules mean for a packet, in terms of dotted
    addresses, protocol names and port numbers and without a definition of
    the loader or of the filter; the theorems compare the program with it. *)

From S2P Require Import Prelude Configs BpfMap Json Net Addr.

#[local] Open Scope Z_scope.

(** ** Rules *)

Module Protocol.
(* src/services/acl/acl_rules.h:30-30 AclRulesElem::Protocol *)
Inductive t : Type := TCP | UDP | UNKNOWN.
#[global] Instance eq_dec : EqDecision t.
Proof. solve_decision. Defined.
#[global] Instance enum : CEnum t := {
  enum_values := [TCP; UDP; UNKNOWN];
  enum_name := fun p => match p with TCP => "TCP" | UDP => "UDP" | UNKNOWN => "UNKNOWN" end%string
}.
#[global] Instance enum_laws : CEnumLaws t.
Proof. split; [intros []; cbn; set_solver | intros [] []; cbn; congruence]. Qed.
End Protocol.

Module Action.
(* src/services/acl/acl_rules.h:31-31 AclRulesElem::Action *)
Inductive t : Type := DROP | ACCEPT | UNKNOWN.
#[global] Instance eq_dec : EqDecision t.
Proof. solve_decision. Defined.
#[global] Instance enum : CEnum t := {
  enum_values := [DROP; ACCEPT; UNKNOWN];
  enum_name := fun p => match p with DROP => "DROP" | ACCEPT => "ACCEPT" | UNKNOWN => "UNKNOWN" end%string
}.
#[global] Instance enum_laws : CEnumLaws t.
Proof. split; [intros []; cbn; set_solver | intros [] []; cbn; congruence]. Qed.
End Action.

Module AclRulesElem.

(* src/services/acl/acl_rules.h:28-66 AclRulesElem *)
Record t : Type := mk {
  saddr_ : string;
  daddr_ : string;
  sport_ : Z;
  dport_ : Z;
  protocol_ : Protocol.t;
  action_ : Action.t
}.

(* src/services/acl/acl_rules.h:16-16 ACL_ANY_IPV4 *)
Definition ACL_ANY_IPV4 : string := "0.0.0.0".
(* src/services/acl/acl_rules.h:17-17 ACL_ANY_PORT *)
Definition ACL_ANY_PORT : Z := 0.

(* src/services/acl/acl_rules.cc:12-15 AclRulesElem::AclRulesElem *)
Definition default : t := mk ACL_ANY_IPV4 ACL_ANY_IPV4 ACL_ANY_PORT ACL_ANY_PORT Protocol.TCP Action.DROP.
(* src/services/acl/acl_rules.cc:17-20 AclRulesElem::AclRulesElem *)
Definition make (saddr daddr : string) (sport dport : Z) (protocol : Protocol.t) (action : Action.t) : t :=
  mk saddr daddr sport dport protocol action.

(* src/services/acl/acl_rules.cc:22-27 AclRulesElem::setSaddr *)
Definition setSaddr (saddr : string) (r : t) : t :=
  mk saddr (daddr_ r) (sport_ r) (dport_ r) (protocol_ r) (action_ r).
(* src/services/acl/acl_rules.cc:29-34 AclRulesElem::getSaddr *)
Definition getSaddr (r : t) : string := saddr_ r.
(* src/services/acl/acl_rules.cc:36-41 AclRulesElem::setDaddr *)
Definition setDaddr (daddr : string) (r : t) : t :=
  mk (saddr_ r) daddr (sport_ r) (dport_ r) (protocol_ r) (action_ r).
(* src/services/acl/acl_rules.cc:43-48 AclRulesElem::getDaddr *)
Definition getDaddr (r : t) : string := daddr_ r.
(* src/services/acl/acl_rules.cc:50-55 AclRulesElem::setSport *)
Definition setSport (sport : Z) (r : t) : t :=
  mk (saddr_ r) (daddr_ r) sport (dport_ r) (protocol_ r) (action_ r).
(* src/services/acl/acl_rules.cc:57-62 AclRulesElem::getSport *)
Definition getSport (r : t) : Z := sport_ r.
(* src/services/acl/acl_rules.cc:64-69 AclRulesElem::setDport *)
Definition setDport (dport : Z) (r : t) : t :=
  mk (saddr_ r) (daddr_ r) (sport_ r) dport (protocol_ r) (action_ r).
(* src/services/acl/acl_rules.cc:71-76 AclRulesElem::getDport *)
Definition getDport (r : t) : Z := dport_ r.
(* src/services/acl/acl_rules.cc:78-83 AclRulesElem::setProtocol *)
Definition setProtocol (protocol : Protocol.t) (r : t) : t :=
  mk (saddr_ r) (daddr_ r) (sport_ r) (dport_ r) protocol (action_ r).
(* src/services/acl/acl_rules.cc:85-90 AclRulesElem::getProtocol *)
Definition getProtocol (r : t) : Protocol.t := protocol_ r.
(* src/services/acl/acl_rules.cc:92-97 AclRulesElem::setAction *)
Definition setAction (action : Action.t) (r : t) : t :=
  mk (saddr_ r) (daddr_ r) (sport_ r) (dport_ r) (protocol_ r) action.
(* src/services/acl/acl_rules.cc:99-104 AclRulesElem::getAction *)
Definition getAction (r : t) : Action.t := action_ r.

(* src/services/acl/acl_rules.cc:106-120 AclRulesElem::stringToProtocol *)
Definition stringToProtocol (protocol : string) : Protocol.t :=
  if (protocol =? "tcp")%string || (protocol =? "TCP")%string then Protocol.TCP
  else if (protocol =? "udp")%string || (protocol =? "UDP")%string then Protocol.UDP
  else Protocol.UNKNOWN.

(* src/services/acl/acl_rules.cc:122-137 AclRulesElem::ProtocolToString *)
Definition ProtocolToString (protocol : Protocol.t) : string :=
  match protocol with Protocol.TCP => "TCP" | Protocol.UDP => "UDP" | Protocol.UNKNOWN => "UNKNOWN" end.

(* src/services/acl/acl_rules.cc:139-153 AclRulesElem::stringToAction *)
Definition stringToAction (action : string) : Action.t :=
  if (action =? "accept")%string || (action =? "ACCEPT")%string then Action.ACCEPT
  else if (action =? "drop")%string || (action =? "DROP")%string then Action.DROP
  else Action.UNKNOWN.

(* src/services/acl/acl_rules.cc:155-170 AclRulesElem::ActionToString *)
Definition ActionToString (action : Action.t) : string :=
  match action with Action.ACCEPT => "ACCEPT" | Action.DROP => "DROP" | Action.UNKNOWN => "UNKNOWN" end.

Section Json.
Context {json : Type} `{JsonLib json}.

(** an unknown name is logged and becomes UNKNOWN *)
(* src/services/acl/acl_rules.cc:185-198 from_json *)
Definition set_protocol_name (name : string) (r : t) : t :=
  setProtocol (match stringEnum name with Some p => p | None => Protocol.UNKNOWN end) r.
(* src/services/acl/acl_rules.cc:199-211 from_json *)
Definition set_action_name (name : string) (r : t) : t :=
  setAction (match stringEnum name with Some a => a | None => Action.UNKNOWN end) r.

(* src/services/acl/acl_rules.cc:172-212 from_json *)
Definition from_json (j : json) (acl : t) : result exn t :=
  acl ← json_key j "saddr" get_string setSaddr acl;
  acl ← json_key j "daddr" get_string setDaddr acl;
  acl ← json_key j "sport" get_u16 setSport acl;
  acl ← json_key j "dport" get_u16 setDport acl;
  acl ← json_key j "protocol" get_string set_protocol_name acl;
  json_key j "action" get_string set_action_name acl.

(* src/services/acl/acl_rules.cc:214-221 to_json *)
Definition to_json (acl : t) : json :=
  jobject [ ("saddr", jstring (getSaddr acl)); ("daddr", jstring (getDaddr acl));
            ("sport", jnumber (getSport acl)); ("dport", jnumber (getDport acl));
            ("protocol", jstring (enumName (getProtocol acl)));
            ("action", jstring (enumName (getAction acl))) ].

End Json.
End AclRulesElem.

Module AclRules.

(* src/services/acl/acl_rules.h:68-86 AclRules *)
Record t : Type := mk { rules_ : list AclRulesElem.t }.

(* src/services/acl/acl_rules.cc:223-223 AclRules::AclRules *)
Definition default : t := mk [].
(* src/services/acl/acl_rules.cc:225-232 AclRules::setRules *)
Definition setRules (rules : list AclRulesElem.t) (_ : t) : t := mk rules.
(* src/services/acl/acl_rules.cc:234-239 AclRules::addRules *)
Definition addRules (rule : AclRulesElem.t) (acl : t) : t := mk (rules_ acl ++ [rule]).
(* src/services/acl/acl_rules.cc:241-246 AclRules::getRules *)
Definition getRules (acl : t) : list AclRulesElem.t := rules_ acl.
(* src/services/acl/acl_rules.cc:248-252 AclRules::clearRules *)
Definition clearRules (_ : t) : t := mk [].

Section Json.
Context {json : Type} `{JsonLib json}.

(* src/services/acl/acl_rules.cc:254-258 from_json *)
Definition from_json (j : json) (acl : t) : result exn t :=
  json_key j "rules" (get_vector (fun e => AclRulesElem.from_json e AclRulesElem.default)) setRules acl.

(* src/services/acl/acl_rules.cc:260-262 to_json *)
Definition to_json (acl : t) : json :=
  jobject [("rules", jarray (AclRulesElem.to_json <$> getRules acl))].

End Json.
End AclRules.

(** ** The loader *)

(* src/services/acl/acl.bpf.h:7-14 ipv4_tuple *)
Record ipv4_tuple : Type := mkTuple {
  saddr : Z; daddr : Z; sport : Z; dport : Z; protocol : Z; padding : Z
}.
#[export] Instance ipv4_tuple_eq_dec : EqDecision ipv4_tuple.
Proof. solve_decision. Defined.

(* src/services/acl/acl.bpf.h:20-20 ACL_ACTION_ALLOW *)
Definition ACL_ACTION_ALLOW : Z := 0.
(* src/services/acl/acl.bpf.h:21-21 ACL_ACTION_DENY *)
Definition ACL_ACTION_DENY : Z := 1.
(* src/services/acl/acl.bpf.h:23-23 ANY_PORT *)
Definition ANY_PORT : Z := 0.
(* src/services/acl/acl_base.h:12-12 MAX_RULES_SIZE *)
Definition MAX_RULES_SIZE : Z := 10240.

(** [protocol] and [action] of a rule as the numbers in the kernel map *)
(* src/services/acl/acl_base.tpp:123-131 AclBase::onConfigUpdate *)
Definition protocol_number (p : Protocol.t) : option Z :=
  match p with
  | Protocol.TCP => Some IPPROTO_TCP
  | Protocol.UDP => Some IPPROTO_UDP
  | Protocol.UNKNOWN => None
  end.
(* src/services/acl/acl_base.tpp:133-142 AclBase::onConfigUpdate *)
Definition action_number (a : Action.t) : option Z :=
  match a with
  | Action.DROP => Some ACL_ACTION_DENY
  | Action.ACCEPT => Some ACL_ACTION_ALLOW
  | Action.UNKNOWN => None
  end.

(** The map entry of a rule; [None] where the loop body [continue]s. *)
(* src/services/acl/acl_base.tpp:103-142 AclBase::onConfigUpdate *)
Definition rule_entry (rule : AclRulesElem.t) : option (ipv4_tuple * Z) :=
  saddr ← inet_pton (AclRulesElem.getSaddr rule);
  daddr ← inet_pton (AclRulesElem.getDaddr rule);
  let sport := htons (AclRulesElem.getSport rule) in
  let dport := htons (AclRulesElem.getDport rule) in
  protocol ← protocol_number (AclRulesElem.getProtocol rule);
  action_u ← action_number (AclRulesElem.getAction rule);
  Some (mkTuple saddr daddr sport dport protocol 0, action_u).

Section Loader.
Context {M json : Type} `{BpfHash M ipv4_tuple Z} `{JsonLib json} `{BuildMode}.

(** The service object: [skel_] is null, or holds the map behind
    [hebpf_krules_acl], whose descriptor may be invalid. *)
(* src/services/acl/acl_base.h:14-38 AclBase *)
Record AclBase : Type := mkAcl {
  skel_ : option (option M);
  rules_ : AclRules.t
}.

(* src/services/acl/acl_base.tpp:161-175 AclBase::getMapFd *)
Definition getMapFd (s : AclBase) : result exn M :=
  _ ← ASSERT (bool_decide (is_Some (skel_ s)));
  match skel_ s with
  | None => Err SEGV
  | Some None => Err (EXCEPT "Failed to get ACL rules in kernel mode")
  | Some (Some m) => Ok m
  end.

(** The enumeration visits each entry once, so as many iterations as there
    are entries are enough ([collect_keys_spec]). *)
(* src/services/acl/acl_base.tpp:177-199 AclBase::clearKernelRules *)
Definition clearKernelRules (s : AclBase) : result exn AclBase :=
  m ← getMapFd s;
  let keys := default [] (collect_keys (S (length (bpf_keys m))) m) in
  let m := delete_all keys m in
  Ok (mkAcl (Some (Some m)) (AclRules.clearRules (rules_ s))).

(* src/services/acl/acl_base.tpp:99-156 AclBase::onConfigUpdate *)
Fixpoint load_rules (rules : list AclRulesElem.t) (m : M) (kept : AclRules.t) (success : Z)
  : M * AclRules.t * Z :=
  match rules with
  | [] => (m, kept, success)
  | rule :: rest =>
      match rule_entry rule with
      | None => load_rules rest m kept success
      | Some (tuple, action_u) =>
          match bpf_update m tuple action_u with
          | None => load_rules rest m kept success
          | Some m =>
              let kept := AclRules.addRules rule kept in
              let success := success + 1 in
              if MAX_RULES_SIZE <=? success then (m, kept, success)
              else load_rules rest m kept success
          end
      end
  end.

(** the prefix the code puts before the text of a library exception *)
Definition invalid_config (what : string) : exn := EXCEPT ("Invalid ACL config: " +:+ what).

(* src/services/acl/acl_base.tpp:80-159 AclBase::onConfigUpdate *)
Definition onConfigUpdate (config : json) (s : AclBase) : result exn AclBase :=
  match AclRules.from_json config AclRules.default with
  | Err (StdException what | EXCEPT what) => Err (invalid_config what)
  | Err e => Err e
  | Ok acl_rules =>
      s ← clearKernelRules s;
      let rules := AclRules.getRules acl_rules in
      m ← getMapFd s;
      let '(m, kept, _) := load_rules rules m (rules_ s) 0 in
      Ok (mkAcl (Some (Some m)) kept)
  end.

(* src/services/acl/acl_base.tpp:70-78 AclBase::getDebugStatus *)
Definition getDebugStatus (s : AclBase) : json := AclRules.to_json (rules_ s).

End Loader.
Arguments AclBase : clear implicits.

(** ** The kernel program *)

(** What a program does with a packet: return a code at once, or jump to the
    next program of the chain and return the code when there is none. *)
Inductive verdict : Type := Finish (code : Z) | ChainNext (code : Z).

(* src/services/acl/acl.bpf.c:11-11 TC_ACT_OK *)
Definition TC_ACT_OK : Z := 0.
(* src/services/acl/acl.bpf.c:12-12 TC_ACT_SHOT *)
Definition TC_ACT_SHOT : Z := 2.
Definition XDP_DROP : Z := 1.
Definition XDP_PASS : Z := 2.

(** The ports the filter reads: source and destination.  The TCP header size
    is tested first, whatever the protocol. *)
(* src/services/acl/acl_xdp.bpf.c:46-67 hebpf_acl_xdp_generic *)
Definition flow_ports (data : list Z) : option (Z * Z) :=
  let offset := u16 (ihl data * 4) in
  let p := ip_protocol data in
  if (p =? IPPROTO_TCP) || (p =? IPPROTO_UDP) then
    let trans := (14 + Z.to_nat offset)%nat in
    if (trans + sizeof_tcphdr <=? length data)%nat then
      if p =? IPPROTO_TCP then Some (load16 data trans, load16 data (trans + 2)) else Some (0, 0)
    else if (trans + sizeof_udphdr <=? length data)%nat then
      if p =? IPPROTO_UDP then Some (load16 data trans, load16 data (trans + 2)) else Some (0, 0)
    else None
  else None.

(** the key before the source port is filled in, and the source port *)
(* src/services/acl/acl_xdp.bpf.c:34-67 hebpf_acl_xdp_generic *)
Definition flow (data : list Z) : option (ipv4_tuple * Z) :=
  if (sizeof_ethhdr + sizeof_iphdr <=? length data)%nat then
    '(origin_src_port, dport) ← flow_ports data;
    Some (mkTuple (ip_saddr data) (ip_daddr data) ANY_PORT dport (ip_protocol data) 0, origin_src_port)
  else None.

Definition with_sport (sport : Z) (t : ipv4_tuple) : ipv4_tuple :=
  mkTuple (saddr t) (daddr t) sport (dport t) (protocol t) (padding t).

Section Filter.
Context {M : Type} `{BpfHash M ipv4_tuple Z}.

(* src/services/acl/acl_xdp.bpf.c:69-75 hebpf_acl_xdp_generic *)
Definition find_action (krules : M) (tuple : ipv4_tuple) (origin_src_port : Z) : option Z :=
  match bpf_lookup krules tuple with
  | Some action => Some action
  | None => bpf_lookup krules (with_sport origin_src_port tuple)
  end.

(** the part both programs share, with their return codes *)
(* src/services/acl/acl_xdp.bpf.c:34-89 hebpf_acl_xdp_generic *)
Definition acl_filter (pass drop : Z) (krules : M) (data : list Z) : verdict :=
  match flow data with
  | None => Finish pass
  | Some (tuple, origin_src_port) =>
      match find_action krules tuple origin_src_port with
      | Some action => if action =? ACL_ACTION_DENY then Finish drop else ChainNext pass
      | None => ChainNext pass
      end
  end.

(* src/services/acl/acl_xdp.bpf.c:19-90 hebpf_acl_xdp_generic *)
Definition hebpf_acl_xdp_generic (krules : M) (data : list Z) : verdict :=
  if negb (sizeof_ethhdr <=? length data)%nat then Finish XDP_PASS
  else if negb (h_proto data =? htons ETH_P_IP) then Finish XDP_PASS
  else acl_filter XDP_PASS XDP_DROP krules data.

(** [skb->protocol] is metadata of the packet *)
(* src/services/acl/acl.bpf.c:22-92 hebpf_acl_tc_ingress *)
Definition hebpf_acl_tc_ingress (krules : M) (skb_protocol : Z) (data : list Z) : verdict :=
  if negb (skb_protocol =? htons ETH_P_IP) then Finish TC_ACT_OK
  else if negb (sizeof_ethhdr <=? length data)%nat then Finish TC_ACT_OK
  else acl_filter TC_ACT_OK TC_ACT_SHOT krules data.

End Filter.

(** ** Rules to JSON and back *)

Section JsonFacts.
Context {json : Type} `{JsonLaws json}.

Definition elem_wf (r : AclRulesElem.t) : Prop :=
  0 <= AclRulesElem.sport_ r < 2 ^ 16 /\ 0 <= AclRulesElem.dport_ r < 2 ^ 16.

(** a key of an object literal *)
Ltac json_keys :=
  repeat (erewrite json_key_object;
    [| refine (bool_decide_unpack _ _); vm_compute; exact I
     | repeat (first [left; reflexivity | right])
     | first [apply get_jstring | apply get_u16_jnumber; lia]]; cbn [mbind result_bind]).

Lemma elem_json_roundtrip r r0 : elem_wf r -> AclRulesElem.from_json (AclRulesElem.to_json r) r0 = Ok r.
Proof.
  intros [Hs Hd]. destruct r as [sa da sp dp pr ac]; cbn in Hs, Hd.
  unfold AclRulesElem.from_json, AclRulesElem.to_json; cbn [AclRulesElem.getSaddr AclRulesElem.getDaddr
    AclRulesElem.getSport AclRulesElem.getDport AclRulesElem.getProtocol AclRulesElem.getAction
    AclRulesElem.saddr_ AclRulesElem.daddr_ AclRulesElem.sport_ AclRulesElem.dport_
    AclRulesElem.protocol_ AclRulesElem.action_].
  json_keys. unfold AclRulesElem.set_protocol_name, AclRulesElem.set_action_name.
  by rewrite !stringEnum_enumName.
Qed.

(** a port comes out of the JSON text as a 16-bit number *)
Lemma elem_from_json_wf j r0 r : elem_wf r0 -> AclRulesElem.from_json j r0 = Ok r -> elem_wf r.
Proof.
  intros Hr0 Hj. unfold AclRulesElem.from_json in Hj.
  assert (Hstr : forall {B} (get : _ -> result exn B) key f a a', (forall b a, elem_wf a -> elem_wf (f b a)) ->
    json_key j key get f a = Ok a' -> elem_wf a -> elem_wf a').
  { intros B get key f a a' Hf Hk Ha. apply (json_key_keeps elem_wf (fun _ => True)) in Hk; auto. }
  assert (Hnum : forall key f a a', (forall z a, 0 <= z < 2 ^ 16 -> elem_wf a -> elem_wf (f z a)) ->
    json_key j key get_u16 f a = Ok a' -> elem_wf a -> elem_wf a').
  { intros key f a a' Hf Hk Ha. apply (json_key_keeps elem_wf (fun z => 0 <= z < 2 ^ 16)) in Hk; auto.
    intros v z. apply get_u16_range. }
  repeat (apply result_bind_inv in Hj as (? & ?E & Hj)).
  repeat first
    [ done
    | eapply Hstr; [| eassumption |]; [by intros ? ? [? ?] |]
    | eapply Hnum; [| eassumption |]; [by intros ? ? ? [? ?] |] ].
Qed.

Lemma from_json_wf j rules : AclRules.from_json j AclRules.default = Ok (AclRules.mk rules) -> Forall elem_wf rules.
Proof.
  intros Hj. change (Forall elem_wf (AclRules.rules_ (AclRules.mk rules))). revert Hj.
  intros Hj. apply (json_key_keeps (fun a => Forall elem_wf (AclRules.rules_ a)) (Forall elem_wf)) in Hj; [done | constructor | | done].
  intros v l. apply get_vector_Forall. intros j' r. apply elem_from_json_wf. split; cbn; unfold AclRulesElem.ACL_ANY_PORT; lia.
Qed.

(** the rules the service reports, encoded to JSON and read back as a
    configuration, are the same rules. *)
Theorem acl_json_roundtrip (acl acl0 : AclRules.t) (Hwf : Forall elem_wf (AclRules.rules_ acl)) :
  AclRules.from_json (AclRules.to_json acl) acl0 = Ok acl.
Proof.
  unfold AclRules.from_json, AclRules.to_json. destruct acl as [rules]; cbn in *.
  erewrite json_key_object; [done | apply NoDup_singleton | left |].
  apply get_vector_jarray. intros r Hr. apply elem_json_roundtrip. by eapply Forall_forall in Hr.
Qed.

End JsonFacts.

(** ** What rules mean

    A rule concerns the packets from exactly its source address to exactly
    its destination address and destination port, over its protocol, and from
    its source port or, when that is 0, from any port.  There is no other
    wildcard: the defaults 0.0.0.0 and destination port 0 mean themselves.  A
    rule that cannot be read - an address that is not in dotted decimal, an
    unknown protocol or action - has no effect. *)

Module Policy.

Record packet : Type := mkPacket { from : list Z; to : list Z; proto : Protocol.t; src_port : Z; dst_port : Z }.

Definition takes_effect (r : AclRulesElem.t) : Prop :=
  (exists a, address a /\ c_str (AclRulesElem.saddr_ r) = dotted a) /\
  (exists a, address a /\ c_str (AclRulesElem.daddr_ r) = dotted a) /\
  AclRulesElem.protocol_ r <> Protocol.UNKNOWN /\ AclRulesElem.action_ r <> Action.UNKNOWN.

Definition concerns (p : packet) (r : AclRulesElem.t) : Prop :=
  c_str (AclRulesElem.saddr_ r) = dotted (from p) /\ c_str (AclRulesElem.daddr_ r) = dotted (to p) /\
  AclRulesElem.protocol_ r = proto p /\ AclRulesElem.dport_ r = dst_port p /\ AclRulesElem.action_ r <> Action.UNKNOWN.
#[export] Instance concerns_dec p r : Decision (concerns p r).
Proof. unfold concerns. apply _. Defined.

(** the last rule for any source port decides; without one, the last rule for
    the packet's source port; without either the packet is not denied *)
Definition denied (rules : list AclRulesElem.t) (p : packet) : bool :=
  match last (filter (fun r => concerns p r /\ AclRulesElem.sport_ r = 0) rules) with
  | Some r => bool_decide (AclRulesElem.action_ r = Action.DROP)
  | None =>
      match last (filter (fun r => concerns p r /\ AclRulesElem.sport_ r = src_port p) rules) with
      | Some r => bool_decide (AclRulesElem.action_ r = Action.DROP)
      | None => false
      end
  end.

(** An Ethernet frame that carries IPv4. *)
Definition ipv4_frame (data : list Z) : Prop :=
  Forall is_byte data /\ (14 <= length data)%nat /\ be16 data 12 = 2048.

(** the bytes from the transport header on; the IP header has four times as
    many bytes as its first byte says *)
Definition transport (data : list Z) : nat := 14 + 4 * Z.to_nat (byte_at data 14 mod 16).
Definition transport_size (data : list Z) : nat := length data - transport data.
Definition transport_protocol (data : list Z) : option Protocol.t :=
  if byte_at data 23 =? 6 then Some Protocol.TCP else if byte_at data 23 =? 17 then Some Protocol.UDP else None.

(** the TCP or UDP packet in a frame, when the IP header and eight bytes of
    the transport header are there *)
Definition packet_of (data : list Z) : option packet :=
  if (34 <=? length data)%nat && (8 <=? transport_size data)%nat then
    proto ← transport_protocol data;
    Some (mkPacket (take 4 (drop 26 data)) (take 4 (drop 30 data)) proto
            (be16 data (transport data)) (be16 data (transport data + 2)))
  else None.

(** The filter looks at the ports of a TCP packet with a complete header (20
    bytes), and of a UDP packet with less than twelve bytes behind its header;
    it takes every other packet for one from port 0 to port 0. *)
Definition ports_read (data : list Z) (p : packet) : bool :=
  match proto p with
  | Protocol.TCP => (20 <=? transport_size data)%nat
  | _ => (transport_size data <? 20)%nat
  end.
Definition seen (data : list Z) : option packet :=
  p ← packet_of data;
  Some (if ports_read data p then p else mkPacket (from p) (to p) (proto p) 0 0).

#[export] Instance ipv4_frame_dec data : Decision (ipv4_frame data).
Proof. unfold ipv4_frame, is_byte. apply _. Defined.

Record packet_wf (p : packet) : Prop := {
  wf_from : address (from p);
  wf_to : address (to p);
  wf_proto : proto p <> Protocol.UNKNOWN;
  wf_src : 0 <= src_port p < 2 ^ 16;
  wf_dst : 0 <= dst_port p < 2 ^ 16
}.

End Policy.

(** ** What a configuration update installs *)

(** what can be read of a rule is what the loader needs for its entry *)
Lemma takes_effect_entry r : Policy.takes_effect r <-> is_Some (rule_entry r).
Proof.
  unfold Policy.takes_effect, rule_entry, AclRulesElem.getSaddr, AclRulesElem.getDaddr, AclRulesElem.getProtocol, AclRulesElem.getAction.
  rewrite <- !inet_pton_some.
  destruct (inet_pton (AclRulesElem.saddr_ r)), (inet_pton (AclRulesElem.daddr_ r)), (AclRulesElem.protocol_ r), (AclRulesElem.action_ r);
    cbn; rewrite ?is_Some_alt; naive_solver.
Qed.
#[export] Instance takes_effect_dec r : Decision (Policy.takes_effect r).
Proof. refine (cast_if (decide (is_Some (rule_entry r)))); by rewrite takes_effect_entry. Defined.

(** the rules that take effect, and their entries *)
Definition valid_rules (rules : list AclRulesElem.t) : list AclRulesElem.t := filter Policy.takes_effect rules.
Definition entries (rules : list AclRulesElem.t) : list (ipv4_tuple * Z) := omap rule_entry rules.

Section LoaderFacts.
Context {M json : Type} `{!BpfHash M ipv4_tuple Z, !BpfHashLaws M ipv4_tuple Z} `{JsonLib json} `{BuildMode}.
Implicit Types (m : M) (rules : list AclRulesElem.t).

Lemma valid_rules_cons r rules :
  valid_rules (r :: rules) = match rule_entry r with Some _ => r :: valid_rules rules | None => valid_rules rules end.
Proof.
  unfold valid_rules. rewrite filter_cons. destruct (rule_entry r) eqn:E.
  - rewrite decide_True; [done |]. apply takes_effect_entry. eauto.
  - rewrite decide_False; [done |]. rewrite takes_effect_entry, E. apply is_Some_None.
Qed.

Lemma entries_cons r rules :
  entries (r :: rules) = match rule_entry r with Some e => e :: entries rules | None => entries rules end.
Proof. done. Qed.

Lemma entries_length rules : length (entries rules) = length (valid_rules rules).
Proof.
  induction rules as [| r rules IH]; [done |]. rewrite entries_cons, valid_rules_cons.
  destruct (rule_entry r); cbn; congruence.
Qed.

Lemma rule_entry_inv r t a :
  rule_entry r = Some (t, a) ->
  inet_pton (AclRulesElem.saddr_ r) = Some (saddr t) /\ inet_pton (AclRulesElem.daddr_ r) = Some (daddr t) /\
  sport t = htons (AclRulesElem.sport_ r) /\ dport t = htons (AclRulesElem.dport_ r) /\
  protocol_number (AclRulesElem.protocol_ r) = Some (protocol t) /\ action_number (AclRulesElem.action_ r) = Some a.
Proof.
  unfold rule_entry, AclRulesElem.getSaddr, AclRulesElem.getDaddr, AclRulesElem.getProtocol, AclRulesElem.getAction.
  intros (sa & Hsa & (da & Hda & (p & Hp & (u & Hu & He)%bind_Some)%bind_Some)%bind_Some)%bind_Some.
  by simplify_eq.
Qed.

Lemma entries_nil rules : entries rules = [] -> valid_rules rules = [].
Proof.
  induction rules as [| r rules IH]; [done |]. rewrite entries_cons, valid_rules_cons.
  by destruct (rule_entry r).
Qed.

Lemma load_rules_spec rules : forall m kept success,
  (length (bpf_keys m) + length (entries rules) <= bpf_max m)%nat ->
  0 <= success -> success + Z.of_nat (length (entries rules)) <= MAX_RULES_SIZE ->
  exists m' n, load_rules rules m kept success = (m', AclRules.mk (AclRules.rules_ kept ++ valid_rules rules), n) /\
    bpf_max m' = bpf_max m /\
    forall t, bpf_lookup m' t = match last_of (entries rules) t with Some v => Some v | None => bpf_lookup m t end.
Proof.
  induction rules as [| r rules IH]; intros m kept success Hroom Hpos Hmax; cbn [load_rules].
  - exists m, success. rewrite app_nil_r. by destruct kept.
  - rewrite entries_cons in *. rewrite valid_rules_cons.
    destruct (rule_entry r) as [[t a] |]; [| by apply IH].
    cbn [length] in Hroom, Hmax.
    destruct (bpf_update_room m t a) as [m1 Hu]; [lia |]. rewrite Hu.
    pose proof (bpf_update_max _ _ _ _ Hu) as Hm1. pose proof (bpf_update_keys_le _ _ _ _ Hu) as Hlen.
    cbv zeta. destruct (MAX_RULES_SIZE <=? success + 1) eqn:Hfull.
    + apply Z.leb_le in Hfull. assert (Hnil : entries rules = []) by (apply nil_length_inv; lia).
      rewrite (entries_nil _ Hnil), Hnil. exists m1, (success + 1). split_and!; try done.
      intros t'. cbn. rewrite (bpf_update_lookup _ _ _ _ Hu). by case_decide.
    + destruct (IH m1 (AclRules.addRules r kept) (success + 1)) as (m' & n & -> & Hm' & Hv); [lia .. |].
      exists m', n. cbn. rewrite <- app_assoc. split_and!; [done | congruence |].
      intros t'. rewrite Hv. destruct (last_of _ t'); [done |].
      rewrite (bpf_update_lookup _ _ _ _ Hu). by case_decide.
Qed.

Lemma clearKernelRules_ok m old :
  exists m0, clearKernelRules (mkAcl (Some (Some m)) old) = Ok (mkAcl (Some (Some m0)) (AclRules.mk [])) /\
    bpf_keys m0 = [] /\ bpf_max m0 = bpf_max m.
Proof.
  unfold clearKernelRules, getMapFd, ASSERT; cbn.
  rewrite collect_keys_spec by lia. eexists. split; [done |].
  split; [apply delete_all_keys | apply delete_all_max].
Qed.

Lemma load_rules_max rules : forall m kept success, bpf_max (load_rules rules m kept success).1.1 = bpf_max m.
Proof.
  induction rules as [| r rules IH]; intros m kept success; cbn [load_rules]; [done |].
  destruct (rule_entry r) as [[t a] |]; [| apply IH].
  destruct (bpf_update m t a) as [m1 |] eqn:Hu; [| apply IH]. cbv zeta.
  case_match; [| rewrite IH]; by eapply bpf_update_max.
Qed.

(** a configuration that decodes never makes a loaded service throw *)
Lemma onConfigUpdate_returns (config : json) m old acl :
  AclRules.from_json config AclRules.default = Ok acl ->
  exists m' kept, onConfigUpdate config (mkAcl (Some (Some m)) old) = Ok (mkAcl (Some (Some m')) kept) /\ bpf_max m' = bpf_max m.
Proof.
  intros Hjson. unfold onConfigUpdate. rewrite Hjson.
  destruct (clearKernelRules_ok m old) as (m0 & -> & _ & Hm0). cbn [mbind result_bind].
  replace (getMapFd _) with (Ok (E := exn) m0) by (unfold getMapFd, ASSERT; done). cbn [mbind result_bind].
  pose proof (load_rules_max (AclRules.getRules acl) m0 (AclRules.mk []) 0) as Hmax. rewrite <- Hm0, <- Hmax.
  destruct (load_rules _ _ _ _) as [[m' kept] n]. by exists m', kept.
Qed.

Lemma onConfigUpdate_ok (config : json) m old rules :
  AclRules.from_json config AclRules.default = Ok (AclRules.mk rules) ->
  (length (valid_rules rules) <= bpf_max m)%nat -> Z.of_nat (length (valid_rules rules)) <= MAX_RULES_SIZE ->
  exists m', onConfigUpdate config (mkAcl (Some (Some m)) old)
      = Ok (mkAcl (Some (Some m')) (AclRules.mk (valid_rules rules))) /\ bpf_max m' = bpf_max m /\
    forall t, bpf_lookup m' t = last_of (entries rules) t.
Proof.
  intros Hjson Hroom Hmax. rewrite <- entries_length in *. unfold onConfigUpdate. rewrite Hjson.
  destruct (clearKernelRules_ok m old) as (m0 & -> & Hnil & Hm0). cbn [mbind result_bind AclRules.getRules AclRules.rules_].
  replace (getMapFd _) with (Ok (E := exn) m0) by (unfold getMapFd, ASSERT; done). cbn [mbind result_bind rules_].
  destruct (load_rules_spec rules m0 (AclRules.mk []) 0) as (m' & n & -> & Hm' & Hv); [rewrite Hnil; cbn; lia | lia | lia |].
  exists m'. split; [done |]. split; [congruence |]. intros t. rewrite Hv, (keys_nil_lookup m0 Hnil). by destruct (last_of _ t).
Qed.

End LoaderFacts.

Section Properties.
Context {M json : Type} `{!BpfHash M ipv4_tuple Z, !BpfHashLaws M ipv4_tuple Z} `{JsonLib json} `{BuildMode}.

(** the key of a packet in the table: addresses and port numbers in network
    order, and the number of the protocol *)
Definition key_of (p : Policy.packet) (sport : Z) : ipv4_tuple :=
  mkTuple (le (Policy.from p)) (le (Policy.to p)) (htons sport) (htons (Policy.dst_port p))
    (default 0 (protocol_number (Policy.proto p))) 0.

Lemma rule_entry_key r p sport : elem_wf r -> Policy.packet_wf p -> 0 <= sport < 2 ^ 16 ->
  (exists a, rule_entry r = Some (key_of p sport, a)) <-> Policy.concerns p r /\ AclRulesElem.sport_ r = sport.
Proof.
  intros [Hsp Hdp] [Hf Ht Hp _ Hdst] Hsport. unfold Policy.concerns. rewrite <- !inet_pton_dotted by done. split.
  - intros [a He]. apply rule_entry_inv in He as (Hs & Hd & Hsport' & Hdport & Hproto & Hact). cbn in Hsport', Hdport.
    apply htons_inj in Hsport' as <-; [| done | done]. apply htons_inj in Hdport as <-; [| done | done]. cbn in Hproto.
    split_and!; try done.
    + destruct (AclRulesElem.protocol_ r), (Policy.proto p); done.
    + by destruct (AclRulesElem.action_ r).
  - intros [(Hs & Hd & Hproto & Hdport & Hact) Hsport']. unfold rule_entry, key_of.
    unfold AclRulesElem.getSaddr, AclRulesElem.getDaddr, AclRulesElem.getProtocol, AclRulesElem.getAction, AclRulesElem.getSport, AclRulesElem.getDport.
    rewrite Hs, Hd, Hproto, Hdport, Hsport'. cbn. destruct (Policy.proto p), (AclRulesElem.action_ r); cbn; eauto; done.
Qed.

(** the last entry for a key comes from the last rule that makes it *)
Lemma last_of_entries (P : AclRulesElem.t -> Prop) `{!forall r, Decision (P r)} rules t :
  Forall (fun r => (exists a, rule_entry r = Some (t, a)) <-> P r) rules ->
  match last (filter P rules) with
  | Some r => exists a, rule_entry r = Some (t, a) /\ last_of (entries rules) t = Some a
  | None => last_of (entries rules) t = None
  end.
Proof.
  induction 1 as [| r rules Hr _ IH]; [done |]. rewrite entries_cons, filter_cons.
  destruct (decide (P r)) as [HP | HP].
  - apply Hr in HP as [a He]. rewrite last_cons.
    destruct (last (filter P rules)) as [r' |].
    + destruct IH as (a' & He' & Hl). exists a'. rewrite He. cbn [last_of]. by rewrite Hl.
    + exists a. rewrite He. cbn [last_of]. by rewrite IH, decide_True.
  - destruct (rule_entry r) as [[t' a] |] eqn:He; [| done]. cbn [last_of].
    assert (Ht : t' <> t) by (intros ->; apply HP, Hr; eauto).
    destruct (last (filter P rules)) as [r' |].
    + destruct IH as (a' & He' & Hl). exists a'. by rewrite Hl.
    + by rewrite IH, decide_False.
Qed.

Lemma deny_drop r t a : rule_entry r = Some (t, a) -> (a =? ACL_ACTION_DENY) = bool_decide (AclRulesElem.action_ r = Action.DROP).
Proof. intros (_ & _ & _ & _ & _ & Ha)%rule_entry_inv. destruct (AclRulesElem.action_ r); [| | done]; by injection Ha as <-. Qed.

Lemma last_of_denied rules p : Forall elem_wf rules -> Policy.packet_wf p ->
  match (match last_of (entries rules) (key_of p 0) with
         | Some action => Some action
         | None => last_of (entries rules) (key_of p (Policy.src_port p))
         end) with
  | Some action => action =? ACL_ACTION_DENY
  | None => false
  end = Policy.denied rules p.
Proof.
  intros Hr Hp. unfold Policy.denied.
  assert (Hlast : forall sport, 0 <= sport < 2 ^ 16 ->
    Forall (fun r => (exists a, rule_entry r = Some (key_of p sport, a)) <-> Policy.concerns p r /\ AclRulesElem.sport_ r = sport) rules).
  { intros sport Hs. eapply Forall_impl; [exact Hr |]. intros r Hwf. by apply rule_entry_key. }
  pose proof (last_of_entries _ rules _ (Hlast 0 ltac:(lia))) as H1.
  pose proof (last_of_entries _ rules _ (Hlast _ (Policy.wf_src p Hp))) as H2.
  destruct (last (filter _ rules)) as [r |].
  - destruct H1 as (a & He & ->). by apply deny_drop in He.
  - rewrite H1. destruct (last (filter _ rules)) as [r |]; [| by rewrite H2].
    destruct H2 as (a & He & ->). by apply deny_drop in He.
Qed.

(** *** What the filter reads of a frame *)

Lemma ipv4_frame_code data : Policy.ipv4_frame data ->
  (sizeof_ethhdr <=? length data)%nat = true /\ (h_proto data =? htons ETH_P_IP) = true.
Proof.
  intros (Hd & Hlen & Hp). split; [by apply Nat.leb_le |]. unfold h_proto. rewrite load16_be, Hp by done. done.
Qed.

Lemma packet_of_wf data p : Forall is_byte data -> Policy.packet_of data = Some p -> Policy.packet_wf p.
Proof.
  intros Hd. unfold Policy.packet_of. destruct (_ && _) eqn:Hlen; [| done].
  apply andb_prop in Hlen as [Hlen _]. apply Nat.leb_le in Hlen. unfold Policy.transport_protocol.
  assert (Haddr : forall off, (off + 4 <= 34)%nat -> address (take 4 (drop off data))).
  { intros off Hoff. apply take_drop_bytes; [done | lia]. }
  repeat case_match; intros [= <-]; split; cbn; try done; first [apply Haddr; lia | by apply be16_range].
Qed.

Lemma seen_wf data p : Forall is_byte data -> Policy.seen data = Some p -> Policy.packet_wf p.
Proof.
  intros Hd. unfold Policy.seen. destruct (Policy.packet_of data) as [q |] eqn:Hq; [| done].
  apply packet_of_wf in Hq; [| done]. cbn. intros [= <-]. destruct (Policy.ports_read _ _); [done |].
  destruct Hq. split; cbn; done || lia.
Qed.

(** the key and the source port the filter works with *)
Lemma flow_seen data : Forall is_byte data ->
  flow data = p ← Policy.seen data; Some (key_of p ANY_PORT, htons (Policy.src_port p)).
Proof.
  intros Hd. unfold flow, flow_ports, Policy.seen, Policy.packet_of, Policy.transport_protocol, ip_protocol, ihl.
  change (sizeof_ethhdr + sizeof_iphdr)%nat with 34%nat. change (14 + 9)%nat with 23%nat.
  destruct (Nat.leb_spec 34 (length data)) as [Hlen |]; [| done]. cbn [andb].
  assert (Htrans : (14 + Z.to_nat (u16 (Z.land (byte_at data 14) 15 * 4)) = Policy.transport data)%nat).
  { unfold Policy.transport. f_equal. change 15 with (Z.ones 4). rewrite Z.land_ones by lia. change (2 ^ 4) with 16.
    pose proof (Z.mod_pos_bound (byte_at data 14) 16). unfold u16, wrap. rewrite Z.mod_small by lia. lia. }
  rewrite Htrans. unfold Policy.ports_read, Policy.transport_size, sizeof_tcphdr, sizeof_udphdr.
  unfold ip_saddr, ip_daddr. rewrite !load32_le, !load16_be by (done || lia). unfold IPPROTO_TCP, IPPROTO_UDP.
  assert (Hcases : forall k, (k <=? length data - Policy.transport data)%nat = (Policy.transport data + k <=? length data)%nat \/ k = 0%nat).
  { intros k. destruct (decide (k = 0%nat)); [by right | left].
    apply eq_true_iff_eq. rewrite !Nat.leb_le. lia. }
  destruct (Hcases 8%nat) as [-> |]; [| done]. destruct (Hcases 20%nat) as [H20 |]; [| done].
  assert (Hlt : (length data - Policy.transport data <? 20)%nat = negb (Policy.transport data + 20 <=? length data)%nat)
    by (by rewrite Nat.ltb_antisym, H20).
  assert (Hmono : (Policy.transport data + 20 <=? length data)%nat = true -> (Policy.transport data + 8 <=? length data)%nat = true)
    by (rewrite !Nat.leb_le; lia).
  unfold key_of. destruct (byte_at data 23 =? 6) eqn:H6; [| destruct (byte_at data 23 =? 17) eqn:H17]; cbn [orb].
  all: repeat first [progress cbn [mbind option_bind Policy.proto] | rewrite H20 | rewrite Hlt].
  all: destruct (_ + 20 <=? _)%nat; [rewrite Hmono by done |]; destruct (_ + 8 <=? _)%nat; try done; cbn [mbind option_bind negb].
  all: first [apply Z.eqb_eq in H6; rewrite H6; reflexivity | apply Z.eqb_eq in H17; rewrite H17; reflexivity].
Qed.

(** the filter over a table that holds the entries of the rules *)
Lemma filter_policy (m : M) (rules : list AclRulesElem.t) (data : list Z) :
  Forall elem_wf rules -> (forall t, bpf_lookup m t = last_of (entries rules) t) -> Policy.ipv4_frame data ->
  hebpf_acl_xdp_generic m data =
    match Policy.seen data with
    | None => Finish XDP_PASS
    | Some p => if Policy.denied rules p then Finish XDP_DROP else ChainNext XDP_PASS
    end.
Proof.
  intros Hr Hv Hframe. destruct (ipv4_frame_code _ Hframe) as [Hlen Hip]. destruct Hframe as [Hd _].
  unfold hebpf_acl_xdp_generic, acl_filter, find_action. rewrite Hlen, Hip. cbn [negb].
  rewrite (flow_seen _ Hd). destruct (Policy.seen data) as [p |] eqn:Hp; [| done]. apply seen_wf in Hp; [| done].
  cbn [mbind option_bind]. rewrite <- (last_of_denied rules p Hr Hp). change (with_sport _ _) with (key_of p (Policy.src_port p)).
  rewrite !Hv. change ANY_PORT with 0. by destruct (last_of _ _); [| destruct (last_of _ _)].
Qed.

(** C13: whatever the service enforced before, once a configuration has been
    applied a frame with a TCP or UDP packet is dropped exactly when the rules
    deny the packet, and goes to the next program of the chain otherwise;
    every other IPv4 frame (ICMP, or one too short for the headers) passes at
    once, past the rest of the chain.  [Policy] says what rules deny without
    reference to the loader or the filter.  The filter departs from it in the
    ports only ([Policy.seen]): a UDP packet with twelve or more bytes of
    payload, and a TCP packet without a complete header, count as packets
    from port 0 to port 0.  The service reports exactly the rules that take
    effect. *)
Theorem acl_enforces_rules (config : json) (m : M) (old : AclRules.t) (rules : list AclRulesElem.t)
  (Hjson : AclRules.from_json config AclRules.default = Ok (AclRules.mk rules))
  (Hroom : (length (valid_rules rules) <= bpf_max m)%nat)
  (Hmax : Z.of_nat (length (valid_rules rules)) <= MAX_RULES_SIZE) :
  exists m', onConfigUpdate config (mkAcl (Some (Some m)) old)
      = Ok (mkAcl (Some (Some m')) (AclRules.mk (valid_rules rules))) /\
    forall data, Policy.ipv4_frame data ->
      hebpf_acl_xdp_generic m' data =
        match Policy.seen data with
        | None => Finish XDP_PASS
        | Some p => if Policy.denied rules p then Finish XDP_DROP else ChainNext XDP_PASS
        end.
Proof.
  destruct (onConfigUpdate_ok config m old rules Hjson Hroom Hmax) as (m' & Hu & _ & Hv).
  exists m'. split; [exact Hu |]. intros data. apply filter_policy; [by eapply from_json_wf | done].
Qed.

(** a drop needs a rule that names exactly the packet's source address,
    destination address and destination port: the defaults 0.0.0.0 and port 0
    are compared literally, only the source port has a wildcard. *)
Theorem acl_drop_sound (config : json) (m : M) (old : AclRules.t) (rules : list AclRulesElem.t)
  (Hjson : AclRules.from_json config AclRules.default = Ok (AclRules.mk rules))
  (Hroom : (length (valid_rules rules) <= bpf_max m)%nat)
  (Hmax : Z.of_nat (length (valid_rules rules)) <= MAX_RULES_SIZE) :
  exists m', onConfigUpdate config (mkAcl (Some (Some m)) old)
      = Ok (mkAcl (Some (Some m')) (AclRules.mk (valid_rules rules))) /\
    forall data, hebpf_acl_xdp_generic m' data = Finish XDP_DROP ->
      exists r, r ∈ rules /\ AclRulesElem.action_ r = Action.DROP /\
        inet_pton (AclRulesElem.saddr_ r) = Some (ip_saddr data) /\
        inet_pton (AclRulesElem.daddr_ r) = Some (ip_daddr data) /\
        protocol_number (AclRulesElem.protocol_ r) = Some (ip_protocol data) /\
        exists src, flow_ports data = Some (src, htons (AclRulesElem.dport_ r)) /\
          (htons (AclRulesElem.sport_ r) = ANY_PORT \/ htons (AclRulesElem.sport_ r) = src).
Proof.
  destruct (onConfigUpdate_ok config m old rules Hjson Hroom Hmax) as (m' & Hu & _ & Hv).
  exists m'. split; [exact Hu |]. intros data. unfold hebpf_acl_xdp_generic, acl_filter, flow.
  destruct (negb (_ <=? _)%nat); [done |]. destruct (negb (_ =? _)); [done |]. destruct (_ <=? _)%nat; [| done].
  destruct (flow_ports data) as [[src dst] |]; [| done]. cbn [mbind option_bind].
  unfold find_action. rewrite !Hv. intros Hdrop.
  assert (Hrule : exists t, (t, ACL_ACTION_DENY) ∈ entries rules /\ dst = dport t /\
            saddr t = ip_saddr data /\ daddr t = ip_daddr data /\ protocol t = ip_protocol data /\
            (sport t = ANY_PORT \/ sport t = src)).
  { destruct (last_of _ _) as [a |] eqn:Hl in Hdrop; [| destruct (last_of _ _) as [a |] eqn:Hl' in Hdrop; [| done]].
    - destruct (a =? ACL_ACTION_DENY) eqn:Ha; [apply Z.eqb_eq in Ha as -> | done].
      eexists. split; [by eapply last_of_elem |]. cbn. tauto.
    - destruct (a =? ACL_ACTION_DENY) eqn:Ha; [apply Z.eqb_eq in Ha as -> | done].
      eexists. split; [by eapply last_of_elem |]. cbn. tauto. }
  destruct Hrule as (t & Ht & -> & <- & <- & <- & Hs).
  apply list_elem_of_omap in Ht as (r & Hr & He). exists r. split; [done |].
  apply rule_entry_inv in He as (Hsa & Hda & Hsp & Hdp & Hpr & Hac).
  split_and!; [by destruct (AclRulesElem.action_ r) | done | done | done |].
  exists src. by rewrite <- Hsp, <- Hdp.
Qed.

(** the filter tests for the 20 bytes of a TCP header before it looks at
    the protocol, so a UDP packet with twelve or more bytes of payload is
    looked up with both ports zero: when every UDP rule names a destination
    port, no such packet is ever dropped. *)
Theorem acl_udp_ports_ignored (krules : M) (data : list Z)
  (Hudp : ip_protocol data = IPPROTO_UDP)
  (Hlong : (14 + Z.to_nat (u16 (ihl data * 4)) + sizeof_tcphdr <= length data)%nat)
  (Hrules : forall t action, bpf_lookup krules t = Some action -> protocol t = IPPROTO_UDP -> dport t <> ANY_PORT) :
  hebpf_acl_xdp_generic krules data <> Finish XDP_DROP.
Proof.
  unfold hebpf_acl_xdp_generic, acl_filter, flow, flow_ports. rewrite Hudp.
  rewrite (proj2 (Nat.leb_le _ _) Hlong). cbn -[Nat.leb h_proto].
  assert (Hnone : forall t, protocol t = IPPROTO_UDP -> dport t = ANY_PORT -> bpf_lookup krules t = None).
  { intros t Hp Hd. apply eq_None_not_Some. intros [a Ha]. by eapply Hrules. }
  repeat (case_match; try discriminate). unfold find_action in *. simplify_eq/=.
  rewrite !Hnone in * by done. discriminate.
Qed.

End Properties.

(** ** Witnesses *)

Module Sample.

#[local] Instance release : BuildMode := true.

Definition rule : AclRulesElem.t := AclRulesElem.mk "10.0.0.1" "10.0.0.2" 0 80 Protocol.TCP Action.DROP.
Definition bad : AclRulesElem.t := AclRulesElem.setSaddr "10.0.0.256" rule.
Definition config : RefJson.t := AclRules.to_json (AclRules.mk [rule; bad]).
Definition table : RefHash.t ipv4_tuple Z := RefHash.empty 16.

(** an Ethernet/IPv4 packet from 10.0.0.1 to 10.0.0.2 *)
Definition packet (proto : Z) (transport : list Z) : list Z :=
  replicate 12 0 ++ [8; 0] ++
  [69; 0; 0; 40; 0; 0; 0; 0; 64; proto; 0; 0; 10; 0; 0; 1; 10; 0; 0; 2] ++ transport.
Definition tcp_to_80 : list Z := packet 6 ([48; 57; 0; 80] ++ replicate 16 0).
Definition udp_to_53 : list Z := packet 17 ([48; 57; 0; 53; 0; 24; 0; 0] ++ replicate 16 0).
Lemma tcp_frame : Policy.ipv4_frame tcp_to_80.
Proof. refine (bool_decide_unpack _ _). vm_compute. exact I. Qed.
Lemma udp_frame : Policy.ipv4_frame udp_to_53.
Proof. refine (bool_decide_unpack _ _). vm_compute. exact I. Qed.
Definition udp_table : RefHash.t ipv4_tuple Z :=
  default table (bpf_update table (mkTuple (ip_saddr udp_to_53) (ip_daddr udp_to_53) 0 (htons 53) 17 0) ACL_ACTION_DENY).

Lemma acl_json_roundtrip_witness :
  AclRules.from_json config AclRules.default = Ok (AclRules.mk [rule; bad]).
Proof.
  apply (acl_json_roundtrip (AclRules.mk [rule; bad]) AclRules.default).
  repeat constructor; cbn; discriminate.
Defined.

Lemma acl_enforces_rules_witness :
  exists m', onConfigUpdate config (mkAcl (Some (Some table)) AclRules.default)
      = Ok (mkAcl (Some (Some m')) (AclRules.mk [rule])) /\
    hebpf_acl_xdp_generic m' tcp_to_80 = Finish XDP_DROP /\
    hebpf_acl_xdp_generic m' udp_to_53 = ChainNext XDP_PASS.
Proof.
  destruct (acl_enforces_rules config table AclRules.default [rule; bad]) as (m' & Hu & Hv);
    [vm_compute; reflexivity | vm_compute; lia | vm_compute; discriminate |].
  exists m'. split; [exact Hu |].
  rewrite (Hv _ tcp_frame), (Hv _ udp_frame). split; vm_compute; reflexivity.
Defined.

Lemma acl_drop_sound_witness :
  exists m', onConfigUpdate config (mkAcl (Some (Some table)) AclRules.default)
      = Ok (mkAcl (Some (Some m')) (AclRules.mk [rule])) /\
    exists r, r ∈ [rule; bad] /\ inet_pton (AclRulesElem.saddr_ r) = Some (ip_saddr tcp_to_80).
Proof.
  destruct (acl_drop_sound config table AclRules.default [rule; bad]) as (m' & Hu & Hv);
    [vm_compute; reflexivity | vm_compute; lia | vm_compute; discriminate |].
  exists m'. split; [exact Hu |].
  destruct (Hv tcp_to_80) as (r & Hr & _ & Hs & _); [| exists r; split; [exact Hr | exact Hs]].
  vm_compute in Hu. injection Hu as <-. vm_compute. reflexivity.
Defined.

Lemma acl_udp_ports_ignored_witness :
  bpf_lookup udp_table (mkTuple (ip_saddr udp_to_53) (ip_daddr udp_to_53) 0 (htons 53) 17 0) = Some ACL_ACTION_DENY /\
  hebpf_acl_xdp_generic udp_table udp_to_53 <> Finish XDP_DROP.
Proof.
  split; [vm_compute; reflexivity |].
  apply (acl_udp_ports_ignored udp_table udp_to_53); [reflexivity | vm_compute; lia |].
  intros t action Ht _.
  assert (Hu : bpf_update table (mkTuple (ip_saddr udp_to_53) (ip_daddr udp_to_53) 0 (htons 53) 17 0) ACL_ACTION_DENY
               = Some udp_table) by (vm_compute; reflexivity).
  rewrite (bpf_update_lookup _ _ _ _ Hu) in Ht. case_decide; [subst t; discriminate | discriminate Ht].
Defined.

End Sample.
