(* ===== verification/Lb.v ===== *)
(** * The load balancer: rules, their JSON form, the user-space loader and the
      kernel-side redirector

    [src/services/lb/lb_rules.{h,cc}], [lb_base.tpp], [lb_common.h] and
    [lb_xdp.bpf.c]. *)

From S2P Require Import Prelude BpfMap Json Net Acl.

#[local] Open Scope Z_scope.

(** ** Rules *)

Module Backends.
(* src/services/lb/lb_rules.h:24-37 Backends *)
Record t : Type := mk { mac_ : string }.
(* src/services/lb/lb_rules.cc:12-12 Backends::Backends *)
Definition default : t := mk "".
(* src/services/lb/lb_rules.cc:16-21 Backends::setMac *)
Definition setMac (mac : string) (_ : t) : t := mk mac.
(* src/services/lb/lb_rules.cc:23-28 Backends::getMac *)
Definition getMac (b : t) : string := mac_ b.
(* src/services/lb/lb_rules.cc:14-14 Backends::Backends *)
Definition make (mac : string) : t := setMac mac default.
(* src/services/lb/lb_rules.cc:30-34 from_json *)
Definition from_json `{JsonLib json} (j : json) (b : t) : result exn t := json_key j "mac" get_string setMac b.
(* src/services/lb/lb_rules.cc:36-38 to_json *)
Definition to_json `{JsonLib json} (b : t) : json := jobject [("mac"%string, jstring (getMac b))].
End Backends.

Module LbRulesElem.
(* src/services/lb/lb_rules.h:39-61 LbRulesElem *)
Record t : Type := mk { vip_ : string; vport_ : Z; backends_ : list Backends.t }.
(* src/services/lb/lb_rules.cc:40-40 LbRulesElem::LbRulesElem *)
Definition default : t := mk "" 0 [].
(* src/services/lb/lb_rules.cc:50-55 LbRulesElem::setVip *)
Definition setVip (vip : string) (r : t) : t := mk vip (vport_ r) (backends_ r).
(* src/services/lb/lb_rules.cc:57-62 LbRulesElem::getVip *)
Definition getVip (r : t) : string := vip_ r.
(* src/services/lb/lb_rules.cc:64-69 LbRulesElem::setVport *)
Definition setVport (vport : Z) (r : t) : t := mk (vip_ r) vport (backends_ r).
(* src/services/lb/lb_rules.cc:71-76 LbRulesElem::getVport *)
Definition getVport (r : t) : Z := vport_ r.
(* src/services/lb/lb_rules.cc:78-83 LbRulesElem::setBackends *)
Definition setBackends (backends : list Backends.t) (r : t) : t := mk (vip_ r) (vport_ r) backends.
(* src/services/lb/lb_rules.cc:85-90 LbRulesElem::getBackends *)
Definition getBackends (r : t) : list Backends.t := backends_ r.
(* src/services/lb/lb_rules.cc:42-48 LbRulesElem::LbRulesElem *)
Definition make (vip : string) (vport : Z) (backends : list Backends.t) : t :=
  setBackends backends (setVport vport (setVip vip default)).
(* src/services/lb/lb_rules.cc:92-102 from_json *)
Definition from_json `{JsonLib json} (j : json) (r : t) : result exn t :=
  r ← json_key j "vip" get_string setVip r;
  r ← json_key j "vport" get_u16 setVport r;
  json_key j "backends" (get_vector (fun e => Backends.from_json e Backends.default)) setBackends r.
(* src/services/lb/lb_rules.cc:104-110 to_json *)
Definition to_json `{JsonLib json} (r : t) : json :=
  jobject [ ("vip", jstring (getVip r)); ("vport", jnumber (getVport r));
            ("backends", jarray (Backends.to_json <$> getBackends r)) ]%string.
End LbRulesElem.

Module LbRules.
(* src/services/lb/lb_rules.h:63-84 LbRules *)
Record t : Type := mk { local_mac_ : string; rules_ : list LbRulesElem.t }.
(* src/services/lb/lb_rules.cc:112-112 LbRules::LbRules *)
Definition default : t := mk "" [].
(* src/services/lb/lb_rules.cc:119-124 LbRules::setLocalMac *)
Definition setLocalMac (local_mac : string) (r : t) : t := mk local_mac (rules_ r).
(* src/services/lb/lb_rules.cc:126-131 LbRules::getLocalMac *)
Definition getLocalMac (r : t) : string := local_mac_ r.
(* src/services/lb/lb_rules.cc:133-138 LbRules::setRules *)
Definition setRules (rules : list LbRulesElem.t) (r : t) : t := mk (local_mac_ r) rules.
(* src/services/lb/lb_rules.cc:140-145 LbRules::addRules *)
Definition addRules (rule : LbRulesElem.t) (r : t) : t := mk (local_mac_ r) (rules_ r ++ [rule]).
(* src/services/lb/lb_rules.cc:147-152 LbRules::getRules *)
Definition getRules (r : t) : list LbRulesElem.t := rules_ r.
(* src/services/lb/lb_rules.cc:154-158 LbRules::clearRules *)
Definition clearRules (r : t) : t := mk (local_mac_ r) [].
(* src/services/lb/lb_rules.cc:114-117 LbRules::LbRules *)
Definition make (local_mac : string) (rules : list LbRulesElem.t) : t :=
  setRules rules (setLocalMac local_mac default).
(* src/services/lb/lb_rules.cc:160-167 from_json *)
Definition from_json `{JsonLib json} (j : json) (r : t) : result exn t :=
  r ← json_key j "local_mac" get_string setLocalMac r;
  json_key j "rules" (get_vector (fun e => LbRulesElem.from_json e LbRulesElem.default)) setRules r.
(* src/services/lb/lb_rules.cc:169-172 to_json *)
Definition to_json `{JsonLib json} (r : t) : json :=
  jobject [ ("local_mac", jstring (getLocalMac r));
            ("rules", jarray (LbRulesElem.to_json <$> getRules r)) ]%string.
End LbRules.

(** ** Kernel data *)

(* src/services/lb/lb_common.h:3-3 MAX_BACKENDS_PER_VIP *)
Definition MAX_BACKENDS_PER_VIP : nat := 8.
(* src/services/lb/lb_common.h:4-4 TOTAL_BACKENDS *)
Definition TOTAL_BACKENDS : Z := 256.
(* src/services/lb/lb_base.h:12-12 MAX_RULES_SIZE *)
Definition MAX_RULES_SIZE : Z := 10240.

(* src/services/lb/lb_common.h:10-14 vip_key *)
Record vip_key : Type := mkVipKey { vip : Z; vport : Z; vpadding : Z }.
#[global] Instance vip_key_eq_dec : EqDecision vip_key.
Proof. solve_decision. Defined.
(* src/services/lb/lb_common.h:16-20 vip_group *)
Record vip_group : Type := mkGroup { backends : list Z; count : Z; gpadding : Z }.
(** a MAC address is the list of its six bytes *)
(* src/services/lb/lb_common.h:22-25 backend_info *)
Record backend_info : Type := mkBackend { mac : list Z; bpadding : Z }.

(** the outcome of [sscanf] into six bytes that held [init] *)
Definition scan_into (init : list Z) (s : string) : list Z :=
  let assigned := scan_mac s in assigned ++ drop (length assigned) init.

Section Loader.
Context {V B L json : Type} `{BpfHash V vip_key vip_group} `{!BpfArray B backend_info} `{!BpfArray L (list Z)}.
Context `{JsonLib json} `{BuildMode}.
(** boost's IPv4 parser, giving the address in host byte order *)
Context (make_address_v4 : string -> option Z).

(** the loaded skeleton's maps; [None] where a descriptor is invalid *)
Record LbSkel : Type := mkLbSkel {
  vip_backends : option V;
  backend_pool : option B;
  lb_lomac : option L
}.

(* src/services/lb/lb_base.h:14-40 LbBase *)
Record LbBase : Type := mkLb { skel_ : option LbSkel; rules_ : LbRules.t }.

(** the part the three descriptor getters share *)
Definition get_fd {T} (proj : LbSkel -> option T) (msg : string) (s : LbBase) : result exn T :=
  _ ← ASSERT (bool_decide (is_Some (skel_ s)));
  match skel_ s with
  | None => Err SEGV
  | Some skel => match proj skel with Some m => Ok m | None => Err (EXCEPT msg) end
  end.

(* src/services/lb/lb_base.tpp:174-188 LbBase::getVipBackendsFd *)
Definition getVipBackendsFd (s : LbBase) : result exn V := get_fd vip_backends "Failed to get LB hash rules in kernel mode" s.
(* src/services/lb/lb_base.tpp:190-204 LbBase::getBackendsPoolFd *)
Definition getBackendsPoolFd (s : LbBase) : result exn B := get_fd backend_pool "Failed to get LB array rules in kernel mode" s.
(* src/services/lb/lb_base.tpp:206-220 LbBase::getLocalMacFd *)
Definition getLocalMacFd (s : LbBase) : result exn L := get_fd lb_lomac "Failed to get LB array rules in kernel mode" s.

Definition set_vips (m : V) (s : LbBase) : LbBase :=
  mkLb ((fun k => mkLbSkel (Some m) (backend_pool k) (lb_lomac k)) <$> skel_ s) (rules_ s).
Definition set_pool (m : B) (s : LbBase) : LbBase :=
  mkLb ((fun k => mkLbSkel (vip_backends k) (Some m) (lb_lomac k)) <$> skel_ s) (rules_ s).
Definition set_lomac (m : L) (s : LbBase) : LbBase :=
  mkLb ((fun k => mkLbSkel (vip_backends k) (backend_pool k) (Some m)) <$> skel_ s) (rules_ s).
Definition set_rules (r : LbRules.t) (s : LbBase) : LbBase := mkLb (skel_ s) r.

(** An operation that may throw half-way returns the state it leaves. *)
Definition attempt : Type := result exn unit * LbBase.

(** Emptying the array goes through the motions: every delete fails. *)
(* src/services/lb/lb_base.tpp:222-259 LbBase::clearKernelRules *)
Definition clearKernelRules (s : LbBase) : attempt :=
  match getVipBackendsFd s with
  | Err e => (Err e, s)
  | Ok m =>
      let groups := default [] (collect_keys (S (length (bpf_keys m))) m) in
      let s := set_vips (delete_all groups m) s in
      match getBackendsPoolFd s with
      | Err e => (Err e, s)
      | Ok b =>
          let b := foldl (fun b i => default b (arr_delete b i)) b (arr_keys b) in
          let s := set_pool b s in
          (Ok tt, set_rules (LbRules.clearRules (rules_ s)) s)
      end
  end.

(** The backends of one rule, from position [i] on. *)
(* src/services/lb/lb_base.tpp:135-159 LbBase::onConfigUpdate *)
Fixpoint load_backends (rules_be : list Backends.t) (i : nat) (pool_next : Z) (pool : B) (slots : list Z)
  : Z * B * list Z :=
  match rules_be with
  | [] => (pool_next, pool, slots)
  | be :: rest =>
      if TOTAL_BACKENDS <=? pool_next then (pool_next, pool, slots)
      else
        let idx := pool_next in
        let pool_next := pool_next + 1 in
        let scanned := scan_mac (Backends.getMac be) in
        if negb (length scanned =? 6)%nat then load_backends rest (S i) pool_next pool slots
        else
          match arr_update pool idx (mkBackend scanned 0) with
          | None => load_backends rest (S i) pool_next pool slots
          | Some pool => load_backends rest (S i) pool_next pool (<[i := idx]> slots)
          end
  end.

(* src/services/lb/lb_base.tpp:120-127 LbBase::onConfigUpdate *)
Definition rule_key (rule : LbRulesElem.t) : option vip_key :=
  addr ← make_address_v4 (LbRulesElem.getVip rule);
  Some (mkVipKey (htonl addr) (htons (LbRulesElem.getVport rule)) 0).

(* src/services/lb/lb_base.tpp:114-171 LbBase::onConfigUpdate *)
Fixpoint load_rules (rules : list LbRulesElem.t) (vips : V) (pool : B) (kept : LbRules.t)
  (success pool_next : Z) : V * B * LbRules.t :=
  match rules with
  | [] => (vips, pool, kept)
  | rule :: rest =>
      match rule_key rule with
      | None => load_rules rest vips pool kept success pool_next
      | Some vkey =>
          let rules_be := LbRulesElem.getBackends rule in
          let be_count := Nat.min (length rules_be) MAX_BACKENDS_PER_VIP in
          let '(pool_next, pool, slots) :=
            load_backends (take be_count rules_be) 0 pool_next pool (replicate MAX_BACKENDS_PER_VIP 0) in
          let groups := mkGroup slots (Z.of_nat be_count) 0 in
          match bpf_update vips vkey groups with
          | None => load_rules rest vips pool kept success pool_next
          | Some vips =>
              let kept := LbRules.addRules rule kept in
              let success := success + 1 in
              if MAX_RULES_SIZE <=? success then (vips, pool, kept)
              else load_rules rest vips pool kept success pool_next
          end
      end
  end.

(** [mac_init]: what the uninitialised buffer for the local address holds *)
(* src/services/lb/lb_base.tpp:81-172 LbBase::onConfigUpdate *)
Definition onConfigUpdate (mac_init : list Z) (config : json) (s : LbBase) : attempt :=
  match LbRules.from_json config LbRules.default with
  | Err (StdException what | EXCEPT what) => (Err (EXCEPT ("Invalid LB config: " +:+ what)), s)
  | Err e => (Err e, s)
  | Ok lb_rules =>
      let '(cleared, s) := clearKernelRules s in
      match cleared, getLocalMacFd s with
      | Err e, _ | Ok _, Err e => (Err e, s)
      | Ok _, Ok local_mac_map =>
          let local_mac := LbRules.getLocalMac lb_rules in
          let buffer := scan_into mac_init local_mac in
          let s := set_lomac (default local_mac_map (arr_update local_mac_map 0 buffer)) s in
          let s := set_rules (LbRules.setLocalMac local_mac (rules_ s)) s in
          match getVipBackendsFd s, getBackendsPoolFd s with
          | Err e, _ | Ok _, Err e => (Err e, s)
          | Ok vips, Ok pool =>
              let '(vips, pool, kept) := load_rules (LbRules.getRules lb_rules) vips pool (rules_ s) 0 0 in
              (Ok tt, set_rules kept (set_pool pool (set_vips vips s)))
          end
      end
  end.

(* src/services/lb/lb_base.tpp:71-79 LbBase::getDebugStatus *)
Definition getDebugStatus (s : LbBase) : json := LbRules.to_json (rules_ s).

End Loader.
Arguments LbSkel : clear implicits.
Arguments LbBase : clear implicits.

(** ** The kernel program *)

Definition XDP_TX : Z := 3.

(** the destination port, [inl] on an early return, [inr None] on the jump to
    the end *)
(* src/services/lb/lb_xdp.bpf.c:27-43 hebpf_lb_xdp_gen *)
Definition lb_dport (data : list Z) : option (option Z) :=
  let trans := (14 + Z.to_nat (ihl data * 4))%nat in
  if ip_protocol data =? IPPROTO_TCP then
    if negb (trans + sizeof_tcphdr <=? length data)%nat then None else Some (Some (load16 data (trans + 2)))
  else if ip_protocol data =? IPPROTO_UDP then
    if negb (trans + sizeof_udphdr <=? length data)%nat then None else Some (Some (load16 data (trans + 2)))
  else Some None.

Section Redirect.
Context {V B L : Type} `{BpfHash V vip_key vip_group} `{!BpfArray B backend_info} `{!BpfArray L (list Z)}.

(** the backend for a packet, [None] where the program jumps to the end *)
(* src/services/lb/lb_xdp.bpf.c:45-62 hebpf_lb_xdp_gen *)
Definition choose_backend (vips : V) (pool : B) (data : list Z) (dport : Z) : option backend_info :=
  group ← bpf_lookup vips (mkVipKey (ip_daddr data) dport 0);
  if count group =? 0 then None
  else
    let idx := ip_saddr data mod count group in
    if Z.of_nat MAX_BACKENDS_PER_VIP <=? idx then None
    else arr_lookup pool (nth (Z.to_nat idx) (backends group) 0).

(** [memcpy] of a MAC address into the Ethernet header *)
Definition set_h_source (addr data : list Z) : list Z := take ETH_ALEN data ++ addr ++ drop (2 * ETH_ALEN) data.
Definition set_h_dest (addr data : list Z) : list Z := addr ++ drop ETH_ALEN data.

(* src/services/lb/lb_xdp.bpf.c:64-72 hebpf_lb_xdp_gen *)
Definition rewrite_macs (lomac : L) (be : backend_info) (data : list Z) : list Z :=
  let data := match arr_lookup lomac 0 with Some addr => set_h_source addr data | None => data end in
  set_h_dest (mac be) data.

(** the verdict and the packet it leaves *)
(* src/services/lb/lb_xdp.bpf.c:8-87 hebpf_lb_xdp_gen *)
Definition hebpf_lb_xdp_gen (vips : V) (pool : B) (lomac : L) (data : list Z) : verdict * list Z :=
  if negb (sizeof_ethhdr <=? length data)%nat then (Finish XDP_PASS, data)
  else if negb (h_proto data =? htons ETH_P_IP) then (Finish XDP_PASS, data)
  else if negb (sizeof_ethhdr + sizeof_iphdr <=? length data)%nat then (Finish XDP_PASS, data)
  else
    match lb_dport data with
    | None => (Finish XDP_PASS, data)
    | Some None => (ChainNext XDP_PASS, data)
    | Some (Some dport) =>
        match choose_backend vips pool data dport with
        | None => (ChainNext XDP_PASS, data)
        | Some be => (ChainNext XDP_TX, rewrite_macs lomac be data)
        end
    end.

End Redirect.

(** ** Rules to JSON and back *)

Section JsonFacts.
Context {json : Type} `{JsonLaws json}.

Lemma backends_json_roundtrip b b0 : Backends.from_json (Backends.to_json b) b0 = Ok b.
Proof.
  unfold Backends.from_json, Backends.to_json.
  erewrite json_key_object; [| apply NoDup_singleton | left | apply get_jstring]. by destruct b.
Qed.

Ltac nodup_keys := refine (bool_decide_unpack _ _); vm_compute; exact I.

Lemma lb_elem_json_roundtrip r r0 :
  0 <= LbRulesElem.vport_ r < 2 ^ 16 -> LbRulesElem.from_json (LbRulesElem.to_json r) r0 = Ok r.
Proof.
  intros Hp. destruct r as [v p bs]; cbn in Hp. unfold LbRulesElem.from_json, LbRulesElem.to_json.
  cbn [LbRulesElem.getVip LbRulesElem.getVport LbRulesElem.getBackends LbRulesElem.vip_ LbRulesElem.vport_ LbRulesElem.backends_].
  erewrite json_key_object; [cbn [mbind result_bind] | nodup_keys | left | apply get_jstring].
  erewrite json_key_object; [cbn [mbind result_bind] | nodup_keys | right; left | by apply get_u16_jnumber].
  erewrite json_key_object; [| nodup_keys | right; right; left |].
  2: { apply get_vector_jarray. intros b _. apply backends_json_roundtrip. }
  done.
Qed.

(** the load-balancing rules the service reports, encoded to JSON and
    read back as a configuration, are the same rules. *)
Theorem lb_json_roundtrip (r r0 : LbRules.t)
  (Hwf : Forall (fun e => 0 <= LbRulesElem.vport_ e < 2 ^ 16) (LbRules.rules_ r)) :
  LbRules.from_json (LbRules.to_json r) r0 = Ok r.
Proof.
  destruct r as [m rules]; cbn in Hwf. unfold LbRules.from_json, LbRules.to_json.
  cbn [LbRules.getLocalMac LbRules.getRules LbRules.local_mac_ LbRules.rules_].
  erewrite json_key_object; [cbn [mbind result_bind] | nodup_keys | left | apply get_jstring].
  erewrite json_key_object; [| nodup_keys | right; left |].
  2: { apply get_vector_jarray. intros e He. apply lb_elem_json_roundtrip. by eapply Forall_forall in Hwf. }
  done.
Qed.

End JsonFacts.

(** ** What a configuration update installs *)

Section LoaderFacts.
Context {V B L json : Type} `{!BpfHash V vip_key vip_group, !BpfHashLaws V vip_key vip_group}.
Context `{!BpfArray B backend_info, !BpfArrayLaws B backend_info TOTAL_BACKENDS} `{!BpfArray L (list Z)}.
Context `{JsonLib json} `{BuildMode} (make_address_v4 : string -> option Z).
Implicit Types (vips : V) (pool : B) (lomac : L).

Lemma clear_pool pool (l : list Z) : foldl (fun b i => default b (arr_delete b i)) pool l = pool.
Proof. induction l as [| i l IH]; cbn; [done |]. by rewrite (arr_delete_none (max := TOTAL_BACKENDS)). Qed.

(** A configuration that decodes is applied to emptied tables. *)
Lemma lb_load_rules_max rules : forall vips pool kept success pool_next,
  bpf_max (load_rules make_address_v4 rules vips pool kept success pool_next).1.1 = bpf_max vips.
Proof.
  induction rules as [| r rules IH]; intros vips pool kept success pool_next; cbn [load_rules]; [done |].
  destruct (rule_key make_address_v4 r) as [k |]; [| apply IH].
  destruct (load_backends _ _ _ _ _) as [[next pool'] slots].
  destruct (bpf_update vips k _) as [vips' |] eqn:Hu; [| apply IH]. cbv zeta.
  case_match; [| rewrite IH]; by eapply bpf_update_max.
Qed.

Lemma onConfigUpdate_run mac_init (config : json) vips pool lomac old local_mac rules :
  LbRules.from_json config LbRules.default = Ok (LbRules.mk local_mac rules) ->
  exists vips0 lomac', bpf_keys vips0 = [] /\ bpf_max vips0 = bpf_max vips /\
    onConfigUpdate make_address_v4 mac_init config (mkLb (Some (mkLbSkel (Some vips) (Some pool) (Some lomac))) old) =
      let '(vips', pool', kept) := load_rules make_address_v4 rules vips0 pool (LbRules.mk local_mac []) 0 0 in
      (Ok tt, mkLb (Some (mkLbSkel (Some vips') (Some pool') (Some lomac'))) kept).
Proof.
  intros Hjson. exists (delete_all (bpf_keys vips) vips),
    (default lomac (arr_update lomac 0 (scan_into mac_init local_mac))).
  split_and!; [apply delete_all_keys | apply delete_all_max |].
  unfold onConfigUpdate. rewrite Hjson. unfold clearKernelRules, getVipBackendsFd, getBackendsPoolFd, getLocalMacFd, get_fd, ASSERT.
  cbn. rewrite collect_keys_spec by lia. cbn. rewrite clear_pool.
  by destruct (load_rules _ _ _ _ _ _ _) as [[vips' pool'] kept].
Qed.

(** every group can be indexed by the kernel program *)
Definition slots_wf (slots : list Z) : Prop :=
  length slots = MAX_BACKENDS_PER_VIP /\ Forall (fun i => 0 <= i < TOTAL_BACKENDS) slots.
Definition group_wf (g : vip_group) : Prop :=
  slots_wf (backends g) /\ 0 <= count g <= Z.of_nat MAX_BACKENDS_PER_VIP.

Lemma slots_wf_insert slots i idx : slots_wf slots -> 0 <= idx < TOTAL_BACKENDS -> slots_wf (<[i := idx]> slots).
Proof. intros [Hl Hs] Hi. split; [by rewrite length_insert | by apply Forall_insert]. Qed.

Lemma slots_wf_initial : slots_wf (replicate MAX_BACKENDS_PER_VIP 0).
Proof. split; [done |]. apply Forall_replicate. unfold TOTAL_BACKENDS; lia. Qed.

Lemma load_backends_wf bes : forall i n pool slots n' pool' slots',
  0 <= n -> slots_wf slots -> load_backends bes i n pool slots = (n', pool', slots') ->
  0 <= n' /\ slots_wf slots'.
Proof.
  induction bes as [| be bes IH]; intros i n pool slots n' pool' slots' Hn Hs; cbn [load_backends];
    [by intros [= <- <- <-] |].
  destruct (TOTAL_BACKENDS <=? n) eqn:Hfull; [by intros [= <- <- <-] |]. apply Z.leb_gt in Hfull.
  destruct (negb _); [apply IH; [lia | done] |].
  destruct (arr_update pool n _); [apply IH; [lia | by apply slots_wf_insert] | apply IH; [lia | done]].
Qed.

Lemma load_rules_wf rules : forall vips pool kept success n vips' pool' kept',
  0 <= n -> (forall k g, bpf_lookup vips k = Some g -> group_wf g) ->
  load_rules make_address_v4 rules vips pool kept success n = (vips', pool', kept') ->
  forall k g, bpf_lookup vips' k = Some g -> group_wf g.
Proof.
  induction rules as [| rule rules IH]; intros vips pool kept success n vips' pool' kept' Hn Hwf; cbn [load_rules];
    [by intros [= <- <- <-] |].
  destruct (rule_key make_address_v4 rule) as [vkey |]; [| by apply IH].
  destruct (load_backends _ _ _ _ _) as [[n1 pool1] slots] eqn:Hbe.
  apply load_backends_wf in Hbe as [Hn1 Hslots]; [| done | apply slots_wf_initial].
  destruct (bpf_update vips vkey _) as [vips1 |] eqn:Hu; [| by apply IH].
  assert (Hwf1 : forall k g, bpf_lookup vips1 k = Some g -> group_wf g).
  { intros k g. rewrite (bpf_update_lookup _ _ _ _ Hu). case_decide; [| apply Hwf].
    intros [= <-]. split; [done |]. cbn. lia. }
  cbv zeta. destruct (MAX_RULES_SIZE <=? success + 1); [by intros [= <- <- <-] | by apply IH].
Qed.

Lemma choose_backend_wf vips pool data dport g :
  (forall k g, bpf_lookup vips k = Some g -> group_wf g) ->
  bpf_lookup vips (mkVipKey (ip_daddr data) dport 0) = Some g -> 0 < count g ->
  choose_backend vips pool data dport =
    arr_lookup pool (nth (Z.to_nat (ip_saddr data mod count g)) (backends g) 0) /\
  is_Some (choose_backend vips pool data dport).
Proof.
  intros Hwf Hg Hc. destruct (Hwf _ _ Hg) as [[Hlen Hs] Hcount].
  assert (Hmod := Z.mod_pos_bound (ip_saddr data) (count g) Hc).
  assert (Heq : choose_backend vips pool data dport =
    arr_lookup pool (nth (Z.to_nat (ip_saddr data mod count g)) (backends g) 0)).
  { unfold choose_backend. rewrite Hg; cbn [mbind option_bind].
    rewrite (proj2 (Z.eqb_neq _ _)) by lia. by rewrite (proj2 (Z.leb_gt _ _)) by lia. }
  split; [done |]. rewrite Heq. apply (arr_lookup_range (max := TOTAL_BACKENDS)).
  eapply Forall_forall in Hs; [exact Hs |]. apply list_elem_of_In, nth_In. rewrite Hlen.
  apply Nat2Z.inj_lt. rewrite Z2Nat.id by lia. lia.
Qed.

(** *** Well-formed rules *)

Definition mac_ok (be : Backends.t) : Prop := length (scan_mac (Backends.getMac be)) = 6%nat.
Definition rule_backends (rule : LbRulesElem.t) : list Backends.t :=
  take (Nat.min (length (LbRulesElem.getBackends rule)) MAX_BACKENDS_PER_VIP) (LbRulesElem.getBackends rule).
Definition backend_entry (be : Backends.t) : backend_info := mkBackend (scan_mac (Backends.getMac be)) 0.

(** the pool slots a rule list takes *)
Fixpoint pool_use (rules : list LbRulesElem.t) : Z :=
  match rules with
  | [] => 0
  | rule :: rest =>
      match rule_key make_address_v4 rule with
      | Some _ => Z.of_nat (length (rule_backends rule)) + pool_use rest
      | None => pool_use rest
      end
  end.

(** [g] names, from pool slot [at] on, exactly the backends of [rule] *)
Definition group_for (pool : B) (g : vip_group) (rule : LbRulesElem.t) (start : Z) : Prop :=
  count g = Z.of_nat (length (rule_backends rule)) /\
  forall j be, rule_backends rule !! j = Some be ->
    backends g !! j = Some (start + Z.of_nat j) /\ arr_lookup pool (start + Z.of_nat j) = Some (backend_entry be).

Lemma pool_use_nonneg rules : 0 <= pool_use rules.
Proof. induction rules as [| r rules IH]; cbn; [lia |]. destruct (rule_key _ r); lia. Qed.

Lemma load_backends_all bes : forall i n pool slots,
  Forall mac_ok bes -> 0 <= n -> n + Z.of_nat (length bes) <= TOTAL_BACKENDS -> (i + length bes <= length slots)%nat ->
  exists pool' slots', load_backends bes i n pool slots = (n + Z.of_nat (length bes), pool', slots') /\
    (forall j be, bes !! j = Some be -> slots' !! (i + j)%nat = Some (n + Z.of_nat j) /\
       arr_lookup pool' (n + Z.of_nat j) = Some (backend_entry be)) /\
    (forall x, x < n -> arr_lookup pool' x = arr_lookup pool x) /\
    (forall k, (k < i)%nat -> slots' !! k = slots !! k).
Proof.
  induction bes as [| be bes IH]; intros i n pool slots Hok Hn Hpool Hslots.
  - exists pool, slots. cbn. rewrite Z.add_0_r. split_and!; done.
  - apply Forall_cons in Hok as [Hbe Hok]. cbn [length] in *. cbn [load_backends].
    rewrite (proj2 (Z.leb_gt _ _)) by lia. unfold mac_ok in Hbe. rewrite Hbe; cbn [negb Nat.eqb].
    destruct (proj2 (arr_update_range (max := TOTAL_BACKENDS) pool n (mkBackend (scan_mac (Backends.getMac be)) 0)))
      as [pool1 Hu]; [lia |]. rewrite Hu.
    destruct (IH (S i) (n + 1) pool1 (<[i := n]> slots)) as (pool' & slots' & -> & Hin & Hlow & Hbefore);
      [done | lia | lia | rewrite length_insert; lia |].
    exists pool', slots'. split_and!; [f_equal; f_equal; lia | | |].
    + intros [| j] be'; cbn [lookup list_lookup].
      * intros [= <-]. rewrite Nat.add_0_r, Z.add_0_r, Hbefore, Hlow by lia.
        rewrite list_lookup_insert_eq by lia. split; [done |].
        rewrite (arr_update_lookup (max := TOTAL_BACKENDS) _ _ _ _ Hu). by rewrite decide_True.
      * intros Hj. destruct (Hin j be' Hj) as [Hs Hp].
        replace (i + S j)%nat with (S i + j)%nat by lia.
        replace (n + Z.of_nat (S j)) with (n + 1 + Z.of_nat j) by lia. done.
    + intros x Hx. rewrite Hlow by lia. rewrite (arr_update_lookup (max := TOTAL_BACKENDS) _ _ _ _ Hu).
      by rewrite decide_False by lia.
    + intros k Hk. rewrite Hbefore by lia. apply list_lookup_insert_ne. lia.
Qed.

(** the backends of one rule, and the group of its virtual address *)
Lemma rule_group_loaded r n pool :
  Forall mac_ok (rule_backends r) -> 0 <= n -> n + Z.of_nat (length (rule_backends r)) <= TOTAL_BACKENDS ->
  exists pool1 slots, load_backends (rule_backends r) 0 n pool (replicate MAX_BACKENDS_PER_VIP 0) =
      (n + Z.of_nat (length (rule_backends r)), pool1, slots) /\
    (forall x, x < n -> arr_lookup pool1 x = arr_lookup pool x) /\
    forall pool', (forall x, x < n + Z.of_nat (length (rule_backends r)) -> arr_lookup pool' x = arr_lookup pool1 x) ->
      group_for pool' (mkGroup slots (Z.of_nat (Nat.min (length (LbRulesElem.getBackends r)) MAX_BACKENDS_PER_VIP)) 0) r n.
Proof.
  intros Hr Hn Hpool.
  assert (Hlen : (length (rule_backends r) <= MAX_BACKENDS_PER_VIP)%nat).
  { unfold rule_backends. rewrite length_take. lia. }
  destruct (load_backends_all (rule_backends r) 0 n pool (replicate MAX_BACKENDS_PER_VIP 0))
    as (pool1 & slots & Hload & Hslots & Hlow1 & _); [done | done | lia | by rewrite length_replicate |].
  exists pool1, slots. split; [exact Hload |]. split; [exact Hlow1 |].
  intros pool' Hsame. split; [cbn; unfold rule_backends; rewrite length_take; lia |].
  intros j be Hj. destruct (Hslots j be Hj) as [Hs Hp]. split; [exact Hs |].
  apply lookup_lt_Some in Hj. rewrite Hsame by lia. exact Hp.
Qed.

Lemma load_rules_all rules : forall vips pool kept success n,
  Forall (fun r => Forall mac_ok (rule_backends r)) rules ->
  NoDup (omap (rule_key make_address_v4) rules) ->
  (length (bpf_keys vips) + length rules <= bpf_max vips)%nat ->
  0 <= n -> n + pool_use rules <= TOTAL_BACKENDS -> success + Z.of_nat (length rules) <= MAX_RULES_SIZE ->
  exists vips' pool' kept', load_rules make_address_v4 rules vips pool kept success n = (vips', pool', kept') /\
    (forall r k, r ∈ rules -> rule_key make_address_v4 r = Some k ->
       exists g start, bpf_lookup vips' k = Some g /\ group_for pool' g r start) /\
    (forall x, x < n -> arr_lookup pool' x = arr_lookup pool x) /\
    (forall k, k ∉ omap (rule_key make_address_v4) rules -> bpf_lookup vips' k = bpf_lookup vips k).
Proof.
  induction rules as [| r rules IH]; intros vips pool kept success n Hok Hnd Hroom Hn Hpool Hmax.
  - exists vips, pool, kept. split_and!; [done | by intros ? ? ?%not_elem_of_nil | done | done].
  - apply Forall_cons in Hok as [Hr Hok]. cbn [load_rules]. cbn [length pool_use] in *.
    destruct (rule_key make_address_v4 r) as [vkey |] eqn:Hkey.
    2: { cbn in Hnd. rewrite Hkey in Hnd.
         destruct (IH vips pool kept success n Hok Hnd) as (vips' & pool' & kept' & -> & Hin & Hlow & Hout); [lia .. |].
         exists vips', pool', kept'. split_and!; [done | | done |].
         - intros r' k [-> | Hr']%elem_of_cons Hk; [congruence | by eapply Hin].
         - intros k Hk. apply Hout. cbn in Hk. by rewrite Hkey in Hk. }
    cbn in Hnd. rewrite Hkey in Hnd. apply NoDup_cons in Hnd as [Hfresh Hnd].
    fold (rule_backends r).
    pose proof (pool_use_nonneg rules) as Hpu.
    destruct (rule_group_loaded r n pool) as (pool1 & slots & -> & Hlow1 & Hhead); [done | done | lia |].
    destruct (bpf_update_room vips vkey (mkGroup slots (Z.of_nat (Nat.min (length (LbRulesElem.getBackends r)) MAX_BACKENDS_PER_VIP)) 0))
      as [vips1 Hu]; [lia |]. rewrite Hu. cbv zeta.
    pose proof (bpf_update_max _ _ _ _ Hu) as Hm1. pose proof (bpf_update_keys_le _ _ _ _ Hu) as Hl1.
    destruct (MAX_RULES_SIZE <=? success + 1) eqn:Hfull.
    + apply Z.leb_le in Hfull. assert (rules = []) as -> by (apply nil_length_inv; lia).
      eexists _, _, _. split_and!; [done | | |].
      * intros r' k Hr' Hk. apply list_elem_of_singleton in Hr' as ->. rewrite Hkey in Hk. injection Hk as <-.
        eexists _, n. split; [rewrite (bpf_update_lookup _ _ _ _ Hu); by rewrite decide_True | by apply Hhead].
      * intros x Hx. apply Hlow1. lia.
      * intros k Hk. cbn in Hk. rewrite Hkey in Hk. rewrite (bpf_update_lookup _ _ _ _ Hu).
        rewrite decide_False; [done |]. intros ->. apply Hk. left.
    + destruct (IH vips1 pool1 (LbRules.addRules r kept) (success + 1) (n + Z.of_nat (length (rule_backends r))) Hok Hnd)
        as (vips' & pool' & kept' & -> & Hin & Hlow & Hout); [lia .. |].
      exists vips', pool', kept'. split_and!; [done | | |].
      * intros r' k [-> | Hr']%elem_of_cons Hk; [| by eapply Hin].
        rewrite Hkey in Hk. injection Hk as <-. eexists _, n.
        split; [| by apply Hhead]. rewrite Hout by done. rewrite (bpf_update_lookup _ _ _ _ Hu). by rewrite decide_True.
      * intros x Hx. rewrite Hlow, Hlow1 by lia. done.
      * intros k Hk. cbn in Hk. rewrite Hkey in Hk. rewrite Hout by set_solver.
        rewrite (bpf_update_lookup _ _ _ _ Hu), decide_False; [done |]. set_solver.
Qed.

(** a packet the program looks up in the table, with its key *)
Definition packet_for (data : list Z) (k : vip_key) : Prop :=
  (sizeof_ethhdr + sizeof_iphdr <= length data)%nat /\ h_proto data = htons ETH_P_IP /\
  lb_dport data = Some (Some (vport k)) /\ k = mkVipKey (ip_daddr data) (vport k) 0.

Lemma lb_packet vips pool lomac data k :
  packet_for data k ->
  hebpf_lb_xdp_gen vips pool lomac data =
    match choose_backend vips pool data (vport k) with
    | None => (ChainNext XDP_PASS, data)
    | Some be => (ChainNext XDP_TX, rewrite_macs lomac be data)
    end.
Proof.
  intros (Hlen & Hip & Hport & _). unfold hebpf_lb_xdp_gen.
  rewrite (proj2 (Nat.leb_le sizeof_ethhdr _)) by (unfold sizeof_ethhdr, sizeof_iphdr in *; lia).
  rewrite (proj2 (Z.eqb_eq _ _) Hip), (proj2 (Nat.leb_le _ _) Hlen), Hport. done.
Qed.

(** the tables after an update, and where they send a packet *)
Lemma lb_applied (mac_init : list Z) (config : json) (vips : V) (pool : B) (lomac : L)
  (old : LbRules.t) (local_mac : string) (rules : list LbRulesElem.t)
  (Hjson : LbRules.from_json config LbRules.default = Ok (LbRules.mk local_mac rules))
  (Hmacs : Forall (fun r => Forall mac_ok (rule_backends r)) rules)
  (Hkeys : NoDup (omap (rule_key make_address_v4) rules))
  (Hroom : (length rules <= bpf_max vips)%nat) (Hpool : pool_use rules <= TOTAL_BACKENDS)
  (Hmax : Z.of_nat (length rules) <= MAX_RULES_SIZE) :
  exists vips' pool' lomac' kept,
    onConfigUpdate make_address_v4 mac_init config (mkLb (Some (mkLbSkel (Some vips) (Some pool) (Some lomac))) old) =
      (Ok tt, mkLb (Some (mkLbSkel (Some vips') (Some pool') (Some lomac'))) kept) /\
    forall r k data, r ∈ rules -> rule_key make_address_v4 r = Some k -> rule_backends r <> [] -> packet_for data k ->
      exists be, rule_backends r !! Z.to_nat (ip_saddr data mod Z.of_nat (length (rule_backends r))) = Some be /\
        hebpf_lb_xdp_gen vips' pool' lomac' data = (ChainNext XDP_TX, rewrite_macs lomac' (backend_entry be) data).
Proof.
  destruct (onConfigUpdate_run mac_init config vips pool lomac old local_mac rules Hjson)
    as (vips0 & lomac' & Hnil & Hm0 & Hrun).
  destruct (load_rules_all rules vips0 pool (LbRules.mk local_mac []) 0 0 Hmacs Hkeys)
    as (vips' & pool' & kept & Hload & Hin & _); [rewrite Hnil, Hm0; cbn; lia | lia | lia | lia |].
  rewrite Hload in Hrun. exists vips', pool', lomac', kept. split; [exact Hrun |].
  intros r k data Hr Hk Hne Hpkt. destruct (Hin r k Hr Hk) as (g & start & Hg & Hcount & Hslots).
  assert (Hpos : (0 < length (rule_backends r))%nat) by (destruct (rule_backends r); [done | cbn; lia]).
  pose proof (Z.mod_pos_bound (ip_saddr data) (Z.of_nat (length (rule_backends r)))) as Hmod.
  destruct (lookup_lt_is_Some_2 (rule_backends r) (Z.to_nat (ip_saddr data mod Z.of_nat (length (rule_backends r)))))
    as [be Hbe]; [lia |].
  exists be. split; [done |]. destruct (Hslots _ _ Hbe) as [Hslot Hbackend].
  rewrite (lb_packet _ _ _ _ _ Hpkt). destruct Hpkt as (_ & _ & _ & Hkey). rewrite Hkey in Hg.
  destruct (choose_backend_wf vips' pool' data (vport k) g) as [-> _].
  - intros k' g'. eapply (load_rules_wf rules vips0 pool _ 0 0); [lia | | exact Hload].
    intros k0 g0. by rewrite (keys_nil_lookup vips0 Hnil).
  - exact Hg.
  - rewrite Hcount. lia.
  - rewrite Hcount. erewrite nth_lookup_Some by exact Hslot. by rewrite Hbackend.
Qed.

(** C14: a packet for a configured virtual address and port goes to the
    backend that the source address selects among the rule's backends (the
    first eight), when the MAC addresses are well formed and the tables are
    large enough. *)
Theorem lb_forwards_to_backend (mac_init : list Z) (config : json) (vips : V) (pool : B) (lomac : L)
  (old : LbRules.t) (local_mac : string) (rules : list LbRulesElem.t)
  (Hjson : LbRules.from_json config LbRules.default = Ok (LbRules.mk local_mac rules))
  (Hmacs : Forall (fun r => Forall mac_ok (rule_backends r)) rules)
  (Hkeys : NoDup (omap (rule_key make_address_v4) rules))
  (Hroom : (length rules <= bpf_max vips)%nat) (Hpool : pool_use rules <= TOTAL_BACKENDS)
  (Hmax : Z.of_nat (length rules) <= MAX_RULES_SIZE) :
  exists vips' pool' lomac' kept,
    onConfigUpdate make_address_v4 mac_init config (mkLb (Some (mkLbSkel (Some vips) (Some pool) (Some lomac))) old) =
      (Ok tt, mkLb (Some (mkLbSkel (Some vips') (Some pool') (Some lomac'))) kept) /\
    forall r k data, r ∈ rules -> rule_key make_address_v4 r = Some k -> rule_backends r <> [] -> packet_for data k ->
      exists be, rule_backends r !! Z.to_nat (ip_saddr data mod Z.of_nat (length (rule_backends r))) = Some be /\
        hebpf_lb_xdp_gen vips' pool' lomac' data = (ChainNext XDP_TX, rewrite_macs lomac' (backend_entry be) data).
Proof. by eapply lb_applied. Qed.

(** no packet for a virtual address with backends falls through: after
    any applied configuration, whatever its MAC addresses, the index taken
    from the group is inside the group and names an existing pool entry. *)
Theorem lb_vip_always_forwarded (mac_init : list Z) (config : json) (vips : V) (pool : B) (lomac : L)
  (old : LbRules.t) (local_mac : string) (rules : list LbRulesElem.t)
  (Hjson : LbRules.from_json config LbRules.default = Ok (LbRules.mk local_mac rules)) :
  exists vips' pool' lomac' kept,
    onConfigUpdate make_address_v4 mac_init config (mkLb (Some (mkLbSkel (Some vips) (Some pool) (Some lomac))) old) =
      (Ok tt, mkLb (Some (mkLbSkel (Some vips') (Some pool') (Some lomac'))) kept) /\
    forall k g data, bpf_lookup vips' k = Some g -> 0 < count g -> packet_for data k ->
      exists be, (hebpf_lb_xdp_gen vips' pool' lomac' data) = (ChainNext XDP_TX, rewrite_macs lomac' be data).
Proof.
  destruct (onConfigUpdate_run mac_init config vips pool lomac old local_mac rules Hjson)
    as (vips0 & lomac' & Hnil & Hm0 & Hrun).
  destruct (load_rules _ _ _ _ _ _ _) as [[vips' pool'] kept] eqn:Hload.
  exists vips', pool', lomac', kept. split; [exact Hrun |]. intros k g data Hg Hc Hpkt.
  rewrite (lb_packet _ _ _ _ _ Hpkt). destruct Hpkt as (_ & _ & _ & Hkey). rewrite Hkey in Hg.
  destruct (choose_backend_wf vips' pool' data (vport k) g) as [_ [be ->]]; [| exact Hg | exact Hc | by exists be].
  intros k' g'. eapply (load_rules_wf rules vips0 pool _ 0 0); [lia | | exact Hload].
  intros k0 g0. by rewrite (keys_nil_lookup vips0 Hnil).
Qed.

(** a backend whose MAC address does not parse is skipped, but its slot
    still counts and keeps the initial index 0: the traffic that hashes to it
    is sent to pool entry 0, the first backend of the first rule, which
    serves another virtual address. *)
Theorem lb_bad_mac_misroutes (mac_init : list Z) (config : json) (vips : V) (pool : B) (lomac : L)
  (old : LbRules.t) (local_mac : string) (ra rb : LbRulesElem.t) (ba bb : Backends.t) (ka kb : vip_key)
  (Hjson : LbRules.from_json config LbRules.default = Ok (LbRules.mk local_mac [ra; rb]))
  (Ha : LbRulesElem.backends_ ra = [ba]) (Hb : LbRulesElem.backends_ rb = [bb])
  (Hka : rule_key make_address_v4 ra = Some ka) (Hkb : rule_key make_address_v4 rb = Some kb)
  (Hgood : mac_ok ba) (Hbad : ~ mac_ok bb) (Hroom : (2 <= bpf_max vips)%nat) :
  exists vips' pool' lomac' kept,
    onConfigUpdate make_address_v4 mac_init config (mkLb (Some (mkLbSkel (Some vips) (Some pool) (Some lomac))) old) =
      (Ok tt, mkLb (Some (mkLbSkel (Some vips') (Some pool') (Some lomac'))) kept) /\
    forall data, packet_for data kb ->
      hebpf_lb_xdp_gen vips' pool' lomac' data = (ChainNext XDP_TX, rewrite_macs lomac' (backend_entry ba) data).
Proof.
  destruct (onConfigUpdate_run mac_init config vips pool lomac old local_mac _ Hjson)
    as (vips0 & lomac' & Hnil & Hm0 & Hrun).
  unfold mac_ok in *. revert Hrun. cbn [load_rules]. rewrite Hka, Hkb. unfold LbRulesElem.getBackends.
  rewrite Ha, Hb. cbn [length Nat.min take MAX_BACKENDS_PER_VIP load_backends].
  rewrite (proj2 (Z.leb_gt _ _)) by (unfold TOTAL_BACKENDS; lia). rewrite Hgood. cbn [negb Nat.eqb].
  destruct (proj2 (arr_update_range (max := TOTAL_BACKENDS) pool 0 (mkBackend (scan_mac (Backends.getMac ba)) 0)))
    as [pool1 Hp]; [unfold TOTAL_BACKENDS; lia |]. rewrite Hp.
  match goal with |- context [bpf_update vips0 ka ?g] => destruct (bpf_update_room vips0 ka g) as [vips1 Hu1] end;
    [rewrite Hnil; cbn; lia |]. rewrite Hu1.
  cbv zeta. rewrite (proj2 (Z.leb_gt MAX_RULES_SIZE _)) by (unfold MAX_RULES_SIZE; lia).
  rewrite (proj2 (Z.leb_gt TOTAL_BACKENDS _)) by (unfold TOTAL_BACKENDS; lia).
  rewrite (proj2 (Nat.eqb_neq _ _) Hbad). cbn [negb].
  pose proof (bpf_update_keys_le _ _ _ _ Hu1) as Hl1. rewrite Hnil in Hl1; cbn in Hl1.
  match goal with |- context [bpf_update vips1 kb ?g] => destruct (bpf_update_room vips1 kb g) as [vips2 Hu2] end;
    [rewrite (bpf_update_max _ _ _ _ Hu1), Hm0; lia |]. rewrite Hu2.
  rewrite (proj2 (Z.leb_gt MAX_RULES_SIZE _)) by (unfold MAX_RULES_SIZE; lia).
  intros Hrun. eexists vips2, pool1, lomac', _. split; [exact Hrun |].
  intros data Hpkt. rewrite (lb_packet _ _ _ _ _ Hpkt). destruct Hpkt as (_ & _ & _ & Hkey).
  unfold choose_backend. rewrite <- Hkey, (bpf_update_lookup _ _ _ _ Hu2), decide_True by done.
  cbn [mbind option_bind count backends]. rewrite Z.mod_1_r. cbn.
  rewrite (arr_update_lookup (max := TOTAL_BACKENDS) _ _ _ _ Hp). by rewrite decide_True.
Qed.

(** forwarding rewrites the two MAC addresses and nothing else. *)
Theorem lb_rewrites_only_macs (lomac : L) (be : backend_info) (data : list Z)
  (Hlen : (sizeof_ethhdr <= length data)%nat) (Hbe : length (mac be) = 6%nat)
  (Hlo : forall addr, arr_lookup lomac 0 = Some addr -> length addr = 6%nat) :
  let data' := rewrite_macs lomac be data in
  length data' = length data /\ drop 12 data' = drop 12 data /\ take 6 data' = mac be /\
  take 6 (drop 6 data') = match arr_lookup lomac 0 with Some addr => addr | None => take 6 (drop 6 data) end.
Proof.
  cbn zeta. unfold rewrite_macs, set_h_dest. unfold sizeof_ethhdr in Hlen.
  assert (Hdata : forall d, length d = length data ->
    length (mac be ++ drop ETH_ALEN d) = length data /\ drop 12 (mac be ++ drop ETH_ALEN d) = drop 12 d /\
    take 6 (mac be ++ drop ETH_ALEN d) = mac be /\ take 6 (drop 6 (mac be ++ drop ETH_ALEN d)) = take 6 (drop 6 d)).
  { intros d Hd. unfold ETH_ALEN. split_and!.
    - rewrite length_app, length_drop. lia.
    - rewrite drop_app_ge by lia. rewrite Hbe, drop_drop. done.
    - rewrite take_app_le by lia. apply take_ge. lia.
    - rewrite drop_app_ge by lia. by rewrite Hbe. }
  destruct (arr_lookup lomac 0) as [addr |] eqn:Ha; [| by apply Hdata].
  specialize (Hlo addr eq_refl).
  destruct (Hdata (set_h_source addr data)) as (H1 & H2 & H3 & H4).
  { unfold set_h_source, ETH_ALEN. rewrite !length_app, length_take, length_drop. lia. }
  rewrite H1, H2, H3, H4. unfold set_h_source, ETH_ALEN. split_and!; try done.
  - rewrite drop_app_ge by (rewrite length_take; lia). rewrite length_take.
    rewrite drop_app_ge by lia. rewrite drop_drop. f_equal. lia.
  - rewrite drop_app_ge by (rewrite length_take; lia). rewrite length_take.
    replace (6 - 6 `min` length data)%nat with 0%nat by lia. rewrite drop_0.
    rewrite take_app_le by lia. apply take_ge. lia.
Qed.

End LoaderFacts.

(** ** Witnesses *)

Module Sample.

#[local] Instance release : BuildMode := true.
#[local] Instance pool_ops : BpfArray (RefArrayMap.t backend_info) backend_info := RefArrayMap.ops TOTAL_BACKENDS.
#[local] Instance pool_laws : BpfArrayLaws (RefArrayMap.t backend_info) backend_info TOTAL_BACKENDS :=
  RefArrayMap.map_ops_laws TOTAL_BACKENDS.
#[local] Instance mac_ops : BpfArray (RefArrayMap.t (list Z)) (list Z) := RefArrayMap.ops 1.

(** an IPv4 parser, in host byte order *)
Definition parse_v4 (s : string) : option Z := htonl <$> inet_pton s.

Definition vips : RefHash.t vip_key vip_group := RefHash.empty 8.
Definition pool : RefArrayMap.t backend_info := RefArrayMap.mk (mkBackend (replicate 6 0) 0) ∅.
Definition lomac : RefArrayMap.t (list Z) := RefArrayMap.mk (replicate 6 0) ∅.
Definition garbage : list Z := replicate 6 204.

Definition b1 : Backends.t := Backends.mk "02:00:00:00:00:11".
Definition b2 : Backends.t := Backends.mk "02:00:00:00:00:12".
Definition broken : Backends.t := Backends.mk "02:00:00:00:00".
Definition ra : LbRulesElem.t := LbRulesElem.mk "10.0.0.9" 80 [b1].
Definition rb : LbRulesElem.t := LbRulesElem.mk "10.0.0.2" 80 [b1; b2].
Definition rx : LbRulesElem.t := LbRulesElem.mk "10.0.0.2" 80 [broken].
Definition config (rules : list LbRulesElem.t) : RefJson.t :=
  LbRules.to_json (LbRules.mk "02:00:00:00:00:01" rules).

(** 10.0.0.1:12345 to 10.0.0.2:80 *)
Definition packet : list Z := Acl.Sample.tcp_to_80.
Definition key : vip_key := mkVipKey (ip_daddr packet) (htons 80) 0.

Lemma packet_key : packet_for packet key.
Proof. split_and!; vm_compute; reflexivity || lia. Qed.

Lemma lb_json_roundtrip_witness :
  LbRules.from_json (config [ra; rb]) LbRules.default = Ok (LbRules.mk "02:00:00:00:00:01" [ra; rb]).
Proof.
  apply (lb_json_roundtrip (LbRules.mk "02:00:00:00:00:01" [ra; rb]) LbRules.default).
  repeat constructor; cbn; discriminate.
Defined.

Lemma lb_forwards_to_backend_witness :
  exists vips' pool' lomac' kept,
    onConfigUpdate parse_v4 garbage (config [ra; rb]) (mkLb (Some (mkLbSkel (Some vips) (Some pool) (Some lomac))) LbRules.default)
      = (Ok tt, mkLb (Some (mkLbSkel (Some vips') (Some pool') (Some lomac'))) kept) /\
    fst (hebpf_lb_xdp_gen vips' pool' lomac' packet) = ChainNext XDP_TX.
Proof.
  destruct (lb_forwards_to_backend parse_v4 garbage (config [ra; rb]) vips pool lomac LbRules.default
              "02:00:00:00:00:01" [ra; rb]) as (vips' & pool' & lomac' & kept & Hu & Hfw);
    [vm_compute; reflexivity | repeat constructor | refine (bool_decide_unpack _ _); vm_compute; exact I
    | vm_compute; lia | vm_compute; discriminate | vm_compute; discriminate |].
  exists vips', pool', lomac', kept. split; [exact Hu |].
  destruct (Hfw rb key packet) as (be & _ & Heq);
    [right; left | vm_compute; reflexivity | discriminate | exact packet_key |].
  rewrite Heq. reflexivity.
Defined.

Lemma lb_vip_always_forwarded_witness :
  exists vips' pool' lomac' kept be,
    onConfigUpdate parse_v4 garbage (config [rx]) (mkLb (Some (mkLbSkel (Some vips) (Some pool) (Some lomac))) LbRules.default)
      = (Ok tt, mkLb (Some (mkLbSkel (Some vips') (Some pool') (Some lomac'))) kept) /\
    hebpf_lb_xdp_gen vips' pool' lomac' packet = (ChainNext XDP_TX, rewrite_macs lomac' be packet).
Proof.
  destruct (lb_vip_always_forwarded parse_v4 garbage (config [rx]) vips pool lomac LbRules.default
              "02:00:00:00:00:01" [rx]) as (vips' & pool' & lomac' & kept & Hu & Hfw); [vm_compute; reflexivity |].
  exists vips', pool', lomac', kept.
  destruct (Hfw key (mkGroup (replicate 8 0) 1 0) packet) as (be & Heq);
    [| cbn; lia | exact packet_key | exists be; split; [exact Hu | exact Heq]].
  vm_compute in Hu. injection Hu as <- _ _ _. vm_compute. reflexivity.
Defined.

Lemma lb_bad_mac_misroutes_witness :
  exists vips' pool' lomac' kept,
    onConfigUpdate parse_v4 garbage (config [ra; rx]) (mkLb (Some (mkLbSkel (Some vips) (Some pool) (Some lomac))) LbRules.default)
      = (Ok tt, mkLb (Some (mkLbSkel (Some vips') (Some pool') (Some lomac'))) kept) /\
    hebpf_lb_xdp_gen vips' pool' lomac' packet = (ChainNext XDP_TX, rewrite_macs lomac' (backend_entry b1) packet).
Proof.
  destruct (lb_bad_mac_misroutes parse_v4 garbage (config [ra; rx]) vips pool lomac LbRules.default
              "02:00:00:00:00:01" ra rx b1 broken (mkVipKey (ip_daddr packet + 7 * 2 ^ 24) (htons 80) 0) key)
    as (vips' & pool' & lomac' & kept & Hu & Hfw);
    [vm_compute; reflexivity | reflexivity | reflexivity | vm_compute; reflexivity | vm_compute; reflexivity
    | vm_compute; reflexivity | vm_compute; discriminate | vm_compute; lia |].
  exists vips', pool', lomac', kept. split; [exact Hu | exact (Hfw packet packet_key)].
Defined.

Lemma lb_rewrites_only_macs_witness :
  drop 12 (rewrite_macs lomac (backend_entry b1) packet) = drop 12 packet.
Proof.
  apply (lb_rewrites_only_macs lomac (backend_entry b1) packet); [vm_compute; lia | reflexivity |].
  intros addr Ha. vm_compute in Ha. injection Ha as <-. reflexivity.
Defined.

End Sample.
