(* ===== verification/Packet.v ===== *)
(** * The way of a packet through the chain of an interface

    The programs of an interface together: the schedulers of
    [src/services/scheduler/*.bpf.c], which only hand the packet on, the ACL
    and the load balancer, each ending in [CHAIN_NEXT]
    ([src/ebpf/ebpf_chain.h]).  What the kernel does with a packet is compared
    with the list of programs the configuration names. *)

From S2P Require Import Prelude Configs BpfMap Names ProgMap Json Net Acl Lb.

#[local] Open Scope Z_scope.
#[local] Open Scope list_scope.

(** ** Programs *)

(** A program looks at a packet, may change it, and either ends the run or
    asks for the next program of the chain. *)
Definition program : Type := list Z -> verdict * list Z.

(* src/services/scheduler/scheduler_xdp.bpf.c:8-17 hebpf_scheduler_xdp_gen *)
Definition hebpf_scheduler_xdp_gen : program := fun data => (ChainNext XDP_PASS, data).

(* src/services/scheduler/scheduler.bpf.c:10-19 hebpf_scheduler_tc_ingress *)
Definition hebpf_scheduler_tc_ingress : program := fun data => (ChainNext TC_ACT_OK, data).

Section Walk.
Context {M A P : Type} `{!BpfHash M Z Z} `{!BpfProgArray A P}.
Context (prog_id : P -> Z) (body : Z -> program).

(** Running program [this_id]: its body, and when it reaches [CHAIN_NEXT] a
    tail call, which replaces the program when there is a next one and the
    limit of tail calls is not used up, and otherwise does nothing. *)
(* src/ebpf/ebpf_chain.h:52-66 CHAIN_NEXT *)
Fixpoint run_packet (calls_left : nat) (hash : M) (array : A) (ifindex this_id : Z) (data : list Z) : Z * list Z :=
  match body this_id data with
  | (Finish code, data) => (code, data)
  | (ChainNext code, data) =>
      match calls_left, chain_next hash array ifindex this_id with
      | S calls_left, Some q => run_packet calls_left hash array ifindex (prog_id q) data
      | _, _ => (code, data)
      end
  end.

(** What the configuration says: the programs one after the other, until one
    of them ends the run or there is none left. *)
Fixpoint process (id : Z) (rest : list Z) (data : list Z) : Z * list Z :=
  match body id data with
  | (Finish code, data) => (code, data)
  | (ChainNext code, data) => match rest with [] => (code, data) | next :: rest => process next rest data end
  end.

(** The walk of [ProgMap.run_chain] lists the programs a packet meets when no
    program ends the run. *)
Lemma run_packet_chain n hash array ifindex id data :
  run_packet n hash array ifindex id data = process id (run_chain prog_id n hash array ifindex id) data.
Proof.
  revert id data. induction n as [| n IH]; intros id data; cbn [run_packet run_chain process].
  { by destruct (body id data) as [[code | code] d]. }
  destruct (chain_next hash array ifindex id) as [q |]; cbn [process];
    destruct (body id data) as [[code | code] d]; done.
Qed.

(** Programs that never change their mind about the rest of the chain *)
Lemma process_hand_on id rest data code next :
  body id data = (ChainNext code, data) -> process id (next :: rest) data = process next rest data.
Proof. cbn [process]. by intros ->. Qed.

End Walk.

(** ** The chain as configured *)

Section Configured.
Context {M A P : Type} `{!BpfHash M Z Z, !BpfHashLaws M Z Z} `{!BpfProgArray A P}.
Context (prog_id : P -> Z) (prog_of_fd : Z -> option P) `{!BpfProgArrayLaws A P prog_of_fd MAX_CHAIN_PROGS}.
Context `{BuildMode} `{!UMapOrder Z}.

(** after a reconfiguration of the NIC in the first region, the kernel
    does to every packet what the configured programs do one after the other,
    whatever these programs are: a program that ends the run ends it, and
    the changes a program makes to the packet are seen by the later ones. *)
Theorem packet_follows_configuration (body : Z -> program) (h : HookType) (l : list (string * Z))
  (p : PinnedProgMap) (k : Kernel M A) (maps : HookMaps) (m : M) (a : A) (i : Z) (s : Z) (rest : list Z)
  (nfs : list (string * Z))
  (Hinst : chain_install prog_id prog_of_fd h l p k maps m a i (s :: rest) nfs)
  (Hfree : pa_lookup a (Z.of_nat (length (s :: rest))) = None) :
  exists k1 k2 m' a', updateChain h l p k = Ok (true, k1) /\ insert_all h i nfs p k1 = Ok (true, k2) /\
    hashes k2 !! id_hash_fd maps = Some m' /\ arrays k2 !! prog_array_fd maps = Some a' /\
    forall data, run_packet prog_id body MAX_TAIL_CALL_CNT m' a' i s data = process body s rest data.
Proof.
  destruct (chain_walk _ _ _ _ _ _ _ _ _ _ _ _ s Hinst eq_refl Hfree) as (k1 & k2 & m' & a' & ? & ? & ? & ? & Hrun).
  exists k1, k2, m', a'. repeat (split; [done |]). intros data. by rewrite run_packet_chain, Hrun.
Qed.

End Configured.

(** ** The ACL in front of the load balancer *)

Section AclAndLb.
Context {K V B L : Type} `{!BpfHash K ipv4_tuple Z, !BpfHashLaws K ipv4_tuple Z}.
Context `{!BpfHash V vip_key vip_group, !BpfHashLaws V vip_key vip_group}.
Context `{!BpfArray B backend_info, !BpfArrayLaws B backend_info TOTAL_BACKENDS} `{!BpfArray L (list Z)}.

(** the ids of [ebpf_id.map] *)
Definition xdp_programs (krules : K) (vips : V) (pool : B) (lomac : L) (id : Z) : program :=
  if id =? 5 then hebpf_scheduler_xdp_gen
  else if id =? 3 then fun data => (hebpf_acl_xdp_generic krules data, data)
  else if id =? 7 then hebpf_lb_xdp_gen vips pool lomac
  else fun data => (Finish XDP_PASS, data).

Context {M A P json : Type} `{!BpfHash M Z Z, !BpfHashLaws M Z Z} `{!BpfProgArray A P}.
Context (prog_id : P -> Z) (prog_of_fd : Z -> option P) `{!BpfProgArrayLaws A P prog_of_fd MAX_CHAIN_PROGS}.
Context `{JsonLib json} `{BuildMode} `{!UMapOrder Z} (make_address_v4 : string -> option Z).

(** a rule set the load balancer's tables have room for *)
Record lb_fits (vips : V) (rules : list LbRulesElem.t) : Prop := {
  fit_macs : Forall (fun r => Forall mac_ok (rule_backends r)) rules;
  fit_keys : NoDup (omap (rule_key make_address_v4) rules);
  fit_vips : (length rules <= bpf_max vips)%nat;
  fit_pool : pool_use make_address_v4 rules <= TOTAL_BACKENDS;
  fit_rules : Z.of_nat (length rules) <= Lb.MAX_RULES_SIZE
}.

Lemma acl_then_lb_walk krules vips pool lomac data :
  process (xdp_programs krules vips pool lomac) 5 [3; 7] data =
    match hebpf_acl_xdp_generic krules data with
    | Finish code => (code, data)
    | ChainNext _ =>
        match hebpf_lb_xdp_gen vips pool lomac data with
        | (Finish code, data) | (ChainNext code, data) => (code, data)
        end
    end.
Proof.
  cbn. destruct (hebpf_acl_xdp_generic krules data) as [code | code]; [done |].
  by destruct (hebpf_lb_xdp_gen vips pool lomac data) as [[c | c] d].
Qed.

(** a network interface with the ACL in front of the load balancer, from
    the two JSON configurations and the chain configuration to the fate of a
    packet: a TCP or UDP packet that the ACL rules deny is dropped; any other
    one that goes to a virtual address is sent out again towards the backend
    its source address selects, with rewritten MAC addresses; an IPv4 frame
    without a TCP or UDP packet passes. *)
Theorem firewall_before_balancer
  (acl_conf lb_conf : json) (mac_init : list Z) (krules : K) (vips : V) (pool : B) (lomac : L)
  (acl_old : AclRules.t) (lb_old : LbRules.t) (rules : list AclRulesElem.t) (local_mac : string)
  (lb_rules : list LbRulesElem.t)
  (l : list (string * Z)) (p : PinnedProgMap) (k : Kernel M A) (maps : HookMaps) (m : M) (a : A) (i : Z)
  (nfs : list (string * Z))
  (Hacl : AclRules.from_json acl_conf AclRules.default = Ok (AclRules.mk rules))
  (Hroom : (length (valid_rules rules) <= bpf_max krules)%nat) (Hmax : Z.of_nat (length (valid_rules rules)) <= Acl.MAX_RULES_SIZE)
  (Hlb : LbRules.from_json lb_conf LbRules.default = Ok (LbRules.mk local_mac lb_rules)) (Hfits : lb_fits vips lb_rules)
  (Hinst : chain_install prog_id prog_of_fd XDP_GENERIC l p k maps m a i [5; 3; 7] nfs)
  (Hfree : pa_lookup a 3 = None) :
  exists krules' vips' pool' lomac' kept k1 k2 m' a',
    Acl.onConfigUpdate acl_conf (mkAcl (Some (Some krules)) acl_old) =
      Ok (mkAcl (Some (Some krules')) (AclRules.mk (valid_rules rules))) /\
    Lb.onConfigUpdate make_address_v4 mac_init lb_conf (mkLb (Some (mkLbSkel (Some vips) (Some pool) (Some lomac))) lb_old) =
      (Ok tt, mkLb (Some (mkLbSkel (Some vips') (Some pool') (Some lomac'))) kept) /\
    updateChain XDP_GENERIC l p k = Ok (true, k1) /\ insert_all XDP_GENERIC i nfs p k1 = Ok (true, k2) /\
    hashes k2 !! id_hash_fd maps = Some m' /\ arrays k2 !! prog_array_fd maps = Some a' /\
    forall data, Policy.ipv4_frame data ->
      let fate := run_packet prog_id (xdp_programs krules' vips' pool' lomac') MAX_TAIL_CALL_CNT m' a' i 5 data in
      match Policy.seen data with None => fate = (XDP_PASS, data) | Some pkt =>
      if Policy.denied rules pkt then fate = (XDP_DROP, data)
      else forall r vk, r ∈ lb_rules -> rule_key make_address_v4 r = Some vk -> rule_backends r <> [] ->
        packet_for data vk ->
        exists be, rule_backends r !! Z.to_nat (ip_saddr data mod Z.of_nat (length (rule_backends r))) = Some be /\
          fate = (XDP_TX, rewrite_macs lomac' (backend_entry be) data)
      end.
Proof.
  destruct (onConfigUpdate_ok acl_conf krules acl_old rules Hacl Hroom Hmax) as (krules' & Hu & _ & Hv).
  destruct (lb_applied make_address_v4 mac_init lb_conf vips pool lomac lb_old local_mac lb_rules Hlb)
    as (vips' & pool' & lomac' & kept & Hu2 & Hbal); [apply Hfits .. |].
  destruct (chain_walk _ _ _ _ _ _ _ _ _ _ _ _ 5 Hinst eq_refl Hfree)
    as (k1 & k2 & m' & a' & Hc & Hi & Hm & Ha & Hrun).
  exists krules', vips', pool', lomac', kept, k1, k2, m', a'. do 6 (split; [done |]).
  intros data Hframe. cbv zeta. rewrite run_packet_chain, Hrun. cbn [tail].
  rewrite acl_then_lb_walk, (filter_policy krules' rules data (from_json_wf _ _ Hacl) Hv Hframe).
  destruct (Policy.seen data) as [pkt |]; [| done]. destruct (Policy.denied rules pkt); [done |].
  intros r vk Hr Hk Hne Hpkt. destruct (Hbal r vk data Hr Hk Hne Hpkt) as (be & Hbe & Hlbrun).
  exists be. split; [done |]. by rewrite Hlbrun.
Qed.

End AclAndLb.

(** ** A concrete interface *)

Module Sample.

Import ProgMap.Sample.
#[local] Instance release : BuildMode := true.
#[local] Instance order_Z : UMapOrder Z := default_order Z.
#[local] Existing Instance array_ops.
#[local] Existing Instance array_laws.
#[local] Existing Instance Lb.Sample.pool_ops.
#[local] Existing Instance Lb.Sample.pool_laws.
#[local] Existing Instance Lb.Sample.mac_ops.

(** a program that drops everything, in the middle of the chain *)
Definition bodies (id : Z) : program :=
  if id =? 3 then fun data => (Finish XDP_DROP, data) else hebpf_scheduler_xdp_gen.

Lemma packet_follows_configuration_witness :
  exists (m' : RefHash.t Z Z) (a' : gmap Z Z),
    forall data, run_packet Datatypes.id bodies MAX_TAIL_CALL_CNT m' a' 2 5 data = (XDP_DROP, data).
Proof.
  destruct (packet_follows_configuration Datatypes.id prog_of_fd bodies XDP_GENERIC conf manager (kernel ∅) maps hash ∅ 2
              5 [3; 7] _ (install ∅) (lookup_empty 3)) as (k1 & k2 & m' & a' & _ & _ & _ & _ & Hrun).
  exists m', a'. intros data. rewrite Hrun. reflexivity.
Defined.

Definition loaded : list (string * Z) :=
  [("LB_XDP_GENERIC", 107); ("SCHEDULER_XDP_GENERIC", 105); ("ACL_XDP_GENERIC", 103)]%string.

(** from 10.0.0.3 to 10.0.0.2:80, which no ACL rule names *)
Definition other : list Z :=
  replicate 12 0 ++ [8; 0] ++
  [69; 0; 0; 40; 0; 0; 0; 0; 64; 6; 0; 0; 10; 0; 0; 3; 10; 0; 0; 2] ++ [48; 57; 0; 80] ++ replicate 16 0.

Definition fate (krules : RefHash.t ipv4_tuple Z) (vips : RefHash.t vip_key vip_group) (pool : RefArrayMap.t backend_info)
  (lomac : RefArrayMap.t (list Z)) (m : RefHash.t Z Z) (a : gmap Z Z) (data : list Z) : Z * list Z :=
  run_packet Datatypes.id (xdp_programs krules vips pool lomac) MAX_TAIL_CALL_CNT m a 2 5 data.

Lemma lb_room : lb_fits Lb.Sample.parse_v4 Lb.Sample.vips [Lb.Sample.rb].
Proof.
  split; [| | vm_compute; lia | vm_compute; discriminate | vm_compute; discriminate].
  - repeat constructor.
  - refine (bool_decide_unpack _ _). vm_compute. exact Logic.I.
Qed.

Lemma other_frame : Policy.ipv4_frame other.
Proof. refine (bool_decide_unpack _ _). vm_compute. exact Logic.I. Qed.

Lemma other_for_rb : packet_for other (mkVipKey (ip_daddr other) (htons 80) 0).
Proof. split_and!; [vm_compute; lia | vm_compute; reflexivity ..]. Qed.

Lemma firewall_before_balancer_witness :
  exists krules' vips' pool' lomac' m' a',
    fate krules' vips' pool' lomac' m' a' Acl.Sample.tcp_to_80 = (XDP_DROP, Acl.Sample.tcp_to_80) /\
    (fate krules' vips' pool' lomac' m' a' other).1 = XDP_TX.
Proof.
  destruct (firewall_before_balancer Datatypes.id prog_of_fd Lb.Sample.parse_v4
              Acl.Sample.config (Lb.Sample.config [Lb.Sample.rb]) Lb.Sample.garbage
              Acl.Sample.table Lb.Sample.vips Lb.Sample.pool Lb.Sample.lomac AclRules.default LbRules.default
              [Acl.Sample.rule; Acl.Sample.bad] "02:00:00:00:00:01" [Lb.Sample.rb]
              conf manager (kernel ∅) maps hash ∅ 2 loaded)
    as (krules' & vips' & pool' & lomac' & _ & k1 & k2 & m' & a' & _ & _ & _ & _ & _ & _ & Hfate).
  - vm_compute. reflexivity.
  - vm_compute. lia.
  - vm_compute. discriminate.
  - vm_compute. reflexivity.
  - exact lb_room.
  - apply install.
  - reflexivity.
  - exists krules', vips', pool', lomac', m', a'. split.
    + exact (Hfate Acl.Sample.tcp_to_80 Acl.Sample.tcp_frame).
    + destruct (Hfate other other_frame
        Lb.Sample.rb _ ltac:(left) ltac:(vm_compute; reflexivity) ltac:(discriminate) other_for_rb) as (be & _ & Hbe).
      unfold fate. rewrite Hbe. reflexivity.
Defined.

End Sample.
