(* ===== verification/PinMaps.v ===== *)
(** * Creating, pinning and closing the shared maps

    [PinnedMapIf] ([src/ebpf/pinned_map_if.cc]), the life cycle of
    [PinnedProgMap] ([src/ebpf/pinned_prog_map.cc]), [RingBufferMap]
    ([src/ebpf/pinned_ringbuffer_map.cc]) and the descriptor owner [Fd]
    ([src/fd/fd.cc]), as programs over system calls whose answers are
    arbitrary. *)

From S2P Require Import Prelude Configs BpfMap Names ProgMap.

#[local] Open Scope string_scope.
#[local] Open Scope Z_scope.

(** ** System calls *)

Inductive map_type : Type := BPF_MAP_TYPE_HASH | BPF_MAP_TYPE_PROG_ARRAY | BPF_MAP_TYPE_RINGBUF.

Inductive syscall : Type :=
| Stat (path : string)
| Mkdir (path : string) (mode : Z)
| Statfs (path : string)
| Mount (path : string)
| Umount (path : string)
| BpfObjGet (path : string)
| BpfMapCreate (type : map_type) (name : string) (key_size value_size max_entries : Z)
| BpfObjPin (fd : Z) (path : string)
| Close (fd : Z)
| Unlink (path : string)
| RingBufferNew (fd : Z).

(** return value, [errno], and for [statfs] the file-system type *)
Record response : Type := mkResp { ret : Z; errno : Z; f_type : Z }.

Abbreviation sys := (prog syscall response).
Definition trace : Type := list (syscall * response).

Definition EEXIST : Z := 17.
Definition ENOENT : Z := 2.
(* src/ebpf/pinned_map_if.cc:13-15 BPF_FS_MAGIC *)
Definition BPF_FS_MAGIC : Z := 3405662737.
(* src/ebpf/ebpf_common.h:6-6 PATH_BPFFS *)
Definition PATH_BPFFS : string := "/sys/fs/bpf/".

(** ** The mounted file system *)

(* src/ebpf/pinned_map_if.cc:20-22 g_mount_refcnt *)
Record MountState : Type := mkMount {
  g_mount_init_flag : bool;
  g_mount_refcnt : Z;
  g_mounted_by_us : bool
}.

(** the body of [std::call_once]; an exception leaves the flag unset *)
(* src/ebpf/pinned_map_if.cc:28-48 PinnedMapIf::ensureBpffsMounted *)
Definition mount_once (m : MountState) : sys (result exn MountState) :=
  if g_mount_init_flag m then Ret (Ok m)
  else
    let done by_us := mkMount true (g_mount_refcnt m) by_us in
    let mounting : sys (result exn MountState) :=
      r ← call (Statfs PATH_BPFFS);
      if (ret r =? 0) && (f_type r =? BPF_FS_MAGIC) then Ret (Ok (done false))
      else
        r ← call (Mount PATH_BPFFS);
        if negb (ret r =? 0) then Ret (Err (EXCEPT "Failed to mount bpffs"))
        else Ret (Ok (done true)) in
    r ← call (Stat PATH_BPFFS);
    if negb (ret r =? 0) then
      r ← call (Mkdir PATH_BPFFS 493);
      if negb (ret r =? 0) && negb (errno r =? EEXIST) then Ret (Err (EXCEPT "Failed to create"))
      else mounting
    else mounting.

(* src/ebpf/pinned_map_if.cc:24-50 PinnedMapIf::ensureBpffsMounted *)
Definition ensureBpffsMounted (m : MountState) : sys (result exn MountState) :=
  r ← mount_once m;
  Ret (match r with
       | Err e => Err e
       | Ok m => Ok (mkMount (g_mount_init_flag m) (g_mount_refcnt m + 1) (g_mounted_by_us m))
       end).

(* src/ebpf/pinned_map_if.cc:52-64 PinnedMapIf::releaseBpffs *)
Definition releaseBpffs (m : MountState) : sys MountState :=
  let m := mkMount (g_mount_init_flag m) (g_mount_refcnt m - 1) (g_mounted_by_us m) in
  if (g_mount_refcnt m =? 0) && g_mounted_by_us m then
    r ← call (Umount PATH_BPFFS);
    if negb (ret r =? 0) then Ret m
    else Ret (mkMount (g_mount_init_flag m) (g_mount_refcnt m) false)
  else Ret m.

(** ** The program-chain maps *)

Definition set_hook_maps (h : gmap HookType HookMaps) (p : PinnedProgMap) : PinnedProgMap :=
  mkProgMap h (regions_ p) (initialized_ p) (prog_registry_ p).
Definition set_initialized (b : bool) (p : PinnedProgMap) : PinnedProgMap :=
  mkProgMap (hook_maps_ p) (regions_ p) b (prog_registry_ p).

(** map names, prog array and id hash *)
(* src/ebpf/pinned_prog_map.cc:23-26 MAP_NAME_PROG_ARRAY_TC *)
Definition map_names (hook_type : HookType) : option (string * string) :=
  match hook_type with
  | TC => Some ("TC_In_parray", "TC_In_idhash")
  | XDP_GENERIC => Some ("XDP_Gen_parray", "XDP_Gen_idhash")
  | _ => None
  end.

Definition close_if_valid (fd : Z) : sys unit := if 0 <=? fd then _ ← call (Close fd); Ret tt else Ret tt.

(** creating and pinning both maps; the descriptors, or nothing on failure *)
(* src/ebpf/pinned_prog_map.cc:477-504 PinnedProgMap::ensureMaps *)
Definition create_maps (prog_array_name id_to_index_name pin_array pin_hash : string) : sys (option (Z * Z)) :=
  r ← call (BpfMapCreate BPF_MAP_TYPE_PROG_ARRAY prog_array_name 4 4 MAX_CHAIN_PROGS);
  let prog_array_fd := ret r in
  if prog_array_fd <? 0 then Ret None
  else
    r ← call (BpfMapCreate BPF_MAP_TYPE_HASH id_to_index_name 8 4 MAX_CHAIN_PROGS);
    let id_hash_fd := ret r in
    if id_hash_fd <? 0 then _ ← call (Close prog_array_fd); Ret None
    else
      r ← call (BpfObjPin prog_array_fd pin_array);
      if ret r <? 0 then _ ← call (Close prog_array_fd); _ ← call (Close id_hash_fd); Ret None
      else
        r ← call (BpfObjPin id_hash_fd pin_hash);
        if ret r <? 0 then
          _ ← call (Unlink pin_array);
          _ ← call (Close prog_array_fd); _ ← call (Close id_hash_fd); Ret None
        else Ret (Some (prog_array_fd, id_hash_fd)).

(* src/ebpf/pinned_prog_map.cc:429-513 PinnedProgMap::ensureMaps *)
Definition ensureMaps (hook_type : HookType) (p : PinnedProgMap) : sys (bool * PinnedProgMap) :=
  match hook_maps_ p !! hook_type with
  | Some _ => Ret (true, p)
  | None =>
      match map_names hook_type with
      | None => Ret (false, p)
      | Some (prog_array_name, id_to_index_name) =>
          let pin_array := getPinPath prog_array_name in
          let pin_hash := getPinPath id_to_index_name in
          r ← call (BpfObjGet pin_array);
          let prog_array_fd := ret r in
          r ← call (BpfObjGet pin_hash);
          let id_hash_fd := ret r in
          let store fds := set_hook_maps
            (<[hook_type := mkHookMaps fds.1 fds.2 pin_array pin_hash]> (hook_maps_ p)) p in
          if (prog_array_fd <? 0) || (id_hash_fd <? 0) then
            _ ← close_if_valid prog_array_fd;
            _ ← close_if_valid id_hash_fd;
            fds ← create_maps prog_array_name id_to_index_name pin_array pin_hash;
            match fds with
            | None => Ret (false, p)
            | Some fds => Ret (true, store fds)
            end
          else Ret (true, store (prog_array_fd, id_hash_fd))
      end
  end.

(** [init] may throw out of the mount step; the manager is returned as it is
    left. *)
(* src/ebpf/pinned_prog_map.cc:30-68 PinnedProgMap::init *)
Definition init (m : MountState) (p : PinnedProgMap) : sys (result exn bool * PinnedProgMap * MountState) :=
  r ← ensureBpffsMounted m;
  match r with
  | Err e => Ret (Err e, p, m)
  | Ok m =>
      let maps : sys (result exn bool * PinnedProgMap * MountState) :=
        r ← ensureMaps TC p;
        if negb (r.1 : bool) then Ret (Ok false, r.2, m)
        else
          r ← ensureMaps XDP_GENERIC r.2;
          if negb (r.1 : bool) then Ret (Ok false, r.2, m)
          else
            let p := mkProgMap (hook_maps_ r.2) (regions_ r.2) true (getDefaultProgMap ∪ prog_registry_ r.2) in
            Ret (Ok true, p, m) in
      r ← call (Stat PATH_BPFFS);
      if negb (ret r =? 0) then
        r ← call (Mkdir PATH_BPFFS 493);
        if negb (ret r =? 0) && negb (errno r =? EEXIST) then Ret (Ok false, p, m) else maps
      else maps
  end.

Definition cleanup_map (fd : Z) (pin_path : string) : sys unit :=
  if 0 <=? fd then _ ← call (Close fd); _ ← call (Unlink pin_path); Ret tt else Ret tt.

(* src/ebpf/pinned_prog_map.cc:77-86 PinnedProgMap::cleanup *)
Fixpoint cleanup_loop (l : list (HookType * HookMaps)) : sys unit :=
  match l with
  | [] => Ret tt
  | (_, maps) :: rest =>
      _ ← cleanup_map (prog_array_fd maps) (pin_path_prog_array maps);
      _ ← cleanup_map (id_hash_fd maps) (pin_path_id_to_index maps);
      cleanup_loop rest
  end.

(* src/ebpf/pinned_prog_map.cc:70-90 PinnedProgMap::cleanup *)
Definition cleanup `{!UMapOrder HookType} (p : PinnedProgMap) : sys PinnedProgMap :=
  _ ← cleanup_loop (uiter (hook_maps_ p));
  Ret (set_initialized false (set_hook_maps ∅ p)).

(** ** Descriptor ownership *)

Module Fd.
(* src/fd/fd.cc:8-8 Fd::Fd *)
Record t : Type := mk { fd_ : Z }.
Definition FD_INVALID : Z := -1.
(* src/fd/fd.cc:10-14 Fd::~Fd *)
Definition destroy (f : t) : sys unit :=
  if negb (fd_ f =? FD_INVALID) then _ ← call (Close (fd_ f)); Ret tt else Ret tt.
(** the new object, and what is left of the old one *)
(* src/fd/fd.cc:16-16 Fd::Fd *)
Definition move (other : t) : t * t := (mk (fd_ other), mk FD_INVALID).
(** assignment from another object *)
(* src/fd/fd.cc:18-26 Fd::operator= *)
Definition move_assign (f other : t) : sys (t * t) :=
  _ ← (if negb (fd_ f =? FD_INVALID) then _ ← call (Close (fd_ f)); Ret tt else Ret tt : sys unit);
  Ret (mk (fd_ other), mk FD_INVALID).
(* src/fd/fd.cc:28-33 Fd::fd *)
Definition fd (f : t) : Z := fd_ f.
End Fd.

(** ** The shared ring buffer *)

Module RingBufferMap.
(* src/ebpf/pinned_ringbuffer_map.h:17-39 RingBufferMap *)
Record t : Type := mk {
  pin_path_ : string;
  map_name_ : string;
  map_size_ : Z;
  map_fd_ : Z;
  initialized_ : bool
}.
(* src/ebpf/pinned_ringbuffer_map.cc:13-13 RingBufferMap::RingBufferMap *)
Definition make (pin_path : string) : t := mk pin_path "" 0 (-1) false.
(* src/ebpf/pinned_ringbuffer_map.cc:76-81 RingBufferMap::setMapSize *)
Definition setMapSize (size : Z) (r : t) : t := mk (pin_path_ r) (map_name_ r) size (map_fd_ r) (initialized_ r).
(* src/ebpf/pinned_ringbuffer_map.cc:83-88 RingBufferMap::setMapName *)
Definition setMapName (name : string) (r : t) : t := mk (pin_path_ r) name (map_size_ r) (map_fd_ r) (initialized_ r).
Definition set_fd (fd : Z) (r : t) : t := mk (pin_path_ r) (map_name_ r) (map_size_ r) fd (initialized_ r).
Definition set_initialized (b : bool) (r : t) : t := mk (pin_path_ r) (map_name_ r) (map_size_ r) (map_fd_ r) b.

Section Ops.
Context `{BuildMode}.

(* src/ebpf/pinned_ringbuffer_map.cc:47-50 RingBufferMap::init *)
Definition finish_init (m : MountState) (r : t) : result exn bool * t * MountState :=
  match ASSERT (0 <? map_fd_ r) with
  | Err e => (Err e, r, m)
  | Ok _ => (Ok true, set_initialized true r, m)
  end.

(* src/ebpf/pinned_ringbuffer_map.cc:15-51 RingBufferMap::init *)
Definition init (m : MountState) (r : t) : sys (result exn bool * t * MountState) :=
  match (_ ← ASSERT (negb (pin_path_ r =? "")%string); _ ← ASSERT (negb (map_name_ r =? "")%string); ASSERT (0 <? map_size_ r)) with
  | Err e => Ret (Err e, r, m)
  | Ok _ =>
      mounted ← ensureBpffsMounted m;
      match mounted with
      | Err e => Ret (Err e, r, m)
      | Ok m =>
          got ← call (BpfObjGet (pin_path_ r));
          let r := set_fd (ret got) r in
          if (0 <=? ret got) then Ret (finish_init m r)
          else if (errno got =? ENOENT) then
            created ← call (BpfMapCreate BPF_MAP_TYPE_RINGBUF (map_name_ r) 0 0 (map_size_ r));
            let r := set_fd (ret created) r in
            if (ret created <? 0) then Ret (Ok false, r, m)
            else
              pinned ← call (BpfObjPin (map_fd_ r) (pin_path_ r));
              if (ret pinned <? 0) then
                _ ← call (Close (map_fd_ r)); Ret (Ok false, set_fd (-1) r, m)
              else Ret (finish_init m r)
          else Ret (Ok false, r, m)
      end
  end.

(* src/ebpf/pinned_ringbuffer_map.cc:53-67 RingBufferMap::cleanup *)
Definition cleanup (r : t) : sys t :=
  r ← (if (0 <=? map_fd_ r) then _ ← call (Close (map_fd_ r)); Ret (set_fd (-1) r) else Ret r : sys t);
  _ ← (if negb (pin_path_ r =? "")%string then _ ← call (Unlink (pin_path_ r)); Ret tt else Ret tt : sys unit);
  Ret (set_initialized false r).

(** the object handed out: it owns a descriptor of its own *)
(* src/ebpf/ringbuffer.h:15-48 Ringbuffer *)
Record Ringbuffer : Type := mkRing { fd_ : Fd.t; ringbuff_ : bool; io_ctx_alive : bool; watched : bool }.

(* src/ebpf/ringbuffer.cc:42-68 Ringbuffer::init *)
Definition Ringbuffer_init (rb : Ringbuffer) : sys (result exn unit * Ringbuffer) :=
  if (Fd.fd (fd_ rb) =? Fd.FD_INVALID) then Ret (Err (EXCEPT "MUST provide a eBPF program fd"), rb)
  else
    r ← call (RingBufferNew (Fd.fd (fd_ rb)));
    if (ret r =? 0) then Ret (Err (EXCEPT "ring_buffer__new() failed"), rb)
    else
      let rb := mkRing (fd_ rb) true (io_ctx_alive rb) (watched rb) in
      if negb (io_ctx_alive rb) then Ret (Err (EXCEPT "MUST provide a io context"), rb)
      else Ret (Ok tt, mkRing (fd_ rb) true true true).

(** destroying the object closes the descriptor it owns *)
Definition Ringbuffer_destroy (rb : Ringbuffer) : sys unit := Fd.destroy (fd_ rb).

(** [rb] is destroyed when its initialisation throws *)
(* src/ebpf/pinned_ringbuffer_map.cc:90-109 RingBufferMap::getRingbuffer *)
Definition getRingbuffer (io_ctx : bool) (m : MountState) (r : t) : sys (result exn Ringbuffer * t * MountState) :=
  start ← (if negb (initialized_ r) then init m r else Ret (Ok true, r, m));
  let '(ok, r, m) := start in
  match ok with
  | Err e => Ret (Err e, r, m)
  | Ok false => Ret (Err (EXCEPT "Object initialization failed"), r, m)
  | Ok true =>
      done ← Ringbuffer_init (mkRing (Fd.mk (map_fd_ r)) false io_ctx false);
      match done.1 with
      | Err e => _ ← Ringbuffer_destroy done.2; Ret (Err e, r, m)
      | Ok _ => Ret (Ok done.2, r, m)
      end
  end.

End Ops.
End RingBufferMap.

#[local] Open Scope list_scope.

(** ** Descriptors and pins over a run *)

Definition ind (fd x : Z) : Z := if decide (fd = x) then 1 else 0.

(** how a call changes the number of open descriptors called [fd] *)
Definition delta (fd : Z) (e : syscall * response) : Z :=
  match e.1 with
  | BpfObjGet _ | BpfMapCreate _ _ _ _ _ => ind fd (ret e.2)
  | Close x => - ind fd x
  | _ => 0
  end.

Fixpoint balance (fd : Z) (tr : trace) : Z :=
  match tr with [] => 0 | e :: tr => delta fd e + balance fd tr end.

Lemma balance_app fd tr1 tr2 : balance fd (tr1 ++ tr2) = balance fd tr1 + balance fd tr2.
Proof. induction tr1 as [| e tr1 IH]; cbn; [done |]. rewrite IH. lia. Qed.

Lemma balance_snoc fd tr e : balance fd (tr ++ [e]) = balance fd tr + delta fd e.
Proof. rewrite balance_app. cbn. lia. Qed.

(** What a run did to a path: nothing is pinned there, the run pinned a map
    there, or it did and the kernel then refused to unlink it. *)
Inductive pin_state : Type := Free | Pinned | Stuck.
#[export] Instance pin_state_eq_dec : EqDecision pin_state.
Proof. solve_decision. Defined.

(** a call that fails changes nothing *)
Definition pin_step (path : string) (pin : pin_state) (e : syscall * response) : pin_state :=
  match e.1 with
  | BpfObjPin _ p => if decide (p = path) then if 0 <=? ret e.2 then Pinned else pin else pin
  | Unlink p =>
      if decide (p = path) then
        if ret e.2 =? 0 then Free else match pin with Pinned => Stuck | _ => pin end
      else pin
  | _ => pin
  end.
Lemma pin_step_get path b p r : pin_step path b (BpfObjGet p, r) = b.
Proof. done. Qed.
Lemma pin_step_create path b t n k v m r : pin_step path b (BpfMapCreate t n k v m, r) = b.
Proof. done. Qed.
Lemma pin_step_close path b fd r : pin_step path b (Close fd, r) = b.
Proof. done. Qed.
Lemma pin_step_unlink path b p r : pin_step path b (Unlink p, r) = Pinned -> b = Pinned /\ p <> path.
Proof. unfold pin_step; cbn. case_decide; [| done]. by destruct (ret r =? 0), b. Qed.
Lemma pin_step_pin path b fd p r : pin_step path b (BpfObjPin fd p, r) = Pinned -> b = Pinned \/ (p = path /\ 0 <= ret r).
Proof. unfold pin_step; cbn. case_decide; [| tauto]. destruct (0 <=? ret r) eqn:Hr; [right; split; [done | lia] | tauto]. Qed.

Definition pinned_after (path : string) (pin : pin_state) (tr : trace) : pin_state := foldl (pin_step path) pin tr.

Lemma pinned_after_snoc path b tr e : pinned_after path b (tr ++ [e]) = pin_step path (pinned_after path b tr) e.
Proof. unfold pinned_after. by rewrite foldl_snoc. Qed.

(** an [unlink] of a path that the kernel refused *)
Definition unlink_refused (path : string) (e : syscall * response) : Prop := e.1 = Unlink path /\ ret e.2 <> 0.

Lemma stuck_refused path tr : pinned_after path Free tr = Stuck -> Exists (unlink_refused path) tr.
Proof.
  induction tr as [| [c r] tr IH] using rev_ind; [discriminate |]. rewrite pinned_after_snoc, Exists_app.
  unfold pin_step; cbn. destruct c; auto; case_decide; subst; auto.
  - destruct (0 <=? ret r); [discriminate | auto].
  - destruct (ret r =? 0) eqn:Hr; [discriminate |]. intros _. right. constructor. by split; [| apply Z.eqb_neq].
Qed.

(** the descriptors the manager holds *)
Definition maps_held (fd : Z) (l : list (HookType * HookMaps)) : Z :=
  foldr (fun e n => ind fd (prog_array_fd e.2) + ind fd (id_hash_fd e.2) + n) 0 l.
Definition held (fd : Z) (p : PinnedProgMap) : Z := maps_held fd (map_to_list (hook_maps_ p)).

Lemma maps_held_perm fd l1 l2 : l1 ≡ₚ l2 -> maps_held fd l1 = maps_held fd l2.
Proof. intros Hp. induction Hp; unfold maps_held in *; cbn; lia. Qed.

Lemma held_insert fd p h maps :
  hook_maps_ p !! h = None ->
  held fd (set_hook_maps (<[h := maps]> (hook_maps_ p)) p) =
    ind fd (prog_array_fd maps) + ind fd (id_hash_fd maps) + held fd p.
Proof.
  intros Hh. unfold held; cbn. rewrite (maps_held_perm _ _ _ (map_to_list_insert _ _ _ Hh)). done.
Qed.

(** the pin paths of the maps it holds *)
Definition holds_pin (path : string) (p : PinnedProgMap) : Prop :=
  exists h maps, hook_maps_ p !! h = Some maps /\ 0 <= prog_array_fd maps /\ 0 <= id_hash_fd maps /\
    (pin_path_prog_array maps = path \/ pin_path_id_to_index maps = path).

(** What the manager accounts for after a run that started with [p0]: the
    descriptors opened and not closed are the ones it gained, and a path the
    run pinned is one of its own. *)
Definition accounted (tr0 : trace) (p0 : PinnedProgMap) (tr : trace) (p : PinnedProgMap) : Prop :=
  (forall fd, 0 <= fd -> balance fd tr - balance fd tr0 = held fd p - held fd p0) /\
  (forall path b, pinned_after path b tr = Pinned -> holds_pin path p \/ pinned_after path b tr0 = Pinned) /\
  (forall path, holds_pin path p0 -> holds_pin path p).

Lemma accounted_refl tr p : accounted tr p tr p.
Proof. split_and!; [lia | tauto | done]. Qed.

Lemma accounted_trans tr0 p0 tr1 p1 tr2 p2 :
  accounted tr0 p0 tr1 p1 -> accounted tr1 p1 tr2 p2 -> accounted tr0 p0 tr2 p2.
Proof.
  intros (Hb1 & Hp1 & Hk1) (Hb2 & Hp2 & Hk2). split_and!.
  - intros fd Hfd. specialize (Hb1 fd Hfd). specialize (Hb2 fd Hfd). lia.
  - intros path b Hb. destruct (Hp2 path b Hb) as [? | [? | ?]%Hp1]; auto.
  - auto.
Qed.

(** a call that neither opens, closes, pins nor unlinks *)
Definition neutral (c : syscall) : Prop :=
  match c with Stat _ | Mkdir _ _ | Statfs _ | Mount _ | Umount _ | RingBufferNew _ => True | _ => False end.

Lemma accounted_neutral tr p c r : neutral c -> accounted tr p (tr ++ [(c, r)]) p.
Proof.
  intros Hc. split_and!; [| | done].
  - intros fd _. rewrite balance_snoc. destruct c; try done; cbn; lia.
  - intros path b. rewrite pinned_after_snoc. destruct c; try done; cbn; auto.
Qed.

Lemma ensureMaps_fresh_pins h p a i na nb :
  hook_maps_ p !! h = None -> 0 <= a -> 0 <= i ->
  (forall path, path = na \/ path = nb ->
    holds_pin path (set_hook_maps (<[h := mkHookMaps a i na nb]> (hook_maps_ p)) p)) /\
  (forall path, holds_pin path p -> holds_pin path (set_hook_maps (<[h := mkHookMaps a i na nb]> (hook_maps_ p)) p)).
Proof.
  intros Hh Ha Hi. split.
  - intros path Hpath. exists h, (mkHookMaps a i na nb). cbn. rewrite lookup_insert_eq. naive_solver.
  - intros path (h' & maps & Hm & Hrest). exists h', maps. cbn. rewrite lookup_insert_ne by congruence. done.
Qed.

(** evaluate the bookkeeping over the last calls of a run *)
Ltac count_fds :=
  intros fd Hfd;
  repeat match goal with |- context [balance fd (?t ++ [?e])] => rewrite (balance_snoc fd t e) end;
  unfold delta, ind; cbn [fst snd]; repeat case_decide; lia.
Ltac count_pins :=
  intros path b;
  repeat match goal with |- context [pinned_after path b (?t ++ [?e])] => rewrite (pinned_after_snoc path b t e) end;
  rewrite ?pin_step_get, ?pin_step_create, ?pin_step_close;
  repeat match goal with
  | |- pin_step _ _ (BpfObjPin _ _, _) = Pinned -> _ => intros [?Hpin | [?Hpath ?Hret]]%pin_step_pin; [revert Hpin | subst; solve [auto | lia | congruence]]
  | |- pin_step _ _ (Unlink _, _) = Pinned -> _ => intros [?Hpin ?Hpath]%pin_step_unlink; revert Hpin
  | |- context [pin_step _ _ (Close _, _)] => rewrite pin_step_close
  end; solve [auto | congruence].

Lemma create_maps_accounted na nb pa ph tr :
  always (fun r tr' =>
    match r with
    | None => (forall fd, 0 <= fd -> balance fd tr' = balance fd tr) /\
              forall path b, pinned_after path b tr' = Pinned -> pinned_after path b tr = Pinned
    | Some (a, i) => 0 <= a /\ 0 <= i /\ (forall fd, 0 <= fd -> balance fd tr' = balance fd tr + ind fd a + ind fd i) /\
              forall path b, pinned_after path b tr' = Pinned -> path = pa \/ path = ph \/ pinned_after path b tr = Pinned
    end) (create_maps na nb pa ph) tr.
Proof.
  unfold create_maps. cbn -[balance pinned_after]. intros ra.
  destruct (ret ra <? 0) eqn:Ha; cbn -[balance pinned_after].
  { split; [count_fds | count_pins]. }
  intros rb. destruct (ret rb <? 0) eqn:Hb; cbn -[balance pinned_after].
  { intros r1. split; [count_fds | count_pins]. }
  intros r1. destruct (ret r1 <? 0) eqn:H1; cbn -[balance pinned_after].
  { intros r2 r3. split; [count_fds | count_pins]. }
  intros r2. destruct (ret r2 <? 0) eqn:H2; cbn -[balance pinned_after].
  { intros r3 r4 r5. split; [count_fds | count_pins]. }
  split_and!; [lia | lia | count_fds | count_pins].
Qed.

(** closing a descriptor, as the bookkeeping sees it *)
Definition closes (fd0 : Z) (tr tr' : trace) : Prop :=
  (forall fd, 0 <= fd -> balance fd tr' = balance fd tr - ind fd fd0) /\
  forall path b, pinned_after path b tr' = pinned_after path b tr.

Lemma close_if_valid_closes fd0 tr : always (fun _ tr' => closes fd0 tr tr') (close_if_valid fd0) tr.
Proof.
  unfold close_if_valid, closes. destruct (0 <=? fd0) eqn:H0; cbn -[balance pinned_after].
  - intros r. split; [count_fds | intros path b; by rewrite pinned_after_snoc].
  - split; [count_fds | done].
Qed.

Lemma ensureMaps_accounted h p tr :
  always (fun r tr' => accounted tr p tr' r.2) (ensureMaps h p) tr.
Proof.
  unfold ensureMaps. destruct (hook_maps_ p !! h) eqn:Hh; [apply accounted_refl |].
  destruct (map_names h) as [[na nb] |]; [| apply accounted_refl].
  cbn -[balance pinned_after held create_maps close_if_valid]. intros r1 r2.
  destruct ((ret r1 <? 0) || (ret r2 <? 0)) eqn:Hneg.
  2: { destruct (ensureMaps_fresh_pins h p (ret r1) (ret r2) (getPinPath na) (getPinPath nb) Hh) as [Hfresh Hkeep]; [lia | lia |].
       split_and!; cbn [snd fst]; [| | exact Hkeep].
       - intros fd Hfd. rewrite held_insert, !balance_snoc by done. cbn. lia.
       - intros path b. rewrite !pinned_after_snoc, !pin_step_get. tauto. }
  eapply always_bind; [apply close_if_valid_closes | intros _ t1 [Hb1 Hp1]].
  eapply always_bind; [apply close_if_valid_closes | intros _ t2 [Hb2 Hp2]].
  eapply always_bind; [apply create_maps_accounted | intros [[a i] |] t3; cbn [snd always]].
  - intros (Ha & Hi & Hb3 & Hp3).
    destruct (ensureMaps_fresh_pins h p a i (getPinPath na) (getPinPath nb) Hh Ha Hi) as [Hfresh Hkeep].
    split_and!; cbn [snd fst]; [| | exact Hkeep].
    + intros fd Hfd. rewrite held_insert, Hb3, Hb2, Hb1, !balance_snoc by done. cbn. lia.
    + intros path b [? | [? | Hpin]]%Hp3; [by left; apply Hfresh; left | by left; apply Hfresh; right |].
      rewrite Hp2, Hp1, !pinned_after_snoc, !pin_step_get in Hpin. by right.
  - intros [Hb3 Hp3]. split_and!; [| | done].
    + intros fd Hfd. rewrite Hb3, Hb2, Hb1, !balance_snoc by done. cbn. lia.
    + intros path b Hpin%Hp3. rewrite Hp2, Hp1, !pinned_after_snoc, !pin_step_get in Hpin. by right.
Qed.

(** ** The life cycle *)

Lemma mount_once_accounted m p tr : always (fun _ tr' => accounted tr p tr' p) (mount_once m) tr.
Proof.
  assert (Hstep : forall t c r, neutral c -> accounted tr p t p -> accounted tr p (t ++ [(c, r)]) p).
  { intros t c r Hc Ht. eapply accounted_trans; [exact Ht | by apply accounted_neutral]. }
  unfold mount_once. destruct (g_mount_init_flag m); [apply accounted_refl |].
  cbn -[accounted]. intros r. pose proof (Hstep tr (Stat PATH_BPFFS) r I (accounted_refl _ _)) as H1.
  destruct (negb (ret r =? 0)); cbn -[accounted].
  - intros r2. pose proof (Hstep _ (Mkdir PATH_BPFFS 493) r2 I H1) as H2.
    destruct (_ && _); cbn -[accounted]; [exact H2 |].
    intros r3. pose proof (Hstep _ (Statfs PATH_BPFFS) r3 I H2) as H3.
    destruct (_ && _); cbn -[accounted]; [exact H3 |].
    intros r4. pose proof (Hstep _ (Mount PATH_BPFFS) r4 I H3) as H4. by destruct (negb (ret r4 =? 0)).
  - intros r3. pose proof (Hstep _ (Statfs PATH_BPFFS) r3 I H1) as H3.
    destruct (_ && _); cbn -[accounted]; [exact H3 |].
    intros r4. pose proof (Hstep _ (Mount PATH_BPFFS) r4 I H3) as H4. by destruct (negb (ret r4 =? 0)).
Qed.

(** the part of [init] after the directory is there *)
Lemma init_maps_accounted m p tr0 tr :
  accounted tr0 p tr p ->
  always (fun r tr' => accounted tr0 p tr' r.1.2)
    (r ← ensureMaps TC p;
     if negb (r.1 : bool) then Ret (Ok false, r.2, m)
     else
       r ← ensureMaps XDP_GENERIC r.2;
       if negb (r.1 : bool) then Ret (Ok false, r.2, m)
       else
         let p := mkProgMap (hook_maps_ r.2) (regions_ r.2) true (getDefaultProgMap ∪ prog_registry_ r.2) in
         Ret (Ok true, p, m) : sys (result exn bool * PinnedProgMap * MountState)) tr.
Proof.
  intros H0. eapply always_bind; [apply ensureMaps_accounted | intros [ok1 p1] t1 H1]. cbn [fst snd] in *.
  pose proof (accounted_trans _ _ _ _ _ _ H0 H1) as H01.
  destruct (negb ok1); cbn [always fst snd]; [exact H01 |].
  eapply always_bind; [apply ensureMaps_accounted | intros [ok2 p2] t2 H2]. cbn [fst snd] in *.
  pose proof (accounted_trans _ _ _ _ _ _ H01 H2) as H02.
  destruct (negb ok2); cbn [always fst snd]; exact H02.
Qed.

Lemma init_accounted m p tr : always (fun r tr' => accounted tr p tr' r.1.2) (init m p) tr.
Proof.
  unfold init, ensureBpffsMounted.
  eapply (always_bind (fun _ t => accounted tr p t p)).
  { eapply always_bind; [apply (mount_once_accounted m p) |]. intros r t Ht. exact Ht. }
  intros [m' | e] t Ht; cbn [always fst snd]; [| exact Ht].
  cbn -[accounted ensureMaps getDefaultProgMap]. intros r.
  pose proof (accounted_trans _ _ _ _ _ _ Ht (accounted_neutral t p (Stat PATH_BPFFS) r I)) as H1.
  destruct (negb (ret r =? 0)); [| by apply init_maps_accounted].
  cbn -[accounted ensureMaps getDefaultProgMap]. intros r2.
  pose proof (accounted_trans _ _ _ _ _ _ H1 (accounted_neutral _ p (Mkdir PATH_BPFFS 493) r2 I)) as H2.
  destruct (_ && _); [exact H2 | by apply init_maps_accounted].
Qed.

(** paths stay unpinned through calls that pin nothing *)
Lemma cleanup_map_closes fd0 path tr :
  always (fun _ tr' =>
    (forall x, 0 <= x -> balance x tr' = balance x tr - ind x fd0) /\
    (forall q b, pinned_after q b tr' = Pinned -> pinned_after q b tr = Pinned /\ (0 <= fd0 -> q <> path)))
    (cleanup_map fd0 path) tr.
Proof.
  unfold cleanup_map. destruct (0 <=? fd0) eqn:H0; cbn -[balance pinned_after].
  - intros r1 r2. split; [count_fds |].
    intros q b. rewrite !pinned_after_snoc, pin_step_close. intros [Hq Hne]%pin_step_unlink. by split.
  - split; [count_fds | intros q b Hq; split; [done | lia]].
Qed.

Lemma cleanup_loop_closes l : forall tr,
  always (fun _ tr' =>
    (forall x, 0 <= x -> balance x tr' = balance x tr - maps_held x l) /\
    (forall q b, pinned_after q b tr' = Pinned -> pinned_after q b tr = Pinned /\
       forall h maps, (h, maps) ∈ l -> 0 <= prog_array_fd maps -> 0 <= id_hash_fd maps ->
         q <> pin_path_prog_array maps /\ q <> pin_path_id_to_index maps)) (cleanup_loop l) tr.
Proof.
  induction l as [| [h maps] l IH]; intros tr; cbn [cleanup_loop].
  - split; [cbn; lia |]. intros q b Hq. split; [done | by intros ? ? ?%not_elem_of_nil].
  - eapply always_bind; [apply cleanup_map_closes | intros _ t1 [Hb1 Hp1]].
    eapply always_bind; [apply cleanup_map_closes | intros _ t2 [Hb2 Hp2]].
    eapply always_mono; [apply IH | intros _ t3 [Hb3 Hp3]]. split.
    + intros x Hx. rewrite Hb3, Hb2, Hb1 by done. unfold maps_held; cbn -[ind]. lia.
    + intros q b [[[Hq Hn1]%Hp1 Hn2]%Hp2 Hl]%Hp3. split; [done |].
      intros h' maps' [[= -> ->] | Hin]%elem_of_cons Ha Hi; [by split; auto | by eapply Hl].
Qed.

(** C29: No descriptor and no pin is leaked.  Whatever the system calls answer,
    initialising the manager (which may fail or throw at any point) and
    destroying it leaves no descriptor open, and every path at which the run
    pinned a map is free again, unless the kernel refused to unlink it: the
    code does not look at what unlink answers and does not try again. *)
Theorem init_cleanup_no_leak `{!UMapOrder HookType} (e : env syscall response) (m : MountState)
  (registry : gmap string ProgInfo) :
  let p0 := mkProgMap ∅ ∅ false registry in
  let '((_, p, _), tr) := run e (init m p0) [] in
  let '(p', tr') := run e (cleanup p) tr in
  hook_maps_ p' = ∅ /\ initialized_ p' = false /\
  (forall fd, 0 <= fd -> balance fd tr' = 0) /\
  (forall path, pinned_after path Free tr' = Free \/
    (pinned_after path Free tr' = Stuck /\ Exists (unlink_refused path) tr')).
Proof.
  cbn zeta. pose proof (always_run _ _ _ e (init_accounted m (mkProgMap ∅ ∅ false registry) [])) as Hinit.
  destruct (run e (init _ _) []) as [[[res p] m'] tr]. cbn [fst snd] in Hinit.
  destruct Hinit as (Hb & Hp & _).
  unfold cleanup. assert (Hcl := cleanup_loop_closes (uiter (hook_maps_ p)) tr).
  eapply (always_run _ _ _ e) in Hcl. change (mbind ?f ?q) with (prog_bind q f). rewrite run_bind.
  destruct (run e (cleanup_loop _) tr) as [u tr']. cbn [run fst snd] in *. destruct Hcl as [Hb2 Hp2].
  split_and!; [done | done | |].
  - intros fd Hfd. rewrite Hb2 by done. specialize (Hb fd Hfd).
    rewrite (maps_held_perm fd _ _ (uiter_perm (hook_maps_ p))).
    unfold held in Hb; cbn in Hb. rewrite map_to_list_empty in Hb; cbn in Hb. lia.
  - intros path. destruct (pinned_after path Free tr') eqn:Hpin; [by left | exfalso | right; split; [done | by apply stuck_refused]].
    apply Hp2 in Hpin as [Hpin Hnone].
    destruct (Hp path Free Hpin) as [(h & maps & Hm & Ha & Hi & Hpath) | Hfalse]; [| discriminate Hfalse].
    destruct (Hnone h maps) as [? ?]; [by rewrite uiter_perm, elem_of_map_to_list | done | done |].
    destruct Hpath; congruence.
Qed.

(** when only the program array of a hook is still pinned (a crash
    between the two pins, or a manual removal), the maps can never be set up:
    both are created anew and pinning the first collides with the stale
    pin. *)
Theorem half_pinned_blocks_setup (e : env syscall response) (h : HookType) (p : PinnedProgMap)
  (na nb : string) (tr : trace)
  (Hnew : hook_maps_ p !! h = None) (Hnames : map_names h = Some (na, nb))
  (Hlost : forall tr, ret (e tr (BpfObjGet (getPinPath nb))) < 0)
  (Hstale : forall tr fd, ret (e tr (BpfObjPin fd (getPinPath na))) < 0) :
  fst (run e (ensureMaps h p) tr) = (false, p).
Proof.
  unfold ensureMaps. rewrite Hnew, Hnames. cbn -[create_maps close_if_valid Z.ltb].
  match goal with |- context [(?a <? 0) || (?b <? 0)] => assert ((a <? 0) || (b <? 0) = true) as -> end.
  { rewrite (proj2 (Z.ltb_lt _ 0) (Hlost _)). apply orb_true_r. }
  change (mbind ?f ?q) with (prog_bind q f). rewrite run_bind.
  destruct (run e (close_if_valid _) _) as [u1 t1]. change (mbind ?f ?q) with (prog_bind q f). rewrite run_bind.
  destruct (run e (close_if_valid _) _) as [u2 t2]. change (mbind ?f ?q) with (prog_bind q f). rewrite run_bind.
  unfold create_maps. cbn -[Z.ltb].
  destruct (_ <? 0); [done |]. cbn -[Z.ltb]. destruct (_ <? 0); [done |]. cbn -[Z.ltb].
  rewrite (proj2 (Z.ltb_lt _ 0) (Hstale _ _)). done.
Qed.

(** *** The kernel log, which owns a shared ring buffer *)

(** the ring buffer and its map, as the members [ringbuf_] and [mgr_] *)
(* src/services/klog/klog.cc:14-23 Klog::Klog *)
Definition newKlog `{BuildMode} (io_ctx : bool) (m : MountState) (pin_path : string) (map_size : Z) (map_name : string)
  : sys (result exn RingBufferMap.Ringbuffer * RingBufferMap.t * MountState) :=
  RingBufferMap.getRingbuffer io_ctx m
    (RingBufferMap.setMapName map_name (RingBufferMap.setMapSize map_size (RingBufferMap.make pin_path))).

(* src/services/klog/klog.cc:29-33 Klog::unpin *)
Definition unpin (mgr_ : RingBufferMap.t) : sys RingBufferMap.t := RingBufferMap.cleanup mgr_.

(** what [main] does with it: construct it, unpin it, and destroy it, which
    destroys the ring buffer *)
Definition klog_session `{BuildMode} (m : MountState) (pin_path : string) (map_size : Z) (map_name : string) : sys unit :=
  got ← newKlog true m pin_path map_size map_name;
  match got.1.1 with
  | Err _ => Ret tt
  | Ok rb =>
      _ ← unpin got.1.2;
      RingBufferMap.Ringbuffer_destroy rb
  end.

(** the ring-buffer map keeps a descriptor that it has handed to the
    [Ringbuffer] to own: the kernel log opens one descriptor and closes it twice,
    the second time possibly under another owner. *)
Theorem ring_descriptor_closed_twice `{BuildMode} (e : env syscall response) (fd : Z) (m : MountState)
  (path name : string) (size : Z)
  (Hfd : 0 < fd) (Hpath : path <> "") (Hname : name <> "") (Hsize : 0 < size)
  (Hmount : g_mount_init_flag m = true)
  (Hget : forall tr, ret (e tr (BpfObjGet path)) = fd)
  (Hring : forall tr, ret (e tr (RingBufferNew fd)) <> 0) :
  balance fd (snd (run e (klog_session m path size name) [])) = -1.
Proof.
  unfold klog_session, newKlog, unpin, RingBufferMap.getRingbuffer, RingBufferMap.init, RingBufferMap.setMapName,
    RingBufferMap.setMapSize, RingBufferMap.make.
  cbn [RingBufferMap.initialized_ negb RingBufferMap.pin_path_ RingBufferMap.map_name_ RingBufferMap.map_size_].
  rewrite (proj2 (String.eqb_neq _ _) Hpath), (proj2 (String.eqb_neq _ _) Hname), (proj2 (Z.ltb_lt _ _) Hsize).
  unfold ensureBpffsMounted, mount_once. rewrite Hmount. cbn -[Z.leb Z.ltb Z.eqb balance].
  rewrite !Hget. rewrite (proj2 (Z.leb_le _ _)) by lia.
  unfold RingBufferMap.finish_init. cbn -[Z.leb Z.ltb Z.eqb balance]. rewrite (proj2 (Z.ltb_lt _ _) Hfd).
  cbn -[Z.leb Z.ltb Z.eqb balance].
  unfold RingBufferMap.Ringbuffer_init, RingBufferMap.Ringbuffer_destroy, RingBufferMap.cleanup, Fd.destroy, Fd.fd, Fd.FD_INVALID.
  cbn -[Z.leb Z.ltb Z.eqb balance].
  assert (Hne : (fd =? -1) = false) by lia. assert (Hge : (0 <=? fd) = true) by lia.
  rewrite Hne. cbn -[Z.leb Z.ltb Z.eqb balance].
  rewrite (proj2 (Z.eqb_neq _ _) (Hring _)). cbn -[Z.leb Z.ltb Z.eqb balance].
  rewrite Hge. cbn -[Z.leb Z.ltb Z.eqb balance String.eqb].
  rewrite (proj2 (String.eqb_neq _ _) Hpath). cbn -[Z.leb Z.ltb Z.eqb balance].
  rewrite Hne. cbn -[Z.leb Z.ltb Z.eqb].
  rewrite !Hget. unfold delta, ind. cbn [fst snd ret]. rewrite ?Hget, ?decide_True by done. lia.
Qed.

(** ** Witnesses *)

Module Sample.

#[local] Instance debug : BuildMode := false.

(** answers: the stale array opens as 5, the hash is gone, maps are created
    as 6, and pinning over an existing path fails *)
Definition stale_env : env syscall response := fun _ c =>
  match c with
  | BpfObjGet p => if (p =? getPinPath "TC_In_idhash")%string then mkResp (-2) ENOENT 0 else mkResp 5 0 0
  | BpfMapCreate _ _ _ _ _ => mkResp 6 0 0
  | BpfObjPin _ p => if (p =? getPinPath "TC_In_parray")%string then mkResp (-17) EEXIST 0 else mkResp 0 0 0
  | RingBufferNew _ => mkResp 1 0 0
  | _ => mkResp 0 0 0
  end.
Definition manager : PinnedProgMap := mkProgMap ∅ ∅ false ∅.

Lemma half_pinned_blocks_setup_witness : fst (run stale_env (ensureMaps TC manager) []) = (false, manager).
Proof.
  apply (half_pinned_blocks_setup stale_env TC manager "TC_In_parray" "TC_In_idhash" []);
    [reflexivity | reflexivity | intros tr; reflexivity | intros tr fd; reflexivity].
Defined.

Lemma ring_descriptor_closed_twice_witness :
  balance 5 (snd (run stale_env (klog_session (mkMount true 1 false) "/sys/fs/bpf/klog" 4096 "klog") [])) = -1.
Proof.
  apply (ring_descriptor_closed_twice stale_env 5 (mkMount true 1 false) "/sys/fs/bpf/klog" "klog" 4096);
    [lia | discriminate | discriminate | lia | reflexivity | intros tr; reflexivity | intros tr; discriminate].
Defined.

End Sample.
