(* ===== verification/Queue.v ===== *)
(** * The bounded queue between the daemon and the monitor

    [Queue<T>] of [src/data/queue.h] and [src/data/queue.tpp]: threads in
    [push], [pop], [tryPop], [start] and [stop] as a small-step relation over
    the shared state.  A critical section that neither reads nor writes
    unprotected state in between is one step; [start] and [stop] write
    [stopped_] without the mutex, so the two reads of [stopped_] in [push], and
    the test and the wait of a condition variable, are separate steps. *)

From S2P Require Import Prelude.

Section Queue.
Context {T : Type}.

(** where a thread is *)
Inductive pc : Type :=
| PushWant (value : T)     (* about to lock, or woken *)
| PushTest (value : T)     (* holds the mutex, about to test the predicate *)
| PushSleep (value : T)    (* the predicate was false, not waiting yet *)
| PushWait (value : T)     (* waits on cond_not_full_ *)
| PushIn (value : T)       (* the wait returned *)
| PopWant
| PopTest
| PopSleep
| PopWait                  (* waits on cond_not_empty_ *)
| TryWant
| TryIn
| Starting
| Stopping                 (* about to store stopped_ *)
| StopEmpty                (* about to notify cond_not_empty_ *)
| StopFull                 (* about to notify cond_not_full_ *)
| Done (result : option T).

(** the shared object, with the history of successful pushes and pops *)
(* src/data/queue.h:14-43 Queue *)
Record Queue : Type := mkQueue {
  owner : option nat;        (* mutex_ *)
  queue_ : list T;
  capacity_ : nat;
  stopped_ : bool;
  threads : list pc;
  pushed : list T;
  popped : list T
}.

Definition set_pc (t : nat) (p : pc) (s : Queue) : Queue :=
  mkQueue (owner s) (queue_ s) (capacity_ s) (stopped_ s) (<[t := p]> (threads s)) (pushed s) (popped s).
Definition lock (t : nat) (s : Queue) : Queue :=
  mkQueue (Some t) (queue_ s) (capacity_ s) (stopped_ s) (threads s) (pushed s) (popped s).
Definition unlock (s : Queue) : Queue :=
  mkQueue None (queue_ s) (capacity_ s) (stopped_ s) (threads s) (pushed s) (popped s).
Definition set_stopped (b : bool) (s : Queue) : Queue :=
  mkQueue (owner s) (queue_ s) (capacity_ s) b (threads s) (pushed s) (popped s).
Definition set_threads (l : list pc) (s : Queue) : Queue :=
  mkQueue (owner s) (queue_ s) (capacity_ s) (stopped_ s) l (pushed s) (popped s).
Definition enqueue (v : T) (s : Queue) : Queue :=
  mkQueue (owner s) (queue_ s ++ [v]) (capacity_ s) (stopped_ s) (threads s) (pushed s ++ [v]) (popped s).
Definition dequeue (v : T) (rest : list T) (s : Queue) : Queue :=
  mkQueue (owner s) rest (capacity_ s) (stopped_ s) (threads s) (pushed s) (popped s ++ [v]).

(* src/data/queue.tpp:84-95 Queue::empty *)
Definition empty (s : Queue) : bool := match queue_ s with [] => true | _ => false end.
(* src/data/queue.tpp:116-126 Queue::full *)
Definition full (s : Queue) : bool := capacity_ s <=? length (queue_ s).

(** the two predicates of the condition variables *)
Definition may_push (s : Queue) : bool := negb (full s) || stopped_ s.
Definition may_pop (s : Queue) : bool := negb (empty s) || stopped_ s.

Definition wake_pop (p : pc) : pc := match p with PopWait => PopWant | p => p end.
Definition wake_push (p : pc) : pc := match p with PushWait v => PushWant v | p => p end.

(** [notify_one] wakes one waiting thread, if there is any *)
Inductive notify_one (wake : pc -> pc) : list pc -> list pc -> Prop :=
| notify_some l i p : l !! i = Some p -> wake p <> p -> notify_one wake l (<[i := wake p]> l)
| notify_none l : (forall i p, l !! i = Some p -> wake p = p) -> notify_one wake l l.

(** [spurious]: whether a wait may end without a notification *)
(* src/data/queue.tpp:17-114 Queue::push *)
Inductive step (spurious : bool) (s : Queue) : Queue -> Prop :=
| step_push_lock t v : threads s !! t = Some (PushWant v) -> owner s = None ->
    step spurious s (lock t (set_pc t (PushTest v) s))
| step_push_test t v : threads s !! t = Some (PushTest v) ->
    step spurious s (set_pc t (if may_push s then PushIn v else PushSleep v) s)
| step_push_sleep t v : threads s !! t = Some (PushSleep v) ->
    step spurious s (unlock (set_pc t (PushWait v) s))
| step_push_drop t v : threads s !! t = Some (PushIn v) -> stopped_ s = true ->
    step spurious s (unlock (set_pc t (Done None) s))
| step_push t v l : threads s !! t = Some (PushIn v) -> stopped_ s = false ->
    notify_one wake_pop (<[t := Done None]> (threads s)) l ->
    step spurious s (unlock (set_threads l (enqueue v s)))
| step_pop_lock t : threads s !! t = Some PopWant -> owner s = None ->
    step spurious s (lock t (set_pc t PopTest s))
| step_pop_test t : threads s !! t = Some PopTest -> may_pop s = true ->
    step spurious s (unlock (set_pc t TryWant s))
| step_pop_no t : threads s !! t = Some PopTest -> may_pop s = false ->
    step spurious s (set_pc t PopSleep s)
| step_pop_sleep t : threads s !! t = Some PopSleep ->
    step spurious s (unlock (set_pc t PopWait s))
| step_try_lock t : threads s !! t = Some TryWant -> owner s = None ->
    step spurious s (lock t (set_pc t TryIn s))
| step_try_none t : threads s !! t = Some TryIn -> stopped_ s = true \/ queue_ s = [] ->
    step spurious s (unlock (set_pc t (Done None) s))
| step_try_some t v rest l : threads s !! t = Some TryIn -> stopped_ s = false -> queue_ s = v :: rest ->
    notify_one wake_push (<[t := Done (Some v)]> (threads s)) l ->
    step spurious s (unlock (set_threads l (dequeue v rest s)))
| step_start t : threads s !! t = Some Starting ->
    step spurious s (set_stopped false (set_pc t (Done None) s))
| step_stop t : threads s !! t = Some Stopping ->
    step spurious s (set_stopped true (set_pc t StopEmpty s))
| step_stop_empty t : threads s !! t = Some StopEmpty ->
    step spurious s (set_threads (wake_pop <$> <[t := StopFull]> (threads s)) s)
| step_stop_full t : threads s !! t = Some StopFull ->
    step spurious s (set_threads (wake_push <$> <[t := Done None]> (threads s)) s)
| step_spurious t p : spurious = true -> threads s !! t = Some p -> p = PopWait \/ (exists v, p = PushWait v) ->
    step spurious s (set_pc t (wake_push (wake_pop p)) s).

(** nobody has started; each thread is at the beginning of its operation *)
Definition entry (p : pc) : Prop :=
  match p with PushWant _ | PopWant | TryWant | Starting | Stopping => True | _ => False end.
Definition initial (s : Queue) : Prop :=
  owner s = None /\ queue_ s = [] /\ pushed s = [] /\ popped s = [] /\
  forall t p, threads s !! t = Some p -> entry p.

(** ** First in, first out, and bounded *)

Definition critical (p : pc) : bool :=
  match p with PushTest _ | PushSleep _ | PushIn _ | PopTest | PopSleep | TryIn => true | _ => false end.

Definition never_starts (s : Queue) : Prop := forall t, threads s !! t <> Some Starting.

(** The invariant of runs in which nobody calls [start]: a thread in a
    critical section owns the mutex, and a thread that passed the capacity
    test still has room. *)
Record inv (s : Queue) : Prop := {
  inv_starts : never_starts s;
  inv_owned : forall t p, threads s !! t = Some p -> critical p = true -> owner s = Some t;
  inv_room : forall t v, threads s !! t = Some (PushIn v) -> stopped_ s = true \/ length (queue_ s) < capacity_ s;
  inv_bound : length (queue_ s) <= capacity_ s
}.

(** a thread list that differs by harmless changes: a thread may have become
    non-critical *)
Definition calmer (t : nat) (l l' : list pc) : Prop :=
  forall u p, l' !! u = Some p -> (p = Starting \/ critical p = true) -> u <> t /\ l !! u = Some p.

Lemma calmer_insert t p l : critical p = false -> p <> Starting -> calmer t l (<[t := p]> l).
Proof.
  intros Hp Hs u q. destruct (decide (u = t)) as [-> | Hu].
  - intros Hq. assert (q = p) as ->.
    { destruct (decide (t < length l)); [rewrite list_lookup_insert_eq in Hq by done; congruence |].
      rewrite list_insert_ge in Hq by lia. apply lookup_lt_Some in Hq. lia. }
    intros [? | ?]; congruence.
  - rewrite list_lookup_insert_ne by done. auto.
Qed.

Lemma calmer_fmap t l l' (wake : pc -> pc) :
  calmer t l l' -> (forall p, wake p = p \/ (critical (wake p) = false /\ wake p <> Starting)) ->
  calmer t l (wake <$> l').
Proof.
  intros Hc Hw u p. rewrite list_lookup_fmap. intros (q & Hq & ->)%fmap_Some Hor.
  destruct (Hw q) as [Heq | [Hn Hs]]; [rewrite Heq in *; eauto |]. destruct Hor; congruence.
Qed.

Lemma calmer_notify t l l' l'' (wake : pc -> pc) :
  calmer t l l' -> (forall p, wake p = p \/ (critical (wake p) = false /\ wake p <> Starting)) ->
  notify_one wake l' l'' -> calmer t l l''.
Proof.
  intros Hc Hw Hn. destruct Hn as [l' i p Hi Hne | l' _]; [| done].
  intros u q Hq Hor. destruct (decide (u = i)) as [-> | Hu].
  - rewrite list_lookup_insert_eq in Hq by (by eapply lookup_lt_Some). injection Hq as <-.
    destruct (Hw p) as [? | [Hn Hs]]; [done |]. destruct Hor; congruence.
  - rewrite list_lookup_insert_ne in Hq by done. eauto.
Qed.

Lemma wake_pop_calm p : wake_pop p = p \/ (critical (wake_pop p) = false /\ wake_pop p <> Starting).
Proof. destruct p; auto. Qed.
Lemma wake_push_calm p : wake_push p = p \/ (critical (wake_push p) = false /\ wake_push p <> Starting).
Proof. destruct p; auto. Qed.

(** a step in which thread [t] leaves the mutex, or never had it *)
Lemma inv_release s s' t :
  inv s -> calmer t (threads s) (threads s') -> capacity_ s' = capacity_ s -> length (queue_ s') <= capacity_ s ->
  owner s = Some t \/
    owner s' = owner s /\ queue_ s' = queue_ s /\ (stopped_ s' = stopped_ s \/ stopped_ s' = true) ->
  inv s'.
Proof.
  intros [Hs Ho Hr Hb] Hc Hcap Hlen Hown. split.
  - intros u Hu. destruct (Hc u _ Hu) as [_ Hu']; [by left | by apply (Hs u)].
  - intros u p Hp Hcrit. destruct (Hc u p Hp) as [Hne Hu]; [by right |].
    specialize (Ho u p Hu Hcrit). destruct Hown as [? | [-> _]]; [congruence | done].
  - intros u v Hu. destruct (Hc u _ Hu) as [Hne Hu']; [by right |].
    specialize (Ho u _ Hu' eq_refl). destruct Hown as [? | (_ & Hq & Hst)]; [congruence |].
    rewrite Hq, Hcap. destruct Hst as [-> | ->]; [by eapply Hr | by left].
  - by rewrite Hcap.
Qed.

(** a step in which thread [t] gets or keeps the mutex *)
Lemma inv_hold s t p :
  inv s -> owner s = None \/ owner s = Some t -> p <> Starting ->
  (forall v, p = PushIn v -> stopped_ s = true \/ length (queue_ s) < capacity_ s) ->
  inv (lock t (set_pc t p s)).
Proof.
  intros [Hs Ho Hr Hb] Hown Hp Hin. split; cbn; [| | | done].
  - intros u Hu. cbn in Hu. destruct (decide (u = t)) as [-> | Hne].
    + apply list_lookup_insert_Some in Hu as [(_ & -> & _) | [? _]]; congruence.
    + rewrite list_lookup_insert_ne in Hu by done. by apply (Hs u).
  - intros u q Hu Hcrit. destruct (decide (u = t)) as [-> | Hne]; [done |].
    rewrite list_lookup_insert_ne in Hu by done. specialize (Ho u q Hu Hcrit). destruct Hown; congruence.
  - intros u v Hu. apply list_lookup_insert_Some in Hu as [(_ & Hpv & _) | [_ Hu]]; [by eapply Hin | by eapply Hr].
Qed.

Lemma lock_owned s t : owner s = Some t -> lock t s = s.
Proof. intros Ho. destruct s; cbn in *. by subst. Qed.

Lemma may_push_spec s : may_push s = true -> stopped_ s = true \/ length (queue_ s) < capacity_ s.
Proof.
  unfold may_push, full. rewrite orb_true_iff, negb_true_iff, Nat.leb_gt. tauto.
Qed.

Lemma queue_step_inv b s s' : step b s s' -> inv s -> inv s'.
Proof.
  intros Hstep Hinv. pose proof (inv_owned s Hinv) as Ho. pose proof (inv_bound s Hinv) as Hb.
  destruct Hstep as
    [t v Ht Hfree | t v Ht | t v Ht | t v Ht Hst | t v l Ht Hst Hl | t Ht Hfree | t Ht Hmay | t Ht Hmay | t Ht
    | t Ht Hfree | t Ht Hor | t v rest l Ht Hst Hq Hl | t Ht | t Ht | t Ht | t Ht | t p Hsp Ht Hp].
  - apply inv_hold; [done | by left | done | discriminate].
  - specialize (Ho t _ Ht eq_refl). rewrite <- (lock_owned (set_pc t _ s) t) by done.
    apply inv_hold; [done | by right | by destruct (may_push s) |].
    intros w. destruct (may_push s) eqn:Hm; [intros _; by apply may_push_spec | discriminate].
  - eapply (inv_release s); [done | by apply calmer_insert | done | done | left; eauto].
  - eapply (inv_release s); [done | by apply calmer_insert | done | done | left; eauto].
  - eapply (inv_release s); [done | | done | | left; eauto].
    + eapply calmer_notify; [by apply (calmer_insert t (Done None)) | apply wake_pop_calm | done].
    + cbn. rewrite length_app; cbn. destruct (inv_room s Hinv t v Ht); [congruence | lia].
  - apply inv_hold; [done | by left | done | discriminate].
  - eapply (inv_release s); [done | by apply calmer_insert | done | done | left; eauto].
  - specialize (Ho t _ Ht eq_refl). rewrite <- (lock_owned (set_pc t _ s) t) by done.
    apply inv_hold; [done | by right | done | discriminate].
  - eapply (inv_release s); [done | by apply calmer_insert | done | done | left; eauto].
  - apply inv_hold; [done | by left | done | discriminate].
  - eapply (inv_release s); [done | by apply calmer_insert | done | done | left; eauto].
  - eapply (inv_release s); [done | | done | | left; eauto].
    + eapply calmer_notify; [by apply (calmer_insert t (Done (Some v))) | apply wake_push_calm | done].
    + cbn. rewrite Hq in Hb. cbn in Hb. lia.
  - by destruct (inv_starts s Hinv t).
  - eapply (inv_release s _ t); [done | by apply calmer_insert | done | done | right; auto].
  - eapply (inv_release s _ t); [done | | done | done | right; auto].
    apply calmer_fmap; [by apply calmer_insert | apply wake_pop_calm].
  - eapply (inv_release s _ t); [done | | done | done | right; auto].
    apply calmer_fmap; [by apply calmer_insert | apply wake_push_calm].
  - eapply (inv_release s _ t); [done | | done | done | right; auto].
    apply calmer_insert; destruct Hp as [-> | [v ->]]; done.
Qed.

Lemma step_fifo b s s' : step b s s' -> pushed s = popped s ++ queue_ s -> pushed s' = popped s' ++ queue_ s'.
Proof.
  intros Hstep Hf. destruct Hstep; cbn; try done.
  - rewrite Hf. by rewrite app_assoc.
  - rewrite Hf, <- app_assoc. cbn. by match goal with H : queue_ s = _ |- _ => rewrite H end.
Qed.

(** C20: first in, first out under every interleaving of any number of
    producers and consumers, restarts, stops and spurious wake-ups: the values
    taken out are, in order, a prefix of the values put in, and the rest is
    what the queue holds. *)
Theorem queue_fifo (s0 s : Queue) (Hinit : initial s0) (Hreach : rtc (step true) s0 s) :
  pushed s = popped s ++ queue_ s.
Proof.
  destruct Hinit as (_ & Hq & Hpu & Hpo & _).
  assert (H0 : pushed s0 = popped s0 ++ queue_ s0) by by rewrite Hq, Hpu, Hpo.
  clear Hq Hpu Hpo. induction Hreach as [| s0 s1 s2 Hs _ IH]; [done |]. apply IH. by eapply step_fifo.
Qed.

(** C21: while nobody restarts the queue it never holds more than its
    capacity, and no two threads are inside its critical sections. *)
Theorem queue_bounded (s0 s : Queue) (Hinit : initial s0) (Hns : never_starts s0) (Hreach : rtc (step true) s0 s) :
  length (queue_ s) <= capacity_ s /\
  forall t u p q, threads s !! t = Some p -> threads s !! u = Some q ->
    critical p = true -> critical q = true -> t = u.
Proof.
  assert (H0 : inv s0).
  { destruct Hinit as (_ & Hq & _ & _ & He). split; [done | | | rewrite Hq; cbn; lia].
    - intros t p Ht Hc. specialize (He t p Ht). by destruct p.
    - intros t v Ht. by specialize (He t _ Ht). }
  assert (Hs : inv s).
  { clear Hinit Hns. induction Hreach as [| s0 s1 s2 Hs _ IH]; [done |]. apply IH. by eapply queue_step_inv. }
  split; [apply Hs |]. intros t u p q Ht Hu Hp Hq.
  pose proof (inv_owned s Hs t p Ht Hp). pose proof (inv_owned s Hs u q Hu Hq). congruence.
Qed.

(** stop() does not take the mutex, so its notification can fall between
    a consumer's test and its wait: for every queue with one consumer and one
    stopping thread there is a run after which stop has returned, the queue
    is stopped, and the consumer waits for a notification that nobody will
    send: no further step exists. *)
Theorem queue_stop_loses_wakeup (cap : nat) :
  exists s, rtc (step false) (mkQueue None [] cap false [PopWant; Stopping] [] []) s /\
    stopped_ s = true /\ threads s = [PopWait; Done None] /\ forall s', ~ step false s s'.
Proof.
  exists (mkQueue None [] cap true [PopWait; Done None] [] []). split_and!; [| done | done |].
  - eapply rtc_l; [by apply (step_pop_lock _ _ 0) |]. eapply rtc_l; [by apply (step_pop_no _ _ 0) |].
    eapply rtc_l; [by apply (step_stop _ _ 1) |]. eapply rtc_l; [by apply (step_stop_empty _ _ 1) |].
    eapply rtc_l; [by apply (step_stop_full _ _ 1) |]. eapply rtc_l; [by apply (step_pop_sleep _ _ 0) |].
    apply rtc_refl.
  - intros s' Hs. inversion Hs as
      [t v Ht | t v Ht | t v Ht | t v Ht | t v l Ht | t Ht | t Ht | t Ht | t Ht | t Ht | t Ht | t v rest l Ht
      | t Ht | t Ht | t Ht | t Ht | t p Hsp];
      try discriminate; cbn in Ht; destruct t as [| [| t]]; discriminate.
Qed.

(** the two reads of [stopped_] in push are not one: a producer that
    passes the full test because the queue is stopped and then sees it
    restarted pushes beyond the capacity. *)
Theorem queue_restart_overflows (v w : T) :
  let full := mkQueue None [v] 1 true [PushWant w; Starting] [v] [] in
  exists s, rtc (step false) full s /\ capacity_ s = 1 /\ length (queue_ s) = 2.
Proof.
  cbn zeta. exists (mkQueue None [v; w] 1 false [Done None; Done None] [v; w] []).
  split; [| done].
  eapply rtc_l; [by apply (step_push_lock _ _ 0 w) |]. eapply rtc_l; [by apply (step_push_test _ _ 0 w) |].
  eapply rtc_l; [by apply (step_start _ _ 1) |].
  eapply rtc_l; [eapply (step_push _ _ 0 w); [done | done |] | apply rtc_refl].
  apply notify_none. intros [| [| i]] p Hi; try discriminate; by injection Hi as <-.
Qed.

End Queue.
Arguments Queue : clear implicits.
Arguments pc : clear implicits.

(** ** Witnesses *)

Module Sample.

Definition before : Queue nat := mkQueue None [] 4 false [PushWant 7; TryWant] [] [].
Definition after : Queue nat := mkQueue None [] 4 false [Done None; Done (Some 7)] [7] [7].

Lemma before_initial : initial before.
Proof. split_and!; try done. intros [| [| t]] p Hp; cbn in Hp; try discriminate; by injection Hp as <-. Qed.

Lemma nobody_waits (wake : pc nat -> pc nat) (p q : pc nat) :
  wake p = p -> wake q = q -> notify_one wake [p; q] [p; q].
Proof. intros Hp Hq. apply notify_none. intros [| [| i]] r Hr; cbn in Hr; try discriminate; by injection Hr as <-. Qed.

Lemma before_after : rtc (step true) before after.
Proof.
  eapply rtc_l; [by apply (step_push_lock _ _ 0 7) |]. eapply rtc_l; [by apply (step_push_test _ _ 0 7) |].
  eapply rtc_l; [eapply (step_push _ _ 0 7); [done | done | by apply nobody_waits] |].
  eapply rtc_l; [by apply (step_try_lock _ _ 1) |].
  eapply rtc_l; [eapply (step_try_some _ _ 1 7 []); [done | done | done | by apply nobody_waits] |].
  apply rtc_refl.
Qed.

Lemma queue_fifo_witness : pushed after = popped after ++ queue_ after.
Proof. exact (queue_fifo before after before_initial before_after). Defined.

Lemma queue_bounded_witness : length (queue_ after) <= 4.
Proof.
  refine (proj1 (queue_bounded before after before_initial _ before_after)).
  intros [| [| t]]; cbn; discriminate.
Defined.

End Sample.
