(* ===== verification/Monitor.v ===== *)
(** * The Prometheus monitor

    [Monitor] ([src/monitor/monitor.cc]), [MonitorFactory]
    ([src/monitor/monitor_factory.cc]) and [MonitorSubscriber]
    ([src/monitor/monitor_subscriber.cc]): counter keys, the counters, the
    reaction to configuration changes, and the shutdown protocol between
    [stop] and the consumer thread. *)

From S2P Require Import Prelude Configs Names.

#[local] Open Scope string_scope.

(** ** Counters *)

(** A [std::map] of labels as the list of its entries in key order. *)
Definition Labels : Type := list (string * string).

(* src/monitor/monitor.cc:49-68 Monitor::makeKey *)
Definition makeKey (name : string) (labels : Labels) : string :=
  foldl (fun oss kv => oss +:+ "|" +:+ kv.1 +:+ "=" +:+ kv.2) name labels.

(** [prometheus-cpp].  [register_counter] is building a counter family and adding
    a counter with labels to it, which throws for names Prometheus does not
    allow; [add_value] is the value of a counter after [Increment].  A counter
    holds a [double], here as the integer it stands for. *)
Class Prometheus (double : Type) : Type := {
  to_uint64 : double -> Z;      (* static_cast<uint64_t> *)
  register_counter : string -> Labels -> result exn unit;
  add_value : Z -> Z -> Z
}.

(** the integers a [double] holds without rounding *)
Definition exact_limit : Z := 2 ^ 53.

Class PrometheusLaws (double : Type) `{Prometheus double} : Prop := {
  to_uint64_nonneg : forall d, (0 <= to_uint64 d)%Z;
  add_value_exact : forall n v, (0 <= n)%Z -> (0 <= v)%Z -> (n + v <= exact_limit)%Z -> add_value n v = (n + v)%Z
}.

(** [prometheus::Counter] objects are named by their family and labels;
    [counters_] caches which counter a key stands for. *)
(* src/monitor/monitor.h:16-34 Monitor *)
Record Monitor : Type := mkMonitor {
  counters_ : gmap string (string * Labels);
  registry_ : gmap (string * Labels) Z
}.

Section Counters.
Context {double : Type} `{!Prometheus double}.

Definition Increment (counter : string * Labels) (value : Z) (m : Monitor) : Monitor :=
  mkMonitor (counters_ m) (<[counter := add_value (default 0%Z (registry_ m !! counter)) value]> (registry_ m)).

(* src/monitor/monitor.cc:17-47 Monitor::incrementCounter *)
Definition incrementCounter (name : string) (labels : Labels) (value : double) (m : Monitor)
  : result exn Monitor :=
  let key := makeKey name labels in
  if (key =? "") then Err (EXCEPT "invalid key")
  else
    let value_inc := to_uint64 value in
    match counters_ m !! key with
    | None =>
        _ ← register_counter name labels;
        let counter := (name, labels) in
        Ok (Increment counter value_inc (mkMonitor (<[key := counter]> (counters_ m)) (registry_ m)))
    | Some counter => Ok (Increment counter value_inc m)
    end.

(** a sequence of events, as the consumer thread feeds them *)
Fixpoint increment_all (events : list (string * Labels * double)) (m : Monitor) : result exn Monitor :=
  match events with
  | [] => Ok m
  | (name, labels, value) :: rest => m ← incrementCounter name labels value m; increment_all rest m
  end.

(** what each counter should read *)
Definition total (events : list (string * Labels * double)) (counter : string * Labels) : Z :=
  foldr (fun e n => if decide (e.1 = counter) then (to_uint64 e.2 + n)%Z else n) 0%Z events.

(** ** Separator-free metrics have their own counters *)

Definition clean (s : string) : bool := no_char "|" s && no_char "=" s.
Definition clean_event (c : string * Labels) : bool :=
  clean c.1 && forallb (fun kv => clean kv.1 && clean kv.2) c.2.

#[local] Arguments String.append !_ _ / : simpl nomatch.

Fixpoint label_text (labels : Labels) : string :=
  match labels with
  | [] => ""
  | (k, v) :: rest => "|" +:+ k +:+ "=" +:+ v +:+ label_text rest
  end.

Lemma makeKey_text name labels : makeKey name labels = name +:+ label_text labels.
Proof.
  unfold makeKey. revert name. induction labels as [| [k v] labels IH]; intros name; cbn [foldl fst snd label_text].
  - by rewrite string_app_nil_r.
  - rewrite IH. by rewrite <- !string_app_assoc.
Qed.

Lemma app_sep_inj c s1 s2 t1 t2 :
  no_char c s1 = true -> no_char c s2 = true ->
  t1 = "" \/ (exists r, t1 = String c r) -> t2 = "" \/ (exists r, t2 = String c r) ->
  s1 +:+ t1 = s2 +:+ t2 -> s1 = s2 /\ t1 = t2.
Proof.
  revert s2. induction s1 as [| a s1 IH]; intros [| b s2]; cbn; intros H1 H2 Ht1 Ht2 Heq; try done.
  - exfalso. destruct Ht1 as [-> | [r ->]]; simplify_eq. apply andb_true_iff in H2 as [H2 _].
    by rewrite Ascii.eqb_refl in H2.
  - exfalso. destruct Ht2 as [-> | [r ->]]; simplify_eq. apply andb_true_iff in H1 as [H1 _].
    by rewrite Ascii.eqb_refl in H1.
  - apply andb_true_iff in H1 as [_ H1], H2 as [_ H2]. injection Heq as -> Heq.
    destruct (IH s2 H1 H2 Ht1 Ht2 Heq) as [-> ->]. done.
Qed.

Lemma label_text_head labels : label_text labels = "" \/ exists r, label_text labels = String "|" r.
Proof. destruct labels as [| [k v] labels]; [by left | right; cbn; eauto]. Qed.

Lemma label_text_inj l1 l2 :
  forallb (fun kv => clean kv.1 && clean kv.2) l1 = true ->
  forallb (fun kv => clean kv.1 && clean kv.2) l2 = true ->
  label_text l1 = label_text l2 -> l1 = l2.
Proof.
  revert l2. induction l1 as [| [k1 v1] l1 IH]; intros [| [k2 v2] l2]; cbn; try done.
  unfold clean. rewrite !andb_true_iff. intros [[[Hk1 Hk1'] [Hv1 _]] H1] [[[Hk2 Hk2'] [Hv2 _]] H2] [= Heq].
  destruct (app_sep_inj "=" k1 k2 _ _ Hk1' Hk2' (or_intror (ex_intro _ _ eq_refl)) (or_intror (ex_intro _ _ eq_refl)) Heq)
    as [-> Heq2].
  injection Heq2 as Heq2.
  destruct (app_sep_inj "|" v1 v2 _ _ Hv1 Hv2 (label_text_head _) (label_text_head _) Heq2) as [-> Heq3].
  by rewrite (IH l2 H1 H2 Heq3).
Qed.

Lemma makeKey_inj c1 c2 :
  clean_event c1 = true -> clean_event c2 = true -> makeKey c1.1 c1.2 = makeKey c2.1 c2.2 -> c1 = c2.
Proof.
  destruct c1 as [n1 l1], c2 as [n2 l2]. unfold clean_event; cbn [fst snd]. rewrite !andb_true_iff.
  intros [Hn1 Hl1] [Hn2 Hl2]. unfold clean in Hn1, Hn2. apply andb_true_iff in Hn1 as [Hn1 _], Hn2 as [Hn2 _].
  rewrite !makeKey_text. intros Heq.
  destruct (app_sep_inj "|" n1 n2 _ _ Hn1 Hn2 (label_text_head _) (label_text_head _) Heq) as [-> Ht].
  by rewrite (label_text_inj l1 l2 Hl1 Hl2 Ht).
Qed.

(** what can be counted under a name of its own *)
Definition countable (c : string * Labels) : Prop :=
  clean_event c = true /\ c.1 <> "" /\ register_counter c.1 c.2 = Ok tt.

(** the cache only relates clean keys to their own counters *)
Definition cache_ok (m : Monitor) : Prop :=
  map_Forall (fun key c => key = makeKey c.1 c.2 /\ clean_event c = true) (counters_ m).

(** a countable event changes its own counter and no other one *)
Lemma incrementCounter_spec name labels value m :
  cache_ok m -> countable (name, labels) ->
  exists m', incrementCounter name labels value m = Ok m' /\ cache_ok m' /\
    registry_ m' = <[(name, labels) := add_value (default 0%Z (registry_ m !! (name, labels))) (to_uint64 value)]> (registry_ m).
Proof.
  intros Hm (Hc & Hname & Hreg). cbn [fst snd] in Hname, Hreg.
  assert (Hkey : (makeKey name labels =? "") = false).
  { apply String.eqb_neq. rewrite makeKey_text. by destruct name. }
  unfold incrementCounter. rewrite Hkey.
  destruct (counters_ m !! makeKey name labels) as [c0 |] eqn:Hc0.
  - eexists. split; [done |]. split; [exact Hm |]. destruct (Hm _ _ Hc0) as [Heq Hclean].
    by rewrite <- (makeKey_inj (name, labels) c0 Hc Hclean Heq).
  - rewrite Hreg. cbn [mbind result_bind]. eexists. split; [done |]. split; [| done].
    unfold cache_ok; cbn. by apply map_Forall_insert_2.
Qed.

(** a metric that no event names has no counter *)
Lemma increment_all_uncached name labels events : forall m m',
  clean_event (name, labels) = true -> Forall (fun e => countable e.1 /\ e.1 <> (name, labels)) events ->
  cache_ok m -> counters_ m !! makeKey name labels = None -> increment_all events m = Ok m' ->
  counters_ m' !! makeKey name labels = None.
Proof.
  intros m m' Hclean Hall. revert m. induction Hall as [| [[n l] v] events [Hc Hne] _ IH]; intros m Hm Hnone; [by intros [= <-] |].
  cbn [fst] in *. destruct (incrementCounter_spec n l v m Hm Hc) as (m1 & Heq & Hm1 & _). cbn [increment_all].
  rewrite Heq. cbn [mbind result_bind]. apply (IH m1 Hm1).
  unfold incrementCounter in Heq. destruct (makeKey n l =? ""); [done |].
  destruct (counters_ m !! makeKey n l) eqn:Hold.
  - injection Heq as <-. done.
  - destruct Hc as (Hcl & _ & Hreg). cbn [fst snd] in Hreg. rewrite Hreg in Heq. cbn in Heq. injection Heq as <-. cbn. rewrite lookup_insert_ne; [done |].
    intros Hkey. apply Hne. by apply (makeKey_inj (n, l) (name, labels)).
Qed.

Context `{!PrometheusLaws double}.

Lemma total_nonneg events c : (0 <= total events c)%Z.
Proof.
  induction events as [| e events IH]; [done |]. cbn [total foldr]. fold (total events c).
  pose proof (to_uint64_nonneg e.2). case_decide; lia.
Qed.

Lemma increment_all_spec events : forall m,
  cache_ok m -> Forall (fun e => countable e.1) events ->
  exists m', increment_all events m = Ok m' /\
    forall c, (0 <= default 0 (registry_ m !! c))%Z -> (default 0 (registry_ m !! c) + total events c <= exact_limit)%Z ->
      default 0%Z (registry_ m' !! c) = (default 0%Z (registry_ m !! c) + total events c)%Z.
Proof.
  induction events as [| [[name labels] value] events IH]; intros m Hm Hall.
  - exists m. split; [done |]. intros c _ _. cbn. lia.
  - apply Forall_cons in Hall as [Hc Hall].
    destruct (incrementCounter_spec name labels value m Hm Hc) as (m1 & Heq & Hm1 & Hreg).
    cbn [increment_all]. rewrite Heq; cbn [mbind result_bind].
    destruct (IH m1 Hm1 Hall) as (m' & -> & Hval). exists m'. split; [done |]. intros c Hpos Hsmall.
    pose proof (total_nonneg events c) as Hrest. pose proof (to_uint64_nonneg value) as Hv.
    specialize (Hval c). rewrite Hreg, lookup_insert in Hval.
    assert (Htot : total ((name, labels, value) :: events) c =
              if decide ((name, labels) = c) then (to_uint64 value + total events c)%Z else total events c) by done.
    rewrite Htot in *. case_decide as Hd; [subst c |].
    + cbn in Hval. rewrite add_value_exact in Hval by lia. rewrite Hval by lia. lia.
    + by apply Hval.
Qed.

(** from an empty monitor, every counter reads the sum of the values of
    its own events, in any order of events, when no name, label or label value
    contains a separator of the key and the names are legal. *)
Theorem counters_exact (events : list (string * Labels * double))
  (Hcount : Forall (fun e => countable e.1) events) :
  exists m, increment_all events (mkMonitor ∅ ∅) = Ok m /\
    forall c, (total events c <= exact_limit)%Z -> default 0%Z (registry_ m !! c) = total events c.
Proof.
  destruct (increment_all_spec events (mkMonitor ∅ ∅)) as (m & Heq & Hval); [by intros ? ? ? | done |].
  exists m. split; [done |]. intros c Hsmall. specialize (Hval c). cbn in Hval. rewrite lookup_empty in Hval. by apply Hval.
Qed.

(** a label value that contains the separators makes two different
    metrics share one key: the second one is counted on the first one's
    counter and never appears. *)
Theorem counter_key_collision (name k1 v1 k2 v2 : string) (x y : double)
  (Hname : name <> "") :
  let one := (name, [(k1, v1 +:+ "|" +:+ k2 +:+ "=" +:+ v2)]) in
  let two := (name, [(k1, v1); (k2, v2)]) in
  register_counter one.1 one.2 = Ok tt ->
  one <> two /\
  exists m, increment_all [(one, x); (two, y)] (mkMonitor ∅ ∅) = Ok m /\
    registry_ m !! one = Some (add_value (add_value 0 (to_uint64 x)) (to_uint64 y)) /\ registry_ m !! two = None.
Proof.
  cbn zeta. intros Hreg. cbn [fst snd] in Hreg. split; [congruence |].
  assert (Hkey : makeKey name [(k1, v1 +:+ "|" +:+ k2 +:+ "=" +:+ v2)] = makeKey name [(k1, v1); (k2, v2)]).
  { rewrite !makeKey_text. cbn [label_text]. rewrite !string_app_nil_r. rewrite <- ?string_app_assoc. done. }
  assert (Hne : (makeKey name [(k1, v1); (k2, v2)] =? "") = false).
  { apply String.eqb_neq. rewrite makeKey_text. by destruct name. }
  cbn [increment_all]. unfold incrementCounter. rewrite Hkey, Hne. cbn [counters_]. rewrite lookup_empty, Hreg. cbn [mbind result_bind].
  unfold Increment; cbn [counters_ registry_]. rewrite lookup_insert_eq. cbn [mbind result_bind].
  eexists. split; [done |]. cbn [registry_]. rewrite insert_insert_eq, lookup_insert_eq, lookup_insert_eq, lookup_empty.
  split; [done |]. rewrite lookup_insert_ne by congruence. apply lookup_empty.
Qed.

End Counters.

(** ** The monitor subscriber *)

(** [MonitorFactory]: which monitor object was created last for an address;
    a cached object is reused while somebody still holds it. *)
(* src/monitor/monitor_factory.h:12-20 MonitorFactory *)
Record MonitorFactory : Type := mkFactory { cache_ : gmap string nat; next_object : nat }.

Section Subscriber.
Context `{BuildMode}.
(** prometheus::Exposer's constructor: may throw, for instance when the
    address is in use *)
Context (Exposer : string -> result exn unit).

(* src/monitor/monitor_factory.cc:10-32 MonitorFactory::create *)
Definition create (live : nat -> bool) (bind_address : string) (f : MonitorFactory)
  : result exn (nat * MonitorFactory) :=
  _ ← ASSERT (negb (bind_address =? ""));
  let make :=
    _ ← Exposer bind_address;
    Ok (next_object f, mkFactory (<[bind_address := next_object f]> (cache_ f)) (S (next_object f))) in
  match cache_ f !! bind_address with
  | Some shared => if live shared then Ok (shared, f) else make
  | None => make
  end.

(** [queue_] is set: [main] calls [setQueue] before anything can run the
    subscriber; [queue_started] says whether it accepts and waits *)
(* src/monitor/monitor_subscriber.h:18-40 MonitorSubscriber *)
Record MonitorSubscriber : Type := mkSub {
  running_ : bool;
  bind_address_ : string;
  monitor_ : option nat;
  consumer_thread_ : bool;
  queue_started : bool;
  factory_ : MonitorFactory
}.

Definition set_running (b : bool) (s : MonitorSubscriber) : MonitorSubscriber :=
  mkSub b (bind_address_ s) (monitor_ s) (consumer_thread_ s) (queue_started s) (factory_ s).

(** An operation may throw half-way: the state it leaves is part of the
    outcome.  The consumer thread is joined; see the protocol below for when
    that returns. *)
(* src/monitor/monitor_subscriber.cc:43-72 MonitorSubscriber::run *)
Definition run (bind_address : string) (s : MonitorSubscriber) : result exn unit * MonitorSubscriber :=
  if running_ s then (Ok tt, s)
  else
    let s := set_running true s in
    match ASSERT (negb (bind_address =? "")) with
    | Err e => (Err e, s)
    | Ok _ =>
        let s := mkSub true bind_address (monitor_ s) (consumer_thread_ s) (queue_started s) (factory_ s) in
        match create (fun o => bool_decide (monitor_ s = Some o)) bind_address (factory_ s) with
        | Err e => (Err e, s)
        | Ok (o, f) => (Ok tt, mkSub true bind_address (Some o) true true f)
        end
    end.

(* src/monitor/monitor_subscriber.cc:74-100 MonitorSubscriber::stop *)
Definition stop (s : MonitorSubscriber) : MonitorSubscriber :=
  if negb (running_ s) then s
  else mkSub false "" None false false (factory_ s).

(* src/monitor/monitor_subscriber.cc:16-41 MonitorSubscriber::update *)
Definition update (config : Configs.t) (s : MonitorSubscriber) : result exn unit * MonitorSubscriber :=
  let enabled := Configs.getPrometheusEnabled config in
  let last_enabled := bool_decide (is_Some (monitor_ s)) in
  if negb enabled && negb last_enabled then (Ok tt, s)
  else
    let listen := Configs.getPrometheusListen config in
    let need_restart := negb (bind_address_ s =? listen) in
    if enabled && last_enabled && negb need_restart then (Ok tt, s)
    else
      let s := if negb enabled || (enabled && need_restart) then stop s else s in
      if enabled then run listen s else (Ok tt, s).

(** the monitor runs exactly when the subscriber says so, on its address *)
Definition sub_wf (s : MonitorSubscriber) : Prop :=
  match monitor_ s with
  | Some _ => running_ s = true /\ bind_address_ s <> "" /\ consumer_thread_ s = true /\ queue_started s = true
  | None => running_ s = false /\ bind_address_ s = "" /\ consumer_thread_ s = false
  end.

(** when the address can be bound, an update brings the monitor into the
    configured state from any consistent state (running on the configured
    address with consumer and queue started, or stopped), and an update that
    asks for what is already there changes nothing. *)
Theorem monitor_update_reaches_config (config : Configs.t) (s : MonitorSubscriber)
  (Hwf : sub_wf s) (Hlisten : Configs.getPrometheusListen config <> "")
  (Hbind : Exposer (Configs.getPrometheusListen config) = Ok tt) :
  exists s', update config s = (Ok tt, s') /\ sub_wf s' /\
    (is_Some (monitor_ s') <-> Configs.getPrometheusEnabled config = true) /\
    (Configs.getPrometheusEnabled config = true -> bind_address_ s' = Configs.getPrometheusListen config) /\
    (is_Some (monitor_ s) -> Configs.getPrometheusEnabled config = true ->
       bind_address_ s = Configs.getPrometheusListen config -> s' = s).
Proof.
  unfold update. set (listen := Configs.getPrometheusListen config) in *.
  assert (Hrun : forall f, exists o f',
    run listen (mkSub false "" None false false f) = (Ok tt, mkSub true listen (Some o) true true f')).
  { intros f. unfold run, create, ASSERT; cbn. rewrite (proj2 (String.eqb_neq _ _) Hlisten); cbn.
    rewrite Hbind; cbn. destruct (cache_ f !! listen); eauto. }
  destruct s as [r b [o |] c q f]; unfold sub_wf in Hwf; cbn in Hwf; cbn [monitor_ bind_address_].
  - destruct Hwf as (-> & Hb & -> & ->). rewrite bool_decide_true by eauto.
    destruct (Configs.getPrometheusEnabled config); cbn [negb andb orb].
    + destruct (b =? listen) eqn:Hbl; cbn [negb].
      * apply String.eqb_eq in Hbl as ->. eexists. split; [done |]. by split_and!; eauto.
      * destruct (Hrun f) as (o' & f' & Heq). unfold stop; cbn [running_ negb factory_]. rewrite Heq.
        eexists. split; [done |]. split; [by split_and! |]. split; [split; eauto |]. split; [done |].
        intros _ _ ->. by rewrite String.eqb_refl in Hbl.
    + eexists. split; [done |]. split_and!; try done; split; [by intros [? [=]] | done].
  - destruct Hwf as (-> & -> & ->). rewrite bool_decide_false by apply is_Some_None.
    destruct (Configs.getPrometheusEnabled config); cbn [negb andb orb].
    + replace ("" =? listen) with false by (symmetry; apply String.eqb_neq; congruence). cbn [negb].
      unfold stop; cbn [running_ negb]. destruct (Hrun f) as (o' & f' & Heq).
      assert (Hrun' : exists o f', run listen (mkSub false "" None false q f) = (Ok tt, mkSub true listen (Some o) true true f')).
      { unfold run, create, ASSERT; cbn. rewrite (proj2 (String.eqb_neq _ _) Hlisten); cbn.
        rewrite Hbind; cbn. destruct (cache_ f !! listen); eauto. }
      destruct Hrun' as (o2 & f2 & ->).
      eexists. split; [done |]. split; [by split_and! |]. split; [split; eauto |]. split; [done |]. by intros [? [=]].
    + eexists. split; [done |]. split; [by split_and! |]. split; [split; [by intros [? [=]] | done] |].
      split; [done | by intros [? [=]]].
Qed.

End Subscriber.

(** when the address cannot be bound at first, the subscriber stays marked
    as running on it without a monitor: every later update with the same
    configuration reports success and starts nothing, although the address
    may be free by then. *)
Theorem monitor_failed_start_sticks `{BuildMode} (Exposer Exposer' : string -> result exn unit) (config : Configs.t)
  (s : MonitorSubscriber) (what : exn)
  (Hwf : sub_wf s) (Hoff : monitor_ s = None) (Hlisten : Configs.getPrometheusListen config <> "")
  (Hon : Configs.getPrometheusEnabled config = true)
  (Hfail : Exposer (Configs.getPrometheusListen config) = Err what) :
  exists s', update Exposer config s = (Err what, s') /\ monitor_ s' = None /\
    update Exposer' config s' = (Ok tt, s').
Proof.
  destruct s as [r b o c q f]. cbn in Hoff. subst o. unfold sub_wf in Hwf; cbn in Hwf. destruct Hwf as (-> & -> & ->).
  unfold update. cbn [monitor_ bind_address_]. rewrite Hon, bool_decide_false by apply is_Some_None. cbn [negb andb orb].
  replace ("" =? _) with false by (symmetry; apply String.eqb_neq; congruence). cbn [negb].
  unfold stop, run, create, ASSERT; cbn. rewrite (proj2 (String.eqb_neq _ _) Hlisten); cbn.
  exists (mkSub true (Configs.getPrometheusListen config) None false q f).
  split_and!.
  - rewrite Hfail; cbn. by destruct (cache_ f !! _).
  - done.
  - by rewrite String.eqb_refl.
Qed.

(** ** The shutdown protocol

    [stop] and the consumer thread, with the consumer's work per event split
    at the points where it takes the subscriber's mutex. *)

Inductive stopper_pc : Type := StopBegin | StopLock | StopQueue | StopJoin | StopEnd.
Inductive consumer_pc : Type := LoopTest | LoopPop | EventLock (left : nat) | EventUse (left : nat) | Exited.

Record Shutdown : Type := mkShutdown {
  mutex_by_stopper : bool;    (* mutex_ is held by stop(), otherwise free *)
  sub_running : bool;
  queue_stopped : bool;
  stopper : stopper_pc;
  consumer : consumer_pc
}.

(** The consumer locks and unlocks the mutex in one step, which is enabled
    while [stop] does not hold it. *)
(* src/monitor/monitor_subscriber.cc:78-150 MonitorSubscriber::stop *)
Inductive shutdown_step : Shutdown -> Shutdown -> Prop :=
| sd_exchange b q c : shutdown_step (mkShutdown b true q StopBegin c) (mkShutdown b false q StopLock c)
| sd_lock r q c : shutdown_step (mkShutdown false r q StopLock c) (mkShutdown true r q StopQueue c)
| sd_queue b r q c : shutdown_step (mkShutdown b r q StopQueue c) (mkShutdown b r true StopJoin c)
| sd_join b r q : shutdown_step (mkShutdown b r q StopJoin Exited) (mkShutdown false r q StopEnd Exited)
| sd_test b r q p : shutdown_step (mkShutdown b r q p LoopTest) (mkShutdown b r q p (if r then LoopPop else Exited))
| sd_pop_none b r p : shutdown_step (mkShutdown b r true p LoopPop) (mkShutdown b r true p LoopTest)
| sd_pop_some b r p n : shutdown_step (mkShutdown b r false p LoopPop) (mkShutdown b r false p (EventLock n))
| sd_events_done b r q p : shutdown_step (mkShutdown b r q p (EventLock 0)) (mkShutdown b r q p LoopTest)
| sd_event_lock r q p n : shutdown_step (mkShutdown false r q p (EventLock (S n))) (mkShutdown false r q p (EventUse n))
| sd_event_use b r q p n : shutdown_step (mkShutdown b r q p (EventUse n)) (mkShutdown b r q p (EventLock n)).

Definition shutdown_begin (c : consumer_pc) : Shutdown := mkShutdown false true false StopBegin c.

(** stop() joins the consumer while it holds the mutex the consumer needs
    for every event: with an event in hand at that moment both threads wait
    for each other for ever. *)
Theorem monitor_stop_deadlock (n : nat) :
  exists s, rtc shutdown_step (shutdown_begin LoopTest) s /\ stopper s = StopJoin /\ consumer s = EventLock (S n) /\
    forall s', ~ shutdown_step s s'.
Proof.
  exists (mkShutdown true false true StopJoin (EventLock (S n))). split_and!; [| done | done |].
  - eapply rtc_l; [apply sd_test |]. eapply rtc_l; [apply (sd_pop_some _ _ _ (S n)) |].
    eapply rtc_l; [apply sd_exchange |]. eapply rtc_l; [apply sd_lock |].
    eapply rtc_l; [apply sd_queue |]. apply rtc_refl.
  - intros s' Hs. inversion Hs.
Qed.

(** what the stopper has done when it waits *)
Lemma shutdown_joined s :
  rtc shutdown_step (shutdown_begin LoopTest) s ->
  match stopper s with
  | StopBegin => sub_running s = true
  | StopLock => sub_running s = false
  | StopQueue => sub_running s = false
  | StopJoin => sub_running s = false /\ queue_stopped s = true
  | StopEnd => True
  end.
Proof.
  intros Hr. pattern s. eapply rtc_ind_r; [| | exact Hr]; [done |]. clear s Hr.
  intros s1 s2 _ Hs IH. destruct Hs; cbn in *; try tauto; by destruct p.
Qed.

(** that is the only way to hang: from every reachable state in which the
    stopper waits and the consumer has no event left to look up the monitor
    for, the two threads can finish and stop() returns. *)
Theorem monitor_stop_returns (s : Shutdown)
  (Hreach : rtc shutdown_step (shutdown_begin LoopTest) s) (Hjoin : stopper s = StopJoin)
  (Hidle : forall n, consumer s <> EventLock (S n) /\ consumer s <> EventUse (S n)) :
  exists s', rtc shutdown_step s s' /\ stopper s' = StopEnd /\ consumer s' = Exited.
Proof.
  pose proof (shutdown_joined s Hreach) as Hinv. rewrite Hjoin in Hinv.
  destruct s as [b r q p c]; cbn in *. subst p. destruct Hinv as [-> ->].
  exists (mkShutdown false false true StopEnd Exited). split; [| done].
  assert (Hexit : rtc shutdown_step (mkShutdown b false true StopJoin Exited) (mkShutdown false false true StopEnd Exited)).
  { eapply rtc_l; [apply sd_join | apply rtc_refl]. }
  assert (Htest : rtc shutdown_step (mkShutdown b false true StopJoin LoopTest) (mkShutdown false false true StopEnd Exited)).
  { eapply rtc_l; [apply (sd_test b false) | exact Hexit]. }
  destruct c as [| | [| n] | [| n] |]; try done.
  - eapply rtc_l; [apply sd_pop_none | exact Htest].
  - eapply rtc_l; [apply sd_events_done | exact Htest].
  - by destruct (Hidle n) as [? _].
  - eapply rtc_l; [apply sd_event_use |]. eapply rtc_l; [apply sd_events_done | exact Htest].
  - by destruct (Hidle n) as [_ ?].
Qed.

(** ** Witnesses *)

Module Sample.

#[local] Instance release : BuildMode := true.

Definition idle : MonitorSubscriber := mkSub false "" None false false (mkFactory ∅ 0).
Definition wanted : Configs.t := Configs.setPrometheusEnabled true Configs.default.
Definition in_use : string -> result exn unit := fun _ => Err (StdException "bind").
Definition free : string -> result exn unit := fun _ => Ok tt.
(** numbers as exact integers; names of letters, digits and underscores *)
Definition legal (s : string) : bool :=
  negb (s =? "") &&
  forallb (fun c => let n := Ascii.nat_of_ascii c in
                    (n =? 95)%nat || ((48 <=? n) && (n <=? 57))%nat || ((97 <=? n) && (n <=? 122))%nat)
    (String.list_ascii_of_string s).
#[export] Instance counters : Prometheus Z := {
  to_uint64 := fun x => (x mod 2 ^ 64)%Z;
  register_counter := fun name labels =>
    if legal name && forallb (fun kv => legal kv.1) labels then Ok tt else Err (StdException "Invalid metric name");
  add_value := Z.add
}.
#[export] Instance counters_laws : PrometheusLaws Z.
Proof. split; [intros d; by apply Z.mod_pos_bound | done]. Qed.

Definition events : list (string * Labels * Z) :=
  [("pkts", [("nic", "eth0")], 3%Z); ("pkts", [("nic", "eth1")], 4%Z); ("pkts", [("nic", "eth0")], 5%Z)].

Lemma counters_exact_witness :
  exists m, increment_all events (mkMonitor ∅ ∅) = Ok m /\
    default 0%Z (registry_ m !! ("pkts", [("nic", "eth0")])) = 8%Z.
Proof.
  destruct (counters_exact events) as (m & Heq & Hval); [by repeat constructor |].
  exists m. split; [exact Heq |]. rewrite Hval by (vm_compute; discriminate). vm_compute. reflexivity.
Defined.

Lemma counter_key_collision_witness :
  exists m, increment_all
    [("drops", [("src", "a|dst=b")], 1%Z); ("drops", [("src", "a"); ("dst", "b")], 1%Z)] (mkMonitor ∅ ∅) = Ok m /\
    registry_ m !! ("drops", [("src", "a"); ("dst", "b")]) = None.
Proof.
  destruct (counter_key_collision "drops" "src" "a" "dst" "b" 1%Z 1%Z) as (_ & m & Heq & _ & Hnone);
    [discriminate | reflexivity |].
  exists m. split; [exact Heq | exact Hnone].
Defined.

Lemma monitor_update_reaches_config_witness :
  exists s', update free wanted idle = (Ok tt, s') /\ bind_address_ s' = "0.0.0.0:8080".
Proof.
  destruct (monitor_update_reaches_config free wanted idle) as (s' & Heq & _ & _ & Hbind & _);
    [split_and!; reflexivity | discriminate | reflexivity |].
  exists s'. split; [exact Heq | exact (Hbind eq_refl)].
Defined.

Lemma monitor_failed_start_sticks_witness :
  exists s', update in_use wanted idle = (Err (StdException "bind"), s') /\ update free wanted s' = (Ok tt, s') /\
    monitor_ s' = None.
Proof.
  destruct (monitor_failed_start_sticks in_use free wanted idle (StdException "bind")) as (s' & H1 & H2 & H3);
    [split_and!; reflexivity | reflexivity | discriminate | reflexivity | reflexivity |].
  exists s'. split; [exact H1 | split; [exact H3 | exact H2]].
Defined.

Lemma monitor_stop_returns_witness :
  exists s', rtc shutdown_step (mkShutdown true false true StopJoin LoopPop) s' /\ stopper s' = StopEnd.
Proof.
  destruct (monitor_stop_returns (mkShutdown true false true StopJoin LoopPop)) as (s' & Hs & He & _);
    [| reflexivity | intros n; split; discriminate | exists s'; split; [exact Hs | exact He]].
  eapply rtc_l; [apply sd_test |]. eapply rtc_l; [apply sd_exchange |]. eapply rtc_l; [apply sd_lock |].
  eapply rtc_l; [apply sd_queue |]. apply rtc_refl.
Defined.

End Sample.
