(* ===== verification/Metrics.v ===== *)
(** * From a kernel event to a counter

    [Metrics] and [KernelData] of [src/data/] with their JSON forms, the
    user-mode example service of [src/services/examples/usermode/], which
    reports what its kernel program counted, and the consumer loop of
    [src/monitor/monitor_subscriber.cc], which adds the reports to the counters
    of Monitor. *)

From Stdlib Require Import Sorted.
From S2P Require Import Prelude Names Json Net Monitor.

#[local] Open Scope string_scope.
#[local] Open Scope Z_scope.
#[local] Open Scope list_scope.

(** What these files use of nlohmann::json besides JsonLib: numbers as
    [double] and [std::map<std::string, std::string>], whose entries are in key
    order. *)
Class JsonMetrics (json double : Type) : Type := {
  jdouble : double -> json;
  jlabels : Labels -> json;
  get_double : json -> result exn double;
  get_labels : json -> result exn Labels
}.

Definition key_order (l : Labels) : Prop := StronglySorted (fun a b => String.ltb a b = true) l.*1.

(** Documented behaviour: what was stored is read back. *)
Class JsonMetricsLaws (json double : Type) `{JsonMetrics json double} : Prop := {
  get_jdouble : forall d, get_double (jdouble d) = Ok d;
  get_jlabels : forall l, key_order l -> get_labels (jlabels l) = Ok l
}.

(** ** Metrics and kernel data *)

Section Data.
Context {json double : Type} `{!JsonLib json, !JsonMetrics json double}.

(* src/data/kernel_data.h:19-27 KernelData *)
Record KernelData : Type := mkKernelData { kd_name : string; kd_value : double; kd_labels : Labels }.

(* src/data/metrics.h:16-23 Metrics *)
Record Metrics : Type := mkMetrics { service_ : string; metrics_ : list json }.

(* src/data/kernel_data.cc:9-19 from_json *)
Definition kernel_data_from_json (j : json) (event : KernelData) : result exn KernelData :=
  event ← json_key j "name" get_string (fun s e => mkKernelData s (kd_value e) (kd_labels e)) event;
  event ← json_key j "value" get_double (fun v e => mkKernelData (kd_name e) v (kd_labels e)) event;
  json_key j "labels" get_labels (fun l e => mkKernelData (kd_name e) (kd_value e) l) event.

(* src/data/kernel_data.cc:21-25 to_json *)
Definition kernel_data_to_json (event : KernelData) : json :=
  jobject [("name", jstring (kd_name event)); ("value", jdouble (kd_value event)); ("labels", jlabels (kd_labels event))].

(* src/data/metrics.cc:7-14 from_json *)
Definition metrics_from_json (j : json) (metrics : Metrics) : result exn Metrics :=
  metrics ← json_key j "service" get_string (fun s m => mkMetrics s (metrics_ m)) metrics;
  json_key j "metrics" get_array (fun l m => mkMetrics (service_ m) l) metrics.

(* src/data/metrics.cc:16-19 to_json *)
Definition metrics_to_json (metrics : Metrics) : json :=
  jobject [("service", jstring (service_ metrics)); ("metrics", jarray (metrics_ metrics))].

Context `{!JsonLaws json, !JsonMetricsLaws json double}.

(** reads a key of an object with distinct keys *)
Ltac json_field law :=
  erewrite json_key_object;
    [| refine (bool_decide_unpack _ _); vm_compute; exact I | repeat (first [left; reflexivity | right]) | by apply law];
  cbn [mbind result_bind].

Lemma kernel_data_roundtrip (event e0 : KernelData) :
  key_order (kd_labels event) -> kernel_data_from_json (kernel_data_to_json event) e0 = Ok event.
Proof.
  intros Hl. unfold kernel_data_from_json, kernel_data_to_json.
  json_field @get_jstring. json_field @get_jdouble. json_field @get_jlabels. by destruct event.
Qed.

Lemma metrics_roundtrip (metrics m0 : Metrics) : metrics_from_json (metrics_to_json metrics) m0 = Ok metrics.
Proof.
  unfold metrics_from_json, metrics_to_json. json_field @get_jstring. json_field @get_jarray. by destruct metrics.
Qed.

End Data.
Arguments KernelData double : clear implicits.
Arguments Metrics json : clear implicits.

(** ** The user-mode example *)

Definition SERVICE_NAME_USERMODE : string := "example_usermode".
Definition METRIC_NAME : string := "execve_total".

(** the service's own state, next to its skeleton and ring buffer *)
(* src/services/examples/usermode/example_usermode.h:17-38 ExampleUsermodeEbpf *)
Record ExampleUsermodeEbpf : Type := mkUsermode { count_ : Z }.

(* src/services/examples/usermode/example_usermode.h:36-36 ExampleUsermodeEbpf *)
Definition newUsermode : ExampleUsermodeEbpf := mkUsermode 0.

(** [sizeof(struct execve_event)] *)
(* src/services/examples/usermode/example_usermode.bpf.h:9-11 execve_event *)
Definition sizeof_execve_event : Z := 8.

(** [data]: the record in the ring buffer, if the pointer is not null *)
(* src/services/examples/usermode/example_usermode.cc:94-115 ExampleUsermodeEbpf::onEvent *)
Definition onEvent (data : option (list Z)) (data_sz : Z) (u : ExampleUsermodeEbpf) : Z * ExampleUsermodeEbpf :=
  if negb (data_sz =? sizeof_execve_event) then (-1, u)
  else match data with
       | Some bytes => (0, mkUsermode (le (take 8 bytes)))
       | None => (0, u)
       end.

(** [reserved]: what the reserved record happens to contain; the program does
    not clear it *)
(* src/services/examples/usermode/example_usermode.bpf.c:14-30 handle_execve *)
Definition handle_execve (reserved : option Z) : option Z :=
  match reserved with
  | None => None
  | Some count => Some (if count =? 0 then 1 else u64 (count + 1))
  end.

Section Service.
Context {json double : Type} `{!JsonLib json, !JsonMetrics json double}.
Context `{!Prometheus double}.
(** the conversion of a [uint64_t] to [double] *)
Context (of_uint64 : Z -> double).

(* src/services/examples/usermode/example_usermode.cc:81-91 ExampleUsermodeEbpf::getPrometheusStatus *)
Definition usermode_metrics (u : ExampleUsermodeEbpf) : Metrics json :=
  mkMetrics SERVICE_NAME_USERMODE
    (if 0 <? count_ u
     then [kernel_data_to_json (mkKernelData METRIC_NAME (of_uint64 (count_ u)) [("service", SERVICE_NAME_USERMODE)])]
     else []).

(* src/services/examples/usermode/example_usermode.cc:72-92 ExampleUsermodeEbpf::getPrometheusStatus *)
Definition usermode_status (u : ExampleUsermodeEbpf) : json := metrics_to_json (usermode_metrics u).

(** ** The consumer *)

(** [garbage]: the value of a [KernelData] that is default-constructed *)
Context (garbage : double).

(** one metric of a status: it is dropped while there is no monitor *)
(* src/monitor/monitor_subscriber.cc:129-143 MonitorSubscriber::consumeLoop *)
Definition consume_metric (elem : json) : ST (option Monitor) unit := fun mon =>
  match mon with
  | None => (Ok tt, mon)
  | Some m =>
      match kernel_data_from_json elem (mkKernelData "" garbage []) with
      | Err x => (Err x, mon)
      | Ok event =>
          match incrementCounter (kd_name event) (kd_labels event) (kd_value event) m with
          | Ok m => (Ok tt, Some m)
          | Err x => (Err x, mon)
          end
      end
  end.

(* src/monitor/monitor_subscriber.cc:125-143 MonitorSubscriber::consumeLoop *)
Definition consume_status (status : json) : ST (option Monitor) unit :=
  metrics ← lift (metrics_from_json status (mkMetrics "" []));
  for_each consume_metric (metrics_ metrics).

(** The thread over the statuses it pops, in order: the first exception is
    logged and ends it.  The answer tells whether it still runs. *)
(* src/monitor/monitor_subscriber.cc:113-152 MonitorSubscriber::consumeLoop *)
Fixpoint consumeLoop (popped : list json) (mon : option Monitor) : bool * option Monitor :=
  match popped with
  | [] => (true, mon)
  | status :: popped =>
      match consume_status status mon with
      | (Ok _, mon) => consumeLoop popped mon
      | (Err _, mon) => (false, mon)
      end
  end.

(** ** What the counters show *)

Context `{!JsonLaws json, !JsonMetricsLaws json double}.

(** a report of a service: its name and its metrics *)
Definition report : Type := string * list (KernelData double).
Definition report_json (r : report) : json := metrics_to_json (mkMetrics r.1 (kernel_data_to_json <$> r.2)).

Definition event_of (e : KernelData double) : string * Labels * double := (kd_name e, kd_labels e, kd_value e).
Definition events_of (rs : list report) : list (string * Labels * double) := rs ≫= fun r => event_of <$> r.2.

Definition report_ok (r : report) : Prop :=
  Forall (fun e => key_order (kd_labels e) /\ countable (kd_name e, kd_labels e)) r.2.

Lemma consume_metric_event e m m' :
  key_order (kd_labels e) -> incrementCounter (kd_name e) (kd_labels e) (kd_value e) m = Ok m' ->
  consume_metric (kernel_data_to_json e) (Some m) = (Ok tt, Some m').
Proof. intros Hl Hm. unfold consume_metric. rewrite kernel_data_roundtrip by done. by rewrite Hm. Qed.

Lemma consume_metrics_events l : forall m m',
  Forall (fun e => key_order (kd_labels e)) l -> increment_all (event_of <$> l) m = Ok m' ->
  for_each consume_metric (kernel_data_to_json <$> l) (Some m) = (Ok tt, Some m').
Proof.
  induction l as [| e l IH]; intros m m' Hl; cbn; [by intros [= <-] |]. apply Forall_cons in Hl as [He Hl].
  destruct (incrementCounter (kd_name e) (kd_labels e) (kd_value e) m) as [m1 |] eqn:E; [| done]. cbn.
  intros Hm'. cbv [mbind st_bind]. rewrite (consume_metric_event e m m1 He E). by apply IH.
Qed.

Lemma increment_all_app e1 e2 m :
  increment_all (e1 ++ e2) m = (m ← increment_all e1 m; increment_all e2 m).
Proof.
  revert m. induction e1 as [| [[n l] v] e1 IH]; intros m; cbn; [done |].
  destruct (incrementCounter n l v m) as [m1 |]; cbn; [apply IH | done].
Qed.

Lemma consume_report r m m' :
  report_ok r -> increment_all (event_of <$> r.2) m = Ok m' ->
  consume_status (report_json r) (Some m) = (Ok tt, Some m').
Proof.
  intros Hr Hm. unfold consume_status, report_json. rewrite metrics_roundtrip. cbn. cbv [mbind st_bind lift].
  apply consume_metrics_events; [| done]. eapply Forall_impl; [exact Hr |]. by intros e [? _].
Qed.

Lemma consume_reports rs rest : forall m m',
  Forall report_ok rs -> increment_all (events_of rs) m = Ok m' ->
  consumeLoop ((report_json <$> rs) ++ rest) (Some m) = consumeLoop rest (Some m').
Proof.
  induction rs as [| r rs IH]; intros m m' Hrs; cbn; [by intros [= <-] |]. apply Forall_cons in Hrs as [Hr Hrs].
  rewrite increment_all_app. destruct (increment_all (event_of <$> r.2) m) as [m1 |] eqn:E; [| done]. cbn.
  intros Hm'. rewrite (consume_report r m m1 Hr E). by apply IH.
Qed.

Lemma consume_refused before bad after m1 m x :
  Forall (fun e => key_order (kd_labels e)) before -> increment_all (event_of <$> before) m1 = Ok m ->
  key_order (kd_labels bad) -> kd_name bad ≠ "" -> counters_ m !! makeKey (kd_name bad) (kd_labels bad) = None ->
  register_counter (kd_name bad) (kd_labels bad) = Err x ->
  for_each consume_metric (kernel_data_to_json <$> (before ++ bad :: after)) (Some m1) = (Err x, Some m).
Proof.
  revert m1. induction before as [| e before IH]; intros m1 Hl; cbn.
  - intros [= ->] Hk Hn Hnone Hbad. cbv [mbind st_bind]. unfold consume_metric. rewrite kernel_data_roundtrip by done.
    unfold incrementCounter. rewrite Hnone, Hbad.
    replace (makeKey _ _ =? "")%string with false; [done |]. symmetry. apply String.eqb_neq. rewrite makeKey_text.
    by destruct (kd_name bad).
  - apply Forall_cons in Hl as [He Hl].
    destruct (incrementCounter (kd_name e) (kd_labels e) (kd_value e) m1) as [m2 |] eqn:E; [| done]. cbn.
    intros Hm Hk Hn Hnone Hbad. cbv [mbind st_bind]. rewrite (consume_metric_event e m1 m2 He E). by apply IH.
Qed.

Lemma consume_status_refused service before bad after m1 m x :
  Forall (fun e => key_order (kd_labels e)) before -> increment_all (event_of <$> before) m1 = Ok m ->
  key_order (kd_labels bad) -> kd_name bad ≠ "" -> counters_ m !! makeKey (kd_name bad) (kd_labels bad) = None ->
  register_counter (kd_name bad) (kd_labels bad) = Err x ->
  consume_status (report_json (service, before ++ bad :: after)) (Some m1) = (Err x, Some m).
Proof.
  intros. unfold consume_status, report_json. rewrite metrics_roundtrip. cbn [fst snd metrics_]. cbv [mbind st_bind lift].
  by apply consume_refused.
Qed.

(** a report can be read back from its JSON *)
Lemma report_json_inj r r' : report_ok r -> report_ok r' -> report_json r = report_json r' -> r = r'.
Proof.
  destruct r as [n l], r' as [n' l']. unfold report_ok. cbn [snd]. intros Hl Hl' Heq.
  apply (f_equal (fun j => metrics_from_json j (mkMetrics "" []))) in Heq. unfold report_json in Heq.
  rewrite !metrics_roundtrip in Heq. injection Heq as -> Hls. f_equal. revert l' Hl' Hls.
  induction Hl as [| e l [He _] _ IH]; intros [| e' l'] Hl' Hls; try done. cbn in Hls. injection Hls as Hhd Htl.
  apply Forall_cons in Hl' as [[He' _] Hl']. f_equal; [| by apply IH].
  apply (f_equal (fun j => kernel_data_from_json j (mkKernelData "" garbage []))) in Hhd.
  rewrite !kernel_data_roundtrip in Hhd by done. by injection Hhd.
Qed.

Lemma reports_countable rs : Forall report_ok rs -> Forall (fun e : string * Labels * double => countable e.1) (events_of rs).
Proof.
  intros Hrs. apply Forall_forall. intros e He. unfold events_of in He.
  apply list_elem_of_bind in He as (r & He & Hr). apply list_elem_of_fmap in He as (k & -> & Hk).
  eapply Forall_forall in Hrs; [| exact Hr]. by eapply Forall_forall in Hrs as [_ Hc]; [| exact Hk].
Qed.

Context `{!PrometheusLaws double}.

(** the counters after the consumer has taken these reports: the sum, as long
    as a [double] holds it *)
Lemma consumed_counters rs rest :
  Forall report_ok rs -> exists m, consumeLoop ((report_json <$> rs) ++ rest) (Some (mkMonitor ∅ ∅)) = consumeLoop rest (Some m) /\
    forall c, total (events_of rs) c <= exact_limit -> default 0 (registry_ m !! c) = total (events_of rs) c.
Proof.
  intros Hrs. destruct (increment_all_spec (events_of rs) (mkMonitor ∅ ∅)) as (m & Hm & Hval);
    [by intros ? ? ? | by apply reports_countable |].
  exists m. split; [by apply consume_reports |]. intros c Hsmall. specialize (Hval c). cbn in Hval.
  rewrite lookup_empty in Hval. by apply Hval.
Qed.

(** every metric of every report reaches its own counter exactly once:
    from JSON reports in the order they are popped, each counter ends at the
    sum of its values. *)
Theorem reports_reach_counters (rs : list report) (Hrs : Forall report_ok rs) :
  exists m, consumeLoop (report_json <$> rs) (Some (mkMonitor ∅ ∅)) = (true, Some m) /\
    forall c, total (events_of rs) c <= exact_limit -> default 0 (registry_ m !! c) = total (events_of rs) c.
Proof.
  destruct (consumed_counters rs [] Hrs) as (m & Hm & Hval). rewrite app_nil_r in Hm. by exists m.
Qed.

(** one report that does not decode ends the consumer for good: the
    counters keep what was reported before it, and every later report of every
    service is lost. *)
Theorem bad_report_ends_consumer (rs : list report) (bad : json) (later : list json) (x : exn)
  (Hrs : Forall report_ok rs) (Hbad : metrics_from_json bad (mkMetrics "" []) = Err x) :
  exists m, consumeLoop ((report_json <$> rs) ++ bad :: later) (Some (mkMonitor ∅ ∅)) = (false, Some m) /\
    forall c, total (events_of rs) c <= exact_limit -> default 0 (registry_ m !! c) = total (events_of rs) c.
Proof.
  destruct (consumed_counters rs (bad :: later) Hrs) as (m & Hm & Hval). exists m. split; [| done]. rewrite Hm.
  cbn. unfold consume_status. rewrite Hbad. done.
Qed.

(** so does a metric whose name or labels Prometheus refuses: what its report
    had before it is counted, the rest of the report and all later ones are
    not. *)
Theorem refused_metric_ends_consumer (rs : list report) (service : string) (before : list (KernelData double))
  (bad : KernelData double) (after : list (KernelData double)) (later : list json) (x : exn)
  (Hrs : Forall report_ok rs) (Hbefore : report_ok (service, before))
  (Hlabels : key_order (kd_labels bad)) (Hname : kd_name bad ≠ "") (Hclean : clean_event (kd_name bad, kd_labels bad) = true)
  (Hnew : Forall (fun e => (e.1 : string * Labels) ≠ (kd_name bad, kd_labels bad)) (events_of (rs ++ [(service, before)])))
  (Hbad : register_counter (kd_name bad) (kd_labels bad) = Err x) :
  exists m, consumeLoop ((report_json <$> rs) ++ report_json (service, before ++ bad :: after) :: later) (Some (mkMonitor ∅ ∅))
      = (false, Some m) /\
    forall c, total (events_of (rs ++ [(service, before)])) c <= exact_limit ->
      default 0 (registry_ m !! c) = total (events_of (rs ++ [(service, before)])) c.
Proof.
  assert (Hall : Forall report_ok (rs ++ [(service, before)])) by (apply Forall_app; by split; [| apply Forall_singleton]).
  pose proof (reports_countable _ Hall) as Hcount.
  destruct (increment_all_spec (events_of (rs ++ [(service, before)])) (mkMonitor ∅ ∅)) as (m & Hm & Hval);
    [by intros ? ? ? | done |].
  assert (Hnone : counters_ m !! makeKey (kd_name bad) (kd_labels bad) = None).
  { eapply increment_all_uncached; [exact Hclean | | | | exact Hm]; [| by intros ? ? ? | by apply lookup_empty].
    apply Forall_and. by split. }
  exists m. split.
  - pose proof Hm as Hm1. unfold events_of in Hm1. rewrite bind_app, increment_all_app in Hm1.
    destruct (increment_all (rs ≫= fun r => event_of <$> r.2) (mkMonitor ∅ ∅)) as [m1 |] eqn:E; [| done].
    cbn [mbind result_bind list_bind snd] in Hm1. rewrite app_nil_r in Hm1.
    rewrite (consume_reports rs _ _ m1 Hrs E). cbn [consumeLoop].
    rewrite (consume_status_refused service before bad after m1 m x); try done.
    eapply Forall_impl; [exact Hbefore |]. by intros e [? _].
  - intros c Hsmall. specialize (Hval c). cbn in Hval. rewrite lookup_empty in Hval. by apply Hval.
Qed.

Lemma usermode_report u :
  0 < count_ u -> usermode_status u =
    report_json (SERVICE_NAME_USERMODE, [mkKernelData METRIC_NAME (of_uint64 (count_ u)) [("service", SERVICE_NAME_USERMODE)]]).
Proof. intros Hc. unfold usermode_status, usermode_metrics. rewrite (proj2 (Z.ltb_lt _ _) Hc). done. Qed.

Lemma usermode_total n v :
  total (events_of (replicate n (SERVICE_NAME_USERMODE, [mkKernelData METRIC_NAME v [("service", SERVICE_NAME_USERMODE)]])))
    (METRIC_NAME, [("service", SERVICE_NAME_USERMODE)]) = Z.of_nat n * to_uint64 v.
Proof.
  induction n as [| n IH]; [done |]. cbn [replicate]. unfold events_of in *. cbn [mbind list_bind].
  cbn [fmap list_fmap snd app]. unfold total in *. cbn [foldr event_of kd_name kd_labels kd_value fst snd].
  rewrite decide_True by done. rewrite IH. lia.
Qed.

(** the example reports a total and the consumer adds it: after one event
    that carries the number n, k rounds of the producer leave the counter at k
    times n, although nothing happened after the event. *)
Theorem usermode_total_counted_every_round (bytes : list Z) (k : nat)
  (Hconv : to_uint64 (of_uint64 (le (take 8 bytes))) = le (take 8 bytes)) (Hpos : 0 < le (take 8 bytes))
  (Hname : register_counter METRIC_NAME [("service", SERVICE_NAME_USERMODE)] = Ok tt)
  (Hsmall : Z.of_nat k * le (take 8 bytes) <= exact_limit) :
  let r := onEvent (Some bytes) 8 newUsermode in
  r.1 = 0 /\ exists m, consumeLoop (replicate k (usermode_status r.2)) (Some (mkMonitor ∅ ∅)) = (true, Some m) /\
    default 0 (registry_ m !! (METRIC_NAME, [("service", SERVICE_NAME_USERMODE)])) = Z.of_nat k * le (take 8 bytes).
Proof.
  cbv zeta. unfold onEvent. cbn [negb sizeof_execve_event fst snd Z.eqb Pos.eqb]. split; [done |]. set (u := mkUsermode _).
  set (r := (SERVICE_NAME_USERMODE, [mkKernelData METRIC_NAME (of_uint64 (count_ u)) [("service", SERVICE_NAME_USERMODE)]])).
  destruct (consumed_counters (replicate k r) []) as (m & Hm & Hval).
  { apply Forall_forall. intros r' [-> _]%elem_of_replicate. apply Forall_singleton. split; [| done]. unfold key_order. cbn.
    repeat constructor. }
  exists m. rewrite app_nil_r, fmap_replicate in Hm. rewrite usermode_report by done. split; [exact Hm |].
  specialize (Hval (METRIC_NAME, [("service", SERVICE_NAME_USERMODE)])). unfold r in Hval. rewrite usermode_total in Hval.
  cbn [count_ u] in Hval. rewrite Hconv in Hval. by apply Hval.
Qed.

End Service.

(** ** Concrete runs *)

Module Sample.

#[local] Existing Instance Monitor.Sample.counters.
#[local] Existing Instance Monitor.Sample.counters_laws.

Fixpoint string_values (l : list (string * RefJson.t)) : result exn Labels :=
  match l with
  | [] => Ok []
  | (k, j) :: l => s ← get_string j; rest ← string_values l; Ok ((k, s) :: rest)
  end.

(** numbers as exact integers *)
#[export] Instance ref_metrics : JsonMetrics RefJson.t Z := {
  jdouble := RefJson.Num;
  jlabels := fun l => RefJson.Obj ((fun kv => (kv.1, RefJson.Str kv.2)) <$> l);
  get_double := fun j => match j with RefJson.Num z => Ok z | _ => Err RefJson.type_error end;
  get_labels := fun j => match j with RefJson.Obj l => string_values l | _ => Err RefJson.type_error end
}.

#[export] Instance ref_metrics_laws : JsonMetricsLaws RefJson.t Z.
Proof. split; [done |]. intros l _. cbn. induction l as [| [k v] l IH]; cbn; [done |]. by rewrite IH. Qed.

Definition usermode_report_of (n : Z) : report (double := Z) :=
  (SERVICE_NAME_USERMODE, [mkKernelData METRIC_NAME n [("service", SERVICE_NAME_USERMODE)]]).
Definition other_report : report (double := Z) := ("acl", [mkKernelData "dropped_total" 7 [("nic", "eth0"); ("service", "acl")]]).

Lemma report_ok_usermode n : report_ok (usermode_report_of n).
Proof. apply Forall_singleton. split; [repeat constructor | done]. Qed.

Lemma report_ok_other : report_ok other_report.
Proof. apply Forall_singleton. split; [repeat constructor | done]. Qed.

Lemma reports_reach_counters_witness : exists m,
  consumeLoop 0 (report_json (json := RefJson.t) <$> [usermode_report_of 3; other_report; usermode_report_of 4])
    (Some (mkMonitor ∅ ∅)) = (true, Some m) /\
  default 0 (registry_ m !! ("execve_total", [("service", "example_usermode")])) = 7.
Proof.
  destruct (reports_reach_counters (json := RefJson.t) 0 [usermode_report_of 3; other_report; usermode_report_of 4])
    as (m & Hm & Hval); [repeat (apply Forall_cons; split; [first [apply report_ok_usermode | apply report_ok_other] |]); apply Forall_nil; exact I |].
  exists m. split; [exact Hm |]. rewrite Hval by (vm_compute; discriminate). vm_compute. reflexivity.
Defined.

Lemma bad_report_ends_consumer_witness : exists m,
  consumeLoop 0 ((report_json (json := RefJson.t) <$> [usermode_report_of 3]) ++
      RefJson.Obj [("metrics", RefJson.Null)] :: [report_json (usermode_report_of 4)]) (Some (mkMonitor ∅ ∅)) = (false, Some m) /\
  default 0 (registry_ m !! ("execve_total", [("service", "example_usermode")])) = 3.
Proof.
  destruct (bad_report_ends_consumer (json := RefJson.t) 0 [usermode_report_of 3]
              (RefJson.Obj [("metrics", RefJson.Null)]) [report_json (usermode_report_of 4)] RefJson.type_error)
    as (m & Hm & Hval); [apply Forall_singleton, report_ok_usermode | reflexivity |].
  exists m. split; [exact Hm |]. rewrite Hval by (vm_compute; discriminate). vm_compute. reflexivity.
Defined.

(** a name with a dash *)
Definition dashed : KernelData Z := mkKernelData "dropped-total" 1 [].

Lemma refused_metric_ends_consumer_witness : exists m,
  consumeLoop 0 ((report_json (json := RefJson.t) <$> [usermode_report_of 3]) ++
      report_json ("acl", other_report.2 ++ dashed :: other_report.2) :: [report_json (usermode_report_of 4)])
    (Some (mkMonitor ∅ ∅)) = (false, Some m) /\
  default 0 (registry_ m !! ("execve_total", [("service", "example_usermode")])) = 3.
Proof.
  destruct (refused_metric_ends_consumer (json := RefJson.t) 0 [usermode_report_of 3] "acl" other_report.2 dashed other_report.2
              [report_json (usermode_report_of 4)] (StdException "Invalid metric name"))
    as (m & Hm & Hval);
    [apply Forall_singleton, report_ok_usermode | apply report_ok_other | constructor | discriminate | reflexivity
    | repeat constructor; discriminate | reflexivity |].
  exists m. split; [exact Hm |]. rewrite Hval by (vm_compute; discriminate). vm_compute. reflexivity.
Defined.

Lemma usermode_total_counted_every_round_witness : exists m,
  consumeLoop 0 (replicate 3 (usermode_status (json := RefJson.t) (fun z => z) (mkUsermode 5)))
    (Some (mkMonitor ∅ ∅)) = (true, Some m) /\
  default 0 (registry_ m !! (METRIC_NAME, [("service", SERVICE_NAME_USERMODE)])) = 15.
Proof.
  destruct (usermode_total_counted_every_round (json := RefJson.t) (fun z => z) 0 [5; 0; 0; 0; 0; 0; 0; 0] 3)
    as (_ & m & Hm & Hval); [reflexivity | vm_compute; reflexivity | reflexivity | vm_compute; discriminate |].
  exists m. split; [exact Hm | exact Hval].
Defined.

End Sample.
