(* ===== verification/Klog.v ===== *)
(** * The kernel log: event layout and the user-space formatter

    [bpf_log_event_internal] of [src/services/klog/klog_helpers.bpf.h] writes
    an event into the ring buffer, [Klog::logEvent] of
    [src/services/klog/klog.cc] decodes it and expands the format string
    into a 1024-byte buffer.  Texts are lists of bytes; the buffer is the
    list of the characters written so far and the index [pos]; reads past the
    event and writes past the buffer are faults. *)

From S2P Require Import Prelude Net.

#[local] Open Scope Z_scope.
#[local] Open Scope list_scope.

(* src/services/klog/klog.bpf.h:15-15 MAX_ARGS_CNT *)
Definition MAX_ARGS_CNT : nat := 10.
Definition BUFFER_SIZE : nat := 1024.

Inductive fault : Type :=
| ReadPastEvent
| WriteOutOfBounds (index : nat).

(** ** Bytes *)

Fixpoint le_bytes (n : nat) (x : Z) : list Z :=
  match n with O => [] | S n => x mod 256 :: le_bytes n (x / 256) end.

(** the bytes of a string literal *)
Fixpoint str (s : string) : list Z :=
  match s with EmptyString => [] | String a r => Z.of_nat (nat_of_ascii a) :: str r end.

(** ** snprintf's conversions *)

Definition digit_char (upper : bool) (d : Z) : Z :=
  if d <? 10 then 48 + d else (if upper then 55 else 87) + d.

Fixpoint digits (fuel : nat) (upper : bool) (base n : Z) (acc : list Z) : list Z :=
  match fuel with
  | O => acc
  | S fuel =>
      let acc := digit_char upper (n mod base) :: acc in
      if n / base =? 0 then acc else digits fuel upper base (n / base) acc
  end.

(** 64 digits are enough for a 64-bit number in any base *)
Definition unsigned (upper : bool) (base n : Z) : list Z := digits 64 upper base n [].
Definition fmt_llu (v : Z) : list Z := unsigned false 10 (u64 v).
Definition fmt_lld (v : Z) : list Z :=
  let s := i64 v in if s <? 0 then 45 :: unsigned false 10 (- s) else unsigned false 10 s.
Definition fmt_llx (v : Z) : list Z := unsigned false 16 (u64 v).
Definition fmt_llX (v : Z) : list Z := unsigned true 16 (u64 v).
Definition fmt_p (v : Z) : list Z := if u64 v =? 0 then str "(nil)" else str "0x" ++ unsigned false 16 (u64 v).

(** [inet_ntoa] of the low 32 bits, which hold the address in memory order *)
Definition inet_ntoa (v : Z) : list Z :=
  let octet k := unsigned false 10 (Z.land (Z.shiftr v (8 * k)) 255) in
  octet 0 ++ str "." ++ octet 1 ++ str "." ++ octet 2 ++ str "." ++ octet 3.

Definition PERCENT : Z := 37.

(** the conversion of one specifier; [None] for a character that is none *)
(* src/services/klog/klog.cc:78-134 Klog::logEvent *)
Definition convert (spec val : Z) : option (list Z) :=
  if spec =? 100 then Some (fmt_lld val)            (* d *)
  else if spec =? 117 then Some (fmt_llu val)       (* u *)
  else if spec =? 120 then Some (fmt_llx val)       (* x *)
  else if spec =? 88 then Some (fmt_llX val)        (* X *)
  else if spec =? 112 then Some (fmt_p val)         (* p *)
  else if spec =? 80 then                           (* P *)
    Some (if u64 val =? IPPROTO_TCP then str "TCP"
          else if u64 val =? IPPROTO_UDP then str "UDP"
          else if u64 val =? IPPROTO_ICMP then str "ICMP"
          else fmt_lld val)
  else if spec =? 65 then Some (inet_ntoa val)      (* A *)
  else None.

(** is it one of the supported specifiers *)
Definition is_spec (spec : Z) : bool := bool_decide (is_Some (convert spec 0)).

(** [snprintf(formatted_msg + pos, sizeof(formatted_msg) - pos, ..)]: at most
    [BUFFER_SIZE - pos - 1] characters are stored, the returned length is that
    of the whole text. *)
Definition snprintf (out : list Z) (pos : nat) (text : list Z) : nat * list Z :=
  ((pos + length text)%nat, out ++ take (BUFFER_SIZE - pos - 1) text).

(** [formatted_msg[pos++] = c] *)
Definition put (out : list Z) (pos : nat) (c : Z) : result fault (nat * list Z) :=
  if (pos <? BUFFER_SIZE)%nat then Ok (S pos, out ++ [c]) else Err (WriteOutOfBounds pos).

(** The loop over the format string: [fmt] is what is left of the event from
    the read position on. *)
(* src/services/klog/klog.cc:60-145 Klog::logEvent *)
Fixpoint format_loop (fmt : list Z) (args : list Z) (arg_idx pos : nat) (out : list Z)
  : result fault (nat * list Z) :=
  match fmt with
  | [] => Err ReadPastEvent
  | c :: rest =>
      if (c =? 0) || negb (pos <? BUFFER_SIZE - 1)%nat then Ok (pos, out)
      else if negb (c =? PERCENT) then
        '(pos, out) ← put out pos c; format_loop rest args arg_idx pos out
      else
        match rest with
        | [] => Err ReadPastEvent
        | spec :: rest =>
            if spec =? PERCENT then
              '(pos, out) ← put out pos PERCENT; format_loop rest args arg_idx pos out
            else if is_spec spec then
              if (MAX_ARGS_CNT <=? arg_idx)%nat then
                let '(pos, out) := snprintf out pos (str "<missing>") in
                format_loop rest args arg_idx pos out
              else
                let val := nth arg_idx args 0 in
                let '(pos, out) := snprintf out pos (default [] (convert spec val)) in
                format_loop rest args (S arg_idx) pos out
            else
              '(pos, out) ← put out pos PERCENT;
              '(pos, out) ← put out pos spec;
              format_loop rest args arg_idx pos out
        end
  end.

(** a buffer as a C string *)
Fixpoint until_nul (buffer : list Z) : list Z :=
  match buffer with
  | [] => []
  | c :: rest => if c =? 0 then [] else c :: until_nul rest
  end.

(** with the final NUL; the text that is logged ends at the first one *)
(* src/services/klog/klog.cc:60-145 Klog::logEvent *)
Definition format (fmt args : list Z) : result fault (list Z) :=
  '(pos, out) ← format_loop fmt args 0 0 [];
  if (pos <? BUFFER_SIZE)%nat then Ok (until_nul (take pos out)) else Err (WriteOutOfBounds pos).

(** ** Events *)

(** offsets of [struct log_event]: the 64-bit arguments are aligned, and the
    structure is padded at the end *)
Definition offsetof_args : nat := 8.
Definition offsetof_msg_len : nat := 88.
Definition offsetof_msg : nat := 90.
Definition sizeof_log_event : nat := 96.

(** the decoded header *)
(* src/services/klog/klog.bpf.h:24-29 log_event *)
Record log_event : Type := mkEvent { level : Z; args : list Z; msg_len : Z; msg : list Z }.

Definition read_event (data : list Z) : log_event :=
  mkEvent (load16 data 0)
    ((fun i => le (take 8 (drop (offsetof_args + 8 * i) data))) <$> seq 0 MAX_ARGS_CNT)
    (load16 data offsetof_msg_len) (drop offsetof_msg data).

Inductive outcome : Type :=
| Rejected                               (* returns -1 *)
| Filtered                               (* returns 0 without logging *)
| Logged (at_level : Z) (text : list Z). (* returns 0 *)

(** the level a text is logged at: anything unknown is logged as "off" *)
(* src/services/klog/klog.cc:149-171 Klog::logEvent *)
Definition log_level (klevel : Z) : Z := if klevel <=? 5 then klevel else 6.

(* src/services/klog/klog.cc:35-174 Klog::logEvent *)
Definition logEvent (threshold : Z) (data : list Z) : result fault outcome :=
  if (length data <? sizeof_log_event)%nat then Ok Rejected
  else if (length data <? offsetof_msg)%nat then Ok Rejected
  else
    let event := read_event data in
    let klevel := level event in
    if klevel <? u32 threshold then Ok Filtered
    else
      formatted_msg ← format (msg event) (args event);
      Ok (Logged (log_level klevel) formatted_msg).

(** The event a kernel program submits; [pad] and [tail] are the bytes of the
    reserved record that nobody writes. *)
(* src/services/klog/klog_helpers.bpf.h:26-55 bpf_log_event_internal *)
Definition bpf_log_event_internal (pad tail : list Z) (level : Z) (msg : list Z) (args : list Z) : list Z :=
  le_bytes 2 (u16 level) ++ pad ++ flat_map (fun a => le_bytes 8 (u64 a)) args ++
  le_bytes 2 (u16 (Z.of_nat (length msg))) ++ msg ++ [0] ++ tail.

(** ** What the formatter should produce *)

(** the expansion of a format string without any buffer *)
Fixpoint render (fmt : list Z) (args : list Z) (arg_idx : nat) : list Z :=
  match fmt with
  | [] => []
  | c :: rest =>
      if negb (c =? PERCENT) then c :: render rest args arg_idx
      else
        match rest with
        | [] => []
        | spec :: rest =>
            if spec =? PERCENT then PERCENT :: render rest args arg_idx
            else if is_spec spec then
              if (MAX_ARGS_CNT <=? arg_idx)%nat then str "<missing>" ++ render rest args arg_idx
              else default [] (convert spec (nth arg_idx args 0)) ++ render rest args (S arg_idx)
            else PERCENT :: spec :: render rest args arg_idx
        end
  end.

(** no character is NUL and no [%] is left without its specifier *)
Fixpoint complete (fmt : list Z) : bool :=
  match fmt with
  | [] => true
  | c :: rest =>
      negb (c =? 0) &&
      (if negb (c =? PERCENT) then complete rest
       else match rest with [] => false | spec :: rest => negb (spec =? 0) && complete rest end)
  end.

Example render_example :
  render (str "drop [%P] %A:%u %x%% %q") [6; 16777226 + 2 * 2 ^ 16; 8080; 255] 0 = str "drop [TCP] 10.0.2.1:8080 ff% %q".
Proof. vm_compute. reflexivity. Qed.

(** ** Facts *)

Lemma digits_nonempty fuel upper base n acc : (0 < fuel)%nat -> digits fuel upper base n acc <> [].
Proof.
  revert n acc. induction fuel as [| fuel IH]; intros n acc Hf; [lia |]. cbn [digits].
  destruct (n / base =? 0); [done |]. destruct fuel; [done |]. apply IH. lia.
Qed.

Lemma unsigned_nonempty upper base n : unsigned upper base n <> [].
Proof. apply digits_nonempty. lia. Qed.

Lemma convert_nonempty spec val t : convert spec val = Some t -> t <> [].
Proof.
  assert (Hlld : fmt_lld val <> []) by (unfold fmt_lld; case_match; [done | apply unsigned_nonempty]).
  unfold convert. repeat (case_match; [intros [= <-] |]); try done; try apply unsigned_nonempty.
  - unfold fmt_p. case_match; discriminate.
  - unfold inet_ntoa. intros [Hu _]%app_nil. by apply unsigned_nonempty in Hu.
Qed.

Lemma is_spec_convert spec val : is_spec spec = true -> exists t, convert spec val = Some t /\ t <> [].
Proof.
  intros Hs. assert (Hc : is_Some (convert spec val)).
  { unfold is_spec in Hs. apply bool_decide_eq_true in Hs. revert Hs. unfold convert.
    repeat case_match; eauto. }
  destruct Hc as [t Ht]. exists t. split; [done | by eapply convert_nonempty].
Qed.

Lemma put_ok out c : (length out < BUFFER_SIZE)%nat -> put out (length out) c = Ok (S (length out), out ++ [c]).
Proof. intros Hl. unfold put. by rewrite (proj2 (Nat.ltb_lt _ _) Hl). Qed.

Lemma snprintf_fits out text :
  (length out + length text <= BUFFER_SIZE - 1)%nat ->
  snprintf out (length out) text = (length (out ++ text), out ++ text).
Proof. intros Hl. unfold snprintf. rewrite length_app, take_ge by lia. done. Qed.

Lemma complete_cons c rest :
  complete (c :: rest) = true -> (c =? 0) = false /\
  ((c =? PERCENT) = false /\ complete rest = true \/
   (c =? PERCENT) = true /\ exists spec rest', rest = spec :: rest' /\ (spec =? 0) = false /\ complete rest' = true).
Proof.
  cbn [complete]. rewrite andb_true_iff, negb_true_iff. intros [H0 H]. split; [done |].
  destruct (c =? PERCENT); cbn [negb] in H; [right | by left]. split; [done |].
  destruct rest as [| spec rest']; [done |]. apply andb_true_iff in H as [H1 H2]. apply negb_true_iff in H1. eauto.
Qed.

Lemma render_nonempty fmt args idx : complete fmt = true -> fmt <> [] -> render fmt args idx <> [].
Proof.
  intros Hc Hne. destruct fmt as [| c rest]; [done |].
  apply complete_cons in Hc as (_ & [(Hp & _) | (Hp & spec & rest' & -> & _ & _)]); cbn [render]; rewrite Hp; cbn [negb]; [done |].
  destruct (spec =? PERCENT); [done |]. destruct (is_spec spec) eqn:Hs; [| done].
  destruct (MAX_ARGS_CNT <=? idx)%nat; [done |].
  destruct (is_spec_convert spec (nth idx args 0) Hs) as (t & -> & Ht). cbn. by destruct t.
Qed.

(** a text without NUL, as every conversion is *)
Definition nul_free (l : list Z) : Prop := Forall (fun c => c <> 0) l.

Lemma until_nul_free l : nul_free l -> until_nul l = l.
Proof. induction 1 as [| c l Hc _ IH]; [done |]. cbn. by rewrite (proj2 (Z.eqb_neq _ _) Hc), IH. Qed.

Lemma digits_nul_free fuel upper base n acc : 0 < base -> nul_free acc -> nul_free (digits fuel upper base n acc).
Proof.
  intros Hb. revert n acc. induction fuel as [| fuel IH]; intros n acc Hacc; [done |]. cbn [digits].
  assert (Hnew : nul_free (digit_char upper (n mod base) :: acc)).
  { apply Forall_cons. split; [| done]. pose proof (Z.mod_pos_bound n base Hb). unfold digit_char.
    destruct (n mod base <? 10), upper; lia. }
  destruct (n / base =? 0); [done | by apply IH].
Qed.

Lemma unsigned_nul_free upper base n : 0 < base -> nul_free (unsigned upper base n).
Proof. intros Hb. by apply digits_nul_free; [| apply Forall_nil]. Qed.

Lemma convert_nul_free spec val : nul_free (default [] (convert spec val)).
Proof.
  assert (Hu : forall up base n, 0 < base -> nul_free (unsigned up base n)) by (intros; by apply unsigned_nul_free).
  assert (Hs : nul_free (fmt_lld val)).
  { unfold fmt_lld. case_match; [apply Forall_cons; split; [done |] |]; by apply Hu. }
  assert (Ht : forall l, forallb (fun c => negb (c =? 0)) l = true -> nul_free l).
  { intros l Hl. apply Forall_forall. intros c Hc%list_elem_of_In. rewrite forallb_forall in Hl.
    by apply Hl, negb_true_iff, Z.eqb_neq in Hc. }
  unfold convert. repeat case_match; cbn [default from_option]; try done; try (by apply Hu); try (by apply Ht).
  - unfold fmt_p. case_match; [by apply Ht |]. apply Forall_app. split; [by apply Ht | by apply Hu].
  - unfold inet_ntoa. cbv beta zeta. unfold nul_free in *. repeat (apply Forall_app; split); first [by apply Hu | by apply Ht].
Qed.

Lemma render_nul_free fmt : forall args idx, complete fmt = true -> nul_free (render fmt args idx).
Proof.
  induction fmt as [fmt IH] using (induction_ltof1 _ (@length Z)); unfold ltof in IH; intros args idx Hc.
  destruct fmt as [| c rest]; [constructor |].
  apply complete_cons in Hc as (H0 & [(Hp & Hc) | (Hp & spec & rest' & -> & Hs0 & Hc)]);
    cbn [render]; rewrite Hp; cbn [negb]; apply Z.eqb_neq in H0.
  - apply Forall_cons. split; [done |]. apply IH; [cbn; lia | done].
  - apply Z.eqb_neq in Hs0. assert (Hrest : forall i, nul_free (render rest' args i)) by (intros i; apply IH; [cbn; lia | done]).
    destruct (spec =? PERCENT); [by apply Forall_cons; split; [| apply Hrest] |].
    destruct (is_spec spec); [| by do 2 (apply Forall_cons; split; [done |]); apply Hrest].
    destruct (MAX_ARGS_CNT <=? idx)%nat; apply Forall_app; (split; [| apply Hrest]).
    + by repeat (apply Forall_cons; split; [done |]).
    + apply convert_nul_free.
Qed.

(** arithmetic on lengths *)
Ltac fits := rewrite ?length_app; cbn [length app] in *; done || lia.

(** Within the buffer the loop computes the expansion. *)
Lemma format_loop_render fmt tail args : forall idx out,
  complete fmt = true -> (length out + length (render fmt args idx) <= BUFFER_SIZE - 1)%nat ->
  format_loop (fmt ++ 0 :: tail) args idx (length out) out =
    Ok (length (out ++ render fmt args idx), out ++ render fmt args idx).
Proof.
  induction fmt as [fmt IH] using (induction_ltof1 _ (@length Z)); unfold ltof in IH; intros idx out Hc Hfit.
  destruct fmt as [| c rest]; [cbn; by rewrite !app_nil_r |].
  assert (Hroom : (length out <? BUFFER_SIZE - 1)%nat = true).
  { apply Nat.ltb_lt. pose proof (render_nonempty (c :: rest) args idx Hc ltac:(done)) as Hne.
    destruct (render (c :: rest) args idx); [done | cbn in Hfit |- *; lia]. }
  pose proof (proj1 (Nat.ltb_lt _ _) Hroom) as Hlt.
  assert (Hput : forall d, put out (length out) d = Ok (S (length out), out ++ [d])) by (intros d; apply put_ok; lia).
  assert (Hlen : forall text, length (out ++ text) = (length out + length text)%nat) by (intros; apply length_app).
  apply complete_cons in Hc as (H0 & [(Hp & Hc) | (Hp & spec & rest' & -> & Hs0 & Hc)]);
    cbn [format_loop app render] in *; rewrite H0, Hroom, Hp in *; cbn [negb orb] in *.
  - rewrite Hput; cbn [mbind result_bind]. cbn [length] in Hfit.
    replace (S (length out)) with (length (out ++ [c])) by fits.
    rewrite IH by fits. by rewrite <- app_assoc.
  - destruct (spec =? PERCENT).
    { rewrite Hput; cbn [mbind result_bind]. cbn [length] in Hfit.
      replace (S (length out)) with (length (out ++ [PERCENT])) by fits.
      rewrite IH by fits. by rewrite <- app_assoc. }
    destruct (is_spec spec) eqn:Hs.
    + destruct (MAX_ARGS_CNT <=? idx)%nat; rewrite length_app in Hfit;
        (rewrite snprintf_fits by lia; rewrite IH by fits; by rewrite <- app_assoc).
    + rewrite Hput; cbn [mbind result_bind]. cbn [length] in Hfit.
      replace (S (length out)) with (length (out ++ [PERCENT])) by fits.
      rewrite put_ok by fits. cbn [mbind result_bind].
      replace (S (length (out ++ [PERCENT]))) with (length ((out ++ [PERCENT]) ++ [spec])) by fits.
      rewrite IH by fits. by rewrite <- !app_assoc.
Qed.

(** plain text is copied *)
Definition plain (l : list Z) : Prop := Forall (fun c => c <> 0 /\ c <> PERCENT) l.

Lemma format_loop_plain pre rest args idx : forall out,
  plain pre -> (length out + length pre <= BUFFER_SIZE - 1)%nat ->
  format_loop (pre ++ rest) args idx (length out) out = format_loop rest args idx (length (out ++ pre)) (out ++ pre).
Proof.
  induction pre as [| c pre IH]; intros out Hp Hl; cbn [app]; [by rewrite app_nil_r |].
  apply Forall_cons in Hp as [[H0 Hc] Hp]. cbn [length] in Hl. cbn [format_loop].
  rewrite (proj2 (Z.eqb_neq _ _) H0), (proj2 (Z.eqb_neq _ _) Hc), (proj2 (Nat.ltb_lt _ _)) by lia. cbn [orb negb].
  rewrite put_ok by lia. cbn [mbind result_bind].
  replace (S (length out)) with (length (out ++ [c])) by fits.
  rewrite IH by fits. by rewrite <- app_assoc.
Qed.

(** ** Decoding what the kernel encoded *)

Lemma le_le_bytes n x : 0 <= x -> le (le_bytes n x) = x mod 256 ^ Z.of_nat n.
Proof.
  revert x. induction n as [| n IH]; intros x Hx; [cbn; by rewrite Z.mod_1_r |].
  cbn [le_bytes le]. rewrite IH by (apply Z.div_pos; lia).
  rewrite Nat2Z.inj_succ, Z.pow_succ_r by lia.
  rewrite Z.rem_mul_r by (try apply Z.pow_pos_nonneg; lia). done.
Qed.

Lemma length_le_bytes n x : length (le_bytes n x) = n.
Proof. revert x. induction n as [| n IH]; intros x; cbn; [done |]. by rewrite IH. Qed.

Lemma u16_range x : 0 <= u16 x < 2 ^ 16.
Proof. unfold u16, wrap. apply Z.mod_pos_bound. lia. Qed.

Lemma le_u16 x : le (le_bytes 2 (u16 x)) = u16 x.
Proof. pose proof (u16_range x). rewrite le_le_bytes by lia. apply Z.mod_small. cbn. lia. Qed.

Lemma le_u64 x : le (le_bytes 8 (u64 x)) = u64 x.
Proof.
  assert (0 <= u64 x < 2 ^ 64) by (unfold u64, wrap; apply Z.mod_pos_bound; lia).
  rewrite le_le_bytes by lia. apply Z.mod_small. cbn. lia.
Qed.

Lemma load16_app a x rest : load16 (a ++ le_bytes 2 (u16 x) ++ rest) (length a) = u16 x.
Proof.
  rewrite <- (le_u16 x) at 2. unfold load16, byte_at.
  rewrite (app_nth2 a _ 0 (n := length a)), (app_nth2 a _ 0 (n := (length a + 1)%nat)) by lia.
  replace (length a - length a)%nat with 0%nat by lia.
  replace (length a + 1 - length a)%nat with 1%nat by lia. done.
Qed.

Lemma flat_map_slot (l : list Z) rest i a :
  l !! i = Some a ->
  take 8 (drop (8 * i) (flat_map (fun a => le_bytes 8 (u64 a)) l ++ rest)) = le_bytes 8 (u64 a).
Proof.
  revert i. induction l as [| b l IH]; intros [| i] Hi; try discriminate.
  - injection Hi as ->. replace (8 * 0)%nat with 0%nat by lia. cbn [flat_map]. rewrite drop_0, <- app_assoc.
    rewrite take_app_le, take_ge by (rewrite length_le_bytes; lia). done.
  - cbn [flat_map]. rewrite <- app_assoc. replace (8 * S i)%nat with (8 + 8 * i)%nat by lia.
    rewrite <- drop_drop, drop_app_ge, length_le_bytes by (rewrite length_le_bytes; lia).
    replace (8 - 8)%nat with 0%nat by lia. rewrite drop_0. by apply IH.
Qed.

Lemma length_flat_map_args (l : list Z) : length (flat_map (fun a => le_bytes 8 (u64 a)) l) = (8 * length l)%nat.
Proof. induction l as [| a l IH]; [done |]. cbn [flat_map length]. rewrite length_app, length_le_bytes, IH. lia. Qed.

(** [read_event] inverts the kernel's layout. *)
Lemma read_event_encode pad tail lv m ar :
  length pad = 6%nat -> length ar = MAX_ARGS_CNT ->
  read_event (bpf_log_event_internal pad tail lv m ar) =
    mkEvent (u16 lv) (u64 <$> ar) (u16 (Z.of_nat (length m))) (m ++ 0 :: tail).
Proof.
  intros Hpad Har. unfold read_event, bpf_log_event_internal. set (f := fun a => le_bytes 8 (u64 a)).
  set (after := le_bytes 2 (u16 (Z.of_nat (length m))) ++ m ++ [0] ++ tail).
  assert (Hhead : length (le_bytes 2 (u16 lv) ++ pad) = 8%nat) by (rewrite length_app, length_le_bytes; lia).
  assert (Hargs : length ((le_bytes 2 (u16 lv) ++ pad) ++ flat_map f ar) = 88%nat).
  { rewrite length_app, Hhead. unfold f. rewrite length_flat_map_args, Har. done. }
  f_equal.
  - exact (load16_app [] lv _).
  - apply list_eq. intros i. rewrite !list_lookup_fmap.
    destruct (decide (i < MAX_ARGS_CNT)%nat) as [Hi | Hi].
    + rewrite lookup_seq_lt by done. cbn [fmap option_fmap option_map].
      destruct (lookup_lt_is_Some_2 ar i) as [a Ha]; [lia |]. rewrite Ha. cbn [fmap option_fmap option_map].
      f_equal. rewrite <- (le_u64 a). f_equal. rewrite app_assoc, <- drop_drop, drop_app_ge by (unfold offsetof_args; lia).
      rewrite Hhead. unfold offsetof_args. replace (8 - 8)%nat with 0%nat by lia. rewrite drop_0. by apply flat_map_slot.
    + rewrite lookup_seq_ge by lia. by rewrite lookup_ge_None_2 by lia.
  - change offsetof_msg_len with 88%nat. rewrite <- Hargs. rewrite (app_assoc (le_bytes 2 (u16 lv)) pad), (app_assoc _ (flat_map f ar)).
    unfold after. apply load16_app.
  - rewrite app_assoc, app_assoc. unfold after.
    rewrite drop_app_ge by (unfold offsetof_msg; lia). rewrite Hargs.
    rewrite drop_app_ge by (rewrite length_le_bytes; unfold offsetof_msg; lia). rewrite length_le_bytes.
    change (offsetof_msg - 88 - 2)%nat with 0%nat. by rewrite drop_0.
Qed.

Lemma length_encode pad tail lv m ar :
  length pad = 6%nat -> length ar = MAX_ARGS_CNT -> length tail = 6%nat ->
  length (bpf_log_event_internal pad tail lv m ar) = (97 + length m)%nat.
Proof.
  intros Hp Ha Ht. unfold bpf_log_event_internal.
  rewrite !length_app, !length_le_bytes, length_flat_map_args, Ha. cbn. unfold MAX_ARGS_CNT. lia.
Qed.

(** a message below the level is dropped *)
Lemma filtered_event threshold lv pad tail m ar :
  length pad = 6%nat -> length tail = 6%nat -> length ar = MAX_ARGS_CNT -> u16 lv < u32 threshold ->
  logEvent threshold (bpf_log_event_internal pad tail lv m ar) = Ok Filtered.
Proof.
  intros Hpad Htail Har Hlow. unfold logEvent. rewrite length_encode by done.
  rewrite !(proj2 (Nat.ltb_ge _ _)) by (unfold sizeof_log_event, offsetof_msg; lia).
  rewrite read_event_encode by done. cbn [level]. by rewrite (proj2 (Z.ltb_lt _ _) Hlow).
Qed.

(** a kernel message that passes the level filter is logged, at its
    level, as the expansion of its format string with its arguments, when the
    expansion fits the buffer and no conversion is cut off. *)
Theorem klog_roundtrip (threshold lv : Z) (pad tail m ar : list Z)
  (Hpad : length pad = 6%nat) (Htail : length tail = 6%nat) (Har : length ar = MAX_ARGS_CNT)
  (Hm : complete m = true) (Hpass : u32 threshold <= u16 lv)
  (Hfit : (length (render m (u64 <$> ar) 0) <= BUFFER_SIZE - 1)%nat) :
  logEvent threshold (bpf_log_event_internal pad tail lv m ar) =
    Ok (Logged (log_level (u16 lv)) (render m (u64 <$> ar) 0)).
Proof.
  unfold logEvent. rewrite length_encode by done.
  rewrite !(proj2 (Nat.ltb_ge _ _)) by (unfold sizeof_log_event, offsetof_msg; lia).
  rewrite read_event_encode by done. cbn [level args msg]. rewrite (proj2 (Z.ltb_ge _ _) Hpass).
  unfold format. pose proof (format_loop_render m tail (u64 <$> ar) 0 [] Hm) as Hloop. cbn [length app] in Hloop.
  rewrite Hloop by (unfold BUFFER_SIZE in *; lia). cbn [mbind result_bind].
  rewrite (proj2 (Nat.ltb_lt _ _)) by (unfold BUFFER_SIZE in *; lia). cbn [mbind result_bind].
  by rewrite take_ge, until_nul_free by (lia || by apply render_nul_free).
Qed.

(** C36: the index advances by the length snprintf would have written, also
    when it had to cut: a conversion at the very end of the buffer moves the
    final NUL past it. *)
Theorem klog_overflow (pre tail ar : list Z) (spec val : Z) (text : list Z)
  (Hpre : plain pre) (Hlen : length pre = 1022%nat) (Hspec : is_spec spec = true)
  (Hval : nth 0 ar 0 = val) (Htext : convert spec val = Some text) (Hlong : (2 <= length text)%nat) :
  format (pre ++ PERCENT :: spec :: 0 :: tail) ar = Err (WriteOutOfBounds (1022 + length text)).
Proof.
  unfold format. pose proof (format_loop_plain pre (PERCENT :: spec :: 0 :: tail) ar 0 [] Hpre) as Hloop.
  cbn [length app] in Hloop. rewrite Hloop by (unfold BUFFER_SIZE; lia). rewrite Hlen.
  assert (Hsp : (spec =? PERCENT) = false) by (apply Z.eqb_neq; intros ->; discriminate Hspec).
  cbn [format_loop]. rewrite Z.eqb_refl, Hsp, Hspec, Hval, Htext.
  rewrite (proj2 (Nat.ltb_lt _ _)) by (unfold BUFFER_SIZE; lia). cbn [orb negb Z.eqb PERCENT MAX_ARGS_CNT Nat.leb snprintf].
  change (default [] (Some text)) with text. cbn [mbind result_bind].
  by rewrite (proj2 (Nat.ltb_ge (1022 + length text) BUFFER_SIZE)) by (unfold BUFFER_SIZE; lia).
Qed.

(** a format string that ends in a single percent sign makes the loop
    step over the terminating NUL: it goes on reading whatever the rest of the
    record holds, and past its end when there is no NUL in it. *)
Theorem klog_trailing_percent (pre tail ar : list Z)
  (Hpre : plain pre) (Htail : plain tail) (Hlen : (length pre + length tail + 2 <= BUFFER_SIZE - 1)%nat) :
  format (pre ++ PERCENT :: 0 :: tail) ar = Err ReadPastEvent.
Proof.
  unfold format. pose proof (format_loop_plain pre (PERCENT :: 0 :: tail) ar 0 [] Hpre) as Hloop.
  cbn [length app] in Hloop. rewrite Hloop by lia.
  cbn [format_loop]. rewrite Z.eqb_refl. rewrite (proj2 (Nat.ltb_lt _ _)) by lia.
  change (is_spec 0) with false. cbn [orb negb Z.eqb PERCENT].
  rewrite put_ok by lia. cbn [mbind result_bind].
  replace (S (length pre)) with (length (pre ++ [PERCENT])) by fits.
  rewrite put_ok by fits. cbn [mbind result_bind].
  replace (S (length (pre ++ [PERCENT]))) with (length ((pre ++ [PERCENT]) ++ [0])) by fits.
  rewrite <- (app_nil_r tail), format_loop_plain by fits. done.
Qed.

(** ** Witnesses *)

Module Sample.

Definition message : list Z := str "Hebpf packet drop [%P] %A:%u".
Definition values : list Z := [6; 16777226; 443; 0; 0; 0; 0; 0; 0; 0].

Lemma klog_roundtrip_witness :
  logEvent 1 (bpf_log_event_internal (replicate 6 170) (replicate 6 187) 1 message values) =
    Ok (Logged 1 (str "Hebpf packet drop [TCP] 10.0.0.1:443")).
Proof.
  rewrite (klog_roundtrip 1 1 (replicate 6 170) (replicate 6 187) message values);
    [vm_compute; reflexivity | reflexivity | reflexivity | reflexivity | vm_compute; reflexivity
    | vm_compute; discriminate | vm_compute; lia].
Defined.

Lemma klog_overflow_witness :
  format (replicate 1022 97 ++ PERCENT :: 117 :: 0 :: replicate 6 0) [4660] = Err (WriteOutOfBounds 1026).
Proof.
  apply (klog_overflow (replicate 1022 97) (replicate 6 0) [4660] 117 4660 (str "4660"));
    [apply Forall_replicate; split; discriminate | apply length_replicate | reflexivity | reflexivity
    | vm_compute; reflexivity | cbn; lia].
Defined.

Lemma klog_trailing_percent_witness :
  format (str "load 100" ++ PERCENT :: 0 :: replicate 6 187) [] = Err ReadPastEvent.
Proof.
  apply (klog_trailing_percent (str "load 100") (replicate 6 187) []);
    [repeat constructor; discriminate | apply Forall_replicate; split; discriminate | cbn; unfold BUFFER_SIZE; lia].
Defined.

End Sample.
