(* ===== verification/Inotify.v ===== *)
(** * Watching configuration files

    [Inotify] ([src/inotify/inotify.cc]) parses the event buffer of the
    kernel; [InotifyManager] ([src/inotify/inotify_manager.cc]) watches the
    parent directory of each configuration file and dispatches the events to
    the callback of the file. *)

From S2P Require Import Prelude Configs Names Net.

#[local] Open Scope string_scope.
#[local] Open Scope Z_scope.
#[local] Open Scope list_scope.

(* src/fd/fd_if.h:5-5 FD_INVALID *)
Definition FD_INVALID : Z := -1.
Definition IN_CLOSE_WRITE : Z := 8.
Definition IN_MOVED_TO : Z := 128.

(** ** Paths *)

Fixpoint all_slashes (s : string) : bool :=
  match s with EmptyString => true | String a r => (a =? "/")%char && all_slashes r end.

Fixpoint strip_slashes (s : string) : string :=
  match s with
  | EmptyString => EmptyString
  | String a r => if all_slashes (String a r) then EmptyString else String a (strip_slashes r)
  end.

(** [fs::path(s).parent_path()] on POSIX *)
Definition parent_path (s : string) : string :=
  match before_last "/" s with
  | None => ""
  | Some d => let d := strip_slashes d in if (d =? "")%string then "/" else d
  end.

(* src/inotify/inotify_manager.cc:168-184 InotifyManager::getParentDir *)
Definition getParentDir `{BuildMode} (path : string) : result exn string :=
  _ ← ASSERT (negb (path =? "")%string);
  let dir_path := parent_path path in
  Ok (if (dir_path =? "")%string then "." else dir_path).

(** ** System calls *)

Inductive icall : Type :=
| AddWatch (path : string) (mask : Z)
| RemoveWatch (watch_fd : Z).

(** a response is the return value *)
Abbreviation isys := (prog icall Z).

(* src/inotify/inotify.cc:17-35 Inotify::addWatch *)
Definition addWatch (path : string) (mask : Z) : isys Z :=
  wd ← call (AddWatch (c_str path) mask);
  if wd =? -1 then Ret FD_INVALID else Ret wd.

(* src/inotify/inotify.cc:37-53 Inotify::removeWatch *)
Definition removeWatch (watch_fd : Z) : isys bool :=
  r ← call (RemoveWatch watch_fd);
  if r =? -1 then Ret false else Ret true.

(** ** The event buffer *)

Definition sizeof_inotify_event : nat := 16.

(** the C string that starts at an offset of the buffer *)
Fixpoint cstring_of (bytes : list Z) : string :=
  match bytes with
  | [] => EmptyString
  | b :: r => if b =? 0 then EmptyString else String (ascii_of_nat (Z.to_nat b)) (cstring_of r)
  end.

Section Parse.
(** the callback may change the state of its owner, and throw *)
Context {S E : Type} (cb_ : string -> Z -> S -> result E S).

Fixpoint process_loop (fuel : nat) (buffer : list Z) (ptr : nat) (s : S) : result E S :=
  match fuel with
  | O => Ok s
  | Datatypes.S fuel =>
      if (ptr <? length buffer)%nat then
        let len := load32 buffer (ptr + 12) in
        s ← (if 0 <? len
             then cb_ (cstring_of (drop (ptr + sizeof_inotify_event) buffer)) (load32 buffer (ptr + 4)) s
             else Ok s);
        process_loop fuel buffer (ptr + (sizeof_inotify_event + Z.to_nat len)) s
      else Ok s
  end.

(** an event takes at least 16 bytes: the length of the buffer is fuel enough *)
(* src/inotify/inotify.cc:62-81 Inotify::processInotify *)
Definition processInotify (buffer : list Z) (s : S) : result E S :=
  process_loop (length buffer) buffer 0 s.
End Parse.

(** ** The manager *)

Section Manager.
(** callable objects; a [Callback] may also be empty *)
Context {C : Type}.

(* src/inotify/inotify_manager.h:28-32 InotifyManager::WatchInfo *)
Record WatchInfo : Type := mkWatchInfo { watch_fd : Z; watch_config : string; on_change : option C }.

(* src/inotify/inotify_manager.h:15-48 InotifyManager *)
Record InotifyManager : Type := mkManager {
  map_ : gmap string (list WatchInfo);
  watcher_ : option Z;
  cb_set : bool
}.

Definition set_map (m : gmap string (list WatchInfo)) (im : InotifyManager) : InotifyManager :=
  mkManager m (watcher_ im) (cb_set im).

(** [std::find_if] on one directory's entries *)
Definition find_config (path_str : string) (ws : list WatchInfo) : option (nat * WatchInfo) :=
  list_find (fun w => watch_config w = path_str) ws.

(** the entries of the directory and the one of the path in them *)
(* src/inotify/inotify_manager.cc:145-166 InotifyManager::findWatchInfo *)
Definition findWatchInfo (parent_dir path_str : string) (im : InotifyManager)
  : option (list WatchInfo * option (nat * WatchInfo)) :=
  match map_ im !! parent_dir with
  | None => None
  | Some ws => Some (ws, find_config path_str ws)
  end.

Section Operations.
Context `{BuildMode}.

(* src/inotify/inotify_manager.cc:20-56 InotifyManager::watchConfig *)
Definition watchConfig (path : string) (on_change : option C) (im : InotifyManager)
  : isys (result exn (bool * InotifyManager)) :=
  match getParentDir path with
  | Err e => Ret (Err e)
  | Ok dir =>
      match findWatchInfo dir path im with
      | Some (_, Some _) => Ret (Ok (true, im))
      | Some (ws, None) =>
          let watch_info := mkWatchInfo FD_INVALID path on_change in
          Ret (Ok (true, set_map (<[dir := (ws ++ [watch_info])%list]> (map_ im)) im))
      | None =>
          watch_fd ← addWatch dir (Z.lor IN_CLOSE_WRITE IN_MOVED_TO);
          if watch_fd =? FD_INVALID then Ret (Ok (false, im))
          else
            let watch_info := mkWatchInfo watch_fd path on_change in
            Ret (Ok (true, set_map (<[dir := [watch_info]]> (map_ im)) im))
      end
  end.

(* src/inotify/inotify_manager.cc:58-94 InotifyManager::goodbyeConfig *)
Definition goodbyeConfig (path : string) (im : InotifyManager)
  : isys (result exn (bool * InotifyManager)) :=
  match getParentDir path with
  | Err e => Ret (Err e)
  | Ok dir =>
      match findWatchInfo dir path im with
      | Some (ws, Some (i, w)) =>
          let erase :=
            let ws := delete i ws in
            match ws with
            | [] => set_map (delete dir (map_ im)) im
            | _ => set_map (<[dir := ws]> (map_ im)) im
            end in
          if negb (watch_fd w =? FD_INVALID) then
            removed ← removeWatch (watch_fd w);
            if removed : bool then Ret (Ok (true, erase)) else Ret (Ok (false, im))
          else Ret (Ok (true, erase))
      | _ => Ret (Ok (true, im))
      end
  end.

(** the descriptor of the inotify object and whether the io context is alive
    are inputs *)
(* src/inotify/inotify_manager.cc:96-127 InotifyManager::initManager *)
Definition initManager (inotify_fd : Z) (io_ctx : bool) (im : InotifyManager)
  : result exn InotifyManager :=
  if inotify_fd =? FD_INVALID then Err (EXCEPT "Failed to get inotify fd")
  else if negb io_ctx then Err (EXCEPT "MUST provide a io context")
  else Ok (mkManager (map_ im) (Some inotify_fd) true).

Fixpoint remove_all (ws : list WatchInfo) : isys unit :=
  match ws with
  | [] => Ret tt
  | w :: ws =>
      _ ← (if negb (watch_fd w =? FD_INVALID) then removeWatch (watch_fd w) else Ret true);
      remove_all ws
  end.

(* src/inotify/inotify_manager.cc:129-143 InotifyManager::destroyManager *)
Definition destroyManager `{!UMapOrder string} (im : InotifyManager) : isys InotifyManager :=
  _ ← remove_all (uiter (map_ im) ≫= snd);
  Ret (set_map ∅ im).

(** the call of a callback object *)
Record invocation : Type := mkInvocation { callee : C; arg_name : string; arg_mask : Z }.

(* src/inotify/inotify_manager.cc:186-210 InotifyManager::onInotifyEvent *)
Definition onInotifyEvent (name : string) (mask : Z) (im : InotifyManager)
  : result exn (option invocation) :=
  dir ← getParentDir name;
  match findWatchInfo dir name im with
  | Some (_, Some (_, watch_info)) =>
      Ok ((fun f => mkInvocation f name mask) <$> on_change watch_info)
  | _ => Ok None
  end.

(** the callback that [initManager] gives to [Inotify], recording the calls *)
Definition inotify_cb (im : InotifyManager) (name : string) (mask : Z) (calls : list invocation)
  : result exn (list invocation) :=
  o ← onInotifyEvent name mask im;
  Ok ((calls ++ option_list o)%list).

(** the read callback of [initManager] on the bytes [read] returned *)
(* src/inotify/inotify_manager.cc:118-126 InotifyManager::initManager *)
Definition on_readable (buffer : list Z) (im : InotifyManager) : result exn (list invocation) :=
  if (0 <? length buffer)%nat then processInotify (inotify_cb im) buffer [] else Ok [].

End Operations.
End Manager.
Arguments WatchInfo : clear implicits.
Arguments InotifyManager : clear implicits.
Arguments invocation : clear implicits.

(** ** Parsing gives back the events the kernel wrote *)

(** an event as inotify(7) describes it: the name is followed by at least one
    NUL byte, and an event of the directory itself has no name *)
Record kevent : Type := mkEvent { ev_wd : Z; ev_mask : Z; ev_cookie : Z; ev_name : string; ev_pad : nat }.

Definition bytes32 (x : Z) : list Z := [x mod 256; (x / 256) mod 256; (x / 65536) mod 256; (x / 16777216) mod 256].

Fixpoint name_bytes (s : string) : list Z :=
  match s with EmptyString => [] | String a r => Z.of_nat (nat_of_ascii a) :: name_bytes r end.

Definition ev_len (e : kevent) : Z := Z.of_nat (String.length (ev_name e) + ev_pad e).

Definition encode_event (e : kevent) : list Z :=
  bytes32 (ev_wd e) ++ bytes32 (ev_mask e) ++ bytes32 (ev_cookie e) ++ bytes32 (ev_len e) ++
  name_bytes (ev_name e) ++ replicate (ev_pad e) 0.

Definition encode_events (evs : list kevent) : list Z := evs ≫= encode_event.

Definition event_wf (e : kevent) : Prop :=
  0 <= ev_mask e < 2 ^ 32 /\ ev_len e < 2 ^ 32 /\ no_char "000" (ev_name e) = true /\
  (ev_pad e = 0%nat -> ev_name e = "").

Lemma le_bytes32 x : 0 <= x < 2 ^ 32 -> le (bytes32 x) = x.
Proof.
  intros Hx. unfold bytes32, le.
  replace (x / 65536) with (x / 256 / 256) by (rewrite Z.div_div by lia; done).
  replace (x / 16777216) with (x / 256 / 256 / 256) by (rewrite !Z.div_div by lia; done).
  assert (x / 256 / 256 / 256 < 256) by (rewrite !Z.div_div by lia; apply Z.div_lt_upper_bound; lia).
  assert (0 <= x / 256 / 256 / 256) by (rewrite !Z.div_div by lia; apply Z.div_pos; lia).
  rewrite (Z.mod_small (x / 256 / 256 / 256)) by lia.
  pose proof (Z.div_mod x 256). pose proof (Z.div_mod (x / 256) 256). pose proof (Z.div_mod (x / 256 / 256) 256). lia.
Qed.

Lemma length_name_bytes s : length (name_bytes s) = String.length s.
Proof. induction s as [| a s IH]; cbn; [done |]. by rewrite IH. Qed.

Lemma length_encode_event e : length (encode_event e) = (16 + (String.length (ev_name e) + ev_pad e))%nat.
Proof. unfold encode_event. rewrite !length_app, length_name_bytes, length_replicate. done. Qed.

Lemma cstring_of_name s rest : no_char "000" s = true -> cstring_of (name_bytes s ++ 0 :: rest) = s.
Proof.
  induction s as [| a s IH]; cbn; [done |]. rewrite andb_true_iff, negb_true_iff. intros [Ha Hs].
  destruct (Z.eqb_spec (Z.of_nat (nat_of_ascii a)) 0) as [Hz | _].
  - exfalso. apply Ascii.eqb_neq in Ha. apply Ha.
    rewrite <- (ascii_nat_embedding a). by replace (nat_of_ascii a) with 0%nat by lia.
  - rewrite Nat2Z.id, ascii_nat_embedding. by rewrite IH.
Qed.

Lemma byte_at_skip pre bytes k : byte_at (pre ++ bytes) (length pre + k) = byte_at bytes k.
Proof. unfold byte_at. by rewrite app_nth2_plus. Qed.

Lemma load32_skip pre bytes k : load32 (pre ++ bytes) (length pre + k) = load32 bytes k.
Proof. unfold load32. by rewrite <- !Nat.add_assoc, !byte_at_skip. Qed.

Lemma load32_mask e rest : event_wf e -> load32 (encode_event e ++ rest) 4 = ev_mask e.
Proof. intros (Hm & _). transitivity (le (bytes32 (ev_mask e))); [done | by apply le_bytes32]. Qed.

Lemma load32_len e rest : event_wf e -> load32 (encode_event e ++ rest) 12 = ev_len e.
Proof.
  intros (_ & Hl & _). transitivity (le (bytes32 (ev_len e))); [done |].
  apply le_bytes32. unfold ev_len in *. lia.
Qed.

Lemma drop_header e rest :
  drop 16 (encode_event e ++ rest) = name_bytes (ev_name e) ++ replicate (ev_pad e) 0 ++ rest.
Proof. unfold encode_event. cbn. by rewrite <- app_assoc. Qed.

Section ParseFacts.
Context {S E : Type} (cb : string -> Z -> S -> result E S).

(** the callback called once per named event, in order *)
Fixpoint feed (evs : list kevent) (s : S) : result E S :=
  match evs with
  | [] => Ok s
  | e :: evs => s ← (if 0 <? ev_len e then cb (ev_name e) (ev_mask e) s else Ok s); feed evs s
  end.

Lemma encode_events_cons e evs : encode_events (e :: evs) = encode_event e ++ encode_events evs.
Proof. done. Qed.

Lemma process_loop_events evs : forall fuel pre s,
  Forall event_wf evs -> (length (encode_events evs) <= fuel)%nat ->
  process_loop cb fuel (pre ++ encode_events evs) (length pre) s = feed evs s.
Proof.
  induction evs as [| e evs IH]; intros fuel pre s Hwf Hfuel.
  - destruct fuel; cbn [process_loop feed]; [done |]. cbn [encode_events mbind list_bind].
    rewrite app_nil_r, Nat.ltb_irrefl. done.
  - apply Forall_cons in Hwf as [He Hwf]. rewrite encode_events_cons in *. cbn [feed].
    rewrite length_app, length_encode_event in Hfuel. destruct fuel as [| fuel]; [lia |]. cbn [process_loop].
    destruct (Nat.ltb_spec (length pre) (length (pre ++ encode_event e ++ encode_events evs))) as [_ | Hge];
      [| rewrite !length_app, length_encode_event in Hge; lia].
    rewrite !load32_skip, load32_len, load32_mask by done.
    replace (length pre + (sizeof_inotify_event + Z.to_nat (ev_len e)))%nat with (length (pre ++ encode_event e))
      by (rewrite length_app, length_encode_event; unfold ev_len, sizeof_inotify_event; lia).
    assert (Hname : 0 < ev_len e ->
      cstring_of (drop (length pre + sizeof_inotify_event) (pre ++ encode_event e ++ encode_events evs)) = ev_name e).
    { intros Hl. rewrite drop_app_add, drop_header. destruct He as (_ & _ & Hnul & Hpad).
      destruct (ev_pad e) as [| pad] eqn:Ep.
      - unfold ev_len in Hl. rewrite Ep, Hpad in Hl by done. cbn in Hl. lia.
      - cbn [replicate app]. by apply cstring_of_name. }
    rewrite app_assoc. destruct (Z.ltb_spec 0 (ev_len e)) as [Hl | Hl].
    + rewrite <- app_assoc, Hname, app_assoc by done. destruct (cb _ _ _) as [s' |]; [| done].
      apply IH; [done | lia].
    + apply IH; [done | lia].
Qed.

Lemma processInotify_events evs s :
  Forall event_wf evs -> processInotify cb (encode_events evs) s = feed evs s.
Proof. intros Hwf. by apply (process_loop_events evs _ []). Qed.

End ParseFacts.

(** ** The manager implements a table from paths to callbacks *)

Section ManagerFacts.
Context {C : Type} `{BuildMode} `{!UMapOrder string}.

Definition parent_dir (path : string) : string :=
  let d := parent_path path in if (d =? "")%string then "." else d.

Lemma getParentDir_ok path : path ≠ "" -> getParentDir path = Ok (parent_dir path).
Proof. intros Hp. unfold getParentDir. apply String.eqb_neq in Hp as ->. done. Qed.

Lemma getParentDir_inv path d : getParentDir path = Ok d -> d = parent_dir path.
Proof. unfold getParentDir, ASSERT. destruct (path =? "")%string, NDEBUG; cbn; naive_solver. Qed.

Lemma parent_dir_bare path : no_char "/" path = true -> parent_dir path = ".".
Proof. intros Hp. unfold parent_dir, parent_path. by rewrite before_last_None. Qed.

(** the callback registered for a path *)
Definition entry (path : string) (ws : list (WatchInfo C)) : option (WatchInfo C) := snd <$> find_config path ws.
Definition registered (path : string) (im : InotifyManager C) : option (option C) :=
  on_change <$> (map_ im !! parent_dir path ≫= entry path).

Definition dir_wf (dir : string) (ws : list (WatchInfo C)) : Prop :=
  ws ≠ [] /\ NoDup (watch_config <$> ws) /\ Forall (fun w => parent_dir (watch_config w) = dir) ws /\
  Forall (fun w => watch_fd w = FD_INVALID) (tail ws).
Definition manager_wf (im : InotifyManager C) : Prop := map_Forall dir_wf (map_ im).

Lemma entry_cons path w ws :
  entry path (w :: ws) = if decide (watch_config w = path) then Some w else entry path ws.
Proof.
  unfold entry, find_config. cbn. destruct (decide (watch_config w = path)); [done |].
  by destruct (list_find _ ws) as [[??] |].
Qed.

Lemma entry_snoc path w ws :
  entry path ws = None -> entry path (ws ++ [w]) = if decide (watch_config w = path) then Some w else None.
Proof.
  induction ws as [| w' ws IH]; cbn [app]; [by rewrite entry_cons |].
  rewrite !entry_cons. destruct (decide (watch_config w' = path)); [done |]. apply IH.
Qed.

Lemma entry_app_old path w ws : entry path ws ≠ None -> entry path (ws ++ [w]) = entry path ws.
Proof.
  induction ws as [| w' ws IH]; cbn [app]; [done |].
  rewrite !entry_cons. destruct (decide (watch_config w' = path)); [done |]. apply IH.
Qed.

Lemma entry_None path ws : path ∉ (watch_config <$> ws) -> entry path ws = None.
Proof.
  induction ws as [| w ws IH]; [done |]. rewrite entry_cons, fmap_cons, not_elem_of_cons. intros [Hne Hws].
  rewrite decide_False by done. by apply IH.
Qed.

Lemma find_config_cons path w (ws : list (WatchInfo C)) :
  find_config path (w :: ws) =
  if decide (watch_config w = path) then Some (0%nat, w) else prod_map S Datatypes.id <$> find_config path ws.
Proof. done. Qed.

Lemma entry_delete path path' i w ws :
  NoDup (watch_config <$> ws) -> find_config path ws = Some (i, w) ->
  entry path' (delete i ws) = if decide (path' = path) then None else entry path' ws.
Proof.
  revert i. induction ws as [| w0 ws IH]; intros i Hnd; [done |].
  rewrite fmap_cons in Hnd. apply NoDup_cons in Hnd as [Hnotin Hnd]. rewrite find_config_cons.
  destruct (decide (watch_config w0 = path)) as [Hw | Hw].
  - intros [= <- <-]. change (delete 0%nat (w0 :: ws)) with ws. rewrite entry_cons. destruct (decide (path' = path)) as [-> | Hp].
    + apply entry_None. congruence.
    + by rewrite decide_False by congruence.
  - destruct (find_config path ws) as [[j w1] |] eqn:Ef; cbn [fmap option_fmap option_map prod_map]; [| done]. intros [= <- <-].
    change (delete (S j) (w0 :: ws)) with (w0 :: delete j ws). rewrite !entry_cons, (IH j) by done.
    destruct (decide (watch_config w0 = path')), (decide (path' = path)); congruence.
Qed.

Lemma find_config_entry path ws : find_config path ws = None <-> entry path ws = None.
Proof. unfold entry. by destruct (find_config path ws) as [[??] |]. Qed.

(** *** The operations as steps, whatever the kernel answers *)

Inductive im_op : Type :=
| OpWatch (path : string) (cb : option C)
| OpGoodbye (path : string)
| OpDestroy.

Definition state_of (r : result exn (bool * InotifyManager C)) : isys (result exn (InotifyManager C)) :=
  Ret (match r with Ok (_, im) => Ok im | Err e => Err e end).

Definition im_exec (op : im_op) (im : InotifyManager C) : isys (result exn (InotifyManager C)) :=
  match op with
  | OpWatch path cb => prog_bind (watchConfig path cb im) state_of
  | OpGoodbye path => prog_bind (goodbyeConfig path im) state_of
  | OpDestroy => prog_bind (destroyManager im) (fun im => Ret (Ok im))
  end.

Fixpoint im_run (ops : list im_op) (im : InotifyManager C) : isys (result exn (InotifyManager C)) :=
  match ops with
  | [] => Ret (Ok im)
  | op :: ops =>
      prog_bind (im_exec op im) (fun r => match r with Ok im => im_run ops im | Err e => Ret (Err e) end)
  end.

Definition erased (path : string) (i : nat) (ws : list (WatchInfo C)) (im : InotifyManager C) : InotifyManager C :=
  match delete i ws with
  | [] => set_map (delete (parent_dir path) (map_ im)) im
  | ws' => set_map (<[parent_dir path := ws']> (map_ im)) im
  end.

Lemma watchConfig_always path cb im tr :
  always (fun r _ => match r with
    | Err _ => True
    | Ok (_, im') =>
        im' = im \/
        (exists ws, map_ im !! parent_dir path = Some ws /\ entry path ws = None /\
           im' = set_map (<[parent_dir path := ws ++ [mkWatchInfo FD_INVALID path cb]]> (map_ im)) im) \/
        (map_ im !! parent_dir path = None /\
           exists fd, im' = set_map (<[parent_dir path := [mkWatchInfo fd path cb]]> (map_ im)) im)
    end) (watchConfig path cb im) tr.
Proof.
  unfold watchConfig. destruct (getParentDir path) as [dir |] eqn:Ed; [| done].
  apply getParentDir_inv in Ed as ->. unfold findWatchInfo.
  destruct (map_ im !! parent_dir path) as [ws |] eqn:Em.
  - destruct (find_config path ws) as [[i w] |] eqn:Ef; cbn; [by left |]. right. left.
    exists ws. by apply find_config_entry in Ef.
  - cbn. intros r. destruct (r =? -1); cbn; [by left |].
    destruct (r =? FD_INVALID); cbn; [by left |]. right. right. by eauto.
Qed.

Lemma goodbyeConfig_always path im tr :
  always (fun r _ => match r with
    | Err _ => True
    | Ok (_, im') =>
        im' = im \/
        exists ws i w, map_ im !! parent_dir path = Some ws /\ find_config path ws = Some (i, w) /\
          im' = erased path i ws im
    end) (goodbyeConfig path im) tr.
Proof.
  unfold goodbyeConfig. destruct (getParentDir path) as [dir |] eqn:Ed; [| done].
  apply getParentDir_inv in Ed as ->. unfold findWatchInfo.
  destruct (map_ im !! parent_dir path) as [ws |] eqn:Em; [| by left].
  destruct (find_config path ws) as [[i w] |] eqn:Ef; [| by left].
  destruct (negb (watch_fd w =? FD_INVALID)); cbn.
  - intros r. destruct (r =? -1); cbn; [by left |]. right. exists ws, i, w. unfold erased. by destruct (delete i ws).
  - right. exists ws, i, w. unfold erased. by destruct (delete i ws).
Qed.

Lemma tail_delete {A} (P : A -> Prop) i (l : list A) : Forall P (tail l) -> Forall P (tail (delete i l)).
Proof.
  destruct l as [| x l]; [done |]. cbn [tail]. intros Hl. destruct i as [| i]; cbn.
  - destruct l as [| y l]; [done |]. by apply Forall_cons in Hl as [_ Hl].
  - by apply Forall_delete.
Qed.

Lemma erased_wf path i w ws im :
  manager_wf im -> map_ im !! parent_dir path = Some ws -> find_config path ws = Some (i, w) ->
  manager_wf (erased path i ws im).
Proof.
  intros Hwf Hm Hf. destruct (Hwf _ _ Hm) as (_ & Hnd & Hdir & Htl).
  unfold erased. destruct (delete i ws) as [| w' ws'] eqn:Ed; unfold manager_wf, set_map; cbn [map_].
  - by apply map_Forall_delete.
  - apply map_Forall_insert_2; [| done]. rewrite <- Ed. repeat split.
    + by rewrite Ed.
    + rewrite list_fmap_delete. eapply sublist_NoDup; [done | apply sublist_delete].
    + by apply Forall_delete.
    + by apply tail_delete.
Qed.

Lemma watched_wf path cb im :
  manager_wf im ->
  (forall ws, map_ im !! parent_dir path = Some ws -> entry path ws = None ->
     manager_wf (set_map (<[parent_dir path := ws ++ [mkWatchInfo FD_INVALID path cb]]> (map_ im)) im)) /\
  (forall fd, manager_wf (set_map (<[parent_dir path := [mkWatchInfo fd path cb]]> (map_ im)) im)).
Proof.
  intros Hwf. split.
  - intros ws Hm He. destruct (Hwf _ _ Hm) as (Hne & Hnd & Hdir & Htl).
    apply map_Forall_insert_2; [| done]. repeat split.
    + by destruct ws.
    + rewrite fmap_app. apply NoDup_app. split; [done |]. split; [| apply NoDup_singleton].
      intros p Hp. cbn. rewrite list_elem_of_singleton. intros ->. apply list_elem_of_fmap in Hp as (w & -> & Hw).
      clear -He Hw. induction ws as [| w' ws IH]; [by apply not_elem_of_nil in Hw |].
      rewrite entry_cons in He. destruct (decide _) as [| Hne]; [done |].
      apply elem_of_cons in Hw as [-> | Hw]; [done | by apply IH].
    + apply Forall_app. split; [done |]. by apply Forall_singleton.
    + destruct ws as [| w ws]; [done |]. cbn in *. apply Forall_app. split; [done |]. by apply Forall_singleton.
  - intros fd. apply map_Forall_insert_2; [| done]. repeat split; cbn; [done | apply NoDup_singleton | | done].
    by apply Forall_singleton.
Qed.

Definition wf_result (r : result exn (InotifyManager C)) (tr : list (icall * Z)) : Prop :=
  match r with Ok im => manager_wf im | Err _ => True end.

Lemma always_any {A} (p : isys A) tr : always (fun _ _ => True) p tr.
Proof. revert tr. induction p as [a | c k IH]; cbn; [done |]. intros tr r. apply IH. Qed.

Lemma im_exec_wf op im tr : manager_wf im -> always wf_result (im_exec op im) tr.
Proof.
  intros Hwf. destruct op as [path cb | path |]; cbn [im_exec].
  - eapply always_bind; [apply watchConfig_always |]. intros [[b im'] | err] tr'; cbn; [| done].
    destruct (watched_wf path cb im Hwf) as [H1 H2].
    intros [-> | [(ws & Hm & He & ->) | (_ & fd & ->)]]; [done | by apply H1 | by apply H2].
  - eapply always_bind; [apply goodbyeConfig_always |]. intros [[b im'] | err] tr'; cbn; [| done].
    intros [-> | (ws & i & w & Hm & Hf & ->)]; [done |]. by eapply erased_wf.
  - unfold destroyManager. eapply always_bind; [| intros im' tr' Him; exact Him].
    eapply always_bind; [apply always_any |]. intros [] tr' _. cbn. apply map_Forall_empty.
Qed.

Lemma im_run_wf ops im tr : manager_wf im -> always wf_result (im_run ops im) tr.
Proof.
  revert im tr. induction ops as [| op ops IH]; intros im tr Hwf; [done |].
  cbn [im_run]. eapply always_bind; [by apply im_exec_wf |].
  intros [im' | err] tr' Hr; [by apply IH | done].
Qed.

(** *** Refinement, when the kernel accepts every call *)

Definition kernel_ok (e : env icall Z) : Prop := forall tr c, e tr c ≠ -1.

Definition table_op (t : gmap string (option C)) (op : im_op) : gmap string (option C) :=
  match op with
  | OpWatch path cb => match t !! path with Some _ => t | None => <[path := cb]> t end
  | OpGoodbye path => delete path t
  | OpDestroy => ∅
  end.

Definition op_path_ok (op : im_op) : Prop :=
  match op with OpWatch path _ | OpGoodbye path => path ≠ "" | OpDestroy => True end.

Definition represents (im : InotifyManager C) (t : gmap string (option C)) : Prop :=
  forall path, registered path im = t !! path.

Lemma registered_insert path path' ws im :
  registered path' (set_map (<[parent_dir path := ws]> (map_ im)) im) =
  if decide (parent_dir path' = parent_dir path) then on_change <$> entry path' ws else registered path' im.
Proof.
  unfold registered, set_map. cbn [map_]. case_decide as Hd.
  - by rewrite Hd, lookup_insert_eq.
  - by rewrite lookup_insert_ne by congruence.
Qed.

Lemma watch_table path cb im t :
  represents im t ->
  forall im',
  (exists c, registered path im = Some c /\ im' = im) \/
  (exists ws, map_ im !! parent_dir path = Some ws /\ entry path ws = None /\
     im' = set_map (<[parent_dir path := ws ++ [mkWatchInfo FD_INVALID path cb]]> (map_ im)) im) \/
  (map_ im !! parent_dir path = None /\
     exists fd, im' = set_map (<[parent_dir path := [mkWatchInfo fd path cb]]> (map_ im)) im) ->
  represents im' (table_op t (OpWatch path cb)).
Proof.
  intros Ht im' Hcases path'. cbn [table_op]. rewrite <- (Ht path).
  destruct Hcases as [(c & Hc & ->) | [(ws & Hm & He & ->) | (Hm & fd & ->)]].
  - rewrite Hc. apply Ht.
  - assert (Hnone : registered path im = None) by (unfold registered; rewrite Hm; cbn; by rewrite He).
    rewrite Hnone, registered_insert. case_decide as Hd.
    + destruct (decide (path' = path)) as [-> | Hne].
      * rewrite lookup_insert_eq, entry_snoc by done. cbn. by rewrite decide_True.
      * rewrite lookup_insert_ne, <- Ht by done. unfold registered. rewrite Hd, Hm. cbn.
        destruct (entry path' ws) eqn:Ee; [by rewrite entry_app_old, Ee by congruence |].
        rewrite entry_snoc by done. cbn. by rewrite decide_False.
    + rewrite lookup_insert_ne by congruence. apply Ht.
  - assert (Hnone : registered path im = None) by (unfold registered; by rewrite Hm).
    rewrite Hnone, registered_insert. case_decide as Hd.
    + rewrite entry_cons. cbn. destruct (decide (path' = path)) as [-> | Hne].
      * by rewrite lookup_insert_eq, decide_True.
      * rewrite lookup_insert_ne, decide_False, <- Ht by done. unfold registered. by rewrite Hd, Hm.
    + rewrite lookup_insert_ne by congruence. apply Ht.
Qed.

Lemma goodbye_table path ws i w im t :
  manager_wf im -> represents im t -> map_ im !! parent_dir path = Some ws ->
  find_config path ws = Some (i, w) -> represents (erased path i ws im) (delete path t).
Proof.
  intros Hwf Ht Hm Hf path'. destruct (Hwf _ _ Hm) as (_ & Hnd & _).
  assert (Hreg : registered path' (erased path i ws im) =
    if decide (parent_dir path' = parent_dir path) then on_change <$> entry path' (delete i ws) else registered path' im).
  { unfold erased. destruct (delete i ws) as [| w' ws'] eqn:Ed; [| apply registered_insert].
    unfold registered, set_map. cbn [map_]. case_decide as Hd.
    - by rewrite Hd, lookup_delete_eq.
    - by rewrite lookup_delete_ne by congruence. }
  rewrite Hreg. case_decide as Hd.
  - rewrite (entry_delete path path' i w ws) by done. case_decide as Hp.
    + subst. by rewrite lookup_delete_eq.
    + rewrite lookup_delete_ne, <- Ht by done. unfold registered. by rewrite Hd, Hm.
  - rewrite lookup_delete_ne by congruence. apply Ht.
Qed.

Lemma watchConfig_run e path cb im tr :
  kernel_ok e -> path ≠ "" ->
  exists im' tr', run e (watchConfig path cb im) tr = (Ok (true, im'), tr') /\
  ((exists c, registered path im = Some c /\ im' = im) \/
  (exists ws, map_ im !! parent_dir path = Some ws /\ entry path ws = None /\
     im' = set_map (<[parent_dir path := ws ++ [mkWatchInfo FD_INVALID path cb]]> (map_ im)) im) \/
  (map_ im !! parent_dir path = None /\
     exists fd, im' = set_map (<[parent_dir path := [mkWatchInfo fd path cb]]> (map_ im)) im)).
Proof.
  intros He Hp. unfold watchConfig. rewrite getParentDir_ok by done. unfold findWatchInfo, registered.
  destruct (map_ im !! parent_dir path) as [ws |] eqn:Em.
  - destruct (find_config path ws) as [[i w] |] eqn:Ef; cbn.
    + eexists _, _. split; [done |]. left. unfold entry. rewrite Ef. by eexists.
    + eexists _, _. split; [done |]. right. left. exists ws. by apply find_config_entry in Ef.
  - cbn. specialize (He tr (AddWatch (c_str (parent_dir path)) (Z.lor IN_CLOSE_WRITE IN_MOVED_TO))).
    apply Z.eqb_neq in He as He'. unfold FD_INVALID. cbn in *. rewrite He'. cbn. rewrite He'. cbn.
    eexists _, _. split; [done |]. right. right. split; [done |]. by eexists.
Qed.

Lemma goodbyeConfig_run e path im tr :
  kernel_ok e -> path ≠ "" ->
  exists im' tr', run e (goodbyeConfig path im) tr = (Ok (true, im'), tr') /\
  ((registered path im = None /\ im' = im) \/
   exists ws i w, map_ im !! parent_dir path = Some ws /\ find_config path ws = Some (i, w) /\
     im' = erased path i ws im).
Proof.
  intros He Hp. unfold goodbyeConfig. rewrite getParentDir_ok by done. unfold findWatchInfo, registered.
  destruct (map_ im !! parent_dir path) as [ws |] eqn:Em; [| eexists _, _; by eauto].
  destruct (find_config path ws) as [[i w] |] eqn:Ef.
  - destruct (negb (watch_fd w =? FD_INVALID)); cbn.
    + specialize (He tr (RemoveWatch (watch_fd w))). apply Z.eqb_neq in He. rewrite He. cbn.
      eexists _, _. split; [done |]. right. exists ws, i, w. unfold erased. by destruct (delete i ws).
    + eexists _, _. split; [done |]. right. exists ws, i, w. unfold erased. by destruct (delete i ws).
  - eexists _, _. split; [done |]. left. cbn. unfold entry. by rewrite Ef.
Qed.

Lemma destroyManager_run e (im : InotifyManager C) tr : exists tr', run e (destroyManager im) tr = (set_map ∅ im, tr').
Proof.
  unfold destroyManager. change (mbind ?f ?p) with (prog_bind p f). rewrite run_bind.
  destruct (run e (remove_all (uiter (map_ im) ≫= snd)) tr) as [[] tr']. by exists tr'.
Qed.

Lemma im_exec_table e op im t tr :
  kernel_ok e -> op_path_ok op -> manager_wf im -> represents im t ->
  exists im' tr', run e (im_exec op im) tr = (Ok im', tr') /\ manager_wf im' /\ represents im' (table_op t op).
Proof.
  intros He Hop Hwf Ht.
  assert (Hok : exists im' tr', run e (im_exec op im) tr = (Ok im', tr') /\ represents im' (table_op t op)).
  { destruct op as [path cb | path |]; cbn [im_exec].
    - destruct (watchConfig_run e path cb im tr He Hop) as (im' & tr' & Hrun & Hcases).
      exists im', tr'. rewrite run_bind, Hrun. split; [done |]. by eapply watch_table.
    - destruct (goodbyeConfig_run e path im tr He Hop) as (im' & tr' & Hrun & Hcases).
      exists im', tr'. rewrite run_bind, Hrun. split; [done |].
      destruct Hcases as [[Hnone ->] | (ws & i & w & Hm & Hf & ->)].
      + cbn. rewrite delete_id; [done |]. by rewrite <- Ht.
      + by eapply goodbye_table.
    - destruct (destroyManager_run e im tr) as (tr' & Hrun).
      exists (set_map ∅ im), tr'. rewrite run_bind, Hrun. split; [done |].
      intros path. cbn. unfold registered, set_map. cbn [map_]. by rewrite !lookup_empty. }
  destruct Hok as (im' & tr' & Hrun & Hrep). exists im', tr'. split; [done |]. split; [| done].
  pose proof (always_run wf_result _ tr e (im_exec_wf op im tr Hwf)) as Hr. by rewrite Hrun in Hr.
Qed.

Lemma im_run_table e ops : forall im t tr,
  kernel_ok e -> Forall op_path_ok ops -> manager_wf im -> represents im t ->
  exists im' tr', run e (im_run ops im) tr = (Ok im', tr') /\ manager_wf im' /\ represents im' (foldl table_op t ops).
Proof.
  induction ops as [| op ops IH]; intros im t tr He Hops Hwf Ht.
  - exists im, tr. done.
  - apply Forall_cons in Hops as [Hop Hops].
    destruct (im_exec_table e op im t tr He Hop Hwf Ht) as (im1 & tr1 & Hrun & Hwf1 & Ht1).
    destruct (IH im1 _ tr1 He Hops Hwf1 Ht1) as (im2 & tr2 & Hrun2 & Hwf2 & Ht2).
    exists im2, tr2. cbn [im_run foldl]. by rewrite run_bind, Hrun.
Qed.

(** *** Dispatch *)

(** the names the kernel reports are names in a directory *)
Definition name_ok (e : kevent) : Prop := event_wf e /\ no_char "/" (ev_name e) = true /\ ev_name e ≠ "".

Definition table_call (t : gmap string (option C)) (e : kevent) : option (invocation C) :=
  cb ← t !! ev_name e; f ← cb; Some (mkInvocation f (ev_name e) (ev_mask e)).

Lemma onInotifyEvent_registered name mask im :
  name ≠ "" ->
  onInotifyEvent name mask im = Ok (cb ← registered name im; f ← cb; Some (mkInvocation f name mask)).
Proof.
  intros Hn. unfold onInotifyEvent. rewrite getParentDir_ok by done. cbn. unfold findWatchInfo.
  unfold registered, entry.
  destruct (map_ im !! parent_dir name) as [ws |]; [| done]. cbn.
  destruct (find_config name ws) as [[i w] |]; [| done]. cbn. by destruct (on_change w).
Qed.

Lemma onInotifyEvent_table name mask im t :
  name ≠ "" -> represents im t ->
  onInotifyEvent name mask im = Ok (cb ← t !! name; f ← cb; Some (mkInvocation f name mask)).
Proof. intros Hn Ht. by rewrite onInotifyEvent_registered, (Ht name) by done. Qed.

Lemma inotify_cb_table im t ev calls :
  ev_name ev ≠ "" -> represents im t ->
  inotify_cb im (ev_name ev) (ev_mask ev) calls = Ok (calls ++ option_list (table_call t ev)).
Proof. intros Hn Ht. unfold inotify_cb. by rewrite (onInotifyEvent_table _ _ _ t). Qed.

Lemma feed_table im t evs calls :
  represents im t -> Forall name_ok evs ->
  feed (inotify_cb im) evs calls = Ok (calls ++ omap (table_call t) evs).
Proof.
  intros Ht. revert calls. induction evs as [| ev evs IH]; intros calls Hok; cbn [feed omap list_omap].
  - by rewrite app_nil_r.
  - apply Forall_cons in Hok as [(Hwf & Hslash & Hne) Hok].
    assert (0 < ev_len ev) by (unfold ev_len; destruct (ev_name ev); cbn in *; [done | lia]).
    destruct (Z.ltb_spec 0 (ev_len ev)); [| lia].
    rewrite (inotify_cb_table im t) by done. cbn [mbind result_bind].
    rewrite IH by done. f_equal. rewrite <- app_assoc. f_equal.
    by destruct (table_call t ev).
Qed.

Lemma length_encode_events_pos evs : evs ≠ [] -> (0 < length (encode_events evs))%nat.
Proof. destruct evs; [done |]. intros _. rewrite encode_events_cons, length_app, length_encode_event. lia. Qed.

Lemma on_readable_table im t evs :
  represents im t -> Forall name_ok evs -> on_readable (encode_events evs) im = Ok (omap (table_call t) evs).
Proof.
  intros Ht Hok. unfold on_readable. destruct (decide (evs = [])) as [-> | Hne]; [done |].
  apply length_encode_events_pos, Nat.ltb_lt in Hne as ->.
  rewrite processInotify_events by (eapply Forall_impl; [done |]; by intros ev (? & _)).
  by rewrite (feed_table im t).
Qed.

Definition no_watches : InotifyManager C := mkManager ∅ None false.

Lemma no_watches_wf : manager_wf no_watches.
Proof. apply map_Forall_empty. Qed.
Lemma no_watches_table : represents no_watches ∅.
Proof. intros path. unfold registered. by rewrite !lookup_empty. Qed.

End ManagerFacts.

(** ** What is and what is not reloaded *)

Section Properties.
Context {C : Type} `{BuildMode} `{!UMapOrder string}.

(** C16: InotifyManager refines a table from paths to callbacks: after any
    sequence of watchConfig, goodbyeConfig and destroyManager calls that the
    kernel accepts, the bytes of any batch of kernel events make processInotify
    invoke exactly the callbacks the table holds for the reported names, in the
    order of the events. *)
Theorem inotify_refines_table (e : env icall Z) (ops : list (im_op (C:=C))) (evs : list kevent) :
  kernel_ok e -> Forall op_path_ok ops -> Forall name_ok evs ->
  exists im tr, run e (im_run ops no_watches) [] = (Ok im, tr) /\ manager_wf im /\
    on_readable (encode_events evs) im = Ok (omap (table_call (foldl table_op ∅ ops)) evs).
Proof.
  intros He Hops Hevs.
  destruct (im_run_table e ops no_watches ∅ [] He Hops no_watches_wf no_watches_table) as (im & tr & Hrun & Hwf & Ht).
  exists im, tr. split; [done |]. split; [done |]. by apply on_readable_table.
Qed.

(** the operations only watch paths with a directory part *)
Definition watches_in_directories (op : im_op (C:=C)) : Prop :=
  match op with OpWatch path _ => no_char "/" path = false | _ => True end.

Lemma table_keys (t : gmap string (option C)) ops :
  map_Forall (fun path _ => no_char "/" path = false) t -> Forall watches_in_directories ops ->
  map_Forall (fun path _ => no_char "/" path = false) (foldl table_op t ops).
Proof.
  revert t. induction ops as [| op ops IH]; intros t Ht Hops; [done |].
  apply Forall_cons in Hops as [Hop Hops]. cbn. apply IH; [| done]. destruct op as [path cb | path |]; cbn in *.
  - destruct (t !! path); [done |]. by apply map_Forall_insert_2.
  - by apply map_Forall_delete.
  - apply map_Forall_empty.
Qed.

(** a configuration watched by a path with a directory part is never
    reloaded: the kernel reports the file name alone, onInotifyEvent looks it
    up under the directory ".", and no callback is invoked whatever events
    arrive. *)
Theorem directory_config_never_reloaded (e : env icall Z) (ops : list (im_op (C:=C))) (evs : list kevent) :
  kernel_ok e -> Forall op_path_ok ops -> Forall watches_in_directories ops -> Forall name_ok evs ->
  exists im tr, run e (im_run ops no_watches) [] = (Ok im, tr) /\
    (forall path, registered path im = foldl table_op ∅ ops !! path) /\
    on_readable (encode_events evs) im = Ok [].
Proof.
  intros He Hops Hdirs Hevs.
  destruct (im_run_table e ops no_watches ∅ [] He Hops no_watches_wf no_watches_table) as (im & tr & Hrun & Hwf & Ht).
  exists im, tr. split; [done |]. split; [done |]. rewrite (on_readable_table im _ evs Ht Hevs). f_equal.
  assert (Hkeys := table_keys ∅ ops (map_Forall_empty _) Hdirs).
  clear -Hkeys Hevs. induction Hevs as [| ev evs (_ & Hslash & _) _ IH]; cbn [omap list_omap]; [done |].
  unfold table_call at 1. destruct (_ !! ev_name ev) eqn:El; cbn; [| apply IH].
  apply Hkeys in El. congruence.
Qed.

(** saying goodbye to the first configuration of a directory removes the
    directory's only kernel watch although other configurations of it stay
    registered; they get no further event, and watching yet another file of
    the directory makes no system call either. *)
Theorem goodbye_first_blinds_directory (e : env icall Z) (im : InotifyManager C) (dir : string)
    (w1 w2 : WatchInfo C) (ws : list (WatchInfo C)) (tr : list (icall * Z)) :
  manager_wf im -> map_ im !! dir = Some (w1 :: w2 :: ws) ->
  watch_config w1 ≠ "" -> watch_fd w1 ≠ FD_INVALID -> e tr (RemoveWatch (watch_fd w1)) ≠ -1 ->
  exists im' tr', run e (goodbyeConfig (watch_config w1) im) tr = (Ok (true, im'), tr') /\
    tr' = tr ++ [(RemoveWatch (watch_fd w1), e tr (RemoveWatch (watch_fd w1)))] /\
    map_ im' !! dir = Some (w2 :: ws) /\ Forall (fun w => watch_fd w = FD_INVALID) (w2 :: ws) /\
    forall path cb, path ≠ "" -> parent_dir path = dir ->
      exists im'', run e (watchConfig path cb im') tr' = (Ok (true, im''), tr').
Proof.
  intros Hwf Hm Hne Hfd Hrem. destruct (Hwf _ _ Hm) as (_ & _ & Hdir & Htl). cbn [tail] in Htl.
  apply Forall_cons in Hdir as [Hdir _].
  unfold goodbyeConfig. rewrite getParentDir_ok by done. unfold findWatchInfo. rewrite Hdir, Hm.
  rewrite find_config_cons, decide_True by done. apply Z.eqb_neq in Hfd as ->. cbn.
  apply Z.eqb_neq in Hrem as ->. cbn. eexists _, _. split; [done |]. split; [done |].
  unfold set_map. cbn [map_]. rewrite lookup_insert_eq. split; [done |]. split; [done |].
  intros path cb Hp Hpd. unfold watchConfig. rewrite getParentDir_ok by done. unfold findWatchInfo.
  cbn [map_]. rewrite Hpd, lookup_insert_eq.
  destruct (find_config path (w2 :: ws)) as [[i w] |]; cbn; by eexists.
Qed.

(** C35: whatever the kernel answers, every sequence of manager operations
    keeps the entries well formed: no empty directory, no path twice, every
    path under its own parent, and only the first entry of a directory with a
    watch descriptor. *)
Theorem manager_entries_wf (ops : list (im_op (C:=C))) (e : env icall Z) (tr : list (icall * Z)) :
  match (run e (im_run ops no_watches) tr).1 with Ok im => manager_wf im | Err _ => True end.
Proof. exact (always_run wf_result _ tr e (im_run_wf ops no_watches tr no_watches_wf)). Qed.

End Properties.

(** ** Concrete runs *)

Module Sample.

#[export] Instance debug_build : BuildMode := false.
#[export] Instance order : UMapOrder string := default_order string.

(** the kernel hands out descriptor 1 for every directory *)
Definition kernel : env icall Z := fun _ c => match c with AddWatch _ _ => 1 | RemoveWatch _ => 0 end.

Lemma kernel_accepts : kernel_ok kernel.
Proof. intros tr [path mask | fd]; discriminate. Qed.

Definition event (name : string) : kevent := mkEvent 1 IN_CLOSE_WRITE 0 name 4.

Lemma event_ok name :
  name ≠ "" -> no_char "/" name = true -> no_char "000" name = true -> (String.length name < 100)%nat ->
  name_ok (event name).
Proof.
  intros Hne Hs Hn Hl. split; [| done]. repeat split; try done; unfold ev_len; cbn; lia.
Qed.

Example reload_bare :
  (run kernel (im_run [OpWatch "hebpf.yaml" (Some 7%nat)] no_watches) []).1
    ≫= on_readable (encode_events [event "other"; event "hebpf.yaml"])
  = Ok [mkInvocation 7%nat "hebpf.yaml" IN_CLOSE_WRITE].
Proof. vm_compute. reflexivity. Qed.

Lemma inotify_refines_table_witness :
  exists im tr,
    run kernel (im_run [OpWatch "hebpf.yaml" (Some 7%nat); OpWatch "/etc/acl.json" (Some 8%nat)] no_watches) [] = (Ok im, tr) /\
    manager_wf im /\
    on_readable (encode_events [event "acl.json"; event "hebpf.yaml"]) im
      = Ok [mkInvocation 7%nat "hebpf.yaml" IN_CLOSE_WRITE].
Proof.
  apply (inotify_refines_table kernel
    [OpWatch "hebpf.yaml" (Some 7%nat); OpWatch "/etc/acl.json" (Some 8%nat)] [event "acl.json"; event "hebpf.yaml"]).
  - exact kernel_accepts.
  - repeat constructor; discriminate.
  - repeat constructor; try discriminate; cbn; lia.
Defined.

Lemma directory_config_never_reloaded_witness :
  exists im tr,
    run kernel (im_run [OpWatch "/etc/acl.json" (Some 8%nat)] no_watches) [] = (Ok im, tr) /\
    (forall path, registered path im = foldl table_op ∅ [OpWatch "/etc/acl.json" (Some 8%nat)] !! path) /\
    on_readable (encode_events [event "acl.json"]) im = Ok [].
Proof.
  apply (directory_config_never_reloaded kernel [OpWatch "/etc/acl.json" (Some 8%nat)] [event "acl.json"]).
  - exact kernel_accepts.
  - repeat constructor; discriminate.
  - repeat constructor.
  - repeat constructor; try discriminate; cbn; lia.
Defined.

Definition acl_watch : WatchInfo nat := mkWatchInfo 1 "/etc/acl.json" (Some 7%nat).
Definition lb_watch : WatchInfo nat := mkWatchInfo FD_INVALID "/etc/lb.json" (Some 8%nat).
Definition two_configs : InotifyManager nat := mkManager {[ "/etc" := [acl_watch; lb_watch] ]} (Some 3) true.

Example two_configs_reached :
  map_ <$> (run kernel (im_run [OpWatch "/etc/acl.json" (Some 7%nat); OpWatch "/etc/lb.json" (Some 8%nat)] no_watches) []).1
  = Ok (map_ two_configs).
Proof. vm_compute. reflexivity. Qed.

Lemma goodbye_first_blinds_directory_witness :
  exists im' tr', run kernel (goodbyeConfig "/etc/acl.json" two_configs) [] = (Ok (true, im'), tr') /\
    tr' = [(RemoveWatch 1, 0)] /\
    map_ im' !! "/etc" = Some [lb_watch] /\ Forall (fun w => watch_fd w = FD_INVALID) [lb_watch] /\
    forall path cb, path ≠ "" -> parent_dir path = "/etc" ->
      exists im'', run kernel (watchConfig path cb im') tr' = (Ok (true, im''), tr').
Proof.
  apply (goodbye_first_blinds_directory kernel two_configs "/etc" acl_watch lb_watch [] []).
  - apply map_Forall_singleton. split; [done |]. split; [| split].
    + apply NoDup_cons. split; [| apply NoDup_singleton]. by rewrite list_elem_of_singleton.
    + repeat constructor.
    + repeat constructor.
  - reflexivity.
  - discriminate.
  - discriminate.
  - discriminate.
Defined.

End Sample.
