(* ===== verification/Loader.v ===== *)
(** * Loading and unloading the services

    [Loader] ([src/daemon/loader.cc]): the table of loaded services keyed by
    library path, their registration with the configuration watcher and with
    the program-chain manager.  The three collaborators are interfaces: the
    service object inside a dynamic library ([EbpfIf]), the configuration
    watcher ([InotifyManagerIf]) and the chain manager ([ChainIf]); the last
    two are implemented by [Inotify.v] and [ProgMap.v]. *)

From S2P Require Import Prelude Configs Names BpfMap ProgMap Inotify.

#[local] Open Scope string_scope.
#[local] Open Scope Z_scope.
#[local] Open Scope list_scope.

(** ** Interfaces *)

(** The C++ interface of a service; [J] stands for JSON values. *)
(* src/ebpf/ebpf_if.h:19-34 EbpfIf *)
Class EbpfIf (I J : Type) : Type := {
  getName : I -> string;
  start : bool -> ST I bool;
  stop : ST I unit;
  onConfigUpdate : HookType -> Z -> J -> ST I unit;
  getMainProgFd : I -> Z;
  getPrometheusStatus : I -> J;
  getDebugStatus : I -> J
}.

(** A [std::string_view]: the storage of a string, known by the text it held
    when the view was made.  The view does not keep the string alive, so what
    reading it gives later is up to the storage ([on_config_changed]). *)
Record StringView : Type := view_of { viewed : string }.

(** what the closure registered for a configuration file captures; the path is
    a view of the local string [real_so_path] of [loadService], which is gone
    when the closure is called *)
(* src/daemon/loader.cc:231-237 Loader::registerServiceConfig *)
Record ConfigCb : Type := mkConfigCb { cb_so_path : StringView; cb_hook_type : HookType; cb_ifindex : Z }.

(* src/inotify/inotify_manager_if.h:12-18 InotifyManagerIf *)
Class InotifyManagerIf (IM : Type) : Type := {
  im_watchConfig : string -> ConfigCb -> ST IM bool;
  im_goodbyeConfig : string -> ST IM bool;
  im_callback : IM -> string -> option ConfigCb
}.

(** The promise of the watcher: on a non-empty path both operations succeed
    and only the callback of that path changes; a path that is watched already
    keeps its first callback. *)
Class InotifyManagerLaws (IM : Type) `{InotifyManagerIf IM} : Type := {
  im_inv : IM -> Prop;
  im_watch_law : forall path cb im, path ≠ "" -> im_inv im ->
    exists im', im_watchConfig path cb im = (Ok true, im') /\ im_inv im' /\
      im_callback im' path = Some (default cb (im_callback im path)) /\
      (forall path', path' ≠ path -> im_callback im' path' = im_callback im path');
  im_goodbye_law : forall path im, path ≠ "" -> im_inv im ->
    exists im', im_goodbyeConfig path im = (Ok true, im') /\ im_inv im' /\
      im_callback im' path = None /\ (forall path', path' ≠ path -> im_callback im' path' = im_callback im path')
}.

(** the operations of [PinnedProgMap] the loader uses *)
Class ChainIf (CM : Type) : Type := {
  chain_allocateRegion : HookType -> Z -> ST CM Z;
  chain_updateChain : HookType -> list (string * Z) -> ST CM bool;
  chain_insertProg : HookType -> string -> Z -> Z -> ST CM bool;
  chain_lookupProgInfo : string -> CM -> option ProgInfo
}.

(** [dlopen], [dlsym] and the factory function of the library *)
Inductive library (I : Type) : Type :=
| NotOpened
| NoFactory
| NullService
| Service (instance : I).
Arguments NotOpened {I}.
Arguments NoFactory {I}.
Arguments NullService {I}.
Arguments Service {I} instance.

Section Loader.
Context {I J IM CM : Type} `{EbpfIf I J} `{InotifyManagerIf IM} `{ChainIf CM}.
Context `{BuildMode} `{!UMapOrder string}.
(** the dynamic libraries, the null JSON value, and what reading a JSON file
    leaves in the variable (also when parsing fails, which is only logged) *)
Context (dl : string -> library I) (json_null : J) (read_json : string -> J).

(* src/daemon/loader.h:31-39 ServiceHandle *)
Record ServiceHandle : Type := mkService {
  handle : bool;
  instance : option I;
  name : string;
  path : string;
  config : string;
  hook : HookType;
  ifindex : Z
}.

(** weak pointers: whether the io context is alive, and the collaborators;
    [destroyed_] is a history variable, the service objects destroyed so far
    in the state they were in *)
(* src/daemon/loader.h:41-73 Loader *)
Record Loader : Type := mkLoader {
  services_ : gmap string ServiceHandle;
  io_ctx_ : bool;
  inotify_mgr_ : option IM;
  chain_mgr_ : option CM;
  destroyed_ : list I
}.

Definition set_services (s : gmap string ServiceHandle) (l : Loader) : Loader :=
  mkLoader s (io_ctx_ l) (inotify_mgr_ l) (chain_mgr_ l) (destroyed_ l).
Definition set_inotify (im : option IM) (l : Loader) : Loader :=
  mkLoader (services_ l) (io_ctx_ l) im (chain_mgr_ l) (destroyed_ l).
Definition set_chain (cm : option CM) (l : Loader) : Loader :=
  mkLoader (services_ l) (io_ctx_ l) (inotify_mgr_ l) cm (destroyed_ l).
(** [std::unique_ptr<EbpfIf>]: the object is destroyed *)
Definition retire (i : I) (l : Loader) : Loader :=
  mkLoader (services_ l) (io_ctx_ l) (inotify_mgr_ l) (chain_mgr_ l) (destroyed_ l ++ [i]).
Definition set_instance (i : option I) (s : ServiceHandle) : ServiceHandle :=
  mkService (handle s) i (name s) (path s) (config s) (hook s) (ifindex s).
Definition set_config (c : string) (s : ServiceHandle) : ServiceHandle :=
  mkService (handle s) (instance s) (name s) (path s) c (hook s) (ifindex s).

(** a call on the watcher, and the exception when it is gone *)
Definition on_inotify {A} (m : ST IM A) : ST Loader A := fun l =>
  match inotify_mgr_ l with
  | None => (Err (EXCEPT "Inotify is invalid"), l)
  | Some im => let '(r, im) := m im in (r, set_inotify (Some im) l)
  end.

Definition on_chain {A} (m : ST CM A) (default : A) : ST Loader A := fun l =>
  match chain_mgr_ l with
  | None => (Ok default, l)
  | Some cm => let '(r, cm) := m cm in (r, set_chain (Some cm) l)
  end.

(** a call on the service object stored under a key, which is not null *)
Definition on_service {A} (key : string) (s : ServiceHandle) (i : I) (m : ST I A) : ST Loader A := fun l =>
  let '(r, i) := m i in (r, set_services (<[key := set_instance (Some i) s]> (services_ l)) l).

(* src/daemon/loader.cc:174-187 Loader::getService *)
Definition getService (so_path : string) (l : Loader) : option I :=
  services_ l !! so_path ≫= instance.

(* src/daemon/loader.cc:189-202 Loader::getAllService *)
Definition getAllService (l : Loader) : list string := fst <$> uiter (services_ l).

(* src/daemon/loader.cc:254-288 Loader::unregisterServiceConfig *)
Definition unregisterServiceConfig (so_path config_path : string) : ST Loader unit :=
  l ← get;
  _ ← lift (ASSERT (bool_decide (is_Some (inotify_mgr_ l))));
  if (config_path =? "")%string then mret tt
  else
    _ ← on_inotify (im_goodbyeConfig config_path);
    l ← get;
    match services_ l !! so_path with
    | None => throw (EXCEPT "Service not found, MUST BE load service first")
    | Some s => modify (set_services (<[so_path := set_config "" s]> (services_ l)))
    end.

(* src/daemon/loader.cc:401-430 Loader::loadServiceConfigs *)
Definition loadServiceConfigs (so_path : string) (hook_type : HookType) (ifindex : Z) (conf_path : string)
  : ST Loader unit :=
  _ ← lift (ASSERT (negb (bool_decide (hook_type = UNKNOWN))));
  _ ← lift (ASSERT (0 <? ifindex));
  l ← get;
  match services_ l !! so_path with
  | None => unregisterServiceConfig so_path conf_path
  | Some s =>
      match instance s with
      | None => unregisterServiceConfig so_path conf_path
      | Some i => on_service so_path s i (onConfigUpdate hook_type ifindex (read_json conf_path))
      end
  end.

(** the closure that the watcher calls with the reported file name;
    [stored]: the text that the storage of a view holds at the time of the call *)
(* src/daemon/loader.cc:233-237 Loader::registerServiceConfig *)
Definition on_config_changed (stored : StringView -> string) (cb : ConfigCb) (name : string) : ST Loader unit :=
  loadServiceConfigs (stored (cb_so_path cb)) (cb_hook_type cb) (cb_ifindex cb) name.

(* src/daemon/loader.cc:204-252 Loader::registerServiceConfig *)
Definition registerServiceConfig (so_path : string) (hook_type : HookType) (ifindex : Z) (config_path : string)
  : ST Loader unit :=
  l ← get;
  _ ← lift (ASSERT (bool_decide (is_Some (inotify_mgr_ l))));
  _ ← lift (ASSERT (negb (bool_decide (hook_type = UNKNOWN))));
  _ ← lift (ASSERT (0 <? ifindex));
  if (config_path =? "")%string then mret tt
  else
    watched ← on_inotify (im_watchConfig config_path (mkConfigCb (view_of so_path) hook_type ifindex));
    if negb watched then throw (EXCEPT "Inotify add watch failed")
    else
      _ ← loadServiceConfigs so_path hook_type ifindex config_path;
      l ← get;
      match services_ l !! so_path with
      | None => throw (EXCEPT "Service not found, MUST BE load service first")
      | Some s => modify (set_services (<[so_path := set_config config_path s]> (services_ l)))
      end.

Definition is_scheduler_lib (real_so_path : string) : bool :=
  (real_so_path =? SCHEDULER_XDP_LIB)%string || (real_so_path =? SCHEDULER_TC_LIB)%string.

(** [so_path] up to its last [;], if it has one *)
Definition real_path (so_path : string) : string := default so_path (before_last ";" so_path).

(** the registration of a freshly loaded service with the chain manager *)
(* src/daemon/loader.cc:96-118 Loader::loadService *)
Definition register_program (so_path service_name : string) (hook_type : HookType) (ifindex : Z)
  : ST Loader bool :=
  l ← get;
  match chain_mgr_ l with
  | None => mret false
  | Some _ =>
      match getService so_path l with
      | None => mret true
      | Some i =>
          canonical_name ← lift (getCanonicalName hook_type PROGRAM service_name);
          let prog_fd := getMainProgFd i in
          _ ← (if 0 <=? prog_fd
               then on_chain (chain_insertProg hook_type canonical_name prog_fd ifindex) false
               else mret false);
          mret true
      end
  end.

(* src/daemon/loader.cc:17-119 Loader::loadService *)
Definition loadService (so_path : string) (hook_type : HookType) (ifindex : Z) (config_path : string)
  : ST Loader bool :=
  _ ← lift (ASSERT (negb (so_path =? "")%string));
  _ ← lift (ASSERT (negb (bool_decide (hook_type = UNKNOWN))));
  _ ← lift (ASSERT (0 <? ifindex));
  let real_so_path := real_path so_path in
  match dl real_so_path with
  | NotOpened => throw (EXCEPT "dlopen() failed")
  | NoFactory => throw (EXCEPT "Failed to get factory symbols")
  | NullService => throw (EXCEPT "Exported function returned nullptr")
  | Service i =>
      l ← get;
      match start (io_ctx_ l) i with
      | (Err e, i) => _ ← modify (retire i); throw e
      | (Ok false, i) => _ ← modify (retire i); throw (EXCEPT "Failed to start eBPF service")
      | (Ok true, i) =>
          match services_ l !! so_path with
          | Some _ => _ ← modify (retire i); mret false
          | None =>
              let service_name := getName i in
              let serv := mkService true (Some i) service_name so_path "" hook_type ifindex in
              _ ← modify (set_services (<[so_path := serv]> (services_ l)));
              _ ← (if is_scheduler_lib real_so_path
                   then on_service so_path serv i (onConfigUpdate hook_type ifindex json_null)
                   else registerServiceConfig real_so_path hook_type ifindex config_path);
              register_program so_path service_name hook_type ifindex
          end
      end
  end.

(* src/daemon/loader.cc:121-172 Loader::unloadServices *)
Definition unloadServices (so_path : string) : ST Loader bool :=
  l ← get;
  _ ← lift (ASSERT (bool_decide (is_Some (inotify_mgr_ l))));
  match services_ l !! so_path with
  | None => mret false
  | Some s =>
      _ ← (if (config s =? "")%string then mret tt else unregisterServiceConfig (path s) (config s));
      l ← get;
      match services_ l !! so_path with
      | None => mret false
      | Some s =>
          match instance s with
          | None => mret false
          | Some i =>
              match stop i with
              | (Err e, i) => _ ← modify (set_services (<[so_path := set_instance (Some i) s]> (services_ l))); throw e
              | (Ok _, i) =>
                  _ ← modify (retire i);
                  if handle s then
                    _ ← modify (set_services (delete so_path (services_ l))); mret true
                  else
                    _ ← modify (set_services (<[so_path := set_instance None s]> (services_ l))); mret false
              end
          end
      end
  end.

(* src/daemon/loader.cc:290-300 Loader::setProgChainManager *)
Definition setProgChainManager (mgr : option CM) : ST Loader bool :=
  _ ← modify (set_chain mgr); mret (bool_decide (is_Some mgr)).

(* src/daemon/loader.cc:377-387 Loader::setIoContext *)
Definition setIoContext (io_ctx : bool) : ST Loader bool :=
  _ ← modify (fun l => mkLoader (services_ l) io_ctx (inotify_mgr_ l) (chain_mgr_ l) (destroyed_ l)); mret io_ctx.

(* src/daemon/loader.cc:389-399 Loader::setInotifyManager *)
Definition setInotifyManager (mgr : option IM) : ST Loader bool :=
  _ ← modify (set_inotify mgr); mret (bool_decide (is_Some mgr)).

(** the index, converted to [bool] *)
(* src/daemon/loader.cc:302-321 Loader::allocateChain *)
Definition allocateChain (hook_type : HookType) (ifindex : Z) : ST Loader bool :=
  start_index ← on_chain (chain_allocateRegion hook_type ifindex) 0;
  mret (negb (start_index =? 0)).

(* src/daemon/loader.cc:323-343 Loader::updateProgChain *)
Definition updateProgChain (hook_type : HookType) (names_ifindex : list (string * Z)) : ST Loader bool :=
  on_chain (chain_updateChain hook_type names_ifindex) false.

(* src/daemon/loader.cc:460-484 Loader::getHookType *)
Definition getHookType (canonical_name : string) (l : Loader) : HookType :=
  match chain_mgr_ l with
  | None => UNKNOWN
  | Some cm => match chain_lookupProgInfo canonical_name cm with Some info => Names.hook info | None => UNKNOWN end
  end.

(** one service of the debug report *)
Record ServiceReport : Type := mkReport {
  r_so_path : string; r_name : string; r_config_path : string; r_hook : string; r_ifindex : Z; r_status : option J
}.

(* src/daemon/loader.cc:345-375 Loader::getDebugStatus *)
Definition loaderDebugStatus (l : Loader) : list ServiceReport * option CM :=
  ((fun kv => mkReport kv.1 (name kv.2) (config kv.2) (enumName (hook kv.2)) (ifindex kv.2)
                (getDebugStatus <$> instance kv.2)) <$> uiter (services_ l), chain_mgr_ l).

(** the body of the loop of [clear], on a copy of the handle: stop() and
    reset() of the service, then its registration *)
Definition clear_service (serv : string * ServiceHandle) : ST Loader unit :=
  _ ← match instance serv.2 with
      | None => mret tt
      | Some i => let '(r, i) := stop i in match r with Ok _ => modify (retire i) | Err e => throw e end
      end;
  if (config serv.2 =? "")%string then mret tt else unregisterServiceConfig (path serv.2) (config serv.2).

(** [clear] iterates over [dup], which is declared empty and never swapped
    with [services_] *)
(* src/daemon/loader.cc:432-458 Loader::clear *)
Definition clear : ST Loader unit :=
  let dup : gmap string ServiceHandle := ∅ in
  catch (for_each clear_service (uiter dup)) (mret tt).

End Loader.

Arguments ServiceHandle : clear implicits.
Arguments Loader : clear implicits.

(** ** The contract the daemon relies on *)

(* src/daemon/loader_if.h:16-32 LoaderIf *)
Class LoaderIf (L I : Type) : Type := {
  li_loadService : string -> HookType -> Z -> string -> ST L bool;
  li_unloadServices : string -> ST L bool;
  li_getService : string -> L -> option I;
  li_getAllService : L -> list string;
  li_registerServiceConfig : string -> HookType -> Z -> string -> ST L unit;
  li_unregisterServiceConfig : string -> string -> ST L unit;
  li_allocateChain : HookType -> Z -> ST L bool;
  li_updateProgChain : HookType -> list (string * Z) -> ST L bool
}.

(** A loaded service is described by its hook, its interface and the
    configuration file it watches. *)
Definition service_view : Type := HookType * Z * string.

(** what loading a library does to the table of loaded services *)
Definition view_load (so : string) (v : service_view) (t : gmap string service_view) : gmap string service_view :=
  match t !! so with Some _ => t | None => <[so := v]> t end.

(** the configuration file of a service, when it is given one *)
Definition view_config (so conf : string) (t : gmap string service_view) : gmap string service_view :=
  alter (fun v => (v.1, conf)) so t.

Class LoaderLaws (L I : Type) `{LoaderIf L I} : Type := {
  li_inv : L -> Prop;
  li_loaded : L -> gmap string service_view;
  li_loadable : string -> HookType -> Z -> string -> Prop;
  li_load_law : forall so h i conf l, li_inv l -> li_loadable so h i conf ->
    exists l', li_loadService so h i conf l = (Ok (bool_decide (li_loaded l !! so = None)), l') /\ li_inv l' /\
      li_loaded l' = view_load so (h, i, conf) (li_loaded l);
  li_unload_law : forall so l, li_inv l ->
    exists l', li_unloadServices so l = (Ok (bool_decide (is_Some (li_loaded l !! so))), l') /\ li_inv l' /\
      li_loaded l' = delete so (li_loaded l);
  li_register_law : forall so h i conf l, li_inv l -> is_Some (li_loaded l !! so) -> li_loadable so h i conf ->
    exists l', li_registerServiceConfig so h i conf l = (Ok tt, l') /\ li_inv l' /\
      li_loaded l' = if (conf =? "")%string then li_loaded l else view_config so conf (li_loaded l);
  li_unregister_law : forall so conf l, li_inv l -> is_Some (li_loaded l !! so) ->
    exists l', li_unregisterServiceConfig so conf l = (Ok tt, l') /\ li_inv l' /\
      li_loaded l' = if (conf =? "")%string then li_loaded l else view_config so "" (li_loaded l);
  li_allocate_law : forall h i l, li_inv l -> h ≠ UNKNOWN -> 0 < i ->
    exists b l', li_allocateChain h i l = (Ok b, l') /\ li_inv l' /\ li_loaded l' = li_loaded l;
  li_update_law : forall h names l, li_inv l -> h ≠ UNKNOWN ->
    exists b l', li_updateProgChain h names l = (Ok b, l') /\ li_inv l' /\ li_loaded l' = li_loaded l;
  li_all_law : forall l, li_inv l -> li_getAllService l ≡ₚ (map_to_list (li_loaded l)).*1
}.

(** what the loader asks of the chain manager: the calls return *)
Class ChainLaws (CM : Type) `{ChainIf CM} : Type := {
  chain_inv : CM -> Prop;
  chain_allocate_law : forall h i cm, chain_inv cm -> h ≠ UNKNOWN -> 0 < i ->
    exists r cm', chain_allocateRegion h i cm = (Ok r, cm') /\ chain_inv cm';
  chain_update_law : forall h names cm, chain_inv cm -> h ≠ UNKNOWN ->
    exists r cm', chain_updateChain h names cm = (Ok r, cm') /\ chain_inv cm';
  chain_insert_law : forall h name fd i cm, chain_inv cm -> 0 <= fd ->
    exists r cm', chain_insertProg h name fd i cm = (Ok r, cm') /\ chain_inv cm'
}.

(** What the loader asks of a service object: while it is serving (started and
    not stopped) neither [stop] nor a configuration it accepts throws. *)
Class EbpfLaws (I J : Type) `{EbpfIf I J} : Type := {
  serving : I -> Prop;
  stopped : I -> Prop;
  accepts : I -> J -> Prop;
  update_law : forall h i j s, serving s -> accepts s j ->
    exists s', onConfigUpdate h i j s = (Ok tt, s') /\ serving s' /\ (forall j', accepts s j' -> accepts s' j');
  stop_law : forall s, serving s -> exists s', stop s = (Ok tt, s') /\ stopped s'
}.

Section LoaderFacts.
Context {I J IM CM : Type} `{!EbpfIf I J, !EbpfLaws I J} `{!InotifyManagerIf IM, !InotifyManagerLaws IM} `{!ChainIf CM, !ChainLaws CM}.
Context `{BuildMode} `{!UMapOrder string}.
Context (dl : string -> library I) (json_null : J) (read_json : string -> J).

#[export] Instance loader_if : LoaderIf (Loader I IM CM) I := {|
  li_loadService := loadService dl json_null read_json;
  li_unloadServices := unloadServices;
  li_getService := getService;
  li_getAllService := getAllService;
  li_registerServiceConfig := registerServiceConfig read_json;
  li_unregisterServiceConfig := unregisterServiceConfig;
  li_allocateChain := allocateChain;
  li_updateProgChain := updateProgChain
|}.

Definition view (s : ServiceHandle I) : service_view := (hook s, ifindex s, config s).
Definition loaded (l : Loader I IM CM) : gmap string service_view := view <$> services_ l.

(** an object accepts what a freshly started object of its library accepts *)
Definition of_library (key : string) (i : I) : Prop :=
  forall s0 s1 j, dl (real_path key) = Service s0 -> start true s0 = (Ok true, s1) -> accepts s1 j -> accepts i j.

Definition service_wf (key : string) (s : ServiceHandle I) : Prop :=
  handle s = true /\ (exists i, instance s = Some i /\ serving i /\ of_library key i) /\ path s = key.

Record loader_inv (l : Loader I IM CM) : Prop := {
  inv_inotify : exists im, inotify_mgr_ l = Some im /\ im_inv im;
  inv_chain : exists cm, chain_mgr_ l = Some cm /\ chain_inv cm;
  inv_io : io_ctx_ l = true;
  inv_services : map_Forall service_wf (services_ l)
}.

(** the JSON value a library is given when it is loaded *)
Definition first_config (so conf : string) : J :=
  if is_scheduler_lib (real_path so) then json_null else read_json conf.

(** a library that can be loaded: its service starts and accepts its
    configuration, and the path is either plain or one of the paths the daemon
    makes up for its schedulers *)
Record loadable (so : string) (h : HookType) (i : Z) (conf : string) : Prop := {
  ld_so : so ≠ "";
  ld_hook : h ≠ UNKNOWN;
  ld_ifindex : 0 < i;
  ld_service : exists s, dl (real_path so) = Service s /\
    exists s', start true s = (Ok true, s') /\ getName s' ≠ "" /\ serving s' /\
      (conf ≠ "" \/ is_scheduler_lib (real_path so) = true -> accepts s' (first_config so conf));
  ld_path : (is_scheduler_lib (real_path so) = true /\ conf = "") \/
            (is_scheduler_lib (real_path so) = false /\ real_path so = so)
}.

Lemma st_bind_ok {S A B} (m : ST S A) (f : A -> ST S B) s a s' :
  m s = (Ok a, s') -> (m ≫= f) s = f a s'.
Proof. intros Hm. cbv [mbind st_bind]. by rewrite Hm. Qed.

Lemma assert_true `{BuildMode} {S B} (b : bool) (f : unit -> ST S B) s :
  b = true -> (lift (ASSERT b) ≫= f) s = f tt s.
Proof. intros ->. done. Qed.

Lemma view_set_config c s : view (set_config c s) = ((view s).1, c).
Proof. done. Qed.

Lemma inv_set_services m l : loader_inv l -> map_Forall service_wf m -> loader_inv (set_services m l).
Proof. by intros []. Qed.

Lemma inv_set_inotify im l : loader_inv l -> im_inv im -> loader_inv (set_inotify (Some im) l).
Proof. intros [] ?. split; [by eauto | done | done | done]. Qed.

Lemma inv_set_chain cm l : loader_inv l -> chain_inv cm -> loader_inv (set_chain (Some cm) l).
Proof. intros [] ?. split; [done | by eauto | done | done]. Qed.

Lemma inv_retire i l : loader_inv l -> loader_inv (retire i l).
Proof. by intros []. Qed.

(** the services of a loader, seen through their keys *)
Lemma loaded_lookup so l : is_Some (loaded l !! so) <-> is_Some (services_ l !! so).
Proof. unfold loaded. rewrite lookup_fmap. by rewrite fmap_is_Some. Qed.

Lemma loaded_set_config so c s l :
  services_ l !! so = Some s ->
  loaded (set_services (<[so := set_config c s]> (services_ l)) l) = view_config so c (loaded l).
Proof.
  intros Es. unfold loaded, view_config. cbn. rewrite fmap_insert, view_set_config.
  apply map_eq. intros k. destruct (decide (k = so)) as [-> | Hne].
  - by rewrite lookup_insert_eq, lookup_alter_eq, lookup_fmap, Es.
  - by rewrite lookup_insert_ne, lookup_alter_ne by done.
Qed.

Lemma unregister_spec so conf l :
  loader_inv l -> is_Some (loaded l !! so) ->
  exists l', unregisterServiceConfig so conf l = (Ok tt, l') /\ loader_inv l' /\ destroyed_ l' = destroyed_ l /\
    (forall s, services_ l !! so = Some s -> exists c, services_ l' !! so = Some (set_config c s)) /\
    loaded l' = if (conf =? "")%string then loaded l else view_config so "" (loaded l).
Proof.
  intros Hinv Hso. destruct (inv_inotify l Hinv) as (im & Him & Himinv). unfold unregisterServiceConfig.
  rewrite (st_bind_ok get _ l l l) by done. rewrite assert_true by (by rewrite Him; apply bool_decide_eq_true_2).
  destruct (String.eqb_spec conf "") as [-> | Hc].
  { exists l. repeat (split; [done |]). split; [| done]. intros [] ?. by eexists. }
  destruct (im_goodbye_law conf im Hc Himinv) as (im' & Hg & Hinv' & _).
  erewrite st_bind_ok; [| unfold on_inotify; by rewrite Him, Hg].
  rewrite (st_bind_ok get _ _ _ _ eq_refl). apply loaded_lookup in Hso as [s Es].
  cbn [services_ set_inotify]. rewrite Es.
  eexists. split; [done |]. split; [| split; [done |]; split].
  - apply (inv_set_services _ (set_inotify (Some im') l)); [by apply inv_set_inotify |].
    apply map_Forall_insert_2; [| apply (inv_services l Hinv)]. by apply (inv_services l Hinv so s) in Es.
  - intros s' [= <-]. exists "". apply lookup_insert_eq.
  - by apply (loaded_set_config so "" s (set_inotify (Some im') l)).
Qed.

Lemma on_service_spec key s i (m : ST I unit) i' l :
  loader_inv l -> services_ l !! key = Some s -> m i = (Ok tt, i') -> serving i' -> of_library key i' ->
  exists l', on_service key s i m l = (Ok tt, l') /\ loader_inv l' /\ destroyed_ l' = destroyed_ l /\
    loaded l' = loaded l /\ getService key l' = Some i'.
Proof.
  intros Hinv Hs Hm Hi' Hlib. unfold on_service. rewrite Hm. eexists. split; [done |]. split; [| split; [done |]].
  - apply inv_set_services; [done |]. apply map_Forall_insert_2; [| apply (inv_services l Hinv)].
    destruct (inv_services l Hinv key s Hs) as (? & _ & ?). repeat split; [done | by eexists | done].
  - unfold loaded, getService. cbn. rewrite fmap_insert, lookup_insert_eq. split; [| done].
    rewrite insert_id; [done |]. by rewrite lookup_fmap, Hs.
Qed.

(** what is left to prove of an object after a configuration *)
Lemma update_of_library key h i j s :
  serving s -> of_library key s -> accepts s j ->
  exists s', onConfigUpdate h i j s = (Ok tt, s') /\ serving s' /\ of_library key s'.
Proof.
  intros Hs Hlib Hj. destruct (update_law h i j s Hs Hj) as (s' & ? & ? & Hkeep). exists s'. split; [done |]. split; [done |].
  intros s0 s1 j' Hdl Hst Hj'. eapply Hkeep, Hlib; done.
Qed.

Lemma loadServiceConfigs_spec so h i conf l :
  loader_inv l -> is_Some (loaded l !! so) -> loadable so h i conf -> real_path so = so -> conf ≠ "" ->
  is_scheduler_lib so = false ->
  exists l' i0 i1, loadServiceConfigs read_json so h i conf l = (Ok tt, l') /\ loader_inv l' /\
    destroyed_ l' = destroyed_ l /\ loaded l' = loaded l /\
    getService so l = Some i0 /\ onConfigUpdate h i (read_json conf) i0 = (Ok tt, i1) /\ getService so l' = Some i1.
Proof.
  intros Hinv Hso [_ Hh Hi (s0 & Hdl & s1 & Hst & _ & _ & Hacc) _] Hreal Hc Hplain. unfold loadServiceConfigs.
  rewrite assert_true by (by rewrite negb_true_iff, bool_decide_eq_false).
  rewrite assert_true by (by apply Z.ltb_lt). rewrite (st_bind_ok get _ l l l) by done.
  apply loaded_lookup in Hso as [s Es]. rewrite Es.
  destruct (inv_services l Hinv so s Es) as (_ & (i0 & Hi0 & Hserv & Hlib) & _). rewrite Hi0.
  destruct (update_of_library so h i (read_json conf) i0 Hserv Hlib) as (i1 & Hup & ? & ?).
  { eapply Hlib; [done | done |]. unfold first_config in Hacc. rewrite Hreal, Hplain in Hacc. by apply Hacc; left. }
  edestruct on_service_spec as (l' & ? & ? & ? & ? & ?); [done | done | exact Hup | done | done |].
  exists l', i0, i1. repeat (split; [done |]). unfold getService. by rewrite Es.
Qed.

Lemma register_spec so h i conf l :
  loader_inv l -> is_Some (loaded l !! so) -> loadable so h i conf ->
  exists l', registerServiceConfig read_json so h i conf l = (Ok tt, l') /\ loader_inv l' /\
    destroyed_ l' = destroyed_ l /\
    loaded l' = (if (conf =? "")%string then loaded l else view_config so conf (loaded l)) /\
    (conf ≠ "" -> exists i0 i1, getService so l = Some i0 /\ onConfigUpdate h i (read_json conf) i0 = (Ok tt, i1) /\
       getService so l' = Some i1) /\ (conf = "" -> l' = l).
Proof.
  intros Hinv Hso Hl. destruct (inv_inotify l Hinv) as (im & Him & Himinv). unfold registerServiceConfig.
  rewrite (st_bind_ok get _ l l l) by done. rewrite assert_true by (by rewrite Him; apply bool_decide_eq_true_2).
  rewrite assert_true by (rewrite negb_true_iff, bool_decide_eq_false; apply Hl).
  rewrite assert_true by (apply Z.ltb_lt, Hl).
  destruct (String.eqb_spec conf "") as [-> | Hc]; [by exists l |].
  destruct (ld_path _ _ _ _ Hl) as [[_ ->] | [Hplain Hreal]]; [done |].
  destruct (im_watch_law conf (mkConfigCb (view_of so) h i) im Hc Himinv) as (im' & Hw & Hinv' & _).
  erewrite st_bind_ok; [| unfold on_inotify; by rewrite Him, Hw]. cbn [negb].
  destruct (loadServiceConfigs_spec so h i conf (set_inotify (Some im') l)) as (l2 & i0 & i1 & Hl2 & Hinv2 & Hd2 & Hld2 & Hi0 & Hup & Hi1);
    [by apply inv_set_inotify | done | done | done | done | by rewrite <- Hreal |].
  erewrite st_bind_ok by done. rewrite (st_bind_ok get _ l2 l2 l2) by done.
  assert (Hso2 : is_Some (loaded l2 !! so)) by (rewrite Hld2; exact Hso).
  apply loaded_lookup in Hso2 as [s Es]. rewrite Es.
  eexists. split; [done |]. split; [| split; [exact Hd2 |]].
  - apply inv_set_services; [done |]. apply map_Forall_insert_2; [| apply (inv_services l2 Hinv2)].
    by apply (inv_services l2 Hinv2 so s) in Es.
  - split; [rewrite (loaded_set_config so conf s) by done; by rewrite Hld2 |].
    split; [| done]. intros _. exists i0, i1. split; [exact Hi0 |]. split; [done |].
    revert Hi1. unfold getService. rewrite Es. cbn. by rewrite lookup_insert_eq.
Qed.

Lemma register_program_spec so name h i l :
  loader_inv l -> is_Some (loaded l !! so) -> name ≠ "" -> h ≠ UNKNOWN ->
  exists l', register_program so name h i l = (Ok true, l') /\ loader_inv l' /\ destroyed_ l' = destroyed_ l /\
    loaded l' = loaded l /\ services_ l' = services_ l.
Proof.
  intros Hinv Hso Hn Hh. destruct (inv_chain l Hinv) as (cm & Hcm & Hcinv). unfold register_program.
  rewrite (st_bind_ok get _ l l l) by done. rewrite Hcm. unfold getService.
  apply loaded_lookup in Hso as [s Es]. rewrite Es.
  destruct (inv_services l Hinv so s Es) as (_ & (i0 & Hi0 & _ & _) & _). cbn. rewrite Hi0.
  unfold getCanonicalName. apply String.eqb_neq in Hn as ->. rewrite bool_decide_eq_false_2 by done.
  destruct (Z.leb_spec 0 (getMainProgFd i0)) as [Hfd | Hfd].
  - destruct (chain_insert_law h (upcase name +:+ "_" +:+ enumName h) (getMainProgFd i0) i cm Hcinv Hfd)
      as (r & cm' & Hins & Hcinv').
    exists (set_chain (Some cm') l). cbv [mbind st_bind lift negb]. cbn. unfold on_chain. rewrite Hcm, Hins.
    split; [done |]. split; [by apply inv_set_chain | done].
  - exists l. split; [done |]. by split.
Qed.

(** the effect of the registration on the chain manager *)
Lemma register_inserts so name h i (l : Loader I IM CM) s cm canonical b cm' :
  getService so l = Some s -> chain_mgr_ l = Some cm -> getCanonicalName h PROGRAM name = Ok canonical ->
  0 <= getMainProgFd s -> chain_insertProg h canonical (getMainProgFd s) i cm = (Ok b, cm') ->
  register_program so name h i l = (Ok true, set_chain (Some cm') l).
Proof.
  intros Hs Hcm Hname Hfd Hins. unfold register_program. rewrite (st_bind_ok get _ l l l) by done.
  rewrite Hcm, Hs, Hname. apply Z.leb_le in Hfd. rewrite Hfd. cbv [mbind st_bind lift]. cbn. unfold on_chain.
  by rewrite Hcm, Hins.
Qed.

(** the service objects an operation destroys *)
Definition refused (ds : list I) : Prop := exists i, ds = [i] /\ serving i.
Definition released (ds : list I) : Prop := exists i, ds = [i] /\ stopped i.

(** the object stored for a library that has just been loaded: a fresh one,
    started, and given its first configuration *)
Definition configured (so : string) (h : HookType) (i : Z) (conf : string) (l : Loader I IM CM) : Prop :=
  exists s s1 s2, dl (real_path so) = Service s /\ start true s = (Ok true, s1) /\ getService so l = Some s2 /\
    if is_scheduler_lib (real_path so) || negb (conf =? "")%string
    then onConfigUpdate h i (first_config so conf) s1 = (Ok tt, s2) else s2 = s1.

(** what a call on the loader leaves as it was *)
Definition keeps {X A} (obs : Loader I IM CM -> X) (m : ST (Loader I IM CM) A) (l : Loader I IM CM) : Prop :=
  obs (m l).2 = obs l.

Section Keeps.
Context {X : Type} (obs : Loader I IM CM -> X).

Lemma keeps_bind {A B} (m : ST (Loader I IM CM) A) (f : A -> ST (Loader I IM CM) B) l :
  keeps obs m l -> (forall a l, keeps obs (f a) l) -> keeps obs (m ≫= f) l.
Proof.
  unfold keeps. intros Hm Hf. cbv [mbind st_bind]. destruct (m l) as [[a | e] l1]; [| exact Hm].
  cbn in Hm. by rewrite Hf.
Qed.

Lemma keeps_get {A} (f : Loader I IM CM -> ST (Loader I IM CM) A) l : keeps obs (f l) l -> keeps obs (get ≫= f) l.
Proof. done. Qed.

Lemma keeps_lift {A} (r : result exn A) l : keeps obs (lift r) l.
Proof. by destruct r. Qed.

Lemma keeps_on_inotify {A} (m : ST IM A) l : (forall im l, obs (set_inotify im l) = obs l) -> keeps obs (on_inotify m) l.
Proof. unfold keeps, on_inotify. intros Ho. destruct (inotify_mgr_ l) as [im |]; [| done]. destruct (m im). apply Ho. Qed.

Lemma keeps_on_chain {A} (m : ST CM A) (d : A) l : (forall cm l, obs (set_chain cm l) = obs l) -> keeps obs (on_chain m d) l.
Proof. unfold keeps, on_chain. intros Ho. destruct (chain_mgr_ l) as [cm |]; [| done]. destruct (m cm). apply Ho. Qed.

Lemma keeps_for_each {Y} (f : Y -> ST (Loader I IM CM) unit) (ys : list Y) :
  (forall y l, keeps obs (f y) l) -> forall l, keeps obs (for_each f ys) l.
Proof.
  intros Hf. induction ys as [| y ys IH]; intros l; [done |]. apply keeps_bind; [apply Hf |]. intros [] l'. apply IH.
Qed.

Definition ignores_service (so : string) : Prop :=
  forall s l, obs (set_services (<[so := s]> (services_ l)) l) = obs l.

Lemma keeps_on_service {A} so s i (m : ST I A) l : ignores_service so -> keeps obs (on_service so s i m) l.
Proof. unfold keeps, on_service. intros Ho. destruct (m i). apply Ho. Qed.

Lemma keeps_modify_service so s l : ignores_service so -> keeps obs (modify (set_services (<[so := s]> (services_ l)))) l.
Proof. intros Ho. apply Ho. Qed.

Ltac keeps_step :=
  lazymatch goal with
  | |- keeps _ (get ≫= _) _ => apply keeps_get
  | |- keeps _ (_ ≫= _) _ => apply keeps_bind; [| intros ? ?]
  | |- keeps _ (lift _) _ => apply keeps_lift
  | |- keeps _ (on_inotify _) _ => by apply keeps_on_inotify
  | |- keeps _ (on_service _ _ _ _) _ => by apply keeps_on_service
  | |- keeps _ (modify _) _ => by apply keeps_modify_service
  | |- keeps _ (match _ with _ => _ end) _ => case_match
  | |- keeps _ _ _ => reflexivity
  end.

Lemma keeps_register so h i conf l :
  (forall im l, obs (set_inotify im l) = obs l) -> ignores_service so ->
  keeps obs (registerServiceConfig read_json so h i conf) l.
Proof.
  intros Hi Hs. unfold registerServiceConfig, loadServiceConfigs, unregisterServiceConfig.
  repeat keeps_step.
Qed.

Lemma keeps_unregister so conf l :
  (forall im l, obs (set_inotify im l) = obs l) -> ignores_service so ->
  keeps obs (unregisterServiceConfig so conf) l.
Proof. intros Hi Hs. unfold unregisterServiceConfig. repeat keeps_step. Qed.

Lemma keeps_unload so l :
  (forall im l, obs (set_inotify im l) = obs l) -> ignores_service so -> (forall i l, obs (retire i l) = obs l) ->
  (forall l, obs (set_services (delete so (services_ l)) l) = obs l) ->
  (forall s, services_ l !! so = Some s -> path s = so) ->
  keeps obs (unloadServices so) l.
Proof.
  intros Hi Hs Hr Hd Hp. unfold unloadServices. apply keeps_get, keeps_bind; [apply keeps_lift |].
  intros [] l0. destruct (services_ l !! so) as [s |]; [| done]. apply keeps_bind.
  { case_match; [done |]. rewrite (Hp s eq_refl). by apply keeps_unregister. }
  intros [] l1. apply keeps_get. do 2 (case_match; [| done]). destruct (stop _) as [[[] | x] i'].
  - unfold keeps. cbv [mbind st_bind modify mret st_ret]. rewrite <- (Hr i' l1).
    case_match; [exact (Hd (retire i' l1)) | exact (Hs _ (retire i' l1))].
  - unfold keeps. cbv [mbind st_bind modify throw]. apply Hs.
Qed.
End Keeps.

(** the other services *)
Definition others (so : string) (l : Loader I IM CM) : gmap string (ServiceHandle I) := delete so (services_ l).

Lemma ignores_others so : ignores_service (others so) so.
Proof. intros s l. unfold others. cbn. by rewrite delete_insert_eq. Qed.

Lemma getService_others so key (l l' : Loader I IM CM) : key <> so -> others so l' = others so l ->
  getService key l' = getService key l.
Proof.
  intros Hne Ho. unfold getService. replace (services_ l' !! key) with (services_ l !! key); [done |].
  rewrite <- (lookup_delete_ne (services_ l) so key), <- (lookup_delete_ne (services_ l') so key) by done.
  by unfold others in Ho; rewrite Ho.
Qed.

(** what [started] gives: the object after its start and after its first
    configuration *)
Definition started (so : string) (h : HookType) (i : Z) (conf : string) (s1 s2 : I) : Prop :=
  (exists s, dl (real_path so) = Service s /\ start true s = (Ok true, s1)) /\
  if is_scheduler_lib (real_path so) || negb (conf =? "")%string
  then onConfigUpdate h i (first_config so conf) s1 = (Ok tt, s2) else s2 = s1.

Lemma started_fun so h i conf s1 s2 s1' s2' :
  started so h i conf s1 s2 -> started so h i conf s1' s2' -> s1 = s1' /\ s2 = s2'.
Proof.
  intros [(s & Hs & Hst) H2] [(s' & Hs' & Hst') H2']. rewrite Hs in Hs'. injection Hs' as <-.
  rewrite Hst in Hst'. injection Hst' as <-. split; [done |]. case_match; congruence.
Qed.

(** the state in which a freshly loaded service is handed to the chain *)
(** a fresh service object in the table, and what gives it its first
    configuration: a scheduler gets the null value, the others read their file *)
Definition configure (so : string) (h : HookType) (i : Z) (conf : string) (serv : ServiceHandle I) (s' : I) : ST (Loader I IM CM) unit :=
  if is_scheduler_lib (real_path so) then on_service so serv s' (onConfigUpdate h i json_null)
  else registerServiceConfig read_json (real_path so) h i conf.

Lemma configure_runs so h i conf s s' l1 :
  loadable so h i conf -> dl (real_path so) = Service s -> start true s = (Ok true, s') -> serving s' ->
  (conf ≠ "" \/ is_scheduler_lib (real_path so) = true -> accepts s' (first_config so conf)) ->
  let serv := mkService true (Some s') (getName s') so "" h i in
  services_ l1 !! so = Some serv -> loader_inv l1 ->
  exists s2 l2, configure so h i conf serv s' l1 = (Ok tt, l2) /\ loader_inv l2 /\ destroyed_ l2 = destroyed_ l1 /\
    loaded l2 = <[so := (h, i, conf)]> (loaded l1) /\ started so h i conf s' s2 /\ getService so l2 = Some s2.
Proof.
  intros Hl Hdl Hs Hserv Hacc serv Hin Hinv1. pose proof (ld_path _ _ _ _ Hl) as Hpath.
  assert (Hld1 : loaded l1 !! so = Some (h, i, "")) by (unfold loaded; by rewrite lookup_fmap, Hin).
  assert (Hlib : of_library so s') by (by destruct (inv_services l1 Hinv1 so serv Hin) as (_ & (? & [= <-] & _ & ?) & _)).
  unfold configure, started, first_config. destruct Hpath as [[Hsched ->] | [Hplain Hreal]].
  - unfold first_config in Hacc. rewrite Hsched in Hacc |- *.
    destruct (update_of_library so h i json_null s' Hserv Hlib) as (s2 & Hup & Hserv2 & Hlib2); [by apply Hacc; right |].
    destruct (on_service_spec so serv s' (onConfigUpdate h i json_null) s2 l1) as (l2 & ? & ? & ? & Hld2 & Hs2);
      [done | done | done | done | done |].
    exists s2, l2. rewrite Hld2. do 3 (split; [done |]). split; [by rewrite insert_id |]. split; [| done]. split; [by exists s | done].
  - rewrite Hplain, Hreal. destruct (register_spec so h i conf l1 Hinv1) as (l2 & Hrun & ? & ? & Hld2 & Hs2 & Hsame); [by eexists | done |].
    assert (Hnew : getService so l1 = Some s') by (unfold getService; by rewrite Hin).
    cbn [orb]. rewrite Hreal in Hdl.
    destruct (String.eqb_spec conf "") as [-> | Hc]; cbn [negb].
    + exists s', l2. do 3 (split; [done |]). split; [by rewrite insert_id |]. rewrite (Hsame eq_refl). split; [| done].
      split; [by exists s | done].
    + destruct (Hs2 Hc) as (i0 & i1 & Hi0 & Hup & Hi1). rewrite Hnew in Hi0. simplify_eq.
      exists i1, l2. do 3 (split; [done |]). split; [| split; [split; [by exists s | done] | done]].
      rewrite Hld2. unfold view_config. rewrite <- (insert_id (loaded l1) so (h, i, "") Hld1) at 1. by rewrite alter_insert_eq.
Qed.

(** the table in which a freshly started object is configured *)
Definition fresh_service (so : string) (h : HookType) (i : Z) (s' : I) : ServiceHandle I :=
  mkService true (Some s') (getName s') so "" h i.
Definition with_service (so : string) (serv : ServiceHandle I) (l : Loader I IM CM) : Loader I IM CM :=
  set_services (<[so := serv]> (services_ l)) l.

Lemma load_unfold so h i conf l s s' :
  loader_inv l -> loadable so h i conf -> loaded l !! so = None -> dl (real_path so) = Service s -> start true s = (Ok true, s') ->
  loadService dl json_null read_json so h i conf l =
    (_ ← configure so h i conf (fresh_service so h i s') s'; register_program so (getName s') h i)
      (with_service so (fresh_service so h i s') l).
Proof.
  intros Hinv [Hso Hh Hi _ _] Hnone Hdl Hs.
  assert (Es : services_ l !! so = None) by (unfold loaded in Hnone; by rewrite lookup_fmap, fmap_None in Hnone).
  unfold loadService. rewrite assert_true by (by rewrite negb_true_iff; apply String.eqb_neq).
  rewrite assert_true by (by rewrite negb_true_iff, bool_decide_eq_false).
  rewrite assert_true by (by apply Z.ltb_lt). rewrite Hdl, (st_bind_ok get _ l l l) by done.
  rewrite (inv_io l Hinv), Hs, Es. by erewrite st_bind_ok by done.
Qed.

Lemma with_service_inv so h i l s s' :
  loader_inv l -> dl (real_path so) = Service s -> start true s = (Ok true, s') -> serving s' ->
  loader_inv (with_service so (fresh_service so h i s') l) /\
  loaded (with_service so (fresh_service so h i s') l) = <[so := (h, i, "")]> (loaded l).
Proof.
  intros Hinv Hdl Hs Hserv. split; [| unfold loaded; cbn; by rewrite fmap_insert].
  apply inv_set_services; [done |]. apply map_Forall_insert_2; [| apply (inv_services l Hinv)].
  repeat split. exists s'. split; [done |]. split; [done |]. intros s0 s1 j Hdl0 Hst0. rewrite Hdl in Hdl0.
  simplify_eq. rewrite Hs in Hst0. by simplify_eq.
Qed.

Lemma load_prepared so h i conf l :
  loader_inv l -> loadable so h i conf -> loaded l !! so = None ->
  exists s1 s2 l2, loadService dl json_null read_json so h i conf l = register_program so (getName s1) h i l2 /\
    loader_inv l2 /\ loaded l2 = <[so := (h, i, conf)]> (loaded l) /\ destroyed_ l2 = destroyed_ l /\
    chain_mgr_ l2 = chain_mgr_ l /\ started so h i conf s1 s2 /\ getService so l2 = Some s2 /\ getName s1 ≠ "" /\
    forall key, key <> so -> getService key l2 = getService key l.
Proof.
  intros Hinv Hl Hnone. destruct (Hl) as [Hso Hh Hi (s & Hdl & s' & Hs & Hname & Hserv & Hacc) Hpath].
  set (serv := fresh_service so h i s'). set (l1 := with_service so serv l).
  destruct (with_service_inv so h i l s s' Hinv Hdl Hs Hserv) as [Hinv1 Hld1].
  destruct (configure_runs so h i conf s s' l1 Hl Hdl Hs Hserv Hacc) as (s2 & l2 & Hr & Hinv2 & Hd2 & Hld2 & Hst & Hs2);
    [apply lookup_insert_eq | done |].
  change (loaded l1 = <[so := (h, i, "")]> (loaded l)) in Hld1. rewrite Hld1, insert_insert_eq in Hld2.
  change (configure so h i conf _ s') with (configure so h i conf serv s') in Hr. set (reg := configure so h i conf serv s') in *.
  assert (Hkeep : forall {X} (obs : Loader I IM CM -> X), (forall im l, obs (set_inotify im l) = obs l) ->
    ignores_service obs so -> keeps obs reg l1).
  { intros X obs Him Hser. unfold reg, configure. case_match; [by apply keeps_on_service |].
    destruct Hpath as [[? _] | [_ ->]]; [congruence | by apply keeps_register]. }
  exists s', s2, l2.
  split; [| split; [done |]; split; [done |]; split; [done |]; split; [| do 3 (split; [done |])]].
  - rewrite (load_unfold so h i conf l s s') by done. by erewrite st_bind_ok by done.
  - transitivity (chain_mgr_ l1); [| done]. assert (Hk : keeps chain_mgr_ reg l1) by by apply Hkeep.
    unfold keeps in Hk. by rewrite <- Hk, Hr.
  - intros key Hne. apply (getService_others so); [done |]. transitivity (others so l1); [| apply ignores_others].
    assert (Hk : keeps (others so) reg l1) by (apply Hkeep; [done | apply ignores_others]).
    unfold keeps in Hk. by rewrite <- Hk, Hr.
Qed.

(** a service that is already there: the new object is thrown away *)
Lemma load_refused so h i conf l v :
  loader_inv l -> loadable so h i conf -> loaded l !! so = Some v ->
  exists s', loadService dl json_null read_json so h i conf l = (Ok false, retire s' l) /\ serving s'.
Proof.
  intros Hinv Hl Ev. destruct (Hl) as [Hso Hh Hi (s & Hdl & s' & Hs & Hname & Hserv & _) _]. exists s'. split; [| done].
  unfold loadService. rewrite assert_true by (by rewrite negb_true_iff; apply String.eqb_neq).
  rewrite assert_true by (by rewrite negb_true_iff, bool_decide_eq_false).
  rewrite assert_true by (by apply Z.ltb_lt). rewrite Hdl, (st_bind_ok get _ l l l) by done.
  rewrite (inv_io l Hinv), Hs.
  assert (Hin : is_Some (services_ l !! so)) by (apply loaded_lookup; by exists v). by destruct Hin as [old ->].
Qed.

Lemma load_spec so h i conf l :
  loader_inv l -> loadable so h i conf ->
  exists l' ds, loadService dl json_null read_json so h i conf l = (Ok (bool_decide (loaded l !! so = None)), l') /\
    loader_inv l' /\ loaded l' = view_load so (h, i, conf) (loaded l) /\
    destroyed_ l' = destroyed_ l ++ ds /\ (if bool_decide (loaded l !! so = None) then ds = [] else refused ds) /\
    (loaded l !! so = None -> configured so h i conf l').
Proof.
  intros Hinv Hl. destruct (loaded l !! so) as [v |] eqn:Ev.
  - destruct (load_refused so h i conf l v Hinv Hl Ev) as (s' & -> & Hserv). unfold view_load. rewrite Ev.
    exists (retire s' l), [s']. split; [done |]. split; [by apply inv_retire |]. split; [done |]. split; [done |].
    split; [by exists s' | done].
  - destruct (load_prepared so h i conf l Hinv Hl Ev) as (s1 & s2 & l2 & -> & Hinv2 & Hld2 & Hd2 & _ & Hst & Hs2 & Hname & _).
    destruct (register_program_spec so (getName s1) h i l2) as (l3 & Hl3 & Hinv3 & Hd3 & Hld3 & Hsv3);
      [done | by rewrite Hld2, lookup_insert_eq | done | apply Hl |].
    exists l3, []. unfold view_load. rewrite Ev, bool_decide_eq_true_2 by done. split; [done |]. split; [done |].
    split; [by rewrite Hld3 |]. split; [by rewrite app_nil_r, Hd3 |]. split; [done |]. intros _.
    destruct Hst as [(s & Hs & Hst) Hup]. exists s, s1, s2. do 2 (split; [done |]). split; [| done].
    revert Hs2. unfold getService. by rewrite Hsv3.
Qed.

(** the registration of a service that is about to be unloaded is removed *)
Lemma drop_registration so s l :
  loader_inv l -> services_ l !! so = Some s ->
  exists l1 s1, (if (config s =? "")%string then mret tt else unregisterServiceConfig (path s) (config s)) l
      = (Ok tt, l1) /\ loader_inv l1 /\ destroyed_ l1 = destroyed_ l /\ services_ l1 !! so = Some s1 /\
    delete so (loaded l1) = delete so (loaded l).
Proof.
  intros Hinv Es. destruct (inv_services l Hinv so s Es) as (_ & _ & Hp).
  destruct (String.eqb_spec (config s) "") as [Hc | Hc]; [by exists l, s |].
  assert (Hso : is_Some (loaded l !! so)) by (by apply loaded_lookup).
  rewrite Hp. destruct (unregister_spec so (config s) l Hinv Hso) as (l1 & Hrun & Hinv1 & Hd & Hkeep & Hld).
  destruct (Hkeep s Es) as [c Hs1]. apply String.eqb_neq in Hc. rewrite Hc in Hld.
  exists l1, (set_config c s). split; [done |]. split; [done |]. split; [done |]. split; [done |].
  rewrite Hld. unfold view_config. apply map_eq. intros k. destruct (decide (k = so)) as [-> | Hne].
  - by rewrite !lookup_delete_eq.
  - by rewrite !lookup_delete_ne, lookup_alter_ne by done.
Qed.

Lemma unload_spec so l :
  loader_inv l ->
  exists l' ds, unloadServices so l = (Ok (bool_decide (is_Some (loaded l !! so))), l') /\ loader_inv l' /\
    loaded l' = delete so (loaded l) /\
    destroyed_ l' = destroyed_ l ++ ds /\ (if bool_decide (is_Some (loaded l !! so)) then released ds else ds = []).
Proof.
  intros Hinv. destruct (inv_inotify l Hinv) as (im & Him & _). unfold unloadServices.
  rewrite (st_bind_ok get _ l l l) by done. rewrite assert_true by (by rewrite Him; apply bool_decide_eq_true_2).
  destruct (services_ l !! so) as [s |] eqn:Es.
  2: { assert (Hn : loaded l !! so = None) by (unfold loaded; by rewrite lookup_fmap, Es).
    exists l, []. rewrite Hn, bool_decide_eq_false_2 by (by intros []). rewrite delete_id, app_nil_r by done. done. }
  assert (Hso : is_Some (loaded l !! so)) by (by apply loaded_lookup).
  rewrite bool_decide_eq_true_2 by done.
  destruct (drop_registration so s l Hinv Es) as (l1 & s1 & Hl1 & Hinv1 & Hd1 & Es1 & Hdel).
  erewrite st_bind_ok by done. rewrite (st_bind_ok get _ l1 l1 l1) by done. rewrite Es1.
  destruct (inv_services l1 Hinv1 so s1 Es1) as (Hh & (i1 & Hi1 & Hserv & _) & _).
  rewrite Hi1. destruct (stop_law i1 Hserv) as (i2 & Hstop & Hstopped). rewrite Hstop, Hh.
  eexists _, [i2]. split; [done |]. split; [| split; [| split; [cbn; by rewrite Hd1 | by exists i2]]].
  - apply inv_set_services; [by apply inv_retire |]. apply map_Forall_delete, (inv_services l1 Hinv1).
  - unfold loaded at 1. cbn. by rewrite fmap_delete.
Qed.

(** *** What holds of every loaded object *)

Section Objects.
Context (Q : string -> service_view -> I -> Prop).

(** [Q so v o]: what is claimed of the object [o] of library [so] that is
    loaded with view [v]; it holds of a freshly loaded object, a new
    configuration file brings it to the new view, and it does not depend on a
    file that is no longer watched. *)
Record object_claim : Prop := {
  oc_started : forall so h i conf s1 s2, loadable so h i conf -> started so h i conf s1 s2 -> Q so (h, i, conf) s2;
  oc_update : forall so h i conf conf' o o', Q so (h, i, conf) o -> loadable so h i conf' -> conf' ≠ "" ->
    onConfigUpdate h i (read_json conf') o = (Ok tt, o') -> Q so (h, i, conf') o';
  oc_dropped : forall so h i conf o, Q so (h, i, conf) o -> Q so (h, i, "") o
}.

Definition objects_ok (l : Loader I IM CM) : Prop :=
  forall so v, loaded l !! so = Some v -> exists o, getService so l = Some o /\ Q so v o.

Context (HQ : object_claim).

Lemma objects_same l l' : objects_ok l -> services_ l' = services_ l -> objects_ok l'.
Proof. unfold objects_ok, loaded, getService. intros Hl ->. exact Hl. Qed.

(** enough to look at one service when the others are kept *)
Lemma objects_change so l l' t :
  objects_ok l -> loaded l' = t -> (forall key, key <> so -> t !! key = loaded l !! key) -> others so l' = others so l ->
  (forall v, t !! so = Some v -> exists o, getService so l' = Some o /\ Q so v o) -> objects_ok l'.
Proof.
  intros Hl Ht Hrest Ho Hso key v Hv. rewrite Ht in Hv. destruct (decide (key = so)) as [-> | Hne]; [by apply Hso |].
  rewrite Hrest in Hv by done. rewrite (getService_others so key l l') by done. by apply Hl.
Qed.

Lemma objects_load so h i conf l l' r :
  loader_inv l -> loadable so h i conf -> objects_ok l ->
  loadService dl json_null read_json so h i conf l = (Ok r, l') -> objects_ok l'.
Proof.
  intros Hinv Hl Hq Hrun. destruct (loaded l !! so) as [v |] eqn:Ev.
  - destruct (load_refused so h i conf l v Hinv Hl Ev) as (s' & Heq & _). rewrite Heq in Hrun. injection Hrun as _ <-.
    by eapply objects_same.
  - destruct (load_prepared so h i conf l Hinv Hl Ev) as (s1 & s2 & l2 & Heq & Hinv2 & Hld2 & _ & _ & Hst & Hs2 & Hname & Hothers).
    destruct (register_program_spec so (getName s1) h i l2) as (l3 & Hl3 & _ & _ & Hld3 & Hsv3);
      [done | by rewrite Hld2, lookup_insert_eq | done | apply Hl |].
    rewrite Heq, Hl3 in Hrun. injection Hrun as _ <-. apply (objects_same l2); [| done].
    intros key w Hw. rewrite Hld2 in Hw. apply lookup_insert_Some in Hw as [[<- <-] | [Hne Hw]].
    + exists s2. split; [done |]. by eapply (oc_started HQ).
    + rewrite Hothers by done. by apply Hq.
Qed.

Lemma objects_unload so l l' r :
  loader_inv l -> objects_ok l -> unloadServices so l = (Ok r, l') -> objects_ok l'.
Proof.
  intros Hinv Hq Hrun. destruct (unload_spec so l Hinv) as (l1 & ds & Hrun1 & _ & Hld & _).
  rewrite Hrun1 in Hrun. injection Hrun as _ <-. eapply (objects_change so l); [done | exact Hld | | |].
  - intros key Hne. by rewrite lookup_delete_ne.
  - assert (Hk : keeps (others so) (unloadServices so) l).
    { apply keeps_unload; [done | apply ignores_others | done | |].
      - intros l0. unfold others. cbn. by rewrite delete_delete_eq.
      - intros s Hs. by destruct (inv_services l Hinv so s Hs) as (_ & _ & ?). }
    unfold keeps in Hk. by rewrite Hrun1 in Hk.
  - intros v. by rewrite lookup_delete_eq.
Qed.

Lemma objects_unregister so conf l l' :
  loader_inv l -> is_Some (loaded l !! so) -> objects_ok l -> unregisterServiceConfig so conf l = (Ok tt, l') -> objects_ok l'.
Proof.
  intros Hinv Hso Hq Hrun. destruct (unregister_spec so conf l Hinv Hso) as (l1 & Hrun1 & _ & _ & Hkeep & Hld).
  rewrite Hrun1 in Hrun. injection Hrun as <-.
  assert (Hk : keeps (others so) (unregisterServiceConfig so conf) l).
  { apply keeps_unregister; [done | apply ignores_others]. }
  unfold keeps in Hk. rewrite Hrun1 in Hk. eapply (objects_change so l); [done | exact Hld | | exact Hk |].
  - intros key Hne. case_match; [done |]. unfold view_config. by rewrite lookup_alter_ne.
  - assert (Hsame : getService so l1 = getService so l).
    { destruct (proj1 (loaded_lookup so l) Hso) as [s Hs]. destruct (Hkeep s Hs) as [c Hs1]. unfold getService. by rewrite Hs, Hs1. }
    intros v Hv. rewrite Hsame. case_match; [by apply Hq |]. unfold view_config in Hv. rewrite lookup_alter_eq in Hv.
    destruct Hso as [[[h i] c] Hc]. rewrite Hc in Hv. cbn in Hv. injection Hv as <-.
    destruct (Hq so _ Hc) as (o & ? & ?). exists o. split; [done |]. by eapply (oc_dropped HQ).
Qed.

Lemma objects_register so h i c0 conf l l' :
  loader_inv l -> loaded l !! so = Some ((h, i, c0) : service_view) -> loadable so h i conf -> objects_ok l ->
  registerServiceConfig read_json so h i conf l = (Ok tt, l') -> objects_ok l'.
Proof.
  intros Hinv Hso Hload Hq Hrun.
  destruct (register_spec so h i conf l Hinv ltac:(by eexists) Hload) as (l1 & Hrun1 & _ & _ & Hld & Hup & Hsame).
  rewrite Hrun1 in Hrun. injection Hrun as <-.
  destruct (String.eqb_spec conf "") as [Hc | Hc]; [by rewrite (Hsame Hc) |].
  assert (Hk : keeps (others so) (registerServiceConfig read_json so h i conf) l).
  { apply keeps_register; [done | apply ignores_others]. }
  unfold keeps in Hk. rewrite Hrun1 in Hk. eapply (objects_change so l); [done | exact Hld | | exact Hk |].
  - intros key Hne. unfold view_config. by rewrite lookup_alter_ne.
  - intros v Hv. unfold view_config in Hv. rewrite lookup_alter_eq, Hso in Hv. injection Hv as <-.
    destruct (Hup Hc) as (i0 & i1 & Hi0 & Hrun & Hi1). destruct (Hq so _ Hso) as (o & Ho & HQo).
    exists i1. split; [done |]. rewrite Ho in Hi0. injection Hi0 as <-. by eapply (oc_update HQ).
Qed.

End Objects.

(** *** Sequences of loads and unloads *)

Inductive loader_op : Type :=
| LoadOp (so_path : string) (hook_type : HookType) (ifindex : Z) (config_path : string)
| UnloadOp (so_path : string).

Definition loader_exec (op : loader_op) : ST (Loader I IM CM) bool :=
  match op with
  | LoadOp so h i conf => loadService dl json_null read_json so h i conf
  | UnloadOp so => unloadServices so
  end.

Fixpoint loader_exec_all (ops : list loader_op) : ST (Loader I IM CM) (list bool) :=
  match ops with
  | [] => mret []
  | op :: ops => b ← loader_exec op; bs ← loader_exec_all ops; mret (b :: bs)
  end.

(** the table of loaded services, and the answer of each call *)
Definition table_exec (t : gmap string service_view) (op : loader_op) : bool * gmap string service_view :=
  match op with
  | LoadOp so h i conf => (bool_decide (t !! so = None), view_load so (h, i, conf) t)
  | UnloadOp so => (bool_decide (is_Some (t !! so)), delete so t)
  end.

Fixpoint table_exec_all (t : gmap string service_view) (ops : list loader_op) : list bool * gmap string service_view :=
  match ops with
  | [] => ([], t)
  | op :: ops => let '(b, t) := table_exec t op in let '(bs, t) := table_exec_all t ops in (b :: bs, t)
  end.

Definition loader_op_ok (op : loader_op) : Prop :=
  match op with LoadOp so h i conf => loadable so h i conf | UnloadOp _ => True end.

(** the objects a call destroys: a refused load its new, started one, an
    unload the one it has stopped *)
Definition retires (t : gmap string service_view) (op : loader_op) : list bool :=
  match op with
  | LoadOp so _ _ _ => if bool_decide (t !! so = None) then [] else [false]
  | UnloadOp so => if bool_decide (is_Some (t !! so)) then [true] else []
  end.

Fixpoint retires_all (t : gmap string service_view) (ops : list loader_op) : list bool :=
  match ops with [] => [] | op :: ops => retires t op ++ retires_all (table_exec t op).2 ops end.

Definition as_left (was_stopped : bool) (i : I) : Prop := if was_stopped then stopped i else serving i.

Lemma exec_spec op l :
  loader_inv l -> loader_op_ok op ->
  exists l' ds, loader_exec op l = (Ok (table_exec (loaded l) op).1, l') /\ loader_inv l' /\
    loaded l' = (table_exec (loaded l) op).2 /\ destroyed_ l' = destroyed_ l ++ ds /\
    Forall2 as_left (retires (loaded l) op) ds.
Proof.
  intros Hinv Hop. destruct op as [so h i conf | so]; cbn [loader_exec table_exec retires fst snd].
  - destruct (load_spec so h i conf l Hinv Hop) as (l' & ds & ? & ? & ? & ? & Hds & _). exists l', ds.
    do 4 (split; [done |]). case_bool_decide; [by subst | destruct Hds as (o & -> & ?); by repeat constructor].
  - destruct (unload_spec so l Hinv) as (l' & ds & ? & ? & ? & ? & Hds). exists l', ds.
    do 4 (split; [done |]). case_bool_decide; [destruct Hds as (o & -> & ?); by repeat constructor | by subst].
Qed.

Lemma exec_all_spec ops : forall l,
  loader_inv l -> Forall loader_op_ok ops ->
  exists l' ds, loader_exec_all ops l = (Ok (table_exec_all (loaded l) ops).1, l') /\ loader_inv l' /\
    loaded l' = (table_exec_all (loaded l) ops).2 /\ destroyed_ l' = destroyed_ l ++ ds /\
    Forall2 as_left (retires_all (loaded l) ops) ds.
Proof.
  induction ops as [| op ops IH]; intros l Hinv Hops.
  { exists l, []. rewrite app_nil_r. by repeat (split; [done |]). }
  apply Forall_cons in Hops as [Hop Hops]. cbn [loader_exec_all table_exec_all retires_all].
  destruct (exec_spec op l Hinv Hop) as (l1 & ds1 & Hrun & Hinv1 & Hl1 & Hd1 & Hk1).
  destruct (IH l1 Hinv1 Hops) as (l2 & ds2 & Hrun2 & Hinv2 & Hl2 & Hd2 & Hk2).
  exists l2, (ds1 ++ ds2). erewrite st_bind_ok by done. erewrite st_bind_ok by done.
  rewrite Hl1 in Hl2, Hk2 |- *. destruct (table_exec (loaded l) op) as [b t]. cbn in *.
  destruct (table_exec_all t ops) as [bs t']. split; [done |]. split; [done |]. split; [done |].
  split; [by rewrite Hd2, Hd1, app_assoc | by apply Forall2_app].
Qed.

(** C10: the loader refines a table from library paths to (hook, interface,
    configuration file): for any sequence of loads of loadable libraries and
    unloads it never throws, answers true exactly when the library was absent
    (load) or present (unload), keeps its own invariant, and its services are
    those of the table. *)
Theorem loader_refines_table (ops : list loader_op) (l : Loader I IM CM)
  (Hinv : loader_inv l) (Hops : Forall loader_op_ok ops) :
  exists l', loader_exec_all ops l = (Ok (table_exec_all (loaded l) ops).1, l') /\ loader_inv l' /\
    loaded l' = (table_exec_all (loaded l) ops).2.
Proof. destruct (exec_all_spec ops l Hinv Hops) as (l' & ds & ? & ? & ? & _). by exists l'. Qed.

(** C30: the service objects the loader destroys, in order, are those of the
    libraries it unloads, each stopped before, and one more for every load it
    refuses because the library is loaded already: that object has been
    started (its programs are loaded into the kernel) and is never stopped. *)
Theorem destroyed_objects (ops : list loader_op) (l l' : Loader I IM CM) (r : result exn (list bool))
  (Hinv : loader_inv l) (Hops : Forall loader_op_ok ops) (Hrun : loader_exec_all ops l = (r, l')) :
  exists ds, destroyed_ l' = destroyed_ l ++ ds /\
    Forall2 (fun (was_stopped : bool) i => if was_stopped then stopped i else serving i) (retires_all (loaded l) ops) ds.
Proof.
  destruct (exec_all_spec ops l Hinv Hops) as (l2 & ds & Hrun2 & _ & _ & Hd & Hk).
  rewrite Hrun in Hrun2. simplify_eq. by exists ds.
Qed.

#[export] Program Instance loader_laws : LoaderLaws (Loader I IM CM) I := {|
  li_inv := loader_inv;
  li_loaded := loaded;
  li_loadable := loadable
|}.
Next Obligation. intros so h i conf l ? ?. destruct (load_spec so h i conf l) as (l' & ? & ? & ? & ? & _); eauto. Qed.
Next Obligation. intros so l ?. destruct (unload_spec so l) as (l' & ? & ? & ? & ? & _); eauto. Qed.
Next Obligation. intros so h i conf l ? ? ?. destruct (register_spec so h i conf l) as (l' & ? & ? & _ & ? & _); eauto. Qed.
Next Obligation. intros so conf l ? ?. destruct (unregister_spec so conf l) as (l' & ? & ? & _ & _ & ?); eauto. Qed.
Next Obligation.
  intros h i l Hinv Hh Hi. destruct (inv_chain l Hinv) as (cm & Hcm & Hc).
  destruct (chain_allocate_law h i cm Hc Hh Hi) as (r & cm' & Hr & Hc').
  eexists _, (set_chain (Some cm') l). cbn. unfold allocateChain. erewrite st_bind_ok; [| unfold on_chain; by rewrite Hcm, Hr].
  split; [done |]. split; [by apply inv_set_chain | done].
Qed.
Next Obligation.
  intros h names l Hinv Hh. destruct (inv_chain l Hinv) as (cm & Hcm & Hc).
  destruct (chain_update_law h names cm Hc Hh) as (r & cm' & Hr & Hc').
  eexists _, (set_chain (Some cm') l). cbn. unfold updateProgChain, on_chain. rewrite Hcm, Hr.
  split; [done |]. split; [by apply inv_set_chain | done].
Qed.
Next Obligation.
  intros l _. cbn. unfold getAllService, loaded. rewrite uiter_perm, map_to_list_fmap, <- list_fmap_compose.
  apply Permutation_refl'. apply list_fmap_ext. intros i [k s] _. done.
Qed.

End LoaderFacts.

(** ** The implementations of the interfaces *)

(** the watcher of [Inotify.v], run against a kernel *)
Section InotifyImplementation.
Context `{BuildMode} `{!UMapOrder string} (e : env icall Z).

Definition watcher : Type := InotifyManager ConfigCb * list (icall * Z).

Definition watcher_run (p : InotifyManager ConfigCb -> isys (result exn (bool * InotifyManager ConfigCb)))
  : ST watcher bool := fun w =>
  match run e (p w.1) w.2 with
  | (Ok (b, im), tr) => (Ok b, (im, tr))
  | (Err err, tr) => (Err err, (w.1, tr))
  end.

#[export] Instance watcher_if : InotifyManagerIf watcher := {|
  im_watchConfig := fun path cb => watcher_run (watchConfig path (Some cb));
  im_goodbyeConfig := fun path => watcher_run (goodbyeConfig path);
  im_callback := fun w path => registered path w.1 ≫= Datatypes.id
|}.

Definition watcher_inv (w : watcher) : Prop :=
  manager_wf w.1 /\ exists t : gmap string ConfigCb, represents w.1 (Some <$> t).

Context (accepts : kernel_ok e).

#[export] Program Instance watcher_laws : InotifyManagerLaws watcher := {| im_inv := watcher_inv |}.
Next Obligation.
  intros path cb [im tr] Hp [Hwf [t Ht]]. cbn [fst snd] in *.
  destruct (watchConfig_run e path (Some cb) im tr accepts Hp) as (im' & tr' & Hrun & Hcases).
  assert (Ht' := watch_table path (Some cb) im (Some <$> t) Ht im' Hcases).
  exists (im', tr'). split; [cbn; unfold watcher_run; cbn; by rewrite Hrun |]. split; [split |].
  - destruct (watched_wf path (Some cb) im Hwf) as [H1 H2].
    destruct Hcases as [(c & Hc & ->) | [(ws & Hm & He & ->) | (_ & fd & ->)]]; [done | by apply H1 | by apply H2].
  - exists (match t !! path with Some _ => t | None => <[path := cb]> t end).
    intros p. cbn [fst]. rewrite (Ht' p). cbn [table_op]. rewrite lookup_fmap.
    destruct (t !! path); cbn; [done | by rewrite fmap_insert].
  - cbn. rewrite (Ht' path), (Ht path), lookup_fmap. cbn [table_op]. rewrite lookup_fmap.
    destruct (t !! path) as [c |] eqn:Et; cbn.
    + rewrite lookup_fmap, Et. split; [done |]. intros p _.
      rewrite (Ht' p), (Ht p). cbn [table_op]. by rewrite (lookup_fmap _ t path), Et.
    + rewrite lookup_insert_eq. split; [done |]. intros p Hne.
      rewrite (Ht' p), (Ht p). cbn [table_op]. rewrite (lookup_fmap _ t path), Et. cbn. by rewrite lookup_insert_ne.
Qed.
Next Obligation.
  intros path [im tr] Hp [Hwf [t Ht]]. cbn [fst snd] in *.
  destruct (goodbyeConfig_run e path im tr accepts Hp) as (im' & tr' & Hrun & Hcases).
  assert (Ht' : represents im' (Some <$> delete path t)).
  { destruct Hcases as [[Hnone ->] | (ws & i & w & Hm & Hf & ->)].
    - rewrite Ht, lookup_fmap in Hnone. rewrite delete_id; [done |]. by destruct (t !! path).
    - rewrite fmap_delete. by eapply goodbye_table. }
  exists (im', tr'). split; [cbn; unfold watcher_run; cbn; by rewrite Hrun |]. split; [split; cbn [fst] |].
  - destruct Hcases as [[Hnone ->] | (ws & i & w & Hm & Hf & ->)]; [done | by eapply erased_wf].
  - by exists (delete path t).
  - cbn. rewrite (Ht' path), lookup_fmap, lookup_delete_eq. split; [done |].
    intros p Hne. by rewrite (Ht' p), (Ht p), !lookup_fmap, lookup_delete_ne.
Qed.

End InotifyImplementation.

(** the chain manager of [ProgMap.v] with the kernel maps it writes *)
Section ChainImplementation.
Context {M A P : Type} `{!BpfHash M Z Z} `{!BpfProgArray A P} `{BuildMode} `{!UMapOrder Z}.

Definition chain : Type := PinnedProgMap * Kernel M A.

Definition chain_run {X} (r : chain -> result exn (X * chain)) : ST chain X := fun c =>
  match r c with Ok (x, c') => (Ok x, c') | Err e => (Err e, c) end.

#[export] Instance chain_if : ChainIf chain := {|
  chain_allocateRegion := fun h i => chain_run (fun c => '(x, p) ← allocateRegion h i c.1; Ok (x, (p, c.2)));
  chain_updateChain := fun h names => chain_run (fun c => '(b, k) ← updateChain h names c.1 c.2; Ok (b, (c.1, k)));
  chain_insertProg := fun h name fd i => chain_run (fun c => '(b, k) ← insertProg h name fd i c.1 c.2; Ok (b, (c.1, k)));
  chain_lookupProgInfo := fun name c => lookupProgInfo name c.1
|}.
End ChainImplementation.

(** In a release build no [ASSERT] stops the process, and every call returns. *)
Section ChainRelease.
Context {M A P : Type} `{!BpfHash M Z Z} `{!BpfProgArray A P} `{!UMapOrder Z}.
#[local] Instance release_build : BuildMode := true.

Lemma chain_nics_returns h fd orders p (k : Kernel M A) :
  exists b k', chain_nics h fd orders p k = Ok (b, k').
Proof.
  revert k. induction orders as [| [i names] orders IH]; intros k; cbn [chain_nics]; [by eexists _, _ |].
  unfold ASSERT, NDEBUG, release_build. destruct (0 <=? getStartIndex h i p); cbn [mbind result_bind].
  all: destruct (MAX_PER_NIC_PROGS <=? getStartIndex h i p); [apply IH |].
  all: destruct (getCanonicalName h LIBRARY _) as [s | e] eqn:Ec; cbn [mbind result_bind];
    [destruct (chain_names h fd i (getStartIndex h i p) (s :: names) p k) as [[|] k']; [apply IH | by eexists _, _] |].
  all: exfalso; unfold getCanonicalName, ASSERT, NDEBUG in Ec; revert Ec;
    destruct h; cbn; repeat case_match; discriminate.
Qed.

#[export] Program Instance chain_laws : ChainLaws (chain (M:=M) (A:=A)) := {| chain_inv := fun _ => True |}.
Next Obligation.
  intros h i [p k] _ _ Hi. cbn. unfold chain_run, allocateRegion. cbn.
  apply Z.ltb_lt in Hi. rewrite Hi. cbn. repeat case_match; simplify_eq/=; by eexists _, _.
Qed.
Next Obligation.
  intros h names [p k] _ _. cbn. unfold chain_run, updateChain. cbn [fst snd].
  destruct (initialized_ p); cbn; [| by eexists _, _]. destruct (hook_maps_ p !! h); cbn; [| by eexists _, _].
  edestruct chain_nics_returns as (b & k' & ->). cbn. by eexists _, _.
Qed.
Next Obligation.
  intros h name fd i [p k] _ Hfd. cbn. unfold chain_run, insertProg. cbn [fst snd].
  apply Z.leb_le in Hfd. rewrite Hfd. cbn. repeat case_match; simplify_eq/=; by eexists _, _.
Qed.
End ChainRelease.

(** ** Concrete runs *)

Module Sample.

#[export] Instance release : BuildMode := true.
#[export] Instance order_string : UMapOrder string := default_order string.
#[export] Instance order_Z : UMapOrder Z := default_order Z.

(** a service that starts at once and ignores its configuration; 7 while it
    serves, 0 when it has been stopped *)
#[export] Instance service : EbpfIf nat nat := {|
  getName := fun _ => "acl";
  start := fun _ s => (Ok true, s);
  stop := fun _ => (Ok tt, 0%nat);
  onConfigUpdate := fun _ _ _ s => (Ok tt, s);
  getMainProgFd := fun _ => -1;
  getPrometheusStatus := fun s => s;
  getDebugStatus := fun s => s
|}.
#[export] Program Instance service_laws : EbpfLaws nat nat := {|
  serving := fun s => s = 7%nat; stopped := fun s => s = 0%nat; accepts := fun _ _ => True |}.
Next Obligation. intros h i j s -> _. by exists 7%nat. Qed.
Next Obligation. intros s ->. by exists 0%nat. Qed.
Definition dl (path : string) : library nat := Service 7%nat.
Definition read_json (path : string) : nat := 0%nat.

(** a watcher that accepts everything *)
Definition watchers : Type := gmap string ConfigCb.
#[export] Instance watcher_if : InotifyManagerIf watchers := {|
  im_watchConfig := fun path cb t => (Ok true, match t !! path with Some _ => t | None => <[path := cb]> t end);
  im_goodbyeConfig := fun path t => (Ok true, delete path t);
  im_callback := fun t path => t !! path
|}.
#[export] Program Instance watcher_laws : InotifyManagerLaws watchers := {| im_inv := fun _ => True |}.
Next Obligation.
  intros path cb t _ _. eexists. split; [reflexivity |]. split; [done |]. cbn.
  destruct (t !! path) as [c |] eqn:Et; [by rewrite Et |].
  split; [apply lookup_insert_eq |]. intros p Hne. by apply lookup_insert_ne.
Qed.
Next Obligation.
  intros path t _ _. eexists. split; [reflexivity |]. split; [done |].
  split; [apply lookup_delete_eq |]. intros p Hne. by apply lookup_delete_ne.
Qed.

#[export] Instance array_ops : BpfProgArray (gmap Z Z) Z := RefArray.ops (fun fd => Some fd) MAX_CHAIN_PROGS.

Abbreviation loader := (Loader nat watchers (chain (M := RefHash.t Z Z) (A := gmap Z Z))).
#[export] Instance ops : LoaderIf loader nat := loader_if dl 0%nat read_json.
#[export] Instance laws : LoaderLaws loader nat := loader_laws dl 0%nat read_json.

Definition empty_chain : chain (M := RefHash.t Z Z) (A := gmap Z Z) :=
  (mkProgMap ∅ ∅ true getDefaultProgMap, mkKernel ∅ ∅).
Definition empty_loader : loader := mkLoader ∅ true (Some ∅) (Some empty_chain) [].

Lemma acl_loadable i : 0 < i -> li_loadable (L := loader) "/lib/libhebpf_acl.so" TC i "/etc/acl.json".
Proof.
  intros Hi. split; [done | done | done | |].
  - exists 7%nat. split; [done |]. by exists 7%nat.
  - right. split; vm_compute; reflexivity.
Qed.

Lemma empty_loader_ok : loader_inv dl empty_loader.
Proof. split; [by exists ∅ | by exists empty_chain | done | apply map_Forall_empty]. Qed.

Definition demo : list loader_op :=
  [LoadOp "/lib/libhebpf_acl.so" TC 2 "/etc/acl.json"; LoadOp "/lib/libhebpf_acl.so" TC 3 "/etc/acl.json";
   UnloadOp "/lib/libhebpf_acl.so"; UnloadOp "/lib/libhebpf_acl.so"].

Lemma demo_ok : Forall (loader_op_ok dl 0%nat read_json) demo.
Proof. repeat (apply Forall_cons; split; [try exact Logic.I; apply acl_loadable; lia |]). by apply Forall_nil. Qed.

Lemma loader_refines_table_witness :
  exists l', loader_exec_all dl 0%nat read_json demo empty_loader
    = (Ok [true; false; true; false], l') /\ loader_inv dl l' /\ loaded l' = ∅.
Proof. apply (loader_refines_table dl 0%nat read_json demo empty_loader empty_loader_ok demo_ok). Defined.

Lemma destroyed_objects_witness :
  exists ds : list nat, destroyed_ (loader_exec_all dl 0%nat read_json demo empty_loader).2 = ds /\
    Forall2 (fun (was_stopped : bool) s => if was_stopped then s = 0%nat else s = 7%nat) [false; true] ds.
Proof.
  apply (destroyed_objects dl 0%nat read_json demo empty_loader _ _ empty_loader_ok demo_ok (surjective_pairing _)).
Defined.

End Sample.
