(* ===== verification/Daemon.v ===== *)
(** * The daemon

    [Daemon] ([src/daemon/daemon.cc]): bringing the loaded services to what a
    configuration asks for, the schedulers it adds on its own, starting and
    stopping, and the producer thread.  The loader is used through its
    interface [LoaderIf] of [Loader.v]. *)

From stdpp Require Import pretty.
From S2P Require Import Prelude Configs Names BpfMap ProgMap Loader.

#[local] Open Scope string_scope.
#[local] Open Scope Z_scope.
#[local] Open Scope list_scope.

Abbreviation EbpfMap := (gmap string ConfigEbpf.t).

(** ** The schedulers *)

(** [fmt::format("{}_{}", enumName(hook), ifindex)] *)
Definition scheduler_suffix (hook : HookType) (ifindex : Z) : string :=
  enumName hook +:+ "_" +:+ pretty ifindex.

(* src/daemon/daemon.h:23-23 ID_SCHEDULER_REGEX *)
Definition scheduler_id (hook : HookType) (ifindex : Z) : string :=
  "scheduler;" +:+ scheduler_suffix hook ifindex.

(* src/daemon/daemon.cc:175-179 Daemon::update *)
Definition scheduler_so (hook : HookType) (ifindex : Z) : string :=
  (if bool_decide (hook = TC) then SCHEDULER_TC_LIB else SCHEDULER_XDP_LIB) +:+ ";" +:+
  scheduler_suffix hook ifindex.

(** the constructor runs on an object with indeterminate fields, all of which
    it sets *)
(* src/daemon/daemon.cc:182-182 Daemon::update *)
Definition scheduler_entry (hook : HookType) (ifindex : Z) : ConfigEbpf.t :=
  ConfigEbpf.make ConfigEbpf.default (scheduler_so hook ifindex) "" hook ifindex 0.

(* src/daemon/daemon.cc:112-121 Daemon::update *)
Definition without_schedulers (m : EbpfMap) : EbpfMap :=
  filter (fun kc => kc.1 ≠ scheduler_id (ConfigEbpf.getHook kc.2) (ConfigEbpf.getIfindex kc.2)) m.

(** the [std::set] of pairs that need a scheduler *)
(* src/daemon/daemon.cc:161-172 Daemon::update *)
Definition needed_scheduler_pairs (m : EbpfMap) : list (HookType * Z) :=
  remove_dups ((fun kc => (ConfigEbpf.getHook kc.2, ConfigEbpf.getIfindex kc.2)) <$> map_to_list m).

(** [emplace] keeps an entry that is already there *)
Definition emplace (id : string) (c : ConfigEbpf.t) (m : EbpfMap) : EbpfMap :=
  match m !! id with Some _ => m | None => <[id := c]> m end.

(* src/daemon/daemon.cc:174-183 Daemon::update *)
Definition with_schedulers (m : EbpfMap) : EbpfMap :=
  foldl (fun acc p => emplace (scheduler_id p.1 p.2) (scheduler_entry p.1 p.2) acc) m (needed_scheduler_pairs m).

Section Daemon.
Context {L I J : Type} `{LoaderIf L I} `{EbpfIf I J}.
(** [EbpfMap] is a [std::map], iterated in key order; the theorems hold for
    every order *)
Context `{BuildMode} `{!UMapOrder string} `{!UMapOrder HookType}.

(** an entry of a hook's chain while it is being sorted *)
Definition order_entry : Type := Z * string * Z.
(** [std::sort] by the first component; the order of equal elements is not
    specified *)
Context (std_sort : list order_entry -> list order_entry).

(** [status_queue_] as whether it is set; [producer_thread_] as whether a
    thread was started *)
(* src/daemon/daemon.h:25-53 Daemon *)
Record Daemon : Type := mkDaemon {
  loader_ : L;
  running_ : bool;
  current_ebpf_ : EbpfMap;
  status_queue_ : bool;
  producer_thread_ : bool
}.

Definition set_loader (l : L) (d : Daemon) : Daemon :=
  mkDaemon l (running_ d) (current_ebpf_ d) (status_queue_ d) (producer_thread_ d).
Definition set_current (m : EbpfMap) (d : Daemon) : Daemon :=
  mkDaemon (loader_ d) (running_ d) m (status_queue_ d) (producer_thread_ d).

Definition on_loader {A} (m : ST L A) : ST Daemon A := fun d =>
  let '(r, l) := m (loader_ d) in (r, set_loader l d).

(* src/daemon/daemon.cc:272-293 Daemon::loadEbpf *)
Definition loadEbpf (so_path : string) (hook_type : HookType) (ifindex : Z) (config_path : string) : ST L unit :=
  _ ← lift (ASSERT (negb (so_path =? "")%string));
  _ ← li_loadService so_path hook_type ifindex config_path;
  mret tt.

(* src/daemon/daemon.cc:295-310 Daemon::unloadEbpf *)
Definition unloadEbpf (so_path : string) : ST L unit :=
  _ ← lift (ASSERT (negb (so_path =? "")%string));
  _ ← li_unloadServices so_path;
  mret tt.

(** the programs of each hook, unsorted *)
(* src/daemon/daemon.cc:125-130 Daemon::update *)
Fixpoint hook_order_temp (l : list (string * ConfigEbpf.t)) (m : gmap HookType (list order_entry))
  : result exn (gmap HookType (list order_entry)) :=
  match l with
  | [] => Ok m
  | (_, cfg) :: l =>
      let hook := ConfigEbpf.getHook cfg in
      canonical_name ← getCanonicalName hook LIBRARY (ConfigEbpf.getLib cfg);
      hook_order_temp l
        (<[hook := (default [] (m !! hook) ++
           [(ConfigEbpf.getOrder cfg, canonical_name, ConfigEbpf.getIfindex cfg)])%list]> m)
  end.

(* src/daemon/daemon.cc:132-142 Daemon::update *)
Definition hook_order (m : gmap HookType (list order_entry)) : gmap HookType (list (string * Z)) :=
  (fun vec => (fun e => (e.1.2, e.2)) <$> std_sort vec) <$> m.

(* src/daemon/daemon.cc:145-150 Daemon::update *)
Definition update_hook_chain (hv : HookType * list (string * Z)) : ST L unit :=
  _ ← for_each (fun pair : string * Z => _ ← li_allocateChain hv.1 pair.2; mret tt) hv.2;
  _ ← li_updateProgChain hv.1 hv.2;
  mret tt.

(* src/daemon/daemon.cc:123-151 Daemon::update *)
Definition rebuild_chain (new_ebpf : EbpfMap) : ST L unit :=
  temp ← lift (hook_order_temp (uiter new_ebpf) ∅);
  for_each update_hook_chain (uiter (hook_order temp)).

(* src/daemon/daemon.cc:153-159 Daemon::update *)
Definition unload_removed (new_ebpf : EbpfMap) (elem : string * ConfigEbpf.t) : ST L unit :=
  match new_ebpf !! elem.1 with
  | None => unloadEbpf (ConfigEbpf.getLib elem.2)
  | Some _ => mret tt
  end.

(* src/daemon/daemon.cc:185-213 Daemon::update *)
Definition load_entry (current : EbpfMap) (elem : string * ConfigEbpf.t) : ST L unit :=
  let new_lib := ConfigEbpf.getLib elem.2 in
  let new_conf := ConfigEbpf.getConfig elem.2 in
  let new_hook := ConfigEbpf.getHook elem.2 in
  let new_ifindex := ConfigEbpf.getIfindex elem.2 in
  match current !! elem.1 with
  | None => loadEbpf new_lib new_hook new_ifindex new_conf
  | Some cur =>
      let current_lib := ConfigEbpf.getLib cur in
      if negb (current_lib =? new_lib)%string || bool_decide (ConfigEbpf.getHook cur ≠ new_hook)
         || negb (ConfigEbpf.getIfindex cur =? new_ifindex)
      then
        _ ← unloadEbpf current_lib;
        loadEbpf new_lib new_hook new_ifindex new_conf
      else
        let current_conf := ConfigEbpf.getConfig cur in
        if negb (current_conf =? new_conf)%string then
          _ ← li_unregisterServiceConfig current_lib current_conf;
          li_registerServiceConfig new_lib new_hook new_ifindex new_conf
        else mret tt
  end.

(** the part of [update] that runs on the loader *)
(* src/daemon/daemon.cc:100-213 Daemon::update *)
Definition reconcile (current new_ebpf : EbpfMap) : ST L unit :=
  let current_without_scd := without_schedulers current in
  _ ← (if negb (Configs.ebpfs_eqb new_ebpf current_without_scd) then rebuild_chain new_ebpf else mret tt);
  _ ← for_each (unload_removed new_ebpf) (uiter current_without_scd);
  for_each (load_entry current) (uiter (with_schedulers new_ebpf)).

(* src/daemon/daemon.cc:95-219 Daemon::update *)
Definition update (config : Configs.t) : ST Daemon unit :=
  d ← get;
  let new_ebpf := Configs.getEbpfs config in
  _ ← on_loader (reconcile (current_ebpf_ d) new_ebpf);
  modify (set_current (with_schedulers new_ebpf)).

(* src/daemon/daemon.cc:17-36 Daemon::run *)
Definition run (d : Daemon) : Daemon :=
  if running_ d then d
  else mkDaemon (loader_ d) true (current_ebpf_ d) (status_queue_ d) (status_queue_ d || producer_thread_ d).

(** everything [stop] does before it takes [queue_mutex_]; the join is the
    subject of the shutdown protocol below *)
(* src/daemon/daemon.cc:42-57 Daemon::stop *)
Definition stop_services : ST Daemon unit :=
  d ← get;
  _ ← modify (fun d => mkDaemon (loader_ d) false (current_ebpf_ d) (status_queue_ d) (producer_thread_ d));
  _ ← on_loader (for_each unloadEbpf (li_getAllService (loader_ d)));
  modify (set_current ∅).

(* src/daemon/daemon.cc:38-69 Daemon::stop *)
Definition stop : ST Daemon unit :=
  d ← get;
  if negb (running_ d) then mret tt
  else
    _ ← stop_services;
    modify (fun d => mkDaemon (loader_ d) (running_ d) (current_ebpf_ d) false false).

(* src/daemon/daemon.cc:221-226 Daemon::setStatusQueue *)
Definition setStatusQueue (queue : bool) (d : Daemon) : Daemon :=
  mkDaemon (loader_ d) (running_ d) (current_ebpf_ d) queue (producer_thread_ d).

(** the statuses that one round of the producer finds; what becomes of each is
    [Pipeline.produce_step] *)
(* src/daemon/daemon.cc:237-249 Daemon::produceLoop *)
Definition round_statuses (status_empty : J -> bool) (d : Daemon) : list J :=
  omap (fun pair : string * ConfigEbpf.t =>
    service ← li_getService (ConfigEbpf.getLib pair.2) (loader_ d);
    let status := getPrometheusStatus service in
    if status_empty status then None else Some status) (uiter (current_ebpf_ d)).

End Daemon.
Arguments Daemon : clear implicits.

(** ** Scheduler names *)

Lemma pretty_N_go_no_char c x s :
  (forall n, pretty_N_char n ≠ c) -> no_char c (pretty_N_go x s) = no_char c s.
Proof.
  intros Hc. revert s. induction (N.lt_wf_0 x) as [x _ IH]. intros s.
  destruct (decide (0 < x)%N) as [Hx | Hx].
  - rewrite pretty_N_go_step by done. rewrite IH by (by apply N.div_lt). cbn.
    specialize (Hc (x `mod` 10)%N). apply Ascii.eqb_neq in Hc. by rewrite Hc.
  - replace x with 0%N by lia. by rewrite pretty_N_go_0.
Qed.

Lemma pretty_Z_no_char c (i : Z) :
  (forall n, pretty_N_char n ≠ c) -> c ≠ "-"%char -> c ≠ "0"%char -> no_char c (pretty i) = true.
Proof.
  intros Hc Hdash Hzero.
  assert (H0 : no_char c "0" = true) by (unfold no_char; destruct (Ascii.eqb_spec "0" c); [congruence | done]).
  assert (HN : forall n : N, no_char c (pretty n) = true).
  { intros n. unfold pretty, pretty_N. case_decide; [done |]. by rewrite pretty_N_go_no_char. }
  unfold pretty, pretty_Z. destruct i as [| p | p]; [done | apply HN |].
  change (no_char c (String "-" (pretty (N.pos p))) = true). cbn [no_char]. rewrite HN, andb_true_r, negb_true_iff.
  apply Ascii.eqb_neq. congruence.
Qed.

Lemma pretty_no_underscore (i : Z) : no_char "_" (pretty i) = true.
Proof. apply pretty_Z_no_char; [| done | done]. intros n. unfold pretty_N_char. by repeat case_match. Qed.
Lemma pretty_no_semicolon (i : Z) : no_char ";" (pretty i) = true.
Proof. apply pretty_Z_no_char; [| done | done]. intros n. unfold pretty_N_char. by repeat case_match. Qed.

Lemma scheduler_suffix_inj h1 i1 h2 i2 :
  scheduler_suffix h1 i1 = scheduler_suffix h2 i2 -> h1 = h2 /\ i1 = i2.
Proof.
  unfold scheduler_suffix. change ("_" +:+ ?s) with (String "_" s). intros Heq.
  assert (Ha := f_equal (after_last "_") Heq). assert (Hb := f_equal (before_last "_") Heq).
  rewrite !after_last_app in Ha by apply pretty_no_underscore.
  rewrite !before_last_app in Hb by apply pretty_no_underscore.
  injection Ha as Ha. injection Hb as Hb. apply (inj pretty) in Ha. split; [| done].
  destruct h1, h2; try done; discriminate Hb.
Qed.

Lemma scheduler_suffix_no_semicolon h i : no_char ";" (scheduler_suffix h i) = true.
Proof.
  unfold scheduler_suffix. rewrite !no_char_app, pretty_no_semicolon. by destruct h.
Qed.

Lemma scheduler_id_inj h1 i1 h2 i2 : scheduler_id h1 i1 = scheduler_id h2 i2 -> h1 = h2 /\ i1 = i2.
Proof. unfold scheduler_id. cbn [append]. intros [= Heq]. by apply scheduler_suffix_inj. Qed.

Lemma scheduler_so_inj h1 i1 h2 i2 : scheduler_so h1 i1 = scheduler_so h2 i2 -> h1 = h2 /\ i1 = i2.
Proof.
  unfold scheduler_so. change (";" +:+ ?s) with (String ";" s). intros Heq.
  assert (Ha := f_equal (after_last ";") Heq). rewrite !after_last_app in Ha by apply scheduler_suffix_no_semicolon.
  injection Ha as Ha. by apply scheduler_suffix_inj.
Qed.

Lemma scheduler_id_semicolon h i : no_char ";" (scheduler_id h i) = false.
Proof. done. Qed.

Lemma scheduler_so_semicolon h i : no_char ";" (scheduler_so h i) = false.
Proof. unfold scheduler_so. rewrite !no_char_app. cbn. by rewrite andb_false_r. Qed.

(** ** The configuration with its schedulers *)

Definition entry_view (c : ConfigEbpf.t) : service_view :=
  (ConfigEbpf.getHook c, ConfigEbpf.getIfindex c, ConfigEbpf.getConfig c).

Definition needs (m : EbpfMap) (h : HookType) (i : Z) : Prop :=
  exists k c, m !! k = Some c /\ ConfigEbpf.getHook c = h /\ ConfigEbpf.getIfindex c = i.

Lemma needed_spec m h i : (h, i) ∈ needed_scheduler_pairs m <-> needs m h i.
Proof.
  unfold needed_scheduler_pairs. rewrite elem_of_remove_dups, list_elem_of_fmap. split.
  - intros ([k c] & [= -> ->] & Hin). apply elem_of_map_to_list in Hin. by exists k, c.
  - intros (k & c & Hk & <- & <-). exists (k, c). split; [done |]. by apply elem_of_map_to_list.
Qed.

Lemma emplace_all_lookup (l : list (HookType * Z)) m k :
  foldl (fun acc p => emplace (scheduler_id p.1 p.2) (scheduler_entry p.1 p.2) acc) m l !! k =
  match m !! k with
  | Some c => Some c
  | None => (fun p => scheduler_entry p.1 p.2) <$> head (filter (fun p => scheduler_id p.1 p.2 = k) l)
  end.
Proof.
  revert m. induction l as [| p l IH]; intros m; cbn [foldl]; [by destruct (m !! k) |].
  rewrite IH, filter_cons. unfold emplace. destruct (m !! scheduler_id p.1 p.2) as [c |] eqn:Ep.
  - case_decide as Hk; [| done]. by rewrite <- Hk, Ep.
  - case_decide as Hk.
    + by rewrite Hk in *; rewrite lookup_insert_eq, Ep.
    + by rewrite lookup_insert_ne by done.
Qed.

(** user entries: plain names *)
Definition plain_keys (m : EbpfMap) : Prop := map_Forall (fun k _ => no_char ";" k = true) m.

Lemma with_schedulers_spec m k c :
  with_schedulers m !! k = Some c <->
  m !! k = Some c \/
  (m !! k = None /\ exists h i, needs m h i /\ k = scheduler_id h i /\ c = scheduler_entry h i).
Proof.
  unfold with_schedulers. rewrite emplace_all_lookup. destruct (m !! k) as [c' |] eqn:Ek.
  { split; [by left |]. intros [? | [? _]]; congruence. }
  split.
  - intros Hh. right. split; [done |].
    destruct (filter _ (needed_scheduler_pairs m)) as [| [h i] l] eqn:Ef; [done |].
    assert (Hin : (h, i) ∈ filter (fun p => scheduler_id p.1 p.2 = k) (needed_scheduler_pairs m)) by (rewrite Ef; left).
    apply list_elem_of_filter in Hin as [Hid Hin]. apply needed_spec in Hin. cbn in *.
    exists h, i. by injection Hh as <-.
  - intros [? | (_ & h & i & Hn & -> & ->)]; [done |]. apply needed_spec in Hn.
    assert (Hin : (h, i) ∈ filter (fun p => scheduler_id p.1 p.2 = scheduler_id h i) (needed_scheduler_pairs m))
      by (by apply list_elem_of_filter).
    destruct (filter _ (needed_scheduler_pairs m)) as [| [h' i'] l] eqn:Ef; [by apply not_elem_of_nil in Hin |].
    assert (Hin' : (h', i') ∈ filter (fun p => scheduler_id p.1 p.2 = scheduler_id h i) (needed_scheduler_pairs m))
      by (rewrite Ef; left).
    apply list_elem_of_filter in Hin' as [Hid _]. cbn in Hid. apply scheduler_id_inj in Hid as [-> ->]. done.
Qed.

Lemma without_with_schedulers m : plain_keys m -> without_schedulers (with_schedulers m) = m.
Proof.
  intros Hplain. apply map_eq. intros k. apply option_eq. intros c. unfold without_schedulers.
  rewrite map_lookup_filter_Some, with_schedulers_spec. cbn [fst snd]. split.
  - intros [[Hk | (_ & h & i & _ & -> & ->)] Hne]; [done |]. by destruct Hne.
  - intros Hk. split; [by left |]. intros ->. apply Hplain in Hk. by rewrite scheduler_id_semicolon in Hk.
Qed.

(** entries the daemon can bring up: loadable libraries, plain names, and
    loadable schedulers *)
Record entries_ok (loadable : string -> HookType -> Z -> string -> Prop) (m : EbpfMap) : Prop := {
  ok_keys : plain_keys m;
  ok_libs : map_Forall (fun _ c => no_char ";" (ConfigEbpf.getLib c) = true) m;
  ok_entries : map_Forall (fun _ c => ConfigEbpf.getLib c ≠ "" /\ ConfigEbpf.getHook c ≠ UNKNOWN /\ 0 < ConfigEbpf.getIfindex c) m;
  ok_loadable : map_Forall (fun _ c =>
    loadable (ConfigEbpf.getLib c) (ConfigEbpf.getHook c) (ConfigEbpf.getIfindex c) (ConfigEbpf.getConfig c) /\
    loadable (scheduler_so (ConfigEbpf.getHook c) (ConfigEbpf.getIfindex c)) (ConfigEbpf.getHook c)
      (ConfigEbpf.getIfindex c) "") m
}.

(** ... and every library only once *)
Record config_ok (loadable : string -> HookType -> Z -> string -> Prop) (m : EbpfMap) : Prop := {
  ok_all :> entries_ok loadable m;
  ok_once : forall k1 k2 c1 c2, m !! k1 = Some c1 -> m !! k2 = Some c2 ->
    ConfigEbpf.getLib c1 = ConfigEbpf.getLib c2 -> k1 = k2
}.

(** a library in use moves to another entry only when its old entry goes *)
Definition libs_stay (old new : EbpfMap) : Prop :=
  forall k1 k2 c1 c2, old !! k1 = Some c1 -> new !! k2 = Some c2 -> is_Some (new !! k1) ->
    ConfigEbpf.getLib c1 = ConfigEbpf.getLib c2 -> k1 = k2.

Definition is_scheduler (x : string) (v : service_view) : Prop :=
  exists h i, x = scheduler_so h i /\ v = (h, i, "").

Lemma is_scheduler_fun x v1 v2 : is_scheduler x v1 -> is_scheduler x v2 -> v1 = v2.
Proof. intros (h1 & i1 & -> & ->) (h2 & i2 & Hx & ->). apply scheduler_so_inj in Hx as [-> ->]. done. Qed.

Section WithSchedulers.
Context (loadable : string -> HookType -> Z -> string -> Prop).

Lemma ws_entry m k c :
  entries_ok loadable m -> with_schedulers m !! k = Some c ->
  ConfigEbpf.getLib c ≠ "" /\ ConfigEbpf.getHook c ≠ UNKNOWN /\ 0 < ConfigEbpf.getIfindex c /\
  loadable (ConfigEbpf.getLib c) (ConfigEbpf.getHook c) (ConfigEbpf.getIfindex c) (ConfigEbpf.getConfig c) /\
  ((m !! k = Some c /\ no_char ";" k = true /\ no_char ";" (ConfigEbpf.getLib c) = true) \/
   (no_char ";" k = false /\ no_char ";" (ConfigEbpf.getLib c) = false /\
    is_scheduler (ConfigEbpf.getLib c) (entry_view c) /\
    k = scheduler_id (ConfigEbpf.getHook c) (ConfigEbpf.getIfindex c) /\
    c = scheduler_entry (ConfigEbpf.getHook c) (ConfigEbpf.getIfindex c))).
Proof.
  intros [Hkeys Hlibs Hent Hload] Hk. apply with_schedulers_spec in Hk as [Hk | (_ & h & i & Hn & -> & ->)].
  - destruct (Hent k c Hk) as (? & ? & ?). destruct (Hload k c Hk) as [? _].
    do 4 (split; [done |]). left. split; [done |]. split; [by apply (Hkeys k c) | by apply (Hlibs k c)].
  - destruct Hn as (k' & c' & Hk' & <- & <-).
    destruct (Hent k' c' Hk') as (_ & ? & ?). destruct (Hload k' c' Hk') as [_ ?].
    cbn. split; [intros Hnil; pose proof (scheduler_so_semicolon (ConfigEbpf.hook_ c') (ConfigEbpf.ifindex_ c')) as Hs;
      unfold ConfigEbpf.getHook, ConfigEbpf.getIfindex in Hnil; by rewrite Hnil in Hs |].
    do 3 (split; [done |]). right. split; [apply scheduler_id_semicolon |]. split; [apply scheduler_so_semicolon |].
    split; [by eexists _, _ | done].
Qed.

Lemma ws_once m k1 k2 c1 c2 :
  config_ok loadable m -> with_schedulers m !! k1 = Some c1 -> with_schedulers m !! k2 = Some c2 ->
  ConfigEbpf.getLib c1 = ConfigEbpf.getLib c2 -> k1 = k2.
Proof.
  intros Hok Hk1 Hk2 Hlib.
  destruct (ws_entry m k1 c1 Hok Hk1) as (_ & _ & _ & _ & [(H1 & _ & Hl1) | (_ & Hl1 & _ & -> & Hc1)]);
  destruct (ws_entry m k2 c2 Hok Hk2) as (_ & _ & _ & _ & [(H2 & _ & Hl2) | (_ & Hl2 & _ & -> & Hc2)]); try congruence.
  - by eapply (ok_once _ _ Hok).
  - rewrite Hc1, Hc2 in Hlib. cbn in Hlib. apply scheduler_so_inj in Hlib as [-> ->]. done.
Qed.

Lemma ws_stay old new k1 k2 c1 c2 :
  config_ok loadable old -> config_ok loadable new -> libs_stay old new ->
  with_schedulers old !! k1 = Some c1 -> with_schedulers new !! k2 = Some c2 ->
  is_Some (with_schedulers new !! k1) -> ConfigEbpf.getLib c1 = ConfigEbpf.getLib c2 -> k1 = k2.
Proof.
  intros Hold Hnew Hstay Hk1 Hk2 [c3 Hk3] Hlib.
  destruct (ws_entry old k1 c1 Hold Hk1) as (_ & _ & _ & _ & [(H1 & Hp1 & Hl1) | (_ & Hl1 & _ & -> & Hc1)]);
  destruct (ws_entry new k2 c2 Hnew Hk2) as (_ & _ & _ & _ & [(H2 & _ & Hl2) | (_ & Hl2 & _ & -> & Hc2)]); try congruence.
  - destruct (ws_entry new k1 c3 Hnew Hk3) as (_ & _ & _ & _ & [(H3 & _) | (Hn & _)]); [| congruence].
    eapply Hstay; eauto.
  - rewrite Hc1, Hc2 in Hlib. cbn in Hlib. apply scheduler_so_inj in Hlib as [-> ->]. done.
Qed.

(** a scheduler that is in both configurations is the same in both *)
Lemma ws_same_scheduler old new k c1 c2 :
  config_ok loadable old -> config_ok loadable new ->
  with_schedulers old !! k = Some c1 -> with_schedulers new !! k = Some c2 ->
  c1 = c2 \/ (no_char ";" (ConfigEbpf.getLib c1) = true /\ no_char ";" (ConfigEbpf.getLib c2) = true).
Proof.
  intros Hold Hnew Hk1 Hk2.
  destruct (ws_entry old k c1 Hold Hk1) as (_ & _ & _ & _ & [(H1 & Hp1 & Hl1) | (Hp1 & Hl1 & _ & Hid1 & Hc1)]);
  destruct (ws_entry new k c2 Hnew Hk2) as (_ & _ & _ & _ & [(H2 & Hp2 & Hl2) | (Hp2 & Hl2 & _ & Hid2 & Hc2)]); try congruence.
  - by right.
  - left. rewrite Hid1 in Hid2. apply scheduler_id_inj in Hid2 as [Hh Hi]. by rewrite Hc1, Hc2, Hh, Hi.
Qed.

End WithSchedulers.

(** ** Reconciliation *)

Section Reconcile.
Context {L I : Type} `{!LoaderIf L I, !LoaderLaws L I}.
Context `{BuildMode} `{!UMapOrder string} `{!UMapOrder HookType}.
Context (std_sort : list order_entry -> list order_entry) (std_sort_perm : forall l, std_sort l ≡ₚ l).

(** the loader is sane and has exactly these services loaded *)
Definition has_loaded (t : gmap string service_view) (l : L) : Prop := li_inv l /\ li_loaded l = t.

Definition order_wf (m : gmap HookType (list order_entry)) : Prop :=
  map_Forall (fun h vec => h ≠ UNKNOWN /\ Forall (fun e => 0 < e.2) vec) m.

Lemma getCanonicalName_ok h type name :
  h ≠ UNKNOWN -> name ≠ "" -> exists s, getCanonicalName h type name = Ok s.
Proof.
  intros Hh Hn. unfold getCanonicalName. rewrite bool_decide_eq_false_2 by done.
  apply String.eqb_neq in Hn as ->. cbn. destruct type; [by eexists |]. destruct (library_base name); by eexists.
Qed.

Definition entry_ok (c : ConfigEbpf.t) : Prop :=
  ConfigEbpf.getLib c ≠ "" /\ ConfigEbpf.getHook c ≠ UNKNOWN /\ 0 < ConfigEbpf.getIfindex c.

Lemma hook_order_temp_ok l : forall m,
  Forall (fun kc => entry_ok kc.2) l -> order_wf m ->
  exists m', hook_order_temp l m = Ok m' /\ order_wf m'.
Proof.
  induction l as [| [k c] l IH]; intros m Hl Hm; cbn [hook_order_temp]; [by eexists |].
  apply Forall_cons in Hl as [(Hlib & Hh & Hi) Hl]. cbn [snd] in *.
  destruct (getCanonicalName_ok (ConfigEbpf.getHook c) LIBRARY (ConfigEbpf.getLib c) Hh Hlib) as [s Hs].
  rewrite Hs. cbn [mbind result_bind]. apply IH; [done |].
  apply map_Forall_insert_2; [| done]. split; [done |]. apply Forall_app. split; [| by apply Forall_singleton].
  destruct (m !! ConfigEbpf.getHook c) as [vec |] eqn:Em; cbn; [| done]. by apply (Hm _ _ Em).
Qed.

Lemma update_hook_chain_spec t h v :
  h ≠ UNKNOWN -> Forall (fun p => 0 < p.2) v ->
  succeeds (has_loaded t) (update_hook_chain (h, v)) (fun _ => has_loaded t).
Proof.
  intros Hh Hv. unfold update_hook_chain. cbn [fst snd]. eapply (succeeds_bind _ (fun _ => has_loaded t)).
  - apply (succeeds_for_each (fun _ => has_loaded t)). intros before x after ->.
    apply Forall_app in Hv as [_ Hv]. apply Forall_cons in Hv as [Hx _].
    intros l [Hinv Hl]. destruct (li_allocate_law h x.2 l Hinv Hh Hx) as (b & l' & Ha & Hinv' & Hl').
    exists tt, l'. split; [| split; [done | congruence]]. erewrite st_bind_ok by done. done.
  - intros []. intros l [Hinv Hl]. destruct (li_update_law h v l Hinv Hh) as (b & l' & Ha & Hinv' & Hl').
    exists tt, l'. split; [| split; [done | congruence]]. erewrite st_bind_ok by done. done.
Qed.

Lemma uiter_map_Forall {K} `{Countable K} `{!UMapOrder K} {V} (P : K -> V -> Prop) (m : gmap K V) :
  map_Forall P m -> Forall (fun kv => P kv.1 kv.2) (uiter m).
Proof.
  intros Hm. rewrite uiter_perm. apply Forall_forall. intros [k v] Hin. by apply Hm, elem_of_map_to_list.
Qed.

Lemma rebuild_chain_spec t new :
  map_Forall (fun _ c => entry_ok c) new ->
  succeeds (has_loaded t) (rebuild_chain std_sort new) (fun _ => has_loaded t).
Proof.
  intros Hnew. unfold rebuild_chain.
  destruct (hook_order_temp_ok (uiter new) ∅) as (m & Hm & Hwf).
  { by apply (uiter_map_Forall (fun _ c => entry_ok c)). }
  { apply map_Forall_empty. }
  assert (Hord : map_Forall (fun h v => h ≠ UNKNOWN /\ Forall (fun p => 0 < p.2) v) (hook_order std_sort m)).
  { intros h v Hv. unfold hook_order in Hv. rewrite lookup_fmap in Hv. destruct (m !! h) as [vec |] eqn:Ev; [| done].
    cbn in Hv. injection Hv as <-. destruct (Hwf h vec Ev) as [Hh Hvec]. split; [done |].
    rewrite Forall_fmap, std_sort_perm. done. }
  apply uiter_map_Forall in Hord. rewrite Hm.
  change (succeeds (has_loaded t) (for_each update_hook_chain (uiter (hook_order std_sort m))) (fun _ => has_loaded t)).
  apply (succeeds_for_each (fun _ => has_loaded t)). intros before [h v] after Heq.
  rewrite Heq in Hord. apply Forall_app in Hord as [_ Hord]. apply Forall_cons in Hord as [[Hh Hv] _].
  by apply update_hook_chain_spec.
Qed.

Lemma unloadEbpf_spec so t :
  so ≠ "" -> succeeds (has_loaded t) (unloadEbpf so) (fun _ => has_loaded (delete so t)).
Proof.
  intros Hso l [Hinv <-]. destruct (li_unload_law so l Hinv) as (l' & Hu & Hinv' & Hl').
  exists tt, l'. split; [| by split]. unfold unloadEbpf.
  rewrite assert_true by (by rewrite negb_true_iff; apply String.eqb_neq). by erewrite st_bind_ok by done.
Qed.

Lemma loadEbpf_spec so h i conf t :
  so ≠ "" -> li_loadable so h i conf ->
  succeeds (has_loaded t) (loadEbpf so h i conf) (fun _ => has_loaded (view_load so (h, i, conf) t)).
Proof.
  intros Hso Hload l [Hinv <-]. destruct (li_load_law so h i conf l Hinv Hload) as (l' & Hu & Hinv' & Hl').
  exists tt, l'. split; [| by split]. unfold loadEbpf.
  rewrite assert_true by (by rewrite negb_true_iff; apply String.eqb_neq). by erewrite st_bind_ok by done.
Qed.

(** *** Unloading what the new configuration drops *)

Definition dropped (new : EbpfMap) (l : list (string * ConfigEbpf.t)) (x : string) : Prop :=
  exists k c, (k, c) ∈ l /\ new !! k = None /\ ConfigEbpf.getLib c = x.

Definition after_unload (new : EbpfMap) (t : gmap string service_view) (l : list (string * ConfigEbpf.t)) (s : L) : Prop :=
  li_inv s /\ forall x, (dropped new l x -> li_loaded s !! x = None) /\ (~ dropped new l x -> li_loaded s !! x = t !! x).

Lemma unload_removed_all new old t :
  map_Forall (fun _ c => ConfigEbpf.getLib c ≠ "") old ->
  succeeds (has_loaded t) (for_each (unload_removed new) (uiter old)) (fun _ => after_unload new t (uiter old)).
Proof.
  intros Hold. eapply succeeds_weaken; [apply (succeeds_for_each (after_unload new t)) | | by intros [] ?].
  2:{ intros l [Hinv <-]. split; [done |]. intros x. split; [| done].
      intros (k & c & Hin & _). by apply not_elem_of_nil in Hin. }
  intros before [k c] after Heq l [Hinv Hl]. apply uiter_map_Forall in Hold.
  rewrite Heq in Hold. apply Forall_app in Hold as [_ Hold]. apply Forall_cons in Hold as [Hlib _]. cbn in Hlib.
  assert (Hsnoc : forall x, dropped new (before ++ [(k, c)]) x <->
    dropped new before x \/ (new !! k = None /\ ConfigEbpf.getLib c = x)).
  { intros x. unfold dropped. setoid_rewrite elem_of_app. setoid_rewrite list_elem_of_singleton. naive_solver. }
  unfold unload_removed. cbn [fst snd]. destruct (new !! k) as [c' |] eqn:Ek.
  - exists tt, l. split; [done |]. split; [done |]. intros x. rewrite Hsnoc. specialize (Hl x). naive_solver.
  - destruct (unloadEbpf_spec (ConfigEbpf.getLib c) (li_loaded l) Hlib l) as ([] & l' & Hu & Hinv' & Hl'); [done |].
    exists tt, l'. split; [done |]. split; [done |]. intros x. rewrite Hl', Hsnoc.
    destruct (decide (ConfigEbpf.getLib c = x)) as [Hx | Hx].
    + split; [by rewrite Hx, lookup_delete_eq |]. naive_solver.
    + rewrite lookup_delete_ne by done. specialize (Hl x). naive_solver.
Qed.

(** *** Loading and changing entries *)

Section Loading.
Context (cur new' : EbpfMap) (t1 : gmap string service_view).
Context (Hentry : forall k c, new' !! k = Some c -> ConfigEbpf.getLib c ≠ "" /\ ConfigEbpf.getHook c ≠ UNKNOWN /\
  0 < ConfigEbpf.getIfindex c /\
  li_loadable (ConfigEbpf.getLib c) (ConfigEbpf.getHook c) (ConfigEbpf.getIfindex c) (ConfigEbpf.getConfig c)).
Context (Hsched : forall k c, new' !! k = Some c -> no_char ";" (ConfigEbpf.getLib c) = false ->
  is_scheduler (ConfigEbpf.getLib c) (entry_view c)).
Context (Hcur : forall k c, cur !! k = Some c -> ConfigEbpf.getLib c ≠ "").
Context (Honce : forall k1 k2 c1 c2, new' !! k1 = Some c1 -> new' !! k2 = Some c2 ->
  ConfigEbpf.getLib c1 = ConfigEbpf.getLib c2 -> k1 = k2).
Context (Hcur_once : forall k1 k2 c1 c2, cur !! k1 = Some c1 -> cur !! k2 = Some c2 ->
  ConfigEbpf.getLib c1 = ConfigEbpf.getLib c2 -> k1 = k2).
Context (Hstay : forall k1 k2 c1 c2, cur !! k1 = Some c1 -> new' !! k2 = Some c2 -> is_Some (new' !! k1) ->
  ConfigEbpf.getLib c1 = ConfigEbpf.getLib c2 -> k1 = k2).
Context (Hsame : forall k c1 c2, cur !! k = Some c1 -> new' !! k = Some c2 ->
  c1 = c2 \/ (no_char ";" (ConfigEbpf.getLib c1) = true /\ no_char ";" (ConfigEbpf.getLib c2) = true)).

Record loading (before : list (string * ConfigEbpf.t)) (l : L) : Prop := {
  ld_inv : li_inv l;
  ld_done : forall k c, (k, c) ∈ before -> li_loaded l !! ConfigEbpf.getLib c = Some (entry_view c);
  ld_todo : forall k c cc, new' !! k = Some c -> (k, c) ∉ before -> cur !! k = Some cc ->
    li_loaded l !! ConfigEbpf.getLib cc = Some (entry_view cc);
  ld_plain : forall x, no_char ";" x = true -> is_Some (li_loaded l !! x) ->
    (exists k c, (k, c) ∈ before /\ ConfigEbpf.getLib c = x) \/
    (exists k c cc, new' !! k = Some c /\ ((k, c) ∉ before) /\ cur !! k = Some cc /\ ConfigEbpf.getLib cc = x);
  ld_sched : forall x v, no_char ";" x = false -> li_loaded l !! x = Some v -> is_scheduler x v;
  ld_other : forall x, no_char ";" x = false -> (forall k c, new' !! k = Some c -> ConfigEbpf.getLib c ≠ x) ->
    li_loaded l !! x = t1 !! x
}.

(** the effect of one entry on the table of loaded services *)
Definition replace (k : string) (c : ConfigEbpf.t) (t : gmap string service_view) : gmap string service_view :=
  match cur !! k with
  | None => <[ConfigEbpf.getLib c := entry_view c]> t
  | Some cc =>
      if decide (ConfigEbpf.getLib cc = ConfigEbpf.getLib c) then <[ConfigEbpf.getLib c := entry_view c]> t
      else <[ConfigEbpf.getLib c := entry_view c]> (delete (ConfigEbpf.getLib cc) t)
  end.

(** away from the two libraries a lookup is unchanged *)
Lemma replace_away k c t x :
  x ≠ ConfigEbpf.getLib c -> (forall cc, cur !! k = Some cc -> x ≠ ConfigEbpf.getLib cc) -> replace k c t !! x = t !! x.
Proof.
  intros Hx Hxc. unfold replace. destruct (cur !! k) as [cc |]; [| by rewrite lookup_insert_ne].
  case_decide; rewrite lookup_insert_ne by done; [done |]. rewrite lookup_delete_ne; [done |]. by apply not_eq_sym, Hxc.
Qed.

Lemma replace_here k c t : replace k c t !! ConfigEbpf.getLib c = Some (entry_view c).
Proof. unfold replace. destruct (cur !! k) as [cc |]; [case_decide |]; by rewrite lookup_insert_eq. Qed.

Lemma replace_gone k c cc t :
  cur !! k = Some cc -> ConfigEbpf.getLib cc ≠ ConfigEbpf.getLib c -> replace k c t !! ConfigEbpf.getLib cc = None.
Proof.
  intros Hcc Hne. unfold replace. rewrite Hcc, decide_False by done. by rewrite lookup_insert_ne, lookup_delete_eq by done.
Qed.

Lemma replace_loading before k c l l' :
  loading before l -> new' !! k = Some c -> (k, c) ∉ before -> (forall k' c', (k', c') ∈ before -> new' !! k' = Some c') ->
  li_inv l' -> li_loaded l' = replace k c (li_loaded l) -> loading (before ++ [(k, c)]) l'.
Proof.
  intros [Hinv Hdone Htodo Hplain Hsch Hother] Hk Hnotin Hbefore Hinv' Hl'.
  assert (Hsnoc : forall k' c', (k', c') ∈ before ++ [(k, c)] <-> (k', c') ∈ before \/ (k' = k /\ c' = c)).
  { intros k' c'. rewrite elem_of_app, list_elem_of_singleton. naive_solver. }
  assert (Hother_lib : forall k' c', k' ≠ k -> new' !! k' = Some c' -> ConfigEbpf.getLib c' ≠ ConfigEbpf.getLib c).
  { intros k' c' Hne Hk' Hlib. by apply Hne, (Honce k' k c' c). }
  assert (Haway : forall x, x ≠ ConfigEbpf.getLib c -> (forall cc, cur !! k = Some cc -> x ≠ ConfigEbpf.getLib cc) ->
    li_loaded l' !! x = li_loaded l !! x) by (intros x Hx Hxc; rewrite Hl'; by apply replace_away).
  assert (Hhere : li_loaded l' !! ConfigEbpf.getLib c = Some (entry_view c)) by (rewrite Hl'; apply replace_here).
  assert (Hgone : forall cc, cur !! k = Some cc -> ConfigEbpf.getLib cc ≠ ConfigEbpf.getLib c ->
    li_loaded l' !! ConfigEbpf.getLib cc = None) by (intros cc Hcc Hne; rewrite Hl'; by apply replace_gone).
  split; [done | | | | |].
  - intros k' c' Hin. apply Hsnoc in Hin as [Hin | [-> ->]]; [| done].
    assert (Hk' := Hbefore k' c' Hin).
    assert (Hne : k' ≠ k) by (intros ->; apply Hnotin; rewrite Hk in Hk'; by injection Hk' as ->).
    rewrite Haway; [by eapply Hdone | by eapply Hother_lib |].
    intros cc Hcc Hlib. apply Hne. symmetry. eapply Hstay; [exact Hcc | exact Hk' | by eexists | congruence].
  - intros k' c' cc' Hk' Hnin Hcc'.
    assert (Hne : k' ≠ k).
    { intros ->. apply Hnin, Hsnoc. right. split; [done | congruence]. }
    rewrite Haway; [eapply Htodo; [exact Hk' | | exact Hcc'] | | ].
    + intros Hin. apply Hnin, Hsnoc. by left.
    + intros Hlib. apply Hne. eapply Hstay; [exact Hcc' | exact Hk | by eexists | exact Hlib].
    + intros cc Hcc Hlib. apply Hne. by eapply Hcur_once.
  - intros x Hx Hsome. destruct (decide (x = ConfigEbpf.getLib c)) as [-> | Hne].
    { left. exists k, c. split; [| done]. apply Hsnoc. by right. }
    assert (Hcc : forall cc, cur !! k = Some cc -> x ≠ ConfigEbpf.getLib cc).
    { intros cc Hcc ->. rewrite Hgone in Hsome by congruence. by destruct Hsome. }
    rewrite (Haway x Hne Hcc) in Hsome.
    destruct (Hplain x Hx Hsome) as [(k' & c' & Hin & Hlib) | (k' & c' & cc' & Hk' & Hnin & Hcc' & Hlib)].
    + left. exists k', c'. split; [| done]. apply Hsnoc. by left.
    + right. exists k', c', cc'. split; [done |]. split; [| done].
      intros Hin. apply Hsnoc in Hin as [Hin | [-> ->]]; [done |]. by destruct (Hcc cc' Hcc').
  - intros x v Hx Hv. destruct (decide (x = ConfigEbpf.getLib c)) as [-> | Hne].
    { rewrite Hhere in Hv. injection Hv as <-. by eapply Hsched. }
    destruct (cur !! k) as [cc |] eqn:Ecc.
    + destruct (decide (x = ConfigEbpf.getLib cc)) as [-> | Hne'].
      * rewrite Hgone in Hv by congruence. done.
      * apply (Hsch x v Hx). rewrite <- Haway; [done | done |]. intros cc2 [= <-]. done.
    + apply (Hsch x v Hx). rewrite <- Haway; [done | done |]. intros cc2 [=].
  - intros x Hx Hnot. rewrite <- (Hother x Hx Hnot). apply Haway; [intros ->; by eapply Hnot |].
    intros cc Hcc ->. destruct (Hsame k cc c Hcc Hk) as [-> | [Hp _]]; [by eapply Hnot | congruence].
Qed.

Lemma view_load_insert so v t :
  t !! so = None \/ t !! so = Some v -> view_load so v t = <[so := v]> t.
Proof. unfold view_load. intros [-> | Hv]; [done |]. rewrite Hv. by rewrite insert_id. Qed.

(** the library of a configured entry that is being loaded is free *)
Lemma loading_free_user before k c l :
  loading before l -> new' !! k = Some c -> (k, c) ∉ before ->
  (forall k' c', (k', c') ∈ before -> new' !! k' = Some c') ->
  (forall cc, cur !! k = Some cc -> ConfigEbpf.getLib cc ≠ ConfigEbpf.getLib c) ->
  no_char ";" (ConfigEbpf.getLib c) = true -> li_loaded l !! ConfigEbpf.getLib c = None.
Proof.
  intros Hl Hk Hnotin Hbefore Hdiff Ec. apply eq_None_not_Some. intros Hsome.
  destruct (ld_plain _ _ Hl (ConfigEbpf.getLib c) Ec Hsome) as
    [(k' & c' & Hin & Hlib) | (k' & c' & cc & Hk' & Hnin & Hcc & Hlib)].
  - assert (k' = k) as -> by (eapply Honce; eauto). assert (Hc := Hbefore _ _ Hin).
    rewrite Hk in Hc. by injection Hc as ->.
  - assert (k' = k) as -> by (eapply Hstay; eauto). by apply (Hdiff cc).
Qed.

(** ... and that of a scheduler may be left behind by an earlier configuration *)
Lemma loading_free before k c l :
  loading before l -> new' !! k = Some c -> (k, c) ∉ before ->
  (forall k' c', (k', c') ∈ before -> new' !! k' = Some c') ->
  (forall cc, cur !! k = Some cc -> ConfigEbpf.getLib cc ≠ ConfigEbpf.getLib c) ->
  li_loaded l !! ConfigEbpf.getLib c = None \/ li_loaded l !! ConfigEbpf.getLib c = Some (entry_view c).
Proof.
  intros Hl Hk Hnotin Hbefore Hdiff.
  destruct (no_char ";" (ConfigEbpf.getLib c)) eqn:Ec; [left; by eapply loading_free_user |].
  destruct (li_loaded l !! ConfigEbpf.getLib c) as [v |] eqn:Ev; [| by left]. right.
  f_equal. eapply is_scheduler_fun; [by eapply ld_sched | by eapply Hsched].
Qed.

(** the library is unloaded and another one, or the same, loaded *)
Lemma library_exchanged cc c l :
  li_inv l -> ConfigEbpf.getLib cc ≠ "" -> ConfigEbpf.getLib c ≠ "" ->
  li_loadable (ConfigEbpf.getLib c) (ConfigEbpf.getHook c) (ConfigEbpf.getIfindex c) (ConfigEbpf.getConfig c) ->
  (ConfigEbpf.getLib cc ≠ ConfigEbpf.getLib c ->
     li_loaded l !! ConfigEbpf.getLib c = None \/ li_loaded l !! ConfigEbpf.getLib c = Some (entry_view c)) ->
  exists l', (_ ← unloadEbpf (ConfigEbpf.getLib cc);
              loadEbpf (ConfigEbpf.getLib c) (ConfigEbpf.getHook c) (ConfigEbpf.getIfindex c) (ConfigEbpf.getConfig c)) l = (Ok tt, l') /\
    li_inv l' /\
    li_loaded l' = if decide (ConfigEbpf.getLib cc = ConfigEbpf.getLib c) then <[ConfigEbpf.getLib c := entry_view c]> (li_loaded l)
                   else <[ConfigEbpf.getLib c := entry_view c]> (delete (ConfigEbpf.getLib cc) (li_loaded l)).
Proof.
  intros Hinv Hcc Hlib Hload Hfree.
  destruct (unloadEbpf_spec (ConfigEbpf.getLib cc) (li_loaded l) Hcc l) as ([] & l1 & Hu & Hinv1 & Hl1); [done |].
  erewrite st_bind_ok by done.
  destruct (loadEbpf_spec (ConfigEbpf.getLib c) _ _ _ (li_loaded l1) Hlib Hload l1) as ([] & l2 & Hld & Hinv2 & Hl2); [done |].
  exists l2. split; [exact Hld |]. split; [done |]. rewrite Hl2, Hl1. case_decide as Heq.
  - rewrite <- Heq. rewrite view_load_insert by (left; apply lookup_delete_eq). by rewrite insert_delete_eq.
  - apply view_load_insert. rewrite lookup_delete_ne by done. by apply Hfree.
Qed.

(** the library stays and is given another configuration file *)
Lemma file_exchanged so h i old conf l :
  li_inv l -> li_loaded l !! so = Some (h, i, old) -> li_loadable so h i conf ->
  exists l', (_ ← li_unregisterServiceConfig so old; li_registerServiceConfig so h i conf) l = (Ok tt, l') /\
    li_inv l' /\ li_loaded l' = <[so := (h, i, conf)]> (li_loaded l).
Proof.
  intros Hinv Hthere Hload.
  destruct (li_unregister_law so old l Hinv) as (l1 & Hu & Hinv1 & Hl1); [by eexists |]. erewrite st_bind_ok by done.
  assert (Hl1' : li_loaded l1 = <[so := (h, i, "")]> (li_loaded l)).
  { rewrite Hl1. case_match eqn:Ee; [apply String.eqb_eq in Ee as ->; by rewrite insert_id |].
    unfold view_config. rewrite <- (insert_id (li_loaded l) so (h, i, old) Hthere) at 1. by rewrite alter_insert_eq. }
  destruct (li_register_law so h i conf l1 Hinv1) as (l2 & Hr & Hinv2 & Hl2); [| done |].
  { rewrite Hl1', lookup_insert_eq. by eexists. }
  exists l2. split; [exact Hr |]. split; [done |]. rewrite Hl2, Hl1'.
  case_match eqn:Ee; [by apply String.eqb_eq in Ee as -> |]. unfold view_config. by rewrite alter_insert_eq.
Qed.

Lemma load_entry_step before k c l :
  loading before l -> new' !! k = Some c -> (k, c) ∉ before ->
  (forall k' c', (k', c') ∈ before -> new' !! k' = Some c') ->
  exists l', load_entry cur (k, c) l = (Ok tt, l') /\ li_inv l' /\ li_loaded l' = replace k c (li_loaded l).
Proof.
  intros Hl Hk Hnotin Hbefore. destruct (Hentry k c Hk) as (Hlib & Hh & Hi & Hload).
  assert (Hinv := ld_inv _ _ Hl). unfold load_entry, replace. cbn [fst snd].
  destruct (cur !! k) as [cc |] eqn:Ecc.
  - assert (Hthere := ld_todo _ _ Hl k c cc Hk Hnotin Ecc).
    destruct (negb (ConfigEbpf.getLib cc =? ConfigEbpf.getLib c)%string
      || bool_decide (ConfigEbpf.getHook cc ≠ ConfigEbpf.getHook c)
      || negb (ConfigEbpf.getIfindex cc =? ConfigEbpf.getIfindex c)) eqn:Ech.
    + apply library_exchanged; [done | by eapply Hcur | done | done |].
      intros Hne. eapply loading_free; eauto. intros cc' Hcc'. congruence.
    + apply orb_false_iff in Ech as [Ech Hif]. apply orb_false_iff in Ech as [Hlb Hhk].
      apply negb_false_iff, String.eqb_eq in Hlb. apply negb_false_iff, Z.eqb_eq in Hif.
      apply bool_decide_eq_false, dec_stable in Hhk. rewrite decide_True by done. unfold entry_view in *. rewrite Hlb, Hhk, Hif in *.
      destruct (String.eqb_spec (ConfigEbpf.getConfig cc) (ConfigEbpf.getConfig c)) as [Hcf | Hcf]; cbn [negb].
      * exists l. split; [done |]. split; [done |]. rewrite insert_id; [done |]. by rewrite Hthere, Hcf.
      * by apply file_exchanged.
  - destruct (loadEbpf_spec (ConfigEbpf.getLib c) _ _ _ (li_loaded l) Hlib Hload l) as ([] & l2 & Hld & Hinv2 & Hl2); [done |].
    exists l2. split; [exact Hld |]. split; [done |]. rewrite Hl2. apply view_load_insert.
    eapply loading_free; eauto. intros cc' Hcc'. congruence.
Qed.

Lemma load_entries (l0 : L) :
  loading [] l0 ->
  exists l', for_each (load_entry cur) (uiter new') l0 = (Ok tt, l') /\ loading (uiter new') l'.
Proof.
  intros Hl0.
  assert (Hnd : NoDup (uiter new')) by (rewrite uiter_perm; apply NoDup_map_to_list).
  assert (Hsub : forall k c, (k, c) ∈ uiter new' -> new' !! k = Some c)
    by (intros k c Hin; rewrite uiter_perm in Hin; by apply elem_of_map_to_list).
  destruct (succeeds_for_each loading (load_entry cur) (uiter new')) with (s := l0) as ([] & l' & Hrun & Hl'); [| done |].
  - intros before [k c] after Heq l Hl. rewrite Heq in Hnd, Hsub.
    assert (Hk : new' !! k = Some c) by (apply Hsub, elem_of_app; right; left).
    assert (Hbefore : forall k' c', (k', c') ∈ before -> new' !! k' = Some c')
      by (intros k' c' Hin; apply Hsub, elem_of_app; by left).
    apply NoDup_app in Hnd as (_ & Hdis & _).
    assert (Hnotin : (k, c) ∉ before) by (intros Hin; apply (Hdis _ Hin); left).
    destruct (load_entry_step before k c l Hl Hk Hnotin Hbefore) as (l1 & Hr & Hinv1 & Hl1).
    exists tt, l1. split; [done |]. by eapply replace_loading.
  - by exists l'.
Qed.

End Loading.

End Reconcile.

(** ** What the daemon achieves *)

Section DaemonFacts.
Context {L I J : Type} `{!LoaderIf L I, !LoaderLaws L I} `{!EbpfIf I J}.
Context `{BuildMode} `{!UMapOrder string} `{!UMapOrder HookType}.
Context (std_sort : list order_entry -> list order_entry) (std_sort_perm : forall l, std_sort l ≡ₚ l).

(** the daemon has brought up the program table [base]: every program and
    every scheduler it needs is loaded as configured, no other program is, and
    anything else that is loaded is a scheduler *)
Record daemon_ok (base : EbpfMap) (d : Daemon L) : Prop := {
  dk_inv : li_inv (loader_ d);
  dk_current : current_ebpf_ d = with_schedulers base;
  dk_loaded : forall k c, with_schedulers base !! k = Some c ->
    li_loaded (loader_ d) !! ConfigEbpf.getLib c = Some (entry_view c);
  dk_plain : forall x, no_char ";" x = true -> is_Some (li_loaded (loader_ d) !! x) ->
    exists k c, base !! k = Some c /\ ConfigEbpf.getLib c = x;
  dk_sched : forall x v, no_char ";" x = false -> li_loaded (loader_ d) !! x = Some v -> is_scheduler x v
}.

Lemma after_unload_loading old new d l :
  config_ok li_loadable old -> config_ok li_loadable new -> daemon_ok old d ->
  after_unload new (li_loaded (loader_ d)) (uiter old) l ->
  loading (with_schedulers old) (with_schedulers new) (li_loaded (loader_ d)) [] l.
Proof.
  intros Hold Hnew [Hinv Hcurr Hload Hplain Hsched] [Hinv1 Hl].
  assert (Hdrop : forall x, dropped new (uiter old) x <->
    exists k c, old !! k = Some c /\ new !! k = None /\ ConfigEbpf.getLib c = x).
  { intros x. unfold dropped. split; intros (k & c & Hin & ?); exists k, c; split; try done.
    - by rewrite uiter_perm, elem_of_map_to_list in Hin.
    - by rewrite uiter_perm, elem_of_map_to_list. }
  assert (Hkeep : forall x, is_Some (li_loaded l !! x) -> ~ dropped new (uiter old) x /\
    li_loaded l !! x = li_loaded (loader_ d) !! x).
  { intros x Hx. destruct (Hl x) as [Hd Hn]. assert (Hnd : ~ dropped new (uiter old) x).
    { intros Hdr. rewrite (Hd Hdr) in Hx. by destruct Hx. }
    split; [done | by apply Hn]. }
  assert (Hsemi : forall x, no_char ";" x = false -> li_loaded l !! x = li_loaded (loader_ d) !! x).
  { intros x Hx. apply (Hl x). rewrite Hdrop. intros (k & c & Hk & _ & <-).
    by rewrite (ok_libs _ _ Hold k c Hk) in Hx. }
  split; [done | | | | |].
  - intros k c Hin. by apply not_elem_of_nil in Hin.
  - intros k c cc Hk _ Hcc. destruct (Hl (ConfigEbpf.getLib cc)) as [_ Hn].
    rewrite Hn; [by apply (Hload k) |]. rewrite Hdrop. intros (k' & c' & Hk' & Hnone & Hlib).
    assert (Hk'' : with_schedulers old !! k' = Some c') by (apply with_schedulers_spec; by left).
    assert (k' = k) as -> by (eapply ws_once; [exact Hold | exact Hk'' | exact Hcc | done]).
    destruct (ws_entry li_loadable new k c Hnew Hk) as (_ & _ & _ & _ & [(Hs & _) | (Hs & _)]); [congruence |].
    by rewrite (ok_keys _ _ Hold k c' Hk') in Hs.
  - intros x Hx Hsome. right. destruct (Hkeep x Hsome) as [Hnd Heq]. rewrite Heq in Hsome.
    destruct (Hplain x Hx Hsome) as (k & c & Hk & Hlib).
    destruct (new !! k) as [c' |] eqn:Ek.
    + exists k, c', c. split; [apply with_schedulers_spec; by left |]. split; [apply not_elem_of_nil |].
      split; [apply with_schedulers_spec; by left | done].
    + destruct Hnd. apply Hdrop. by exists k, c.
  - intros x v Hx. rewrite Hsemi by done. by apply Hsched.
  - intros x Hx _. by apply Hsemi.
Qed.

(** one entry of the loading loop between two configurations *)
Section Between.
Context (old new : EbpfMap) (t1 : gmap string service_view).
Context (Hold : config_ok li_loadable old) (Hnew : config_ok li_loadable new) (Hstay : libs_stay old new).

Lemma between_step before k c l :
  loading (with_schedulers old) (with_schedulers new) t1 before l -> with_schedulers new !! k = Some c ->
  (k, c) ∉ before -> (forall k' c', (k', c') ∈ before -> with_schedulers new !! k' = Some c') ->
  exists l', load_entry (with_schedulers old) (k, c) l = (Ok tt, l') /\
    loading (with_schedulers old) (with_schedulers new) t1 (before ++ [(k, c)]) l'.
Proof.
  intros Hl Hk Hnotin Hbefore.
  assert (Hentry : forall k c, with_schedulers new !! k = Some c -> ConfigEbpf.getLib c ≠ "" /\ ConfigEbpf.getHook c ≠ UNKNOWN /\
    0 < ConfigEbpf.getIfindex c /\
    li_loadable (ConfigEbpf.getLib c) (ConfigEbpf.getHook c) (ConfigEbpf.getIfindex c) (ConfigEbpf.getConfig c)).
  { intros k' c' Hk'. destruct (ws_entry _ new k' c' Hnew Hk') as (? & ? & ? & ? & _). done. }
  assert (Hsched : forall k c, with_schedulers new !! k = Some c -> no_char ";" (ConfigEbpf.getLib c) = false ->
    is_scheduler (ConfigEbpf.getLib c) (entry_view c)).
  { intros k' c' Hk' Hs. destruct (ws_entry _ new k' c' Hnew Hk') as (_ & _ & _ & _ & [(_ & _ & ?) | (_ & _ & ? & _)]); congruence. }
  destruct (load_entry_step (with_schedulers old) (with_schedulers new) t1 Hentry Hsched) with (before := before) (k := k) (c := c) (l := l)
    as (l' & Hrun & Hinv' & Hl'); try done.
  - intros k' c' Hk'. by destruct (ws_entry _ old k' c' Hold Hk').
  - intros k1 k2 c1 c2. by eapply ws_once.
  - intros k1 k2 c1 c2. by eapply ws_stay.
  - exists l'. split; [done |]. eapply replace_loading; try done.
    + intros k1 k2 c1 c2. by eapply ws_once.
    + intros k1 k2 c1 c2. by eapply ws_once.
    + intros k1 k2 c1 c2. by eapply ws_stay.
    + intros k1 c1 c2. by eapply ws_same_scheduler.
Qed.

Lemma between_free before k c l :
  loading (with_schedulers old) (with_schedulers new) t1 before l -> with_schedulers new !! k = Some c ->
  (k, c) ∉ before -> (forall k' c', (k', c') ∈ before -> with_schedulers new !! k' = Some c') ->
  (forall cc, with_schedulers old !! k = Some cc -> ConfigEbpf.getLib cc ≠ ConfigEbpf.getLib c) ->
  no_char ";" (ConfigEbpf.getLib c) = true -> li_loaded l !! ConfigEbpf.getLib c = None.
Proof.
  intros. eapply (loading_free_user (with_schedulers old) (with_schedulers new)); try done.
  - intros k1 k2 c1 c2. by eapply ws_once.
  - intros k1 k2 c1 c2. by eapply ws_stay.
Qed.

End Between.

Lemma reconcile_spec old new d :
  config_ok li_loadable old -> config_ok li_loadable new -> libs_stay old new -> daemon_ok old d ->
  exists l', reconcile std_sort (current_ebpf_ d) new (loader_ d) = (Ok tt, l') /\
    loading (with_schedulers old) (with_schedulers new) (li_loaded (loader_ d)) (uiter (with_schedulers new)) l'.
Proof.
  intros Hold Hnew Hstay Hd. destruct Hd as [Hinv Hcurr Hload Hplain Hsched] eqn:Ed. rewrite Hcurr. clear Ed.
  unfold reconcile. rewrite without_with_schedulers by apply Hold.
  assert (HA : succeeds (has_loaded (li_loaded (loader_ d)))
    (if negb (Configs.ebpfs_eqb new old) then rebuild_chain std_sort new else mret tt)
    (fun _ => has_loaded (li_loaded (loader_ d)))).
  { destruct (negb _); [| by apply (succeeds_ret tt (fun _ => _))].
    apply rebuild_chain_spec; [done |]. intros k c Hk. by apply (ok_entries _ _ Hnew k). }
  destruct (HA (loader_ d)) as ([] & l1 & H1 & Hl1); [done |]. erewrite st_bind_ok by done.
  destruct (unload_removed_all new old (li_loaded (loader_ d))) with (s := l1) as ([] & l2 & H2 & Hl2); [| done |].
  { intros k c Hk. by apply (ok_entries _ _ Hold k). }
  erewrite st_bind_ok by done.
  apply load_entries.
  - intros k c Hk. destruct (ws_entry _ new k c Hnew Hk) as (? & ? & ? & ? & _). done.
  - intros k c Hk Hs. destruct (ws_entry _ new k c Hnew Hk) as (_ & _ & _ & _ & [(_ & _ & ?) | (_ & _ & ? & _)]); congruence.
  - intros k c Hk. by destruct (ws_entry _ old k c Hold Hk).
  - intros k1 k2 c1 c2. by eapply ws_once.
  - intros k1 k2 c1 c2. by eapply ws_once.
  - intros k1 k2 c1 c2. by eapply ws_stay.
  - intros k c1 c2. by eapply ws_same_scheduler.
  - by eapply after_unload_loading.
Qed.

Lemma update_spec old config d :
  config_ok li_loadable old -> config_ok li_loadable (Configs.getEbpfs config) ->
  libs_stay old (Configs.getEbpfs config) -> daemon_ok old d ->
  exists d', update std_sort config d = (Ok tt, d') /\ daemon_ok (Configs.getEbpfs config) d' /\
    running_ d' = running_ d /\
    forall x, no_char ";" x = false ->
      (forall k c, with_schedulers (Configs.getEbpfs config) !! k = Some c -> ConfigEbpf.getLib c ≠ x) ->
      li_loaded (loader_ d') !! x = li_loaded (loader_ d) !! x.
Proof.
  intros Hold Hnew Hstay Hd. set (new := Configs.getEbpfs config) in *.
  destruct (reconcile_spec old new d Hold Hnew Hstay Hd) as (l' & Hrun & [Hinv Hdone _ Hplain Hsched Hother]).
  exists (set_current (with_schedulers new) (set_loader l' d)).
  split; [| split; [| split; [done | exact Hother]]].
  - unfold update. rewrite (st_bind_ok get _ d d d) by done.
    erewrite st_bind_ok; [| unfold on_loader; fold new; by rewrite Hrun]. done.
  - split; cbn; [done | done | | | done].
    + intros k c Hk. apply Hdone with (k := k). by rewrite uiter_perm, elem_of_map_to_list.
    + intros x Hx Hsome. destruct (Hplain x Hx Hsome) as [(k & c & Hin & Hlib) | (k & c & cc & Hk & Hnin & _)].
      * rewrite uiter_perm, elem_of_map_to_list in Hin. exists k, c. split; [| done].
        destruct (ws_entry _ new k c Hnew Hin) as (_ & _ & _ & _ & [(? & _) | (_ & Hs & _)]); [done | congruence].
      * destruct Hnin. by rewrite uiter_perm, elem_of_map_to_list.
Qed.

(** C9: An update brings the loader from a configuration the daemon has
    brought up to the new one, when in both tables names and library paths
    have no [;], every library is loadable with its hook, interface and file,
    and is used by one entry only, and when a library in use goes to an entry
    of another name only when its old entry is gone. (A library shared by two
    entries is loaded once, see [shared_library_loaded_once].) Then the update
    succeeds; afterwards every configured program and every scheduler a (hook,
    interface) pair needs is loaded with the configured hook, interface and
    configuration file, no library of a removed program is left, and
    current_ebpf_ is the new table with its schedulers. *)
Theorem update_reaches_config (old : EbpfMap) (config : Configs.t) (d : Daemon L)
  (Hold : config_ok li_loadable old) (Hnew : config_ok li_loadable (Configs.getEbpfs config))
  (Hstay : libs_stay old (Configs.getEbpfs config)) (Hd : daemon_ok old d) :
  exists d', update std_sort config d = (Ok tt, d') /\ daemon_ok (Configs.getEbpfs config) d'.
Proof. destruct (update_spec old config d Hold Hnew Hstay Hd) as (d' & ? & ? & _). by exists d'. Qed.

(** a scheduler is never unloaded by an update: when the last program of a
    (hook, interface) pair is removed, its scheduler stays loaded and
    current_ebpf_ forgets it. *)
Theorem stale_scheduler_stays_loaded (old : EbpfMap) (config : Configs.t) (d : Daemon L) (h : HookType) (i : Z)
  (Hold : config_ok li_loadable old) (Hnew : config_ok li_loadable (Configs.getEbpfs config))
  (Hstay : libs_stay old (Configs.getEbpfs config)) (Hd : daemon_ok old d)
  (Hneeded : needs old h i) (Hgone : ~ needs (Configs.getEbpfs config) h i) :
  exists d', update std_sort config d = (Ok tt, d') /\
    li_loaded (loader_ d') !! scheduler_so h i = Some (h, i, "") /\
    current_ebpf_ d' !! scheduler_id h i = None.
Proof.
  destruct (update_spec old config d Hold Hnew Hstay Hd) as (d' & Hrun & Hd' & _ & Hother).
  set (new := Configs.getEbpfs config) in *.
  assert (Hno : forall k c, with_schedulers new !! k = Some c -> ConfigEbpf.getLib c ≠ scheduler_so h i).
  { intros k c Hk Hlib. pose proof (scheduler_so_semicolon h i) as Hsemi. rewrite <- Hlib in Hsemi.
    apply with_schedulers_spec in Hk as [Hk | (_ & h' & i' & Hn & _ & ->)].
    - by rewrite (ok_libs _ _ Hnew k c Hk) in Hsemi.
    - cbn in Hlib. apply scheduler_so_inj in Hlib as [-> ->]. done. }
  exists d'. split; [done |]. split.
  - rewrite Hother by (apply scheduler_so_semicolon || done).
    assert (Hin : with_schedulers old !! scheduler_id h i = Some (scheduler_entry h i)).
    { apply with_schedulers_spec. right. split; [| by exists h, i].
      destruct (old !! scheduler_id h i) eqn:Eo; [| done]. by apply (ok_keys _ _ Hold) in Eo. }
    by apply (dk_loaded _ _ Hd) in Hin.
  - rewrite (dk_current _ _ Hd'). destruct (with_schedulers new !! scheduler_id h i) as [c |] eqn:Ek; [| done].
    exfalso. apply with_schedulers_spec in Ek as [Ek | (_ & h' & i' & Hn & Hid & _)].
    + by apply (ok_keys _ _ Hnew) in Ek.
    + apply scheduler_id_inj in Hid as [-> ->]. done.
Qed.

(** *** Libraries shared by several entries *)

Definition load_view (t : gmap string service_view) (kc : string * ConfigEbpf.t) : gmap string service_view :=
  view_load (ConfigEbpf.getLib kc.2) (entry_view kc.2) t.

Lemma load_view_lookup l t x :
  foldl load_view t l !! x =
  match t !! x with
  | Some v => Some v
  | None => (fun kc : string * ConfigEbpf.t => entry_view kc.2) <$> head (filter (fun kc => ConfigEbpf.getLib kc.2 = x) l)
  end.
Proof.
  revert t. induction l as [| kc l IH]; intros t; cbn [foldl]; [by destruct (t !! x) |].
  rewrite IH, filter_cons. unfold load_view, view_load.
  destruct (t !! ConfigEbpf.getLib kc.2) as [v |] eqn:Ev.
  - case_decide as Hx; [by rewrite <- Hx, Ev | done].
  - case_decide as Hx; [by rewrite Hx in *; rewrite lookup_insert_eq, Ev | by rewrite lookup_insert_ne].
Qed.

Lemma load_fresh l t :
  Forall (fun kc => ConfigEbpf.getLib kc.2 ≠ "" /\ li_loadable (ConfigEbpf.getLib kc.2) (ConfigEbpf.getHook kc.2)
    (ConfigEbpf.getIfindex kc.2) (ConfigEbpf.getConfig kc.2)) l ->
  succeeds (has_loaded t) (for_each (load_entry ∅) l) (fun _ => has_loaded (foldl load_view t l)).
Proof.
  intros Hl. apply (succeeds_for_each (fun before => has_loaded (foldl load_view t before))).
  intros before [k c] after ->. apply Forall_app in Hl as [_ Hl]. apply Forall_cons in Hl as [[Hlib Hload] _].
  rewrite foldl_app. cbn [foldl]. unfold load_entry. rewrite lookup_empty. by apply loadEbpf_spec.
Qed.

(** two programs of one library cannot be loaded together, although the
    daemon makes one scheduler per interface for exactly that case: starting
    from nothing, an update that configures a library on two interfaces
    reports success and lists both entries, while one of them is not loaded. *)
Theorem shared_library_loaded_once (config : Configs.t) (d : Daemon L) (k1 k2 : string) (c1 c2 : ConfigEbpf.t)
  (Hok : entries_ok li_loadable (Configs.getEbpfs config))
  (Hinv : li_inv (loader_ d)) (Hfresh : li_loaded (loader_ d) = ∅) (Hcur : current_ebpf_ d = ∅)
  (Hk1 : Configs.getEbpfs config !! k1 = Some c1) (Hk2 : Configs.getEbpfs config !! k2 = Some c2)
  (Hlib : ConfigEbpf.getLib c1 = ConfigEbpf.getLib c2) (Hif : ConfigEbpf.getIfindex c1 ≠ ConfigEbpf.getIfindex c2) :
  exists d', update std_sort config d = (Ok tt, d') /\
    current_ebpf_ d' !! k1 = Some c1 /\ current_ebpf_ d' !! k2 = Some c2 /\
    is_Some (li_loaded (loader_ d') !! ConfigEbpf.getLib c1) /\
    (li_loaded (loader_ d') !! ConfigEbpf.getLib c1 ≠ Some (entry_view c1) \/
     li_loaded (loader_ d') !! ConfigEbpf.getLib c2 ≠ Some (entry_view c2)).
Proof.
  set (new := Configs.getEbpfs config) in *.
  assert (HA : succeeds (has_loaded ∅)
    (if negb (Configs.ebpfs_eqb new ∅) then rebuild_chain std_sort new else mret tt) (fun _ => has_loaded ∅)).
  { destruct (negb _); [| by apply (succeeds_ret tt (fun _ => _))].
    apply rebuild_chain_spec; [done |]. intros k c Hk. by apply (ok_entries _ _ Hok k). }
  destruct (HA (loader_ d)) as ([] & l1 & H1 & Hl1); [done |].
  destruct (load_fresh (uiter (with_schedulers new)) ∅) with (s := l1) as ([] & l2 & H2 & Hinv2 & Hl2); [| done |].
  { rewrite uiter_perm. apply Forall_forall. intros [k c] Hin. apply elem_of_map_to_list in Hin.
    by destruct (ws_entry _ new k c Hok Hin) as (? & _ & _ & ? & _). }
  assert (Hempty : uiter (∅ : EbpfMap) = []).
  { apply Permutation_nil. by rewrite uiter_perm, map_to_list_empty. }
  exists (set_current (with_schedulers new) (set_loader l2 d)). split.
  { unfold update. rewrite (st_bind_ok get _ d d d) by done. rewrite Hcur.
    erewrite st_bind_ok; [done |]. unfold on_loader, reconcile. fold new.
    replace (without_schedulers ∅) with (∅ : EbpfMap) by (symmetry; apply map_filter_empty).
    erewrite st_bind_ok by done. rewrite Hempty. erewrite st_bind_ok by done. by rewrite H2. }
  assert (Hin1 : with_schedulers new !! k1 = Some c1) by (apply with_schedulers_spec; by left).
  assert (Hin2 : with_schedulers new !! k2 = Some c2) by (apply with_schedulers_spec; by left).
  cbn. split; [done |]. split; [done |]. split.
  - rewrite Hl2, load_view_lookup, lookup_empty.
    destruct (filter _ (uiter (with_schedulers new))) as [| kc l] eqn:Ef; [| by eexists].
    assert (Hnil : (k1, c1) ∈ filter (fun kc => ConfigEbpf.getLib kc.2 = ConfigEbpf.getLib c1) (uiter (with_schedulers new))).
    { apply list_elem_of_filter. split; [done |]. by rewrite uiter_perm, elem_of_map_to_list. }
    rewrite Ef in Hnil. by apply not_elem_of_nil in Hnil.
  - rewrite <- Hlib. destruct (decide (li_loaded l2 !! ConfigEbpf.getLib c1 = Some (entry_view c1))) as [He |]; [| by left].
    right. rewrite He. intros [= _ Hi _]. done.
Qed.

(** *** Stopping *)

Lemma unload_all so_list t :
  Forall (fun so => so ≠ "") so_list ->
  succeeds (has_loaded t) (for_each unloadEbpf so_list) (fun _ => has_loaded (foldl (fun t so => delete so t) t so_list)).
Proof.
  intros Hne. apply (succeeds_for_each (fun before => has_loaded (foldl (fun t so => delete so t) t before))).
  intros before so after ->. apply Forall_app in Hne as [_ Hne]. apply Forall_cons in Hne as [Hso _].
  rewrite foldl_app. by apply unloadEbpf_spec.
Qed.

Lemma foldl_delete_lookup (t : gmap string service_view) l x :
  x ∈ l \/ t !! x = None -> foldl (fun t so => delete so t) t l !! x = None.
Proof.
  clear std_sort_perm std_sort.
  revert t. induction l as [| y l IH]; intros t; cbn.
  - intros [Hx | Hx]; [by apply not_elem_of_nil in Hx | done].
  - intros Hx. apply IH. destruct (decide (x = y)) as [-> | Hne]; [right; apply lookup_delete_eq |].
    destruct Hx as [Hx | Hx]; [left; set_solver | right; by rewrite lookup_delete_ne].
Qed.

(** C32: stop() of a running daemon unloads every service, stale schedulers
    included, and leaves the empty table, from which the daemon can be
    configured again. *)
Theorem stop_unloads_everything (base : EbpfMap) (d : Daemon L)
  (Hok : config_ok li_loadable base) (Hd : daemon_ok base d) (Hrun : running_ d = true) :
  exists d', stop d = (Ok tt, d') /\ li_loaded (loader_ d') = ∅ /\ running_ d' = false /\ daemon_ok ∅ d'.
Proof.
  clear std_sort_perm std_sort.
  destruct (unload_all (li_getAllService (loader_ d)) (li_loaded (loader_ d))) with (s := loader_ d)
    as ([] & l' & Hun & Hinv' & Hl').
  { apply Forall_forall. intros so Hin. rewrite (li_all_law _ (dk_inv _ _ Hd)) in Hin.
    apply list_elem_of_fmap in Hin as ([so' v] & -> & Hin). apply elem_of_map_to_list in Hin. cbn.
    destruct (no_char ";" so') eqn:Es.
    - destruct (dk_plain _ _ Hd so' Es) as (k & c & Hk & <-); [by eexists |]. by apply (ok_entries _ _ Hok k).
    - by intros ->. }
  { split; [apply Hd | done]. }
  assert (Hempty : li_loaded l' = ∅).
  { rewrite Hl'. apply map_empty. intros x. apply foldl_delete_lookup.
    destruct (li_loaded (loader_ d) !! x) as [v |] eqn:Ex; [left | by right].
    rewrite (li_all_law _ (dk_inv _ _ Hd)). apply list_elem_of_fmap. exists (x, v). split; [done |].
    by apply elem_of_map_to_list. }
  eexists. split; [| split; [| split]].
  - unfold stop. rewrite (st_bind_ok get _ d d d), Hrun by done. cbn [negb].
    erewrite st_bind_ok; [done |]. unfold stop_services. rewrite (st_bind_ok get _ d d d) by done.
    erewrite st_bind_ok by done. erewrite st_bind_ok; [done |]. unfold on_loader. cbn. by rewrite Hun.
  - exact Hempty.
  - done.
  - split; cbn; [done | done | | | ]; rewrite ?Hempty.
    + intros k c Hk. apply with_schedulers_spec in Hk as [Hk | (_ & h & i & (k' & c' & Hk' & _) & _)]; by rewrite lookup_empty in *.
    + intros x _ Hx. rewrite lookup_empty in Hx. by destruct Hx.
    + intros x v _ Hv. by rewrite lookup_empty in Hv.
Qed.

(** When anything in an update throws, the daemon keeps the old table:
    what has been loaded or unloaded so far is not recorded. *)
Theorem failed_update_keeps_table (config : Configs.t) (d : Daemon L) :
  match update std_sort config d with
  | (Ok _, d') => current_ebpf_ d' = with_schedulers (Configs.getEbpfs config)
  | (Err _, d') => current_ebpf_ d' = current_ebpf_ d
  end.
Proof.
  unfold update. rewrite (st_bind_ok get _ d d d) by done. cbv [mbind st_bind on_loader].
  by destruct (reconcile _ _ _ _) as [[[] | e] l].
Qed.

End DaemonFacts.

(** ** The shutdown protocol

    [stop] joins the producer while it holds [queue_mutex_], which the
    producer takes for every status it has to offer. *)

Inductive stopper_pc : Type := StopBegin | StopUnload | StopLock | StopJoin | StopEnd.
(** [left]: services of the current round still to be asked *)
Inductive producer_pc : Type := LoopTest | Round (left : nat) | QueueLock (left : nat) | Push (left : nat) | Sleep | Exited.

Record Shutdown : Type := mkShutdown {
  queue_mutex_by_stopper : bool;
  sd_running : bool;
  stopper : stopper_pc;
  producer : producer_pc
}.

(** The producer holds the mutex only inside one step, to copy the queue
    pointer; [ask_nothing] is a service without a status, [ask_status] one
    with a status. *)
(* src/daemon/daemon.cc:38-69 Daemon::stop *)
Inductive shutdown_step : Shutdown -> Shutdown -> Prop :=
| st_exchange b p : shutdown_step (mkShutdown b true StopBegin p) (mkShutdown b false StopUnload p)
| st_unload b r p : shutdown_step (mkShutdown b r StopUnload p) (mkShutdown b r StopLock p)
| st_lock r p : shutdown_step (mkShutdown false r StopLock p) (mkShutdown true r StopJoin p)
| st_join b r : shutdown_step (mkShutdown b r StopJoin Exited) (mkShutdown false r StopEnd Exited)
| pr_test b r s n : shutdown_step (mkShutdown b r s LoopTest) (mkShutdown b r s (if r then Round n else Exited))
| pr_round_end b r s : shutdown_step (mkShutdown b r s (Round 0)) (mkShutdown b r s Sleep)
| pr_ask_nothing b r s n : shutdown_step (mkShutdown b r s (Round (S n))) (mkShutdown b r s (Round n))
| pr_ask_status b r s n : shutdown_step (mkShutdown b r s (Round (S n))) (mkShutdown b r s (QueueLock n))
| pr_queue_lock r s n : shutdown_step (mkShutdown false r s (QueueLock n)) (mkShutdown false r s (Push n))
| pr_push b r s n : shutdown_step (mkShutdown b r s (Push n)) (mkShutdown b r s (Round n))
| pr_sleep b r s : shutdown_step (mkShutdown b r s Sleep) (mkShutdown b r s LoopTest).

Definition shutdown_begin : Shutdown := mkShutdown false true StopBegin LoopTest.

(** stop() of the daemon can hang for ever: it joins the producer while
    holding queue_mutex_, and a producer that has just obtained a status waits
    for that mutex. *)
Theorem daemon_stop_deadlock (n : nat) :
  exists s, rtc shutdown_step shutdown_begin s /\ stopper s = StopJoin /\ producer s = QueueLock n /\
    forall s', ~ shutdown_step s s'.
Proof.
  exists (mkShutdown true false StopJoin (QueueLock n)). split; [| split; [done | split; [done |]]].
  - eapply rtc_l; [apply (pr_test _ _ _ (S n)) |]. eapply rtc_l; [apply pr_ask_status |].
    eapply rtc_l; [apply st_exchange |]. eapply rtc_l; [apply st_unload |].
    eapply rtc_l; [apply st_lock |]. apply rtc_refl.
  - intros s' Hs. inversion Hs.
Qed.

Lemma shutdown_inv s :
  rtc shutdown_step shutdown_begin s ->
  (stopper s = StopBegin <-> sd_running s = true) /\ (queue_mutex_by_stopper s = true <-> stopper s = StopJoin).
Proof.
  intros Hr. pattern s. eapply rtc_ind_r; [| | exact Hr]; [done |]. clear s Hr.
  intros s1 s2 _ Hs IH. destruct Hs; cbn in *; naive_solver.
Qed.

(** C37: that is the only way to hang: a reachable state in which neither
    thread can move is either the end of both or that deadlock. *)
Theorem daemon_stop_hangs_only_there (s : Shutdown) (Hreach : rtc shutdown_step shutdown_begin s)
  (Hstuck : forall s', ~ shutdown_step s s') :
  (stopper s = StopEnd /\ producer s = Exited) \/ (stopper s = StopJoin /\ exists n, producer s = QueueLock n).
Proof.
  destruct (shutdown_inv s Hreach) as [Hrun Hmutex]. destruct s as [b r st pr]. cbn in *.
  destruct pr as [| [| n] | n | n | |].
  all: try (exfalso; eapply Hstuck; econstructor; fail).
  - destruct b; [right; split; [by apply Hmutex | by eexists] | exfalso; eapply Hstuck; econstructor].
  - destruct st; [exfalso | exfalso | exfalso | exfalso | by left].
    + destruct r; [eapply Hstuck; econstructor | by destruct Hrun as [Hrun _]; discriminate (Hrun eq_refl)].
    + eapply Hstuck; econstructor.
    + destruct b; [by destruct Hmutex as [Hm _]; discriminate (Hm eq_refl) | eapply Hstuck; econstructor].
    + eapply Hstuck; econstructor.
  Unshelve. all: exact 0%nat.
Qed.

(** ** Concrete runs *)

Module Sample.

Import Loader.Sample.

#[local] Instance order_hook : UMapOrder HookType := default_order HookType.

Definition fresh : Daemon loader := mkDaemon empty_loader true ∅ false false.

Definition acl (ifindex : Z) : ConfigEbpf.t := ConfigEbpf.mk "/lib/libhebpf_acl.so" "/etc/acl.json" TC ifindex 1.
Definition one : EbpfMap := {[ "acl" := acl 11 ]}.
Definition two : EbpfMap := <[ "acl2" := acl 12 ]> one.
Definition config (m : EbpfMap) : Configs.t := Configs.setEbpfs m Configs.default.
Definition sort (l : list order_entry) : list order_entry := l.

Lemma scheduler_loadable i : 0 < i -> li_loadable (L := loader) (scheduler_so TC i) TC i "".
Proof.
  intros Hi. assert (Hreal : real_path (scheduler_so TC i) = SCHEDULER_TC_LIB).
  { unfold real_path, scheduler_so. rewrite bool_decide_eq_true_2 by done. change (";" +:+ ?s) with (String ";" s).
    by rewrite before_last_app by apply scheduler_suffix_no_semicolon. }
  split; [done | done | done | |].
  - exists 7%nat. split; [done |]. by exists 7%nat.
  - left. by rewrite Hreal.
Qed.

Lemma entries_fine (m : EbpfMap) :
  (forall k c, m !! k = Some c -> no_char ";" k = true /\ exists i, 0 < i /\ c = acl i) ->
  entries_ok (li_loadable (L := loader)) m.
Proof.
  intros Hm. split; intros k c Hk; destruct (Hm k c Hk) as (Hplain & i & Hi & ->); [done | done | done |].
  split; [by apply acl_loadable | by apply scheduler_loadable].
Qed.

Lemma one_entry k c : one !! k = Some c -> k = "acl" /\ c = acl 11.
Proof. unfold one. rewrite lookup_singleton_Some. by intros [<- <-]. Qed.

Lemma one_ok : config_ok (li_loadable (L := loader)) one.
Proof.
  split.
  - apply entries_fine. intros k c [-> ->]%one_entry. split; [done |]. by exists 11.
  - intros k1 k2 c1 c2 [-> _]%one_entry [-> _]%one_entry _. done.
Qed.

Lemma none_ok : config_ok (li_loadable (L := loader)) ∅.
Proof.
  split; [apply entries_fine; intros k c Hk | intros k1 k2 c1 c2 Hk _ _]; by rewrite lookup_empty in Hk.
Qed.

Lemma two_ok : entries_ok (li_loadable (L := loader)) two.
Proof.
  apply entries_fine. intros k c Hk. unfold two in Hk. apply lookup_insert_Some in Hk as [[<- <-] | [_ [-> ->]%one_entry]].
  - split; [done |]. by exists 12.
  - split; [done |]. by exists 11.
Qed.

Lemma fresh_ok : daemon_ok ∅ fresh.
Proof.
  split.
  - exact empty_loader_ok.
  - vm_compute. reflexivity.
  - intros k c Hk. apply with_schedulers_spec in Hk as [Hk | (_ & h & i & (k' & c' & Hk' & _) & _)]; by rewrite lookup_empty in *.
  - intros x _ Hx. destruct Hx as [v Hv]. discriminate Hv.
  - intros x v _ Hv. discriminate Hv.
Qed.

Lemma stays_from_none (m : EbpfMap) : libs_stay ∅ m.
Proof. intros k1 k2 c1 c2 Hk. by rewrite lookup_empty in Hk. Qed.
Lemma stays_to_none (m : EbpfMap) : libs_stay m ∅.
Proof. intros k1 k2 c1 c2 _ Hk. by rewrite lookup_empty in Hk. Qed.

Lemma sort_perm l : sort l ≡ₚ l.
Proof. done. Qed.

(** a daemon that runs one program *)
Lemma one_running : exists d : Daemon loader, daemon_ok one d /\ running_ d = true.
Proof.
  destruct (update_spec sort sort_perm ∅ (config one) fresh none_ok one_ok (stays_from_none one) fresh_ok)
    as (d & _ & Hd & Hr & _).
  exists d. split; [exact Hd |]. by rewrite Hr.
Qed.

Lemma update_reaches_config_witness :
  exists d', update sort (config one) fresh = (Ok tt, d') /\ daemon_ok one d'.
Proof.
  exact (update_reaches_config sort sort_perm ∅ (config one) fresh none_ok one_ok (stays_from_none one) fresh_ok).
Defined.

Lemma stale_scheduler_stays_loaded_witness :
  exists d d' : Daemon loader, daemon_ok one d /\ update sort (config ∅) d = (Ok tt, d') /\
    li_loaded (loader_ d') !! scheduler_so TC 11 = Some (TC, 11, "").
Proof.
  destruct one_running as (d & Hd & _).
  destruct (stale_scheduler_stays_loaded sort sort_perm one (config ∅) d TC 11 one_ok none_ok (stays_to_none one) Hd)
    as (d' & Hrun & Hl & _).
  - exists "acl", (acl 11). split; [vm_compute; reflexivity | split; reflexivity].
  - intros (k & c & Hk & _). vm_compute in Hk. discriminate Hk.
  - exists d, d'. split; [exact Hd | split; [exact Hrun | exact Hl]].
Defined.

Lemma shared_library_loaded_once_witness :
  exists d', update sort (config two) fresh = (Ok tt, d') /\
    current_ebpf_ d' !! "acl" = Some (acl 11) /\ current_ebpf_ d' !! "acl2" = Some (acl 12) /\
    (li_loaded (loader_ d') !! "/lib/libhebpf_acl.so" ≠ Some (TC, 11, "/etc/acl.json") \/
     li_loaded (loader_ d') !! "/lib/libhebpf_acl.so" ≠ Some (TC, 12, "/etc/acl.json")).
Proof.
  destruct (shared_library_loaded_once sort sort_perm (config two) fresh "acl" "acl2" (acl 11) (acl 12) two_ok)
    as (d' & Hrun & H1 & H2 & _ & Hor).
  - exact (dk_inv _ _ fresh_ok).
  - vm_compute. reflexivity.
  - reflexivity.
  - vm_compute. reflexivity.
  - vm_compute. reflexivity.
  - reflexivity.
  - discriminate.
  - exists d'. split; [exact Hrun | split; [exact H1 | split; [exact H2 | exact Hor]]].
Defined.

Lemma stop_unloads_everything_witness :
  exists d d' : Daemon loader, daemon_ok one d /\ stop d = (Ok tt, d') /\ li_loaded (loader_ d') = ∅.
Proof.
  destruct one_running as (d & Hd & Hr).
  destruct (stop_unloads_everything one d one_ok Hd Hr) as (d' & Hrun & Hl & _).
  exists d, d'. split; [exact Hd | split; [exact Hrun | exact Hl]].
Defined.

Lemma daemon_stop_hangs_only_there_witness :
  (stopper (mkShutdown true false StopJoin (QueueLock 2)) = StopEnd /\
   producer (mkShutdown true false StopJoin (QueueLock 2)) = Exited) \/
  (stopper (mkShutdown true false StopJoin (QueueLock 2)) = StopJoin /\
   exists n, producer (mkShutdown true false StopJoin (QueueLock 2)) = QueueLock n).
Proof.
  apply (daemon_stop_hangs_only_there (mkShutdown true false StopJoin (QueueLock 2))).
  - eapply rtc_l; [apply (pr_test _ _ _ 3) |]. eapply rtc_l; [apply pr_ask_status |].
    eapply rtc_l; [apply st_exchange |]. eapply rtc_l; [apply st_unload |].
    eapply rtc_l; [apply st_lock |]. apply rtc_refl.
  - intros s' Hs. inversion Hs.
Defined.

End Sample.
