(* ===== verification/Watches.v ===== *)
(** * Which configuration file is watched for which service

    The loader ([Loader.v]) registers the configuration file of every service
    with the inotify manager and the daemon ([Daemon.v]) moves these
    registrations when it is given another program table.  Here the watches of
    the inotify manager are compared with the table of loaded services, over
    whole updates: when they agree, and what breaks the agreement. *)

From S2P Require Import Prelude Configs Names BpfMap ProgMap Inotify Loader Daemon.

#[local] Open Scope string_scope.
#[local] Open Scope Z_scope.
#[local] Open Scope list_scope.

(** ** The agreement of watches and services *)

Section Agreement.

(** the watches [W], as what an event on a file calls, are those of the
    services in the table [T]: a file is watched for the service that has it as
    its configuration file, and for no other *)
Definition agree (W : string -> option ConfigCb) (T : gmap string service_view) : Prop :=
  forall name cb, name <> "" ->
    W name = Some cb <-> T !! viewed (cb_so_path cb) = Some (cb_hook_type cb, cb_ifindex cb, name).

(** the file of a service that goes, or loses it, is no longer watched *)
Definition dropped_watch (conf : string) (W : string -> option ConfigCb) (name : string) : option ConfigCb :=
  if decide (conf = name) then None else W name.

(** a file that is watched already keeps its callback *)
Definition added_watch (conf : string) (cb : ConfigCb) (W : string -> option ConfigCb) (name : string) : option ConfigCb :=
  if decide (conf = name) then Some (default cb (W name)) else W name.

Lemma agree_ext W W' T : agree W T -> (forall name, name <> "" -> W' name = W name) -> agree W' T.
Proof. intros HW Hext name cb Hn. rewrite Hext by done. by apply HW. Qed.

Lemma agree_dropped W T T' so v :
  agree W T -> T !! so = Some v -> (forall x, x <> so -> T' !! x = T !! x) -> (forall v' : service_view, T' !! so = Some v' -> v'.2 = "") ->
  agree (dropped_watch v.2 W) T'.
Proof.
  intros HW Hso Hrest Hgone name cb Hn. unfold dropped_watch. case_decide as Hv.
  - split; [done |]. intros Ht. exfalso. destruct v as [[h i] conf]. cbn in Hv. subst conf.
    assert (Hown : W name = Some (mkConfigCb (view_of so) h i)) by (by apply HW).
    destruct (decide (viewed (cb_so_path cb) = so)) as [Heq | Hne].
    + rewrite Heq in Ht. by apply Hgone in Ht.
    + rewrite Hrest in Ht by done. apply HW in Ht; [| done]. rewrite Hown in Ht. by simplify_eq.
  - rewrite (HW name cb Hn). destruct (decide (viewed (cb_so_path cb) = so)) as [Heq | Hne]; [| by rewrite Hrest].
    rewrite Heq, Hso. split; [by intros [= ->] |]. intros Ht. by apply Hgone in Ht.
Qed.

(** no other service has this file *)
Definition unused (so conf : string) (T : gmap string service_view) : Prop :=
  forall x (v : service_view), T !! x = Some v -> x <> so -> conf <> "" -> v.2 <> conf.

Lemma agree_added W T so h i conf :
  agree W T -> unused so conf T -> (forall v : service_view, T !! so = Some v -> v.2 = "") ->
  agree (added_watch conf (mkConfigCb (view_of so) h i) W) (<[so := (h, i, conf)]> T).
Proof.
  intros HW Hfree Hbare name cb Hn. unfold added_watch. case_decide as Hc.
  - subst name. assert (HWc : W conf = None).
    { apply eq_None_not_Some. intros [cb' Hcb']. apply HW in Hcb'; [| done].
      destruct (decide (viewed (cb_so_path cb') = so)) as [Heq | Hne].
      - rewrite Heq in Hcb'. by apply Hbare in Hcb'.
      - by apply (Hfree _ _ Hcb' Hne Hn). }
    rewrite HWc. cbn. split; [intros [= <-]; by rewrite lookup_insert_eq |].
    destruct (decide (viewed (cb_so_path cb) = so)) as [Heq | Hne].
    + rewrite Heq, lookup_insert_eq. intros [= -> ->]. by destruct cb as [[]]; cbn in Heq; subst.
    + rewrite lookup_insert_ne by done. intros Ht. by destruct (Hfree _ _ Ht Hne Hn).
  - rewrite (HW name cb Hn). destruct (decide (viewed (cb_so_path cb) = so)) as [Heq | Hne]; [| by rewrite lookup_insert_ne].
    rewrite Heq, lookup_insert_eq. split; [| by intros [= _ _ ?]]. intros Ht. by apply Hbare in Ht.
Qed.

End Agreement.

(** ** The operations of the loader *)

Section Watches.
Context {I J IM CM : Type} `{!EbpfIf I J, !EbpfLaws I J} `{!InotifyManagerIf IM, !InotifyManagerLaws IM} `{!ChainIf CM, !ChainLaws CM}.
Context `{BuildMode} `{!UMapOrder string} `{!UMapOrder HookType}.
Context (dl : string -> library I) (json_null : J) (read_json : string -> J).

Abbreviation loader := (Loader I IM CM).
#[local] Instance watches_loader : LoaderIf loader I := loader_if dl json_null read_json.
#[local] Instance watches_laws : LoaderLaws loader I := loader_laws dl json_null read_json.

(** the callback that is registered for a file *)
Definition watch (l : loader) (name : string) : option ConfigCb := inotify_mgr_ l ≫= fun im => im_callback im name.

(** the watches are those of the loaded services *)
Definition watched (l : loader) : Prop := agree (watch l) (loaded l).

Lemma watch_same (l l' : loader) : inotify_mgr_ l' = inotify_mgr_ l -> forall name, watch l' name = watch l name.
Proof. unfold watch. by intros ->. Qed.

Lemma goodbye_watch conf (l l' : loader) r :
  loader_inv dl l -> conf <> "" -> on_inotify (im_goodbyeConfig conf) l = (r, l') ->
  forall name, watch l' name = dropped_watch conf (watch l) name.
Proof.
  intros Hinv Hc. destruct (inv_inotify dl l Hinv) as (im & Him & Himinv).
  destruct (im_goodbye_law conf im Hc Himinv) as (im' & Hg & _ & Hnone & Hrest).
  unfold on_inotify. rewrite Him, Hg. intros [= _ <-] name. unfold watch, dropped_watch. cbn. rewrite Him. cbn.
  case_decide as Heq; [by subst | by apply Hrest].
Qed.

Lemma unregister_watch so conf (l l' : loader) r :
  loader_inv dl l -> unregisterServiceConfig so conf l = (r, l') ->
  forall name, name <> "" -> watch l' name = dropped_watch conf (watch l) name.
Proof.
  intros Hinv. destruct (inv_inotify dl l Hinv) as (im & Him & _). unfold unregisterServiceConfig.
  rewrite (st_bind_ok get _ l l l) by done. rewrite assert_true by (by rewrite Him; apply bool_decide_eq_true_2).
  destruct (String.eqb_spec conf "") as [-> | Hc].
  { intros [= _ <-] name Hn. unfold dropped_watch. by rewrite decide_False. }
  destruct (on_inotify (im_goodbyeConfig conf) l) as [r1 l1] eqn:Eg. intros Hrun name _.
  rewrite <- (goodbye_watch conf l l1 r1 Hinv Hc Eg name). revert Hrun.
  cbv [mbind st_bind]. rewrite Eg. destruct r1; [| by intros [= _ <-]]. cbn.
  destruct (services_ l1 !! so); by intros [= _ <-].
Qed.

Lemma loadServiceConfigs_inotify so h i conf (l l' : loader) r s o :
  services_ l !! so = Some s -> instance s = Some o -> loadServiceConfigs read_json so h i conf l = (r, l') ->
  inotify_mgr_ l' = inotify_mgr_ l.
Proof.
  intros Hs Ho. unfold loadServiceConfigs. cbv [mbind st_bind lift get].
  destruct (ASSERT (negb _)); [| by intros [= _ <-]]. destruct (ASSERT (0 <? i)); [| by intros [= _ <-]].
  rewrite Hs, Ho. unfold on_service. destruct (onConfigUpdate _ _ _ _). by intros [= _ <-].
Qed.

Lemma register_watch so h i conf (l l' : loader) :
  loader_inv dl l -> is_Some (loaded l !! so) -> loadable dl json_null read_json so h i conf ->
  registerServiceConfig read_json so h i conf l = (Ok tt, l') ->
  forall name, name <> "" -> watch l' name = added_watch conf (mkConfigCb (view_of so) h i) (watch l) name.
Proof.
  intros Hinv Hso Hl. destruct (inv_inotify dl l Hinv) as (im & Him & Himinv). unfold registerServiceConfig.
  rewrite (st_bind_ok get _ l l l) by done. rewrite assert_true by (by rewrite Him; apply bool_decide_eq_true_2).
  rewrite assert_true by (rewrite negb_true_iff, bool_decide_eq_false; apply Hl).
  rewrite assert_true by (apply Z.ltb_lt, Hl).
  destruct (String.eqb_spec conf "") as [-> | Hc].
  { intros [= <-] name Hn. unfold added_watch. by rewrite decide_False. }
  destruct (im_watch_law conf (mkConfigCb (view_of so) h i) im Hc Himinv) as (im' & Hw & _ & Hcb & Hrest).
  erewrite st_bind_ok; [| unfold on_inotify; by rewrite Him, Hw]. cbn [negb].
  intros Hrun name _. transitivity (im_callback im' name).
  2: { unfold watch, added_watch. rewrite Him. cbn. case_decide as Heq; [by subst | by apply Hrest]. }
  apply loaded_lookup in Hso as [s Es]. destruct (inv_services dl l Hinv so s Es) as (_ & (o & Ho & _) & _).
  revert Hrun. cbv [mbind st_bind]. destruct (loadServiceConfigs _ _ _ _ _ _) as [[[] | e] l2] eqn:E2; [| done].
  eapply loadServiceConfigs_inotify in E2; [| exact Es | exact Ho]. cbn. destruct (services_ l2 !! so); [| done].
  intros [= <-]. unfold watch. cbn. by rewrite E2.
Qed.

Lemma register_program_inotify so name h i (l l' : loader) r :
  register_program so name h i l = (r, l') -> inotify_mgr_ l' = inotify_mgr_ l.
Proof.
  unfold register_program. cbv [mbind st_bind lift get]. destruct (chain_mgr_ l) eqn:Ec; [| by intros [= _ <-]].
  destruct (getService so l) as [o |]; [| by intros [= _ <-]].
  destruct (getCanonicalName h PROGRAM name); [| by intros [= _ <-]].
  destruct (0 <=? getMainProgFd o); [| by intros [= _ <-]]. unfold on_chain. rewrite Ec.
  destruct (chain_insertProg _ _ _ _ _) as [[] ?]; by intros [= _ <-].
Qed.

Lemma load_watch so h i conf (l l' : loader) r :
  loader_inv dl l -> loadable dl json_null read_json so h i conf ->
  loadService dl json_null read_json so h i conf l = (r, l') ->
  forall name, name <> "" ->
    watch l' name = match loaded l !! so with
                    | Some _ => watch l name
                    | None => added_watch conf (mkConfigCb (view_of so) h i) (watch l) name
                    end.
Proof.
  intros Hinv Hl Hrun name Hn. destruct (loaded l !! so) as [v |] eqn:Ev.
  { destruct (load_refused dl json_null read_json so h i conf l v Hinv Hl Ev) as (o & Hr & _).
    rewrite Hr in Hrun. by injection Hrun as _ <-. }
  destruct (Hl) as [_ _ _ (s & Hdl & s1 & Hs & _ & Hserv & Hacc) Hpath].
  destruct (with_service_inv dl so h i l s s1 Hinv Hdl Hs Hserv) as [Hinv1 Hld1].
  rewrite (load_unfold dl json_null read_json so h i conf l s s1) in Hrun by done.
  set (l1 := with_service so (fresh_service so h i s1) l) in *.
  destruct (configure_runs dl json_null read_json so h i conf s s1 l1 Hl Hdl Hs Hserv Hacc) as (s2 & l2 & Hc & _);
    [apply lookup_insert_eq | done |].
  change (mkService true (Some s1) (getName s1) so "" h i) with (fresh_service so h i s1) in Hc.
  erewrite st_bind_ok in Hrun by done. apply register_program_inotify in Hrun. rewrite (watch_same _ _ Hrun name).
  revert Hc. unfold configure. destruct Hpath as [[-> ->] | [-> ->]].
  - unfold on_service, added_watch. destruct (onConfigUpdate _ _ _ _). intros [= _ <-]. by rewrite decide_False.
  - intros Hreg. refine (register_watch so h i conf l1 l2 Hinv1 _ Hl Hreg name Hn).
    fold l1 in Hld1. by rewrite Hld1, lookup_insert_eq.
Qed.

Lemma unload_watch so (l l' : loader) r :
  loader_inv dl l -> unloadServices so l = (r, l') ->
  forall name, name <> "" ->
    watch l' name = match loaded l !! so with Some v => dropped_watch v.2 (watch l) name | None => watch l name end.
Proof.
  intros Hinv Hrun name Hn. destruct (inv_inotify dl l Hinv) as (im & Him & _). revert Hrun. unfold unloadServices.
  rewrite (st_bind_ok get _ l l l) by done. rewrite assert_true by (by rewrite Him; apply bool_decide_eq_true_2).
  unfold loaded at 1. rewrite lookup_fmap. destruct (services_ l !! so) as [s |] eqn:Es; cbn [fmap option_fmap option_map];
    [| by intros [= _ <-]].
  destruct (drop_registration dl so s l Hinv Es) as (l1 & s1 & Hl1 & _ & _ & Es1 & _). erewrite st_bind_ok by done.
  assert (Hw : watch l1 name = dropped_watch (config s) (watch l) name).
  { revert Hl1. destruct (String.eqb_spec (config s) "") as [-> |].
    - intros [= <-]. unfold dropped_watch. by rewrite decide_False.
    - intros Hu. by eapply unregister_watch. }
  change (view s).2 with (config s). rewrite <- Hw. rewrite (st_bind_ok get _ l1 l1 l1) by done. rewrite Es1.
  destruct (instance s1) as [o |]; [| by intros [= _ <-]]. cbv [mbind st_bind modify mret st_ret throw].
  destruct (Loader.stop o) as [[[] | e] o']; [destruct (handle s1) |]; by intros [= _ <-].
Qed.

(** *** They keep the agreement *)

Lemma loaded_elsewhere (so : string) (v : service_view) (T : gmap string service_view) x : x <> so -> <[so := v]> T !! x = T !! x.
Proof. intros Hx. by rewrite lookup_insert_ne. Qed.

Lemma watched_unload so (l l' : loader) r : loader_inv dl l -> watched l -> unloadServices so l = (r, l') -> watched l'.
Proof.
  intros Hinv Hw Hrun. pose proof (unload_watch so l l' r Hinv Hrun) as Heff.
  destruct (unload_spec dl so l Hinv) as (l2 & _ & Hrun2 & _ & Hld & _). rewrite Hrun in Hrun2. simplify_eq.
  unfold watched. rewrite Hld. destruct (loaded l !! so) as [v |] eqn:Ev.
  - eapply agree_ext; [| exact Heff]. eapply agree_dropped; [exact Hw | exact Ev | |].
    + intros x Hx. by rewrite lookup_delete_ne.
    + intros v'. by rewrite lookup_delete_eq.
  - rewrite delete_id by done. by eapply agree_ext.
Qed.

Lemma watched_load so h i conf (l l' : loader) r :
  loader_inv dl l -> loadable dl json_null read_json so h i conf -> watched l ->
  (loaded l !! so = None -> unused so conf (loaded l)) ->
  loadService dl json_null read_json so h i conf l = (r, l') -> watched l'.
Proof.
  intros Hinv Hl Hw Hfree Hrun. pose proof (load_watch so h i conf l l' r Hinv Hl Hrun) as Heff.
  destruct (load_spec dl json_null read_json so h i conf l Hinv Hl) as (l2 & _ & Hrun2 & _ & Hld & _).
  rewrite Hrun in Hrun2. simplify_eq. unfold watched. rewrite Hld. unfold view_load.
  destruct (loaded l !! so) as [v |] eqn:Ev; [by eapply agree_ext |].
  eapply agree_ext; [| exact Heff]. apply agree_added; [exact Hw | by apply Hfree |]. intros v Hv. congruence.
Qed.

(** the two calls of an entry that keeps its library and gets another file *)
Lemma exchange_watch so h i old conf (l l' : loader) :
  loader_inv dl l -> loaded l !! so = Some (h, i, old) -> loadable dl json_null read_json so h i conf ->
  (_ ← unregisterServiceConfig so old; registerServiceConfig read_json so h i conf) l = (Ok tt, l') ->
  forall name, name <> "" ->
    watch l' name = added_watch conf (mkConfigCb (view_of so) h i) (dropped_watch old (watch l)) name.
Proof.
  intros Hinv Hso Hl Hrun name Hn. assert (Hin : is_Some (loaded l !! so)) by (by eexists).
  destruct (unregister_spec dl so old l Hinv Hin) as (l1 & Hu & Hinv1 & _ & Hkeep & _).
  erewrite st_bind_ok in Hrun by done. assert (Hin1 : is_Some (loaded l1 !! so)).
  { apply loaded_lookup. apply loaded_lookup in Hin as [s Es]. destruct (Hkeep s Es) as [c' Hc']. by eexists. }
  rewrite (register_watch so h i conf l1 l' Hinv1 Hin1 Hl Hrun name Hn). unfold added_watch.
  by rewrite (unregister_watch so old l l1 _ Hinv Hu name Hn).
Qed.

Lemma watched_file_exchanged so h i old conf (l l' : loader) :
  loader_inv dl l -> loaded l !! so = Some (h, i, old) -> loadable dl json_null read_json so h i conf -> watched l ->
  unused so conf (loaded l) ->
  (_ ← unregisterServiceConfig so old; registerServiceConfig read_json so h i conf) l = (Ok tt, l') -> watched l'.
Proof.
  intros Hinv Hso Hl Hw Hfree Hrun. pose proof (exchange_watch so h i old conf l l' Hinv Hso Hl Hrun) as Heff.
  assert (Hinv' : li_inv l) by exact Hinv.
  destruct (file_exchanged so h i old conf l Hinv' Hso Hl) as (l2 & Hrun2 & _ & Hld).
  assert (Heq := eq_trans (eq_sym Hrun2) Hrun). injection Heq as ->. unfold watched. change (loaded l') with (li_loaded l'). rewrite Hld.
  rewrite <- (insert_insert_eq (li_loaded l) so (h, i, conf) (h, i, "")). eapply agree_ext; [| exact Heff]. apply agree_added.
  - eapply (agree_dropped _ _ _ so (h, i, old)); [exact Hw | exact Hso | apply loaded_elsewhere |].
    intros v'. rewrite lookup_insert_eq. by intros [= <-].
  - intros x v Hx Hne. rewrite lookup_insert_ne in Hx by done. by eapply Hfree.
  - intros v. rewrite lookup_insert_eq. by intros [= <-].
Qed.

(** ** The steps of an update *)

Context (std_sort : list order_entry -> list order_entry) (std_sort_perm : forall l, std_sort l ≡ₚ l).

Lemma rebuild_inotify new (l : loader) : keeps inotify_mgr_ (rebuild_chain std_sort new) l.
Proof.
  unfold rebuild_chain. apply keeps_bind; [by destruct (hook_order_temp _ _) |]. intros m l1.
  apply keeps_for_each. intros [h v] l2. unfold update_hook_chain. cbn [fst snd]. apply keeps_bind.
  - apply keeps_for_each. intros e l3. apply keeps_bind; [| done]. cbn. unfold allocateChain.
    apply keeps_bind; [by apply keeps_on_chain | done].
  - intros [] l3. apply keeps_bind; [| done]. cbn. unfold updateProgChain. by apply keeps_on_chain.
Qed.

(** unloading a library takes its watch away and adds none *)
Lemma unload_step so (l : loader) :
  li_inv l -> so <> "" ->
  exists l', unloadEbpf so l = (Ok tt, l') /\ li_inv l' /\ li_loaded l' = delete so (li_loaded l) /\
    (watched l -> watched l') /\ forall name, name <> "" -> watch l name = None -> watch l' name = None.
Proof.
  intros Hinv Hso. destruct (li_unload_law so l Hinv) as (l' & Hu & Hinv' & Hl'). exists l'. split.
  { unfold unloadEbpf. rewrite assert_true by (by rewrite negb_true_iff; apply String.eqb_neq). by erewrite st_bind_ok by done. }
  do 2 (split; [done |]). split; [intros Hw; exact (watched_unload so l l' _ Hinv Hw Hu) |].
  intros name Hn Hnone. rewrite (unload_watch so l l' _ Hinv Hu name Hn). unfold dropped_watch.
  repeat case_match; done.
Qed.

(** loading one watches at most its own file *)
Lemma load_step so h i conf (l : loader) :
  li_inv l -> so <> "" -> li_loadable (L := loader) so h i conf ->
  exists l', loadEbpf so h i conf l = (Ok tt, l') /\ li_inv l' /\
    (watched l -> unused so conf (loaded l) -> watched l') /\
    forall name, name <> "" -> conf <> name -> watch l name = None -> watch l' name = None.
Proof.
  intros Hinv Hso Hload. destruct (li_load_law so h i conf l Hinv Hload) as (l' & Hl & Hinv' & _). exists l'. split.
  { unfold loadEbpf. rewrite assert_true by (by rewrite negb_true_iff; apply String.eqb_neq). by erewrite st_bind_ok by done. }
  split; [done |]. split; [intros Hw Hfree; exact (watched_load so h i conf l l' _ Hinv Hload Hw (fun _ => Hfree) Hl) |].
  intros name Hn Hc Hnone. rewrite (load_watch so h i conf l l' _ Hinv Hload Hl name Hn). unfold added_watch.
  by rewrite decide_False, Hnone by done; destruct (loaded l !! so).
Qed.

Lemma unload_loop_watched new xs : forall l l' : loader,
  Forall (fun kc => ConfigEbpf.getLib kc.2 <> "") xs -> li_inv l -> watched l ->
  for_each (unload_removed new) xs l = (Ok tt, l') -> watched l'.
Proof.
  induction xs as [| [k c] xs IH]; intros l l' Hxs Hinv Hw; cbn [for_each]; [by intros [= <-] |].
  apply Forall_cons in Hxs as [Hc Hxs]. cbn in Hc.
  assert (Hstep : exists l1, unload_removed new (k, c) l = (Ok tt, l1) /\ li_inv l1 /\ watched l1).
  { unfold unload_removed. cbn [fst snd]. destruct (new !! k); [by exists l |].
    destruct (unload_step (ConfigEbpf.getLib c) l Hinv Hc) as (l1 & ? & ? & _ & ? & _). eauto. }
  destruct Hstep as (l1 & Hr & Hinv1 & Hw1). erewrite st_bind_ok by done. by apply IH.
Qed.

(** no file goes from one library to another, and no two libraries have the
    same one *)
Definition files_apart (old new : EbpfMap) : Prop :=
  forall k1 k2 c1 c2, old !! k1 = Some c1 \/ new !! k1 = Some c1 -> new !! k2 = Some c2 ->
    ConfigEbpf.getConfig c1 = ConfigEbpf.getConfig c2 -> ConfigEbpf.getConfig c2 <> "" ->
    ConfigEbpf.getLib c1 = ConfigEbpf.getLib c2.

(** the daemon's own entries have no file *)
Lemma scheduler_no_file m k c : with_schedulers m !! k = Some c -> ConfigEbpf.getConfig c <> "" -> m !! k = Some c.
Proof. intros Hk Hc. by apply with_schedulers_spec in Hk as [Hk | (_ & h & i & _ & _ & ->)]. Qed.

Section Update.
Context (old new : EbpfMap) (t1 : gmap string service_view).
Context (Hold : config_ok (li_loadable (L := loader)) old) (Hnew : config_ok (li_loadable (L := loader)) new)
  (Hstay : libs_stay old new).
Abbreviation moving := (loading (with_schedulers old) (with_schedulers new) t1).

(** what is loaded half way through comes from one of the two tables *)
Lemma moving_view before (l : loader) x (v : service_view) :
  moving before l -> (forall k c, (k, c) ∈ before -> with_schedulers new !! k = Some c) ->
  li_loaded l !! x = Some v -> v.2 <> "" ->
  exists k c, (old !! k = Some c \/ new !! k = Some c) /\ ConfigEbpf.getLib c = x /\ ConfigEbpf.getConfig c = v.2.
Proof.
  intros Hl Hbefore Hv Hc. destruct (no_char ";" x) eqn:Ex.
  2: { destruct (ld_sched _ _ _ _ _ Hl x v Ex Hv) as (h & i & _ & ->). done. }
  destruct (ld_plain _ _ _ _ _ Hl x Ex) as [(k & c & Hin & Hlib) | (k & c & cc & Hk & Hnin & Hcc & Hlib)]; [by eexists | |].
  - pose proof (ld_done _ _ _ _ _ Hl k c Hin) as Hd. rewrite Hlib, Hv in Hd. injection Hd as ->.
    exists k, c. split; [right | done]. by apply scheduler_no_file; [apply Hbefore |].
  - pose proof (ld_todo _ _ _ _ _ Hl k c cc Hk Hnin Hcc) as Hd. rewrite Hlib, Hv in Hd. injection Hd as ->.
    exists k, cc. split; [left | done]. by apply scheduler_no_file.
Qed.

Lemma moving_unused before (l : loader) k c :
  files_apart old new -> moving before l -> (forall k c, (k, c) ∈ before -> with_schedulers new !! k = Some c) ->
  with_schedulers new !! k = Some c -> unused (ConfigEbpf.getLib c) (ConfigEbpf.getConfig c) (loaded l).
Proof.
  intros Hapart Hl Hbefore Hk x v Hv Hne Hc Heq.
  destruct (moving_view before l x v Hl Hbefore Hv) as (k' & c' & Hk' & Hlib & Hconf); [congruence |].
  apply Hne. rewrite <- Hlib. eapply Hapart; [exact Hk' | by eapply scheduler_no_file | congruence | done].
Qed.

(** one entry of the loading loop: the agreement is kept, and a file that is
    not watched stays so unless it is the entry's own *)
Lemma entry_watches before (l l' : loader) k c :
  moving before l -> with_schedulers new !! k = Some c -> (k, c) ∉ before ->
  (forall k c, (k, c) ∈ before -> with_schedulers new !! k = Some c) ->
  load_entry (with_schedulers old) (k, c) l = (Ok tt, l') ->
  (files_apart old new -> watched l -> watched l') /\
  (forall name, name <> "" -> ConfigEbpf.getConfig c <> name -> watch l name = None -> watch l' name = None).
Proof.
  intros Hl Hk Hnotin Hbefore. pose proof (ld_inv _ _ _ _ _ Hl) as Hinv.
  destruct (ws_entry _ new k c Hnew Hk) as (Hlib & _ & _ & Hload & _).
  assert (Hfree : files_apart old new -> unused (ConfigEbpf.getLib c) (ConfigEbpf.getConfig c) (loaded l))
    by (intros; by eapply moving_unused).
  unfold load_entry. cbn [fst snd]. destruct (with_schedulers old !! k) as [cc |] eqn:Ecc.
  2: { destruct (load_step _ _ _ _ l Hinv Hlib Hload) as (l1 & Hr & _ & Hw & Hnone). rewrite Hr. intros [= <-]. eauto. }
  destruct (ws_entry _ old k cc Hold Ecc) as (Hlibc & _). case_match eqn:Ech.
  - destruct (unload_step (ConfigEbpf.getLib cc) l Hinv Hlibc) as (l1 & Hu & Hinv1 & Hld1 & Hw1 & Hn1).
    destruct (load_step _ _ _ _ l1 Hinv1 Hlib Hload) as (l2 & Hr & _ & Hw2 & Hn2).
    erewrite st_bind_ok by done. rewrite Hr. intros [= <-]. split; [| eauto]. intros Ha Hw. apply Hw2; [by apply Hw1 |].
    intros x v Hx. change (loaded l1) with (li_loaded l1) in Hx. rewrite Hld1 in Hx. apply lookup_delete_Some in Hx as [_ Hx].
    by apply (Hfree Ha).
  - apply orb_false_iff in Ech as [Ech Hif]. apply orb_false_iff in Ech as [Hlb Hhk].
    apply negb_false_iff, String.eqb_eq in Hlb. apply negb_false_iff, Z.eqb_eq in Hif.
    apply bool_decide_eq_false, dec_stable in Hhk. case_match; [| by intros [= <-]].
    pose proof (ld_todo _ _ _ _ _ Hl k c cc Hk Hnotin Ecc) as Hthere. unfold entry_view in Hthere. rewrite Hlb, Hhk, Hif in Hthere.
    rewrite Hlb. intros Hrun. split.
    + intros Ha Hw. refine (watched_file_exchanged _ _ _ _ _ l l' Hinv Hthere Hload Hw (Hfree Ha) Hrun).
    + intros name Hn Hc Hnone. rewrite (exchange_watch _ _ _ _ _ l l' Hinv Hthere Hload Hrun name Hn).
      unfold added_watch, dropped_watch. rewrite decide_False by done. by case_decide.
Qed.

(** the loop of [update] that loads and changes entries, from the state in
    which the chains are rebuilt and the removed programs are gone *)
Lemma loads_begin (d : Daemon loader) :
  daemon_ok old d -> t1 = li_loaded (loader_ d) ->
  exists l2, reconcile std_sort (current_ebpf_ d) new (loader_ d) =
      for_each (load_entry (with_schedulers old)) (uiter (with_schedulers new)) l2 /\
    moving [] l2 /\ (watched (loader_ d) -> watched l2).
Proof.
  intros Hd ->. unfold reconcile. rewrite (dk_current _ _ Hd), without_with_schedulers by apply Hold.
  set (m := if negb (Configs.ebpfs_eqb new old) then rebuild_chain std_sort new else mret tt).
  assert (Hm : succeeds (has_loaded (li_loaded (loader_ d))) m (fun _ => has_loaded (li_loaded (loader_ d)))).
  { unfold m. destruct (negb _); [| by apply (succeeds_ret tt (fun _ => _))].
    apply rebuild_chain_spec; [done |]. intros k c Hk. by apply (ok_entries _ _ Hnew k). }
  assert (Hkeep : keeps inotify_mgr_ m (loader_ d)) by (unfold m; destruct (negb _); [apply rebuild_inotify | done]).
  destruct (Hm (loader_ d)) as ([] & l1 & H1 & Hl1); [by split; [apply Hd |] |]. unfold keeps in Hkeep. rewrite H1 in Hkeep.
  assert (Hlibs : map_Forall (fun _ c => ConfigEbpf.getLib c ≠ "") old) by (intros k c Hk; by apply (ok_entries _ _ Hold k)).
  destruct (unload_removed_all new old (li_loaded (loader_ d)) Hlibs l1 Hl1) as ([] & l2 & H2 & Hl2).
  exists l2. split; [by do 2 erewrite st_bind_ok by done |]. split; [by apply after_unload_loading |].
  intros Hw. refine (unload_loop_watched new (uiter old) l1 l2 _ (proj1 Hl1) _ H2).
  - by apply uiter_map_Forall in Hlibs.
  - eapply agree_ext; [| intros name _; by apply watch_same]. destruct Hl1 as [_ Hld].
    change (loaded l1) with (li_loaded l1). rewrite Hld. exact Hw.
Qed.

(** what holds before the loop and of each of its steps holds at the end *)
Lemma update_loop (P : list (string * ConfigEbpf.t) -> loader -> Prop) (config : Configs.t) (d : Daemon loader) :
  Configs.getEbpfs config = new -> daemon_ok old d -> t1 = li_loaded (loader_ d) ->
  (forall l, (watched (loader_ d) -> watched l) -> P [] l) ->
  (forall before k c after l l', uiter (with_schedulers new) = before ++ (k, c) :: after -> moving before l ->
     with_schedulers new !! k = Some c -> (k, c) ∉ before ->
     (forall k c, (k, c) ∈ before -> with_schedulers new !! k = Some c) -> P before l ->
     load_entry (with_schedulers old) (k, c) l = (Ok tt, l') -> P (before ++ [(k, c)]) l') ->
  exists d', update std_sort config d = (Ok tt, d') /\ daemon_ok new d' /\ P (uiter (with_schedulers new)) (loader_ d').
Proof.
  intros Hcfg Hd Ht H0 Hstep. destruct (update_spec std_sort std_sort_perm old config d) as (d' & Hrun & Hd' & _);
    [done | by rewrite Hcfg | by rewrite Hcfg | done |]. rewrite Hcfg in Hd'. exists d'. do 2 (split; [done |]).
  destruct (loads_begin d Hd Ht) as (l2 & Heq & Hl2 & Hw2).
  set (Inv := fun before l => moving before l /\ P before l).
  destruct (succeeds_for_each Inv (load_entry (with_schedulers old)) (uiter (with_schedulers new))) with (s := l2)
    as ([] & l' & Hrun' & _ & HP); [| by split; [| apply H0] |].
  - intros before [k c] after Hu l [Hl HP].
    assert (Hnd : NoDup (uiter (with_schedulers new))) by (rewrite uiter_perm; apply NoDup_map_to_list).
    assert (Hsub : forall k c, (k, c) ∈ uiter (with_schedulers new) -> with_schedulers new !! k = Some c)
      by (intros k' c' Hin; rewrite uiter_perm in Hin; by apply elem_of_map_to_list).
    rewrite Hu in Hnd, Hsub. apply NoDup_app in Hnd as (_ & Hdis & _).
    assert (Hk : with_schedulers new !! k = Some c) by (apply Hsub, elem_of_app; right; left).
    assert (Hnotin : (k, c) ∉ before) by (intros Hin; apply (Hdis _ Hin); left).
    assert (Hbefore : forall k c, (k, c) ∈ before -> with_schedulers new !! k = Some c)
      by (intros k' c' Hin; apply Hsub, elem_of_app; by left).
    destruct (between_step old new t1 Hold Hnew Hstay before k c l Hl Hk Hnotin Hbefore) as (l1 & Hr & Hl1).
    exists tt, l1. split; [done |]. split; [done | by eapply Hstep].
  - rewrite <- Heq in Hrun'. unfold update in Hrun. rewrite (st_bind_ok get _ d d d) in Hrun by done.
    rewrite Hcfg in Hrun. erewrite st_bind_ok in Hrun; [| unfold on_loader; by rewrite Hrun'].
    by injection Hrun as <-.
Qed.

(** an entry that keeps its library and gives up its file *)
Lemma given_up_watch before (l l' : loader) k c cc :
  moving before l -> with_schedulers new !! k = Some c -> with_schedulers old !! k = Some cc -> (k, c) ∉ before ->
  ConfigEbpf.getLib c = ConfigEbpf.getLib cc -> ConfigEbpf.getHook c = ConfigEbpf.getHook cc ->
  ConfigEbpf.getIfindex c = ConfigEbpf.getIfindex cc -> ConfigEbpf.getConfig c <> ConfigEbpf.getConfig cc ->
  ConfigEbpf.getConfig cc <> "" -> load_entry (with_schedulers old) (k, c) l = (Ok tt, l') ->
  watch l' (ConfigEbpf.getConfig cc) = None.
Proof.
  intros Hl Hk Ecc Hnotin Hlib Hhook Hif Hconf Hne. pose proof (ld_inv _ _ _ _ _ Hl) as Hinv.
  destruct (ws_entry _ new k c Hnew Hk) as (_ & _ & _ & Hload & _).
  pose proof (ld_todo _ _ _ _ _ Hl k c cc Hk Hnotin Ecc) as Hthere.
  unfold load_entry. cbn [fst snd]. rewrite Ecc, <- Hlib, Hhook, Hif, String.eqb_refl, Z.eqb_refl, bool_decide_eq_false_2 by auto.
  cbn [negb orb]. destruct (String.eqb_spec (ConfigEbpf.getConfig cc) (ConfigEbpf.getConfig c)) as [| _]; [congruence |].
  cbn [negb]. rewrite <- Hhook, <- Hif. intros Hrun.
  rewrite <- Hlib in Hthere. unfold entry_view in Hthere. rewrite <- Hhook, <- Hif in Hthere.
  rewrite (exchange_watch _ _ _ _ _ l l' Hinv Hthere Hload Hrun (ConfigEbpf.getConfig cc) Hne).
  unfold added_watch, dropped_watch. by rewrite decide_False, decide_True.
Qed.

End Update.

(** ** Whole updates *)

Fixpoint configurations_apart (old : EbpfMap) (l : list Configs.t) : Prop :=
  match l with
  | [] => True
  | config :: l =>
      let new := Configs.getEbpfs config in
      config_ok (li_loadable (L := loader)) new /\ libs_stay old new /\ files_apart old new /\ configurations_apart new l
  end.

Lemma update_watched old config (d : Daemon loader) :
  config_ok (li_loadable (L := loader)) old -> config_ok (li_loadable (L := loader)) (Configs.getEbpfs config) ->
  libs_stay old (Configs.getEbpfs config) -> files_apart old (Configs.getEbpfs config) ->
  daemon_ok old d -> watched (loader_ d) ->
  exists d', update std_sort config d = (Ok tt, d') /\ daemon_ok (Configs.getEbpfs config) d' /\ watched (loader_ d').
Proof.
  intros Hold Hnew Hstay Hapart Hd Hw. set (new := Configs.getEbpfs config) in *.
  destruct (update_loop old new (li_loaded (loader_ d)) Hold Hnew Hstay (fun _ => watched) config d)
    as (d' & Hrun & Hd' & Hw'); [done | done | done | by auto | | by exists d'].
  intros before k c after l l' _ Hl Hk Hnotin Hbefore Hwl Hrun.
  destruct (entry_watches old new (li_loaded (loader_ d)) Hold Hnew before l l' k c) as [Hkeep _]; auto.
Qed.

Lemma updates_watched l : forall old (d : Daemon loader),
  config_ok (li_loadable (L := loader)) old -> configurations_apart old l -> daemon_ok old d -> watched (loader_ d) ->
  exists d', for_each (update std_sort) l d = (Ok tt, d') /\
    config_ok (li_loadable (L := loader)) (default old (last (Configs.getEbpfs <$> l))) /\
    daemon_ok (default old (last (Configs.getEbpfs <$> l))) d' /\ watched (loader_ d').
Proof.
  induction l as [| config l IH]; intros old d Hold Hl Hd Hw; [by exists d |]. destruct Hl as (Hnew & Hstay & Hapart & Hl).
  destruct (update_watched old config d Hold Hnew Hstay Hapart Hd Hw) as (d1 & Hr & Hd1 & Hw1).
  destruct (IH _ d1 Hnew Hl Hd1 Hw1) as (d' & Hrun & H'). exists d'. split; [cbn [for_each]; by erewrite st_bind_ok by done |].
  rewrite fmap_cons, last_cons. by destruct (last (Configs.getEbpfs <$> l)).
Qed.

(** the agreement, in the words of the program table *)
Lemma watched_table base (d : Daemon loader) name cb :
  config_ok (li_loadable (L := loader)) base -> daemon_ok base d -> watched (loader_ d) -> name <> "" ->
  watch (loader_ d) name = Some cb <-> exists k c, base !! k = Some c /\ ConfigEbpf.getConfig c = name /\
    cb = mkConfigCb (view_of (ConfigEbpf.getLib c)) (ConfigEbpf.getHook c) (ConfigEbpf.getIfindex c).
Proof.
  intros Hok Hd Hw Hn. rewrite (Hw name cb Hn). split.
  - intros Ht. destruct (no_char ";" (viewed (cb_so_path cb))) eqn:Ex.
    2: { destruct (dk_sched _ _ Hd _ _ Ex Ht) as (h & i & _ & [= _ _ ->]). done. }
    destruct (dk_plain _ _ Hd _ Ex) as (k & c & Hk & Hlib); [by eexists |]. exists k, c. split; [done |].
    pose proof (dk_loaded _ _ Hd k c (proj2 (with_schedulers_spec base k c) (or_introl Hk))) as Hc.
    rewrite Hlib in Hc. pose proof (eq_trans (eq_sym Ht) Hc) as Hv. injection Hv as Hh Hi Hcf. split; [done |]. rewrite Hlib, <- Hh, <- Hi. by destruct cb as [[]].
  - intros (k & c & Hk & <- & ->). apply (dk_loaded _ _ Hd k). apply with_schedulers_spec. by left.
Qed.

(** C11: the watches follow the program table, under these conditions.  Every
    table given can be brought up: names and library paths without [;], known
    hooks, positive interfaces, each library loadable with its file and used
    by one entry only.  A library in use goes to an entry of another name only
    when its old entry is gone from the new table.  No file is used by two
    libraries, in one table or in two successive ones.  Then, from a daemon
    whose watches are those of its table, no update throws, and afterwards a
    file has a callback exactly when the last table has an entry with that
    file: the closure made for this entry, with a view of its library's path,
    its hook and its interface.  (What the closure does when the file changes
    depends on what the view reads by then.) *)
Theorem watches_follow_updates (base : EbpfMap) (l : list Configs.t) (d : Daemon loader)
  (Hbase : config_ok (li_loadable (L := loader)) base) (Hl : configurations_apart base l) (Hd : daemon_ok base d)
  (Hwatched : watched (loader_ d)) :
  exists d', for_each (update std_sort) l d = (Ok tt, d') /\ forall name cb, name <> "" ->
    watch (loader_ d') name = Some cb <->
    exists k c, default base (last (Configs.getEbpfs <$> l)) !! k = Some c /\ ConfigEbpf.getConfig c = name /\
      cb = mkConfigCb (view_of (ConfigEbpf.getLib c)) (ConfigEbpf.getHook c) (ConfigEbpf.getIfindex c).
Proof.
  destruct (updates_watched l base d Hbase Hl Hd Hwatched) as (d' & Hrun & Hok & Hd' & Hw').
  exists d'. split; [done |]. intros name cb Hname. by apply watched_table.
Qed.

(** C39: a file that is handed over is not watched any more.  In one update an
    entry gives up its file, keeping library, hook and interface, and another
    entry that comes earlier in the iteration takes it.  The second
    registration finds the path watched and changes nothing, and then the
    first entry's registration is removed: the update succeeds, the library of
    the taking entry is loaded with the file, and no event on the file is
    followed. *)
Theorem handed_over_file_unwatched (old : EbpfMap) (config : Configs.t) (d : Daemon loader) (file : string)
  (before after : list (string * ConfigEbpf.t)) (ka kb : string) (ca cb cb' : ConfigEbpf.t)
  (Hold : config_ok (li_loadable (L := loader)) old) (Hnew : config_ok (li_loadable (L := loader)) (Configs.getEbpfs config))
  (Hstay : libs_stay old (Configs.getEbpfs config)) (Hd : daemon_ok old d) (Hfile : file <> "")
  (Hka : Configs.getEbpfs config !! ka = Some ca) (Htakes : ConfigEbpf.getConfig ca = file)
  (Hkb : old !! kb = Some cb) (Hhad : ConfigEbpf.getConfig cb = file)
  (Hsame : ConfigEbpf.getLib cb' = ConfigEbpf.getLib cb /\ ConfigEbpf.getHook cb' = ConfigEbpf.getHook cb /\
     ConfigEbpf.getIfindex cb' = ConfigEbpf.getIfindex cb)
  (Hgives : ConfigEbpf.getConfig cb' <> file)
  (Horder : uiter (with_schedulers (Configs.getEbpfs config)) = before ++ (kb, cb') :: after)
  (Hlater : Forall (fun kc => ConfigEbpf.getConfig kc.2 <> file) after) :
  exists d', update std_sort config d = (Ok tt, d') /\
    li_loaded (loader_ d') !! ConfigEbpf.getLib ca = Some (ConfigEbpf.getHook ca, ConfigEbpf.getIfindex ca, file) /\
    watch (loader_ d') file = None.
Proof.
  set (new := Configs.getEbpfs config) in *.
  set (P := fun (bf : list (string * ConfigEbpf.t)) (l : loader) => (kb, cb') ∈ bf -> watch l file = None).
  destruct (update_loop old new (li_loaded (loader_ d)) Hold Hnew Hstay P config d) as (d' & Hrun & Hd' & HP); try done.
  - intros l _ Hin. by apply not_elem_of_nil in Hin.
  - intros bf k c af l l' Hu Hl Hk Hnotin Hbefore HP Hrun Hin.
    destruct (entry_watches old new (li_loaded (loader_ d)) Hold Hnew bf l l' k c) as [_ Hstays]; try done.
    apply elem_of_app in Hin as [Hin | [= <- <-]%list_elem_of_singleton].
    + apply Hstays; [done | | by apply HP].
      assert (Haf : (k, c) ∈ after).
      { assert (Hsplit : (k, c) ∉ before ++ [(kb, cb')]).
        { eapply later_not_earlier; [| exact Horder | exact Hu | exact Hin]. rewrite uiter_perm. apply NoDup_map_to_list. }
        assert (Hall : (k, c) ∈ before ++ [(kb, cb')] ++ after) by (cbn; rewrite <- Horder, Hu; set_solver).
        rewrite app_assoc in Hall. by apply elem_of_app in Hall as [|]. }
      by rewrite Forall_forall in Hlater; apply (Hlater _ Haf).
    + destruct Hsame as (? & ? & ?). rewrite <- Hhad.
      assert (Hcb : with_schedulers old !! kb = Some cb) by (apply with_schedulers_spec; by left).
      eapply (given_up_watch old new); [exact Hnew | exact Hl | exact Hk | exact Hcb | | | | | | | exact Hrun]; congruence.
  - exists d'. split; [done |]. split.
    + rewrite <- Htakes. apply (dk_loaded _ _ Hd' ka). apply with_schedulers_spec. by left.
    + apply HP. rewrite Horder. set_solver.
Qed.

End Watches.

(** ** Concrete runs *)

Module Sample.

Import Loader.Sample.
#[local] Existing Instance Daemon.Sample.order_hook.

Definition program (lib conf : string) : ConfigEbpf.t := ConfigEbpf.mk lib conf TC 11 1.
Definition acl (conf : string) : ConfigEbpf.t := program "/lib/libhebpf_acl.so" conf.
Definition lb (conf : string) : ConfigEbpf.t := program "/lib/libhebpf_lb.so" conf.
Definition pair (file_acl file_lb : string) : EbpfMap := <[ "acl" := acl file_acl ]> {[ "lb" := lb file_lb ]}.
Definition config (m : EbpfMap) : Configs.t := Configs.setEbpfs m Configs.default.

Lemma two_files_entry f g k c : pair f g !! k = Some c -> (k = "acl" /\ c = acl f) \/ (k = "lb" /\ c = lb g).
Proof.
  unfold pair. intros [[<- <-] | [_ [<- <-]%lookup_singleton_Some]]%lookup_insert_Some; [by left | by right].
Qed.

Lemma program_loadable lib conf :
  real_path lib = lib -> is_scheduler_lib lib = false -> lib <> "" -> li_loadable (L := loader) lib TC 11 conf.
Proof.
  intros Hreal Hplain Hne. split; [done | done | lia | |].
  - exists 7%nat. split; [done |]. by exists 7%nat.
  - right. by rewrite Hreal.
Qed.

Lemma pair_ok f g : config_ok (li_loadable (L := loader)) (pair f g).
Proof.
  split; [split; intros k c [[-> ->] | [-> ->]]%two_files_entry; try done |].
  - split; [by apply program_loadable | by apply Daemon.Sample.scheduler_loadable].
  - split; [by apply program_loadable | by apply Daemon.Sample.scheduler_loadable].
  - intros k1 k2 c1 c2 [[-> ->] | [-> ->]]%two_files_entry [[-> ->] | [-> ->]]%two_files_entry; done.
Qed.

Lemma pair_stays f g f' g' : libs_stay (pair f g) (pair f' g').
Proof. intros k1 k2 c1 c2 [[-> ->] | [-> ->]]%two_files_entry [[-> ->] | [-> ->]]%two_files_entry; done. Qed.

Lemma fresh_watched : watched (loader_ Daemon.Sample.fresh).
Proof. by intros name cb _. Qed.

Lemma files_at_first f g : f <> g -> files_apart ∅ (pair f g).
Proof.
  intros Hne k1 k2 c1 c2 [Hk | Hk]; [by rewrite lookup_empty in Hk |].
  apply two_files_entry in Hk as [[-> ->] | [-> ->]]; intros [[-> ->] | [-> ->]]%two_files_entry; cbn; congruence.
Qed.

Lemma files_later f g f' g' : f' <> g' -> f <> g' -> g <> f' -> files_apart (pair f g) (pair f' g').
Proof.
  intros H1 H2 H3 k1 k2 c1 c2 [Hk | Hk]; apply two_files_entry in Hk as [[-> ->] | [-> ->]];
    intros [[-> ->] | [-> ->]]%two_files_entry; cbn; congruence.
Qed.

(** the programs are started with their files, then the ACL is given another
    one: that one has its callback, and the first one none *)
Lemma watches_follow_updates_witness :
  exists d', for_each (update Daemon.Sample.sort) [config (pair "acl.json" "lb.json"); config (pair "acl2.json" "lb.json")]
      Daemon.Sample.fresh = (Ok tt, d') /\
    watch (loader_ d') "acl2.json" = Some (mkConfigCb (view_of "/lib/libhebpf_acl.so") TC 11) /\
    watch (loader_ d') "acl.json" = None.
Proof.
  destruct (watches_follow_updates dl 0%nat read_json Daemon.Sample.sort Daemon.Sample.sort_perm ∅
    [config (pair "acl.json" "lb.json"); config (pair "acl2.json" "lb.json")] Daemon.Sample.fresh) as (d' & Hrun & Hw).
  - exact Daemon.Sample.none_ok.
  - split; [apply pair_ok |]. split; [apply Daemon.Sample.stays_from_none |]. split; [by apply files_at_first |].
    split; [apply pair_ok |]. split; [apply pair_stays |]. split; [by apply files_later | exact Logic.I].
  - exact Daemon.Sample.fresh_ok.
  - exact fresh_watched.
  - exists d'. split; [exact Hrun |]. split.
    + apply Hw; [discriminate |]. exists "acl", (acl "acl2.json"). repeat split.
    + destruct (watch (loader_ d') "acl.json") as [cb |] eqn:Ecb; [| reflexivity].
      apply Hw in Ecb; [| discriminate]. destruct Ecb as (k & c & Hk & Hc & _).
      apply two_files_entry in Hk as [[-> ->] | [-> ->]]; discriminate Hc.
Defined.

Lemma pair_running f g : exists d : Daemon loader, daemon_ok (pair f g) d.
Proof.
  destruct (update_spec Daemon.Sample.sort Daemon.Sample.sort_perm ∅ (config (pair f g)) Daemon.Sample.fresh
    Daemon.Sample.none_ok (pair_ok f g) (Daemon.Sample.stays_from_none _) Daemon.Sample.fresh_ok) as (d & _ & Hd & _).
  by exists d.
Qed.

(** the two programs swap their files: one of them is followed no more *)
Lemma handed_over_file_unwatched_witness :
  exists d d' : Daemon loader, daemon_ok (pair "a.json" "b.json") d /\
    update Daemon.Sample.sort (config (pair "b.json" "a.json")) d = (Ok tt, d') /\
    li_loaded (loader_ d') !! "/lib/libhebpf_acl.so" = Some (TC, 11, "b.json") /\ watch (loader_ d') "b.json" = None.
Proof.
  destruct (pair_running "a.json" "b.json") as (d & Hd). exists d.
  destruct (handed_over_file_unwatched dl 0%nat read_json Daemon.Sample.sort Daemon.Sample.sort_perm (pair "a.json" "b.json")
    (config (pair "b.json" "a.json")) d "b.json" [(scheduler_id TC 11, scheduler_entry TC 11); ("acl", acl "b.json")] []
    "acl" "lb" (acl "b.json") (lb "b.json") (lb "a.json")) as (d' & Hrun & Hld & Hw).
  - apply pair_ok.
  - apply pair_ok.
  - apply pair_stays.
  - exact Hd.
  - discriminate.
  - reflexivity.
  - reflexivity.
  - reflexivity.
  - reflexivity.
  - repeat split.
  - discriminate.
  - vm_compute. reflexivity.
  - repeat constructor; discriminate.
  - exists d'. split; [exact Hd | split; [exact Hrun | split; [exact Hld | exact Hw]]].
Defined.

End Sample.
