(* ===== verification/Pipeline.v ===== *)
(** * From the services' reports to the counters

    The producer thread of the daemon finds the statuses of the loaded services
    ([Daemon.round_statuses]) and pushes each one into the queue ([Queue.v]),
    unless there is no queue or it is full; the queue's consumer adds them to
    the counters of the monitor ([Metrics.v]): the three together, under every
    interleaving of their threads. *)

From S2P Require Import Prelude Configs Names Json Net Monitor Metrics Queue Loader Daemon.

#[local] Open Scope string_scope.
#[local] Open Scope Z_scope.
#[local] Open Scope list_scope.

(** ** Values on their way into the queue *)

Section Pushing.
Context {T : Type}.

Definition push_value (p : pc T) : option T :=
  match p with PushWant v | PushTest v | PushSleep v | PushWait v | PushIn v => Some v | _ => None end.

(** what the threads have still to push *)
Definition pushing (s : Queue T) : list T := omap push_value (threads s).

Lemma push_insert (l : list (pc T)) t p q :
  l !! t = Some p -> option_list (push_value p) ++ omap push_value (<[t := q]> l) ≡ₚ option_list (push_value q) ++ omap push_value l.
Proof.
  revert t. induction l as [| x l IH]; intros t Ht; [done |]. destruct t as [| t]; cbn in *.
  - injection Ht as ->. destruct (push_value p) as [v |], (push_value q) as [w |]; cbn; (done || apply Permutation_swap).
  - specialize (IH t Ht). destruct (push_value x) as [u |]; [| exact IH].
    rewrite <- !Permutation_middle. by rewrite IH.
Qed.

Lemma push_same (l : list (pc T)) t p q :
  l !! t = Some p -> push_value q = push_value p -> omap push_value (<[t := q]> l) ≡ₚ omap push_value l.
Proof. intros Ht Hq. pose proof (push_insert l t p q Ht) as H. rewrite Hq in H. by apply Permutation_app_inv_l in H. Qed.

Lemma push_wake (l : list (pc T)) (wake : pc T -> pc T) :
  (forall p, push_value (wake p) = push_value p) -> omap push_value (wake <$> l) = omap push_value l.
Proof. intros Hw. induction l as [| p l IH]; cbn; [done |]. by rewrite Hw, IH. Qed.

Lemma push_notify (wake : pc T -> pc T) l l' :
  (forall p, push_value (wake p) = push_value p) -> notify_one wake l l' -> omap push_value l' ≡ₚ omap push_value l.
Proof. intros Hw []; [| done]. eapply push_same; [done | apply Hw]. Qed.

Lemma wake_pop_value p : push_value (wake_pop (T := T) p) = push_value p.
Proof. by destruct p. Qed.
Lemma wake_push_value p : push_value (wake_push (T := T) p) = push_value p.
Proof. by destruct p. Qed.

Lemma pushing_wants (l : list T) : omap push_value (PushWant <$> l) = l.
Proof. induction l as [| v l IH]; [done |]. cbn. by rewrite IH. Qed.
Lemma pushing_pops n : omap push_value (replicate n PopWant) = [].
Proof. by induction n. Qed.

(** nobody stops or restarts the queue *)
Definition control (p : pc T) : bool :=
  match p with Starting | Stopping | StopEmpty | StopFull => true | _ => false end.
Definition in_use (s : Queue T) : Prop := stopped_ s = false /\ Forall (fun p => control p = false) (threads s).

Lemma in_use_notify (wake : pc T -> pc T) l l' :
  (forall p, control (wake p) = control p) -> notify_one wake l l' ->
  Forall (fun p => control p = false) l -> Forall (fun p => control p = false) l'.
Proof.
  intros Hw [l0 i p Hi _ | l0 _] Hl; [| done]. apply Forall_insert; [done |]. rewrite Hw.
  by apply (proj1 (Forall_lookup _ _) Hl i).
Qed.

(** a step moves a value from a thread into the queue, or none *)
Lemma step_conserves b s s' :
  step b s s' -> in_use s -> in_use s' /\ pushing s' ++ pushed s' ≡ₚ pushing s ++ pushed s.
Proof.
  intros Hstep [Hrun Hth].
  assert (Hno : forall t p, threads s !! t = Some p -> control p = true -> False).
  { intros t p Ht Hc. apply (proj1 (Forall_lookup _ _) Hth) in Ht. congruence. }
  assert (Hmove : forall t p q, threads s !! t = Some p -> control q = false -> push_value q = push_value p ->
    Forall (fun p => control p = false) (<[t := q]> (threads s)) /\
    omap push_value (<[t := q]> (threads s)) ++ pushed s ≡ₚ pushing s ++ pushed s).
  { intros t p q Ht Hq Hv. split; [by apply Forall_insert |]. by rewrite (push_same _ _ _ _ Ht Hv). }
  destruct Hstep as
    [t v Ht Hfree | t v Ht | t v Ht | t v Ht Hst | t v l Ht Hst Hl | t Ht Hfree | t Ht Hmay | t Ht Hmay | t Ht
    | t Ht Hfree | t Ht Hor | t v rest l Ht Hst Hq Hl | t Ht | t Ht | t Ht | t Ht | t p Hsp Ht Hp];
    unfold in_use, pushing in *; cbn [threads stopped_ pushed set_pc lock unlock set_threads enqueue dequeue].
  all: try solve [destruct (Hno _ _ Ht eq_refl)].
  all: try solve [congruence].
  all: try solve [edestruct Hmove as [H1 H2]; [exact Ht | | | split; [split; [exact Hrun | exact H1] | exact H2]]; done].
  - edestruct Hmove as [H1 H2]; [exact Ht | | | split; [split; [exact Hrun | exact H1] | exact H2]]; by destruct (may_push s).
  - pose proof (push_insert _ t _ (Done None) Ht) as Hout. cbn [push_value option_list app] in Hout. split.
    + split; [done |]. eapply in_use_notify; [| exact Hl |]; [by intros [] | by apply Forall_insert].
    + rewrite (push_notify _ _ _ wake_pop_value Hl). rewrite app_assoc, Permutation_app_comm. cbn [app].
      by rewrite app_comm_cons, Hout.
  - edestruct Hmove as [H1 H2]; [exact Ht | | | split].
    3: { split; [exact Hrun |]. eapply in_use_notify; [| exact Hl | exact H1]; by intros []. }
    3: { by rewrite (push_notify _ _ _ wake_push_value Hl). }
    all: done.
  - edestruct Hmove as [H1 H2]; [exact Ht | | | split; [split; [exact Hrun | exact H1] | exact H2]]; by destruct Hp as [-> | [w ->]].
Qed.

Lemma run_conserves b s s' :
  rtc (step b) s s' -> in_use s -> in_use s' /\ pushing s' ++ pushed s' ≡ₚ pushing s ++ pushed s.
Proof.
  induction 1 as [| s s1 s2 Hs _ IH]; intros Hrun; [done |]. destruct (step_conserves b s s1 Hs Hrun) as [Hrun1 Hp].
  destruct (IH Hrun1) as [Hrun2 Hp2]. split; [done |]. by rewrite Hp2.
Qed.

End Pushing.

(** ** The pipeline *)

Section Pipeline.
Context {L I json double : Type} `{!JsonLib json, !JsonLaws json} `{!JsonMetrics json double, !JsonMetricsLaws json double}.
Context `{!LoaderIf L I} `{!EbpfIf I json} `{!UMapOrder string}.
Context `{!Prometheus double, !PrometheusLaws double}.
(** [json::empty] and the value of a [KernelData] that is default-constructed *)
Context (status_empty : json -> bool) (garbage : double).

(** everything that some rounds of the daemon find, one state of it for each *)
Definition offered (ds : list (Daemon L)) : list json := ds ≫= round_statuses status_empty.

(** The producer is thread 0 of the queue; between two calls of [push] it is at
    [Done None].  [attached]: [status_queue_] is not null; [coming]: the
    statuses it will find; [dropped]: those it has not pushed. *)
Record Pipe : Type := mkPipe { coming : list json; attached : bool; the_queue : Queue json; dropped : list json }.

(** What the loop does with the next status, and what the others do: a call of
    [setStatusQueue] (or [stop]), and a step of a thread in the queue.  [full]
    takes the mutex of the queue for its test. *)
(* src/daemon/daemon.cc:244-262 Daemon::produceLoop *)
Inductive produce_step (p : Pipe) : Pipe -> Prop :=
| produce_no_queue v rest : coming p = v :: rest -> threads (the_queue p) !! 0%nat = Some (Done None) -> attached p = false ->
    produce_step p (mkPipe rest (attached p) (the_queue p) (dropped p ++ [v]))
| produce_full v rest : coming p = v :: rest -> threads (the_queue p) !! 0%nat = Some (Done None) -> attached p = true ->
    owner (the_queue p) = None -> full (the_queue p) = true ->
    produce_step p (mkPipe rest (attached p) (the_queue p) (dropped p ++ [v]))
| produce_push v rest : coming p = v :: rest -> threads (the_queue p) !! 0%nat = Some (Done None) -> attached p = true ->
    owner (the_queue p) = None -> full (the_queue p) = false ->
    produce_step p (mkPipe rest (attached p) (set_pc 0 (PushWant v) (the_queue p)) (dropped p))
| produce_set_queue b : produce_step p (mkPipe (coming p) b (the_queue p) (dropped p))
| produce_queue q : step true (the_queue p) q -> produce_step p (mkPipe (coming p) (attached p) q (dropped p)).

(** at the beginning: the producer, and [n] rounds of the consumer *)
Definition pipeline (cap n : nat) (queue : bool) (ds : list (Daemon L)) : Pipe :=
  mkPipe (offered ds) queue (mkQueue None [] cap false (Done None :: replicate n PopWant) [] []) [].

(** the producer found room, and nobody else pushes, so it does not wait *)
Definition producer_pc (q : Queue json) (p : pc json) : Prop :=
  match p with
  | Done None | PushIn _ => True
  | PushWant _ | PushTest _ => full q = false
  | _ => False
  end.
Definition never_waits (q : Queue json) : Prop :=
  (exists p, threads q !! 0%nat = Some p /\ producer_pc q p) /\
  forall t p, t <> 0%nat -> threads q !! t = Some p -> push_value p = None.

Lemma never_waits_case q t p : never_waits q -> threads q !! t = Some p ->
  (t = 0%nat /\ producer_pc q p) \/ (t <> 0%nat /\ push_value p = None).
Proof.
  intros [(p0 & Hp0 & Hok) Hothers] Ht. destruct (decide (t = 0%nat)) as [-> | Hne]; [left | right; eauto].
  rewrite Hp0 in Ht. by injection Ht as <-.
Qed.

(** a step of one thread that lets the queue get no longer *)
Lemma never_waits_set q q' t p new :
  never_waits q -> threads q !! t = Some p -> threads q' = <[t := new]> (threads q) -> (full q = false -> full q' = false) ->
  (t = 0%nat -> producer_pc q' new) -> (t <> 0%nat -> push_value new = None) -> never_waits q'.
Proof.
  intros [(p0 & Hp0 & Hok) Hothers] Ht Hth Hfull Hzero Hother. unfold never_waits. rewrite Hth. split.
  - destruct (decide (t = 0%nat)) as [-> | Hne].
    + exists new. split; [apply list_lookup_insert_eq; by eapply lookup_lt_Some | auto].
    + exists p0. split; [by rewrite list_lookup_insert_ne |]. destruct p0 as [| | | | | | | | | | | | | | | []]; cbn in *; auto.
  - intros t' p' Hne. destruct (decide (t = t')) as [<- | Htt].
    + rewrite list_lookup_insert_eq by (by eapply lookup_lt_Some). intros [= <-]. auto.
    + rewrite list_lookup_insert_ne by done. by apply Hothers.
Qed.

Lemma never_waits_notify (wake : pc json -> pc json) q l :
  (forall p, push_value (wake p) = push_value p) -> (forall p, producer_pc q p -> wake p = p) ->
  notify_one wake (threads q) l -> never_waits q -> never_waits (set_threads l q).
Proof.
  intros Hv Hw Hl Hq. inversion Hl as [l0 i p Hi Hne | l0 _]; subst; [| by destruct q].
  destruct (never_waits_case _ _ _ Hq Hi) as [[_ Hok] | [Hz Hnone]]; [by rewrite Hw in Hne |].
  eapply (never_waits_set q _ i p (wake p)); [done | done | done | done | done |]. by rewrite Hv.
Qed.

Lemma never_waits_step q q' : in_use q -> never_waits q -> step true q q' -> never_waits q'.
Proof.
  intros [Hrun Hth] Hq Hstep.
  destruct Hstep as
    [t v Ht Hfree | t v Ht | t v Ht | t v Ht Hst | t v l Ht Hst Hl | t Ht Hfree | t Ht Hmay | t Ht Hmay | t Ht
    | t Ht Hfree | t Ht Hor | t v rest l Ht Hst Hq' Hl | t Ht | t Ht | t Ht | t Ht | t p Hsp Ht Hp].
  all: destruct (never_waits_case _ _ _ Hq Ht) as [[Hz Hok] | [Hz Hok]]; try discriminate Hok; try (subst t; done).
  all: try (rewrite Hrun in Hst; discriminate Hst).
  all: try solve [apply (proj1 (Forall_lookup _ _) Hth) in Ht; discriminate Ht].
  all: try solve [eapply never_waits_set; [exact Hq | exact Ht | reflexivity | done | by intros -> | done]].
  - unfold may_push. rewrite Hok. eapply never_waits_set; [exact Hq | exact Ht | reflexivity | done | done | done].
  - subst t. cbn in Hok. eapply (never_waits_notify wake_pop (enqueue v (set_pc 0 (Done None) q))) in Hl.
    + by destruct q.
    + by intros [].
    + by intros [].
    + unfold never_waits. cbn. destruct Hq as [(p0 & Hp0 & _) Hothers]. split.
      * exists (Done None). split; [| done]. apply list_lookup_insert_eq. by eapply lookup_lt_Some.
      * intros t p Hne. rewrite list_lookup_insert_ne by done. by apply Hothers.
  - eapply (never_waits_notify wake_push (dequeue v rest (set_pc t (Done (Some v)) q))) in Hl.
    + by destruct q.
    + by intros [].
    + by intros [].
    + eapply (never_waits_set q); [exact Hq | exact Ht | reflexivity | | done | done].
      unfold full. cbn. rewrite Hq'. rewrite !Nat.leb_gt. cbn. lia.
  - destruct Hp as [-> | [v ->]]; done.
  - destruct Hp as [-> | [v ->]]; [| done]. eapply never_waits_set; [exact Hq | exact Ht | reflexivity | done | done | done].
Qed.

(** *** Nothing gets lost but what is dropped *)

(** what every reachable state has of the statuses found *)
Definition pipe_inv (all : list json) (p : Pipe) : Prop :=
  in_use (the_queue p) /\ never_waits (the_queue p) /\ pushed (the_queue p) = popped (the_queue p) ++ queue_ (the_queue p) /\
  coming p ++ dropped p ++ pushing (the_queue p) ++ pushed (the_queue p) ≡ₚ all.

Lemma produce_inv all p p' : produce_step p p' -> pipe_inv all p -> pipe_inv all p'.
Proof.
  intros Hstep (Huse & Hwait & Hfifo & Hall).
  destruct Hstep as [v rest Hc Ht Hn | v rest Hc Ht Ha Hfree Hfull | v rest Hc Ht Ha Hfree Hfull | b | q Hq]; unfold pipe_inv;
    cbn [coming attached the_queue dropped].
  - do 3 (split; [done |]). rewrite <- Hall, Hc. rewrite <- app_assoc. cbn [app]. by rewrite <- !Permutation_middle.
  - do 3 (split; [done |]). rewrite <- Hall, Hc. rewrite <- app_assoc. cbn [app]. by rewrite <- !Permutation_middle.
  - destruct Huse as [Hrun Hth]. split; [split; [done | by apply Forall_insert] |]. split; [| split; [done |]].
    + eapply never_waits_set; [exact Hwait | exact Ht | reflexivity | done | by intros _ | done].
    + rewrite <- Hall, Hc. pose proof (push_insert (threads (the_queue p)) 0 (Done None) (PushWant v) Ht) as Hp.
      cbn [push_value option_list app] in Hp. unfold pushing. cbn [threads set_pc pushed]. rewrite Hp. cbn [app].
      change (option_list (Some v)) with [v]; cbn [app]. by rewrite <- !Permutation_middle.
  - done.
  - destruct (step_conserves true _ _ Hq Huse) as [Huse' Hp]. split; [done |]. split; [exact (never_waits_step _ _ Huse Hwait Hq) |].
    split; [exact (step_fifo _ _ _ Hq Hfifo) |]. rewrite Hp; exact Hall.
Qed.

Lemma pipeline_inv cap n queue ds p : rtc produce_step (pipeline cap n queue ds) p -> pipe_inv (offered ds) p.
Proof.
  intros Hreach. assert (H0 : pipe_inv (offered ds) (pipeline cap n queue ds)).
  { split; [split; [done |]; by apply Forall_cons; split; [| apply Forall_replicate] |]. split; [| split; [done |]].
    - split; [by exists (Done None) |]. intros [| t] p' Ht; [done |]. cbn. intros Hp'. by apply lookup_replicate in Hp' as [-> _].
    - unfold pushing, pipeline. cbn [coming dropped the_queue threads pushed omap list_omap push_value app].
      by rewrite pushing_pops, !app_nil_r. }
  induction Hreach as [| p0 p1 p2 Hs _ IH]; [done |]. apply IH. by eapply produce_inv.
Qed.

(** the statuses of all services are reports, or empty *)
Definition services_report (d : Daemon L) : Prop :=
  forall lib o, li_getService lib (loader_ d) = Some o -> status_empty (getPrometheusStatus o) = false ->
    exists r : report, report_ok r /\ getPrometheusStatus o = report_json r.

Lemma reports_offered ds : Forall services_report ds ->
  exists all : list (report (double := double)), Forall report_ok all /\ offered ds = report_json <$> all.
Proof.
  intros Hds.
  assert (Hall : Forall (fun status => exists r : report (double := double), report_ok r /\ status = report_json r) (offered ds)).
  { apply Forall_forall. intros status (d & Hs & Hd)%list_elem_of_bind. unfold round_statuses in Hs.
    apply list_elem_of_omap in Hs as ([key c] & _ & Hc). cbn [snd] in Hc.
    apply bind_Some in Hc as (o & Ho & Hc). destruct (status_empty _) eqn:He; [discriminate Hc |]. injection Hc as <-.
    by apply (proj1 (Forall_forall _ _) Hds d Hd (ConfigEbpf.getLib c) o). }
  induction Hall as [| status l (r & Hr & ->) _ (all & Hok & ->)]; [by exists [] |]. exists (r :: all). by split; [constructor |].
Qed.

Lemma total_app (e1 e2 : list (string * Labels * double)) c : total (e1 ++ e2) c = total e1 c + total e2 c.
Proof. induction e1 as [| e e1 IH]; [done |]. unfold total in *. cbn [foldr app]. rewrite IH. case_decide; lia. Qed.

Lemma events_app (rs rs' : list (report (double := double))) : events_of (rs ++ rs') = events_of rs ++ events_of rs'.
Proof. apply bind_app. Qed.

Lemma total_perm (rs rs' : list (report (double := double))) c : rs ≡ₚ rs' -> total (events_of rs) c = total (events_of rs') c.
Proof.
  assert (Hcons : forall r l, total (events_of (r :: l)) c = total (event_of <$> r.2) c + total (events_of l) c).
  { intros r l. unfold events_of. cbn [mbind list_bind]. apply total_app. }
  induction 1 as [| r l l' _ IH | r r' l | l l1 l2 _ IH1 _ IH2]; [done | | |].
  - by rewrite !Hcons, IH.
  - rewrite !Hcons. lia.
  - by rewrite IH1.
Qed.

(** C17: Reports are conserved.  The statuses of the services are empty or reports
    the monitor can count ([report_ok]: metrics with names and label keys the
    client library takes, keys in order, no [|] or [=] in names, keys and label
    values).  The daemon goes through some rounds, the monitor's thread takes
    from the queue, and the queue is set or reset, in any interleaving.  Every
    status found is at every moment in exactly one place: counted, waiting in
    the queue, held by the producer in [push], dropped (there was no queue, or
    it was full), or still to come; each counter shows the sum of the values
    taken out, in the order they were put in, and the others are exactly what
    is missing to the sum of everything found, as long as a [double] holds that
    sum exactly (up to 2^53).  Nothing is counted twice or added to another
    counter, and the producer never waits in [push]. *)
Theorem reports_conserved (cap n : nat) (queue : bool) (ds : list (Daemon L)) (p : Pipe)
  (Hservices : Forall services_report ds) (Hreach : rtc produce_step (pipeline cap n queue ds) p) :
  exists (all out waiting pend gone left : list report) m,
    offered ds = report_json <$> all /\ Forall report_ok all /\ all ≡ₚ out ++ waiting ++ pend ++ gone ++ left /\
    pushed (the_queue p) = report_json <$> (out ++ waiting) /\ popped (the_queue p) = report_json <$> out /\
    queue_ (the_queue p) = report_json <$> waiting /\ pushing (the_queue p) ≡ₚ report_json <$> pend /\
    dropped p = report_json <$> gone /\ coming p = report_json <$> left /\
    (forall v, threads (the_queue p) !! 0%nat <> Some (PushSleep v) /\ threads (the_queue p) !! 0%nat <> Some (PushWait v)) /\
    consumeLoop garbage (popped (the_queue p)) (Some (mkMonitor ∅ ∅)) = (true, Some m) /\
    forall c, total (events_of all) c <= exact_limit ->
      default 0 (registry_ m !! c) + total (events_of waiting) c + total (events_of pend) c + total (events_of gone) c +
        total (events_of left) c = total (events_of all) c.
Proof.
  destruct (reports_offered ds Hservices) as (all & Hok & Hall).
  destruct (pipeline_inv cap n queue ds p Hreach) as (_ & [(p0 & Hp0 & Hpc) _] & Hfifo & Hcons).
  rewrite Hall, Hfifo in Hcons. destruct (Permutation_map_inv _ _ Hcons) as (all' & Heq & Hperm).
  symmetry in Heq. apply fmap_app_inv in Heq as (left & r1 & Hleft & Hr1 & ->). symmetry in Hr1.
  apply fmap_app_inv in Hr1 as (gone & r2 & Hgone & Hr2 & ->). symmetry in Hr2.
  apply fmap_app_inv in Hr2 as (pend & r3 & Hpend & Hr3 & ->). symmetry in Hr3.
  apply fmap_app_inv in Hr3 as (out & waiting & Hout & Hwait & ->).
  assert (Hplaces : all ≡ₚ out ++ waiting ++ pend ++ gone ++ left).
  { rewrite Hperm, (Permutation_app_comm left), (Permutation_app_comm gone), (Permutation_app_comm pend). by rewrite <- !app_assoc. }
  assert (Hgood : Forall report_ok out) by (rewrite Hplaces in Hok; by apply Forall_app in Hok as [? _]).
  destruct (consumed_counters garbage out [] Hgood) as (m & Hm & Hval). rewrite app_nil_r in Hm.
  exists all, out, waiting, pend, gone, left, m. do 3 (split; [done |]).
  split; [by rewrite Hfifo, Hout, Hwait, fmap_app |]. do 2 (split; [done |]). split; [by rewrite Hpend |].
  do 2 (split; [done |]). split; [intros v; rewrite Hp0; split; intros [= ->]; done |].
  split; [by rewrite Hout |]. intros c. rewrite (total_perm all _ c Hplaces), !events_app, !total_app. intros Hsmall.
  pose proof (total_nonneg (events_of waiting) c). pose proof (total_nonneg (events_of pend) c).
  pose proof (total_nonneg (events_of gone) c). pose proof (total_nonneg (events_of left) c). rewrite Hval by lia. lia.
Qed.

End Pipeline.

(** ** A concrete run *)

Module Sample.

#[local] Instance order_string : UMapOrder string := default_order string.
#[local] Existing Instance Monitor.Sample.counters.
#[local] Existing Instance Monitor.Sample.counters_laws.
#[local] Existing Instance Metrics.Sample.ref_metrics.
#[local] Existing Instance Metrics.Sample.ref_metrics_laws.

(** the user-mode example, loaded once *)
#[local] Instance example : EbpfIf ExampleUsermodeEbpf RefJson.t := {|
  getName := fun _ => SERVICE_NAME_USERMODE;
  start := fun _ s => (Ok true, s);
  Loader.stop := fun s => (Ok tt, s);
  onConfigUpdate := fun _ _ _ s => (Ok tt, s);
  getMainProgFd := fun _ => -1;
  getPrometheusStatus := usermode_status (fun z => z);
  getDebugStatus := fun _ => RefJson.Null
|}.
#[local] Instance table : LoaderIf (gmap string ExampleUsermodeEbpf) ExampleUsermodeEbpf := {|
  li_loadService := fun _ _ _ _ l => (Ok true, l);
  li_unloadServices := fun _ l => (Ok true, l);
  li_getService := fun so l => l !! so;
  li_getAllService := fun l => (map_to_list l).*1;
  li_registerServiceConfig := fun _ _ _ _ l => (Ok tt, l);
  li_unregisterServiceConfig := fun _ _ l => (Ok tt, l);
  li_allocateChain := fun _ _ l => (Ok true, l);
  li_updateProgChain := fun _ _ l => (Ok true, l)
|}.

Definition lib : string := "/lib/libhebpf_example_usermode.so".
Definition entry : ConfigEbpf.t := ConfigEbpf.mk lib "" TC 2 1.
(** the daemon when the service has counted to [n] *)
Definition counted (n : Z) : Daemon (gmap string ExampleUsermodeEbpf) :=
  mkDaemon {[ lib := mkUsermode n ]} true {[ "example" := entry ]} true true.
Definition never_empty (status : RefJson.t) : bool := false.
Definition rounds : list (Daemon (gmap string ExampleUsermodeEbpf)) := [counted 3; counted 4; counted 5].
Definition status (n : Z) : RefJson.t := usermode_status (fun z => z) (mkUsermode n).

Lemma all_awake (wake : pc RefJson.t -> pc RefJson.t) (l : list (pc RefJson.t)) :
  Forall (fun p => wake p = p) l -> notify_one wake l l.
Proof. intros Hl. apply notify_none. intros i p Hi. by apply (proj1 (Forall_lookup _ _) Hl i). Qed.

(** a step of the queue in the pipeline *)
Lemma queue_step c b (q q' : Queue RefJson.t) d : step true q q' -> produce_step (mkPipe c b q d) (mkPipe c b q' d).
Proof. intros Hq. exact (produce_queue (mkPipe c b q d) q' Hq). Qed.

(** the producer pushes [v] while the other thread does not wait *)
Lemma push_through c d (l l' out : list RefJson.t) v p : (length l < 16)%nat -> wake_pop p = p ->
  rtc produce_step (mkPipe (v :: c) true (mkQueue None l 16 false [Done None; p] l' out) d)
    (mkPipe c true (mkQueue None (l ++ [v]) 16 false [Done None; p] (l' ++ [v]) out) d).
Proof.
  intros Hl Hp. assert (Hroom : (16 <=? length l)%nat = false) by (apply Nat.leb_gt; exact Hl).
  eapply rtc_l; [eapply (produce_push (mkPipe (v :: c) true _ d) v c); [reflexivity | reflexivity | reflexivity | reflexivity | exact Hroom] |].
  eapply rtc_l.
  { apply (queue_step _ _ _ (mkQueue (Some 0%nat) l 16 false [PushTest v; p] l' out)). exact (step_push_lock true (mkQueue None l 16 false [PushWant v; p] l' out) 0 v eq_refl eq_refl). }
  eapply rtc_l.
  { apply (queue_step _ _ _ (mkQueue (Some 0%nat) l 16 false [PushIn v; p] l' out)).
    pose proof (step_push_test true (mkQueue (Some 0%nat) l 16 false [PushTest v; p] l' out) 0 v eq_refl) as Ht.
    unfold may_push, full in Ht. cbn [capacity_ queue_] in Ht. rewrite Hroom in Ht. exact Ht. }
  apply rtc_once, queue_step.
  apply (step_push true (mkQueue (Some 0%nat) l 16 false [PushIn v; p] l' out) 0 v [Done None; p]); [reflexivity | reflexivity |].
  apply all_awake. by repeat constructor.
Qed.

(** the other thread takes [v] out *)
Lemma pop_through c b d (rest l' out : list RefJson.t) v :
  rtc produce_step (mkPipe c b (mkQueue None (v :: rest) 16 false [Done None; PopWant] l' out) d)
    (mkPipe c b (mkQueue None rest 16 false [Done None; Done (Some v)] l' (out ++ [v])) d).
Proof.
  eapply rtc_l.
  { apply (queue_step _ _ _ (mkQueue (Some 1%nat) (v :: rest) 16 false [Done None; PopTest] l' out)). exact (step_pop_lock true (mkQueue None (v :: rest) 16 false [Done None; PopWant] l' out) 1 eq_refl eq_refl). }
  eapply rtc_l.
  { apply (queue_step _ _ _ (mkQueue None (v :: rest) 16 false [Done None; TryWant] l' out)). exact (step_pop_test true (mkQueue (Some 1%nat) (v :: rest) 16 false [Done None; PopTest] l' out) 1 eq_refl eq_refl). }
  eapply rtc_l.
  { apply (queue_step _ _ _ (mkQueue (Some 1%nat) (v :: rest) 16 false [Done None; TryIn] l' out)). exact (step_try_lock true (mkQueue None (v :: rest) 16 false [Done None; TryWant] l' out) 1 eq_refl eq_refl). }
  apply rtc_once, queue_step.
  apply (step_try_some true (mkQueue (Some 1%nat) (v :: rest) 16 false [Done None; TryIn] l' out) 1 v rest [Done None; Done (Some v)]);
    [reflexivity | reflexivity | reflexivity |].
  apply all_awake. by repeat constructor.
Qed.

(** the first is pushed and taken out, the second pushed, and the third finds
    no queue any more *)
Definition now_queue (v w : RefJson.t) : Queue RefJson.t :=
  mkQueue None [w] 16 false [Done None; Done (Some v)] [v; w] [v].
Definition started (l : list RefJson.t) : Pipe := mkPipe l true (mkQueue None [] 16 false [Done None; PopWant] [] []) [].

Lemma first_through v w x : rtc produce_step (started [v; w; x]) (mkPipe [] false (now_queue v w) [x]).
Proof.
  etrans; [apply (push_through [w; x] [] [] [] [] v PopWant); [cbn; lia | done] |].
  etrans; [apply (pop_through [w; x] true [] [] [v] [] v) |].
  etrans; [apply (push_through [x] [] [] [v] [v] w (Done (Some v))); [cbn; lia | done] |].
  eapply rtc_l; [apply (produce_set_queue _ false) |].
  apply rtc_once. apply (produce_no_queue (mkPipe [x] false (now_queue v w) []) x []); reflexivity.
Qed.

Definition now : Pipe := mkPipe [] false (now_queue (status 3) (status 4)) [status 5].

Lemma until_now : rtc produce_step (pipeline never_empty 16 1 true rounds) now.
Proof.
  assert (Heq : pipeline never_empty 16 1 true rounds = started [status 3; status 4; status 5]) by (vm_compute; reflexivity).
  rewrite Heq. apply first_through.
Qed.

Lemma counted_reports n : 0 < n -> services_report never_empty (counted n).
Proof.
  intros Hn so o Ho _. cbn in Ho. apply lookup_singleton_Some in Ho as [_ <-].
  exists (Metrics.Sample.usermode_report_of n). split; [apply Metrics.Sample.report_ok_usermode |].
  by apply usermode_report.
Qed.

(** what the rounds report *)
Lemma rounds_reports all : Forall report_ok all -> offered never_empty rounds = report_json <$> all ->
  all = Metrics.Sample.usermode_report_of <$> [3; 4; 5].
Proof.
  intros Hok Hall.
  assert (Heq : offered never_empty rounds = report_json <$> (Metrics.Sample.usermode_report_of <$> [3; 4; 5])) by (vm_compute; reflexivity).
  rewrite Heq in Hall. destruct all as [| r [| r' [| r'' [|]]]]; try discriminate Hall.
  pose proof (f_equal (hd RefJson.Null) Hall) as H1.
  pose proof (f_equal (fun l => hd RefJson.Null (tl l)) Hall) as H2.
  pose proof (f_equal (fun l => hd RefJson.Null (tl (tl l))) Hall) as H3.
  apply Forall_cons in Hok as [Hr [Hr' [Hr'' _]%Forall_cons]%Forall_cons].
  cbn [fmap list_fmap].
  rewrite <- (report_json_inj 0 (Metrics.Sample.usermode_report_of 3) r (Metrics.Sample.report_ok_usermode 3) Hr H1).
  rewrite <- (report_json_inj 0 (Metrics.Sample.usermode_report_of 4) r' (Metrics.Sample.report_ok_usermode 4) Hr' H2).
  by rewrite <- (report_json_inj 0 (Metrics.Sample.usermode_report_of 5) r'' (Metrics.Sample.report_ok_usermode 5) Hr'' H3).
Qed.

(** of the twelve that were reported, three are counted, four wait and five are
    dropped *)
Lemma reports_conserved_witness :
  exists (out waiting pend gone left : list report) m, popped (the_queue now) = report_json <$> out /\
    queue_ (the_queue now) = report_json <$> waiting /\ dropped now = report_json <$> gone /\ coming now = report_json <$> left /\
    consumeLoop 0 (popped (the_queue now)) (Some (mkMonitor ∅ ∅)) = (true, Some m) /\
    exists all, offered never_empty rounds = report_json <$> all /\
      default 0 (registry_ m !! (METRIC_NAME, [("service", SERVICE_NAME_USERMODE)])) +
      total (events_of waiting) (METRIC_NAME, [("service", SERVICE_NAME_USERMODE)]) +
      total (events_of pend) (METRIC_NAME, [("service", SERVICE_NAME_USERMODE)]) +
      total (events_of gone) (METRIC_NAME, [("service", SERVICE_NAME_USERMODE)]) +
      total (events_of left) (METRIC_NAME, [("service", SERVICE_NAME_USERMODE)]) =
      total (events_of all) (METRIC_NAME, [("service", SERVICE_NAME_USERMODE)]).
Proof.
  destruct (reports_conserved never_empty 0 16 1 true rounds now)
    as (all & out & waiting & pend & gone & left & m & Hall & Hok & _ & _ & Hpop & Hq & _ & Hgone & Hleft & _ & Hrun & Hsum).
  - repeat (apply Forall_cons; split; [by apply counted_reports |]). by apply Forall_nil.
  - exact until_now.
  - exists out, waiting, pend, gone, left, m. split; [exact Hpop |]. split; [exact Hq |]. split; [exact Hgone |]. split; [exact Hleft |].
    split; [exact Hrun |]. exists all. split; [exact Hall | apply Hsum]. rewrite (rounds_reports all Hok Hall). vm_compute. discriminate.
Defined.

End Sample.
