(* ===== verification/System.v ===== *)
(** * From the configuration to the packets

    The daemon ([Daemon.v]) over the loader ([Loader.v]) over the chain manager
    ([ProgMap.v]), down to what the kernel does with a packet ([Packet.v]): one
    call of [Daemon::update] on a daemon that has nothing loaded, with a
    configuration for one hook of one interface. *)

From stdpp Require Import sorting.
From S2P Require Import Prelude Configs Names BpfMap ProgMap Acl Packet Loader Daemon.

#[local] Open Scope string_scope.
#[local] Open Scope Z_scope.
#[local] Open Scope list_scope.

Section System.
Context {I J IM M A P : Type} `{!EbpfIf I J, !EbpfLaws I J} `{!InotifyManagerIf IM, !InotifyManagerLaws IM}.
Context `{!BpfHash M Z Z, !BpfHashLaws M Z Z} `{!BpfProgArray A P}.
Context (prog_id : P -> Z) (prog_of_fd : Z -> option P) `{!BpfProgArrayLaws A P prog_of_fd MAX_CHAIN_PROGS}.
Context `{!UMapOrder string, !UMapOrder Z, !UMapOrder HookType}.
#[local] Existing Instance release_build.
Context (dl : string -> library I) (json_null : J) (read_json : string -> J).
Context (std_sort : list order_entry -> list order_entry) (std_sort_perm : forall l, std_sort l ≡ₚ l)
  (std_sort_sorted : forall l, Sorted (fun e1 e2 : order_entry => e1.1.1 <= e2.1.1) (std_sort l)).

Abbreviation loader := (Loader I IM (chain (M := M) (A := A))).
#[local] Instance the_loader : LoaderIf loader I := loader_if dl json_null read_json.
#[local] Instance the_loader_laws : LoaderLaws loader I := loader_laws dl json_null read_json.

(** ** Rebuilding the chain *)

Definition entry_name (h : HookType) (c : ConfigEbpf.t) : string :=
  match getCanonicalName h LIBRARY (ConfigEbpf.getLib c) with Ok s => s | Err _ => "" end.

Definition as_entry (h : HookType) (i : Z) (c : ConfigEbpf.t) : order_entry :=
  (ConfigEbpf.getOrder c, entry_name h c, i).

(** an entry for this hook of this interface, with a library that has a name *)
Definition served (h : HookType) (i : Z) (c : ConfigEbpf.t) : Prop :=
  ConfigEbpf.getHook c = h /\ ConfigEbpf.getIfindex c = i /\
  getCanonicalName h LIBRARY (ConfigEbpf.getLib c) = Ok (entry_name h c).

Lemma hook_order_temp_more h i l : forall m v,
  Forall (fun kc => served h i kc.2) l -> m !! h = Some v ->
  hook_order_temp l m = Ok (<[h := v ++ (as_entry h i <$> l.*2)]> m).
Proof.
  induction l as [| [k c] l IH]; intros m v Hl Hm; cbn.
  { by rewrite app_nil_r, insert_id. }
  apply Forall_cons in Hl as [(Hh & Hi & Hn) Hl]. cbn in Hh, Hi, Hn. rewrite Hh, Hn. cbn.
  rewrite (IH _ (v ++ [as_entry h i c])); [| done |].
  - by rewrite insert_insert_eq, <- app_assoc.
  - rewrite lookup_insert_eq. unfold order_entry in *. rewrite Hm. unfold as_entry. by rewrite Hi.
Qed.

Lemma hook_order_temp_served h i l :
  Forall (fun kc => served h i kc.2) l -> l <> [] ->
  hook_order_temp l ∅ = Ok {[ h := as_entry h i <$> l.*2 ]}.
Proof.
  destruct l as [| [k c] l]; [done |]. intros Hl _. apply Forall_cons in Hl as [(Hh & Hi & Hn) Hl].
  cbn in *. rewrite Hh, Hn. cbn. rewrite (hook_order_temp_more h i l _ [as_entry h i c]); [| done |].
  - by rewrite insert_insert_eq.
  - rewrite lookup_insert_eq, lookup_empty. unfold as_entry. by rewrite Hi.
Qed.

(** the chain manager once the interface has its region *)
Definition with_region (h : HookType) (i : Z) (p : PinnedProgMap) : PinnedProgMap :=
  set_regions (<[h := {[ i := mkRegion 0 ]}]> (regions_ p)) p.

Lemma first_region h i p :
  0 < i -> hook_regions p h = ∅ -> allocateRegion h i p = Ok (0, with_region h i p).
Proof.
  intros Hi Hp. unfold allocateRegion, ASSERT. rewrite (proj2 (Z.ltb_lt 0 i) Hi), Hp. cbn.
  rewrite lookup_empty. assert (Hnil : uiter (∅ : gmap Z Region) = []).
  { apply Permutation_nil. by rewrite uiter_perm, map_to_list_empty. }
  rewrite Hnil. unfold with_region. cbn. by rewrite insert_insert_eq.
Qed.

Lemma region_again h i p :
  0 < i -> allocateRegion h i (with_region h i p) = Ok (0, with_region h i p).
Proof.
  intros Hi. unfold allocateRegion, ASSERT. rewrite (proj2 (Z.ltb_lt 0 i) Hi). cbn.
  unfold hook_regions. cbn. rewrite lookup_insert_eq. cbn. rewrite lookup_singleton_eq.
  unfold with_region. cbn. by rewrite insert_insert_eq.
Qed.

Definition allocate_entry (h : HookType) (e : string * Z) : ST loader unit :=
  _ ← li_allocateChain h e.2; mret tt.

Lemma allocate_run h i name p k p' (l : loader) :
  chain_mgr_ l = Some (p, k) -> (exists r, allocateRegion h i p = Ok (r, p')) ->
  allocate_entry h (name, i) l = (Ok tt, set_chain (Some (p', k)) l).
Proof.
  intros Hcm [r Hr]. unfold allocate_entry. cbv [mbind st_bind]. cbn. unfold allocateChain, on_chain.
  cbv [mbind st_bind]. rewrite Hcm. cbn. unfold chain_run. cbn. by rewrite Hr.
Qed.

Lemma allocate_again h i names : forall p k (l : loader),
  0 < i -> Forall (fun e : string * Z => e.2 = i) names -> chain_mgr_ l = Some (with_region h i p, k) ->
  for_each (allocate_entry h) names l = (Ok tt, l).
Proof.
  induction names as [| [name j] names IH]; intros p k l Hi Hall Hcm; [done |].
  apply Forall_cons in Hall as [Hj Hall]. cbn in Hj. subst j. cbn [for_each].
  erewrite st_bind_ok; [| apply (allocate_run h i name _ k (with_region h i p) l Hcm); eexists; by apply region_again].
  assert (Hsame : set_chain (Some (with_region h i p, k)) l = l) by (destruct l; cbn in *; by subst).
  rewrite Hsame. by eapply IH.
Qed.

Lemma allocate_all h i names p k (l : loader) :
  0 < i -> names <> [] -> Forall (fun e : string * Z => e.2 = i) names -> hook_regions p h = ∅ ->
  chain_mgr_ l = Some (p, k) ->
  for_each (allocate_entry h) names l = (Ok tt, set_chain (Some (with_region h i p, k)) l).
Proof.
  intros Hi Hne Hall Hp Hcm. destruct names as [| [name j] names]; [done |].
  apply Forall_cons in Hall as [Hj Hall]. cbn in Hj. subst j. cbn [for_each].
  erewrite st_bind_ok; [| apply (allocate_run h i name p k (with_region h i p) l Hcm); eexists; by apply first_region].
  by eapply allocate_again.
Qed.

Lemma uiter_singleton {K V} `{Countable K} `{!UMapOrder K} (x : K) (v : V) :
  uiter ({[ x := v ]} : gmap K V) = [(x, v)].
Proof. apply Permutation_singleton_r. by rewrite uiter_perm, map_to_list_singleton. Qed.

(** the chain the daemon asks for *)
Definition ordered (h : HookType) (i : Z) (base : EbpfMap) : list (string * Z) :=
  (fun e => (e.1.2, e.2)) <$> std_sort (as_entry h i <$> (uiter base).*2).

Lemma rebuild_run h i (base : EbpfMap) p k k1 (l : loader) :
  0 < i -> Forall (fun kc => served h i kc.2) (uiter base) -> uiter base <> [] -> hook_regions p h = ∅ ->
  chain_mgr_ l = Some (p, k) -> updateChain h (ordered h i base) (with_region h i p) k = Ok (true, k1) ->
  rebuild_chain std_sort base l = (Ok tt, set_chain (Some (with_region h i p, k1)) l).
Proof.
  intros Hi Hserved Hne Hp Hcm Hup. unfold rebuild_chain.
  rewrite (hook_order_temp_served h i (uiter base) Hserved Hne). cbv [mbind st_bind lift].
  unfold hook_order. rewrite map_fmap_singleton, uiter_singleton. fold (ordered h i base). cbn [for_each].
  assert (Hperm : std_sort (as_entry h i <$> (uiter base).*2) ≡ₚ as_entry h i <$> (uiter base).*2) by apply std_sort_perm.
  assert (Hall : Forall (fun e : string * Z => e.2 = i) (ordered h i base)).
  { unfold ordered. rewrite Hperm. apply Forall_fmap, Forall_fmap, Forall_true. done. }
  assert (Hone : ordered h i base <> []).
  { intros Hnil. apply Hne. unfold ordered in Hnil. apply fmap_nil_inv in Hnil. rewrite Hnil in Hperm.
    apply Permutation_nil_l, eq_sym, fmap_nil_inv, fmap_nil_inv in Hperm. done. }
  unfold update_hook_chain. cbn [fst snd]. fold (allocate_entry h).
  cbv [mbind st_bind]. change (for_each _ (ordered h i base) l) with (for_each (allocate_entry h) (ordered h i base) l).
  rewrite (allocate_all h i _ p k l) by done. cbn. unfold updateProgChain, on_chain. cbn. unfold chain_run. cbn.
  by rewrite Hup.
Qed.

(** ** Loading the programs *)

(** [name] and [fd]: what a freshly loaded library registers its program [d]
    with *)
Definition entry_program (h : HookType) (i : Z) (p : PinnedProgMap) (c : ConfigEbpf.t) (nf : string * Z) (d : Z) : Prop :=
  insertion prog_id prog_of_fd h p nf d /\
  exists s1 s2, started dl json_null read_json (ConfigEbpf.getLib c) h i (ConfigEbpf.getConfig c) s1 s2 /\
    getCanonicalName h PROGRAM (getName s1) = Ok nf.1 /\ getMainProgFd s2 = nf.2.

(** an entry that can be loaded for this hook of this interface *)
Definition entry_here (h : HookType) (i : Z) (c : ConfigEbpf.t) : Prop :=
  ConfigEbpf.getHook c = h /\ ConfigEbpf.getIfindex c = i /\ ConfigEbpf.getLib c <> "" /\
  loadable dl json_null read_json (ConfigEbpf.getLib c) h i (ConfigEbpf.getConfig c).

(** the object of an entry, as its load left it *)
Definition holds (h : HookType) (i : Z) (c : ConfigEbpf.t) (l : loader) : Prop :=
  exists s1 s2, started dl json_null read_json (ConfigEbpf.getLib c) h i (ConfigEbpf.getConfig c) s1 s2 /\
    getService (ConfigEbpf.getLib c) l = Some s2.

Lemma fresh_load_inserts h i p k k' c nf d (l : loader) :
  entry_here h i c -> entry_program h i p c nf d -> loader_inv dl l -> loaded l !! ConfigEbpf.getLib c = None ->
  chain_mgr_ l = Some (p, k) -> insertProg h nf.1 nf.2 i p k = Ok (true, k') ->
  exists l', Daemon.loadEbpf (ConfigEbpf.getLib c) h i (ConfigEbpf.getConfig c) l = (Ok tt, l') /\ loader_inv dl l' /\
    loaded l' = <[ConfigEbpf.getLib c := (h, i, ConfigEbpf.getConfig c)]> (loaded l) /\ chain_mgr_ l' = Some (p, k') /\
    holds h i c l' /\ forall key, key <> ConfigEbpf.getLib c -> getService key l' = getService key l.
Proof.
  intros (Hh & Hi & Hlib & Hload) [(info & q & _ & _ & _ & Hfd & _) (s1 & s2 & Hst & Hname & Hmain)] Hinv Hnone Hcm Hins.
  unfold Daemon.loadEbpf. rewrite assert_true by (by rewrite negb_true_iff; apply String.eqb_neq).
  destruct (load_prepared dl json_null read_json _ h i _ l Hinv Hload Hnone)
    as (s1' & s2' & l2 & Hrun & Hinv2 & Hld2 & _ & Hcm2 & Hst2 & Hs2 & _ & Hothers).
  destruct (started_fun dl json_null read_json _ _ _ _ _ _ _ _ Hst Hst2) as [<- <-]. rewrite Hcm in Hcm2. rewrite <- Hmain in *.
  exists (set_chain (Some (p, k')) l2). split; [| split; [by apply inv_set_chain |]].
  2: { do 2 (split; [done |]). split; [by exists s1, s2 | exact Hothers]. }
  erewrite st_bind_ok; [done |]. cbn [li_loadService the_loader loader_if]. rewrite Hrun.
  eapply register_inserts; [exact Hs2 | exact Hcm2 | exact Hname | done |]. cbn. unfold chain_run. cbn. by rewrite Hins.
Qed.

Lemma load_run h i p k k' x c nf d (l : loader) :
  entry_here h i c -> entry_program h i p c nf d -> loader_inv dl l -> loaded l !! ConfigEbpf.getLib c = None ->
  chain_mgr_ l = Some (p, k) -> insertProg h nf.1 nf.2 i p k = Ok (true, k') ->
  exists l', load_entry ∅ (x, c) l = (Ok tt, l') /\ loader_inv dl l' /\
    loaded l' = <[ConfigEbpf.getLib c := (h, i, ConfigEbpf.getConfig c)]> (loaded l) /\ chain_mgr_ l' = Some (p, k') /\
    holds h i c l' /\ forall key, key <> ConfigEbpf.getLib c -> getService key l' = getService key l.
Proof.
  intros Hhere. unfold load_entry. cbn [fst snd]. rewrite lookup_empty. destruct (Hhere) as (-> & -> & _). by apply fresh_load_inserts.
Qed.

Lemma load_all h i p : forall (L : list (string * ConfigEbpf.t)) nfs k k' (l : loader),
  Forall (fun kc => entry_here h i kc.2) L -> Forall2 (fun kc nf => exists d, entry_program h i p kc.2 nf d) L nfs ->
  NoDup ((fun kc => ConfigEbpf.getLib kc.2) <$> L) -> loader_inv dl l ->
  Forall (fun kc => loaded l !! ConfigEbpf.getLib kc.2 = None) L -> chain_mgr_ l = Some (p, k) ->
  insert_all h i nfs p k = Ok (true, k') ->
  exists l', for_each (load_entry ∅) L l = (Ok tt, l') /\ chain_mgr_ l' = Some (p, k') /\
    Forall (fun kc => holds h i kc.2 l') L /\
    forall key, key ∉ (fun kc => ConfigEbpf.getLib kc.2) <$> L -> getService key l' = getService key l.
Proof.
  induction L as [| [x c] L IH]; intros nfs k k' l Hhere Hprogs Hnd Hinv Hnone Hcm Hins.
  { apply Forall2_nil_inv_l in Hprogs as ->. injection Hins as <-. exists l. by split_and!. }
  apply Forall2_cons_inv_l in Hprogs as ([name fd] & rest & [d Hp] & Hprogs & ->).
  apply Forall_cons in Hhere as [Hc Hhere]. apply Forall_cons in Hnone as [Hn Hnone].
  rewrite fmap_cons in Hnd. apply NoDup_cons in Hnd as [Hnotin Hnd]. cbn [fst snd insert_all] in *.
  destruct (insertProg h name fd i p k) as [[[] k1] |] eqn:Ei; try done. cbn in Hins.
  destruct (load_run h i p k k1 x c (name, fd) d l Hc Hp Hinv Hn Hcm Ei) as (l1 & Hrun & Hinv1 & Hld1 & Hcm1 & Hhold & Hothers).
  destruct (IH rest k1 k' l1) as (l' & Hrest & Hcm' & Hholds & Hkept); try done.
  { apply Forall_forall. intros kc Hkc. rewrite Hld1, lookup_insert_ne.
    - by apply (proj1 (Forall_forall _ _) Hnone kc).
    - intros Heq. apply Hnotin, list_elem_of_fmap. exists kc. by rewrite Heq. }
  exists l'. split; [cbn [for_each]; by erewrite st_bind_ok |]. split; [done |]. split.
  - constructor; [| done]. destruct Hhold as (s1 & s2 & Hst & Hs2). exists s1, s2. split; [done |]. cbn [snd].
    by rewrite Hkept.
  - intros key Hkey. rewrite fmap_cons, not_elem_of_cons in Hkey. destruct Hkey as [Hne Hkey].
    rewrite Hkept by done. by apply Hothers.
Qed.

(** ** The whole update *)

Lemma with_schedulers_one h i base :
  plain_keys base -> base <> ∅ -> map_Forall (fun _ c => ConfigEbpf.getHook c = h /\ ConfigEbpf.getIfindex c = i) base ->
  with_schedulers base = <[scheduler_id h i := scheduler_entry h i]> base.
Proof.
  intros Hplain Hne Hall. apply map_eq. intros x. apply option_eq. intros c.
  rewrite with_schedulers_spec, lookup_insert_Some. split.
  - intros [Hx | (Hx & h' & i' & (x' & c' & Hx' & <- & <-) & -> & ->)].
    + right. split; [| done]. intros <-. apply Hplain in Hx. by rewrite scheduler_id_semicolon in Hx.
    + destruct (Hall _ _ Hx') as [<- <-]. by left.
  - intros [[<- <-] | [_ Hx]]; [right | by left]. split.
    + apply eq_None_not_Some. intros [c Hc]. apply Hplain in Hc. by rewrite scheduler_id_semicolon in Hc.
    + exists h, i. split; [| done]. destruct (map_choose base Hne) as (x & c & Hx). exists x, c.
      split; [done |]. by apply (Hall x).
Qed.

(** the entries in the order of their numbers *)
Definition by_order (c1 c2 : ConfigEbpf.t) : Prop := ConfigEbpf.getOrder c1 <= ConfigEbpf.getOrder c2.

(** A daemon with nothing loaded, and a configuration for hook [h] of
    interface [i]: its programs are known to the registry, they and the
    scheduler (program [s]) can be loaded, the maps of the hook exist with room
    for them, and the slot behind the chain is free. *)
Record first_configuration (h : HookType) (i : Z) (base : EbpfMap) (pid : ConfigEbpf.t -> Z) (s : Z)
  (p : PinnedProgMap) (k : Kernel M A) (maps : HookMaps) (m : M) (a : A) : Prop := {
  fc_here : map_Forall (fun _ c => ConfigEbpf.getHook c = h /\ ConfigEbpf.getIfindex c = i) base;
  fc_some : base <> ∅;
  fc_hook : h <> UNKNOWN;
  fc_nic : 0 < i < 2 ^ 32;
  fc_programs : map_Forall (fun _ c => exists nf, entry_program h i p c nf (pid c) /\
    getCanonicalName h LIBRARY (ConfigEbpf.getLib c) = Ok nf.1) base;
  fc_scheduler : exists fd, entry_program h i p (scheduler_entry h i) (scheduler_name h, fd) s;
  fc_distinct : NoDup (s :: (pid <$> (map_to_list base).*2));
  fc_init : initialized_ p = true;
  fc_maps : hook_maps_ p !! h = Some maps;
  fc_regions : hook_regions p h = ∅;
  fc_registry : registry_wf p;
  fc_hash : hashes k !! id_hash_fd maps = Some m;
  fc_keys : bpf_lookup m 0 = None;
  fc_room : (S (size base) <= bpf_max m)%nat;
  fc_array : arrays k !! prog_array_fd maps = Some a;
  fc_fits : Z.of_nat (S (size base)) <= MAX_CHAIN_PROGS;
  fc_free : pa_lookup a (Z.of_nat (S (size base))) = None
}.

Section FirstConfiguration.
Context (h : HookType) (i : Z) (base : EbpfMap) (pid : ConfigEbpf.t -> Z) (s : Z)
  (p : PinnedProgMap) (k : Kernel M A) (maps : HookMaps) (m : M) (a : A).
Context (Hfirst : first_configuration h i base pid s p k maps m a).

Lemma first_entry c : c ∈ (map_to_list base).*2 ->
  served h i c /\ exists fd, entry_program h i p c (entry_name h c, fd) (pid c).
Proof.
  intros ([x c'] & -> & Hx%elem_of_map_to_list)%list_elem_of_fmap. cbn.
  destruct (fc_here _ _ _ _ _ _ _ _ _ _ Hfirst x c' Hx) as [Hh Hi].
  destruct (fc_programs _ _ _ _ _ _ _ _ _ _ Hfirst x c' Hx) as ([name fd] & Hp & Hname). cbn in Hname.
  assert (Hn : entry_name h c' = name) by (unfold entry_name; by rewrite Hname).
  unfold served. rewrite Hn. split; [done |]. by exists fd.
Qed.

(** the sorted entries *)
Lemma sorted_entries :
  exists cs, std_sort (as_entry h i <$> (uiter base).*2) = as_entry h i <$> cs /\ cs ≡ₚ (map_to_list base).*2.
Proof.
  destruct (Permutation_map_inv _ _ (std_sort_perm (as_entry h i <$> (uiter base).*2))) as (cs & Hcs & Hperm).
  exists cs. split; [done |]. by rewrite <- Hperm, uiter_perm.
Qed.

Context (cs : list ConfigEbpf.t) (Hsort : std_sort (as_entry h i <$> (uiter base).*2) = as_entry h i <$> cs)
  (Hcs : cs ≡ₚ (map_to_list base).*2).

Lemma ordered_names : ordered h i base = (fun c => (entry_name h c, i)) <$> cs.
Proof. unfold ordered. by rewrite Hsort, <- list_fmap_compose. Qed.

Lemma names_here : names_of i (ordered h i base) = entry_name h <$> cs.
Proof.
  rewrite ordered_names. unfold names_of. clear Hsort Hcs. induction cs as [| c l IH]; [done |].
  rewrite fmap_cons, filter_cons_True by done. cbn. by rewrite IH.
Qed.

Lemma names_elsewhere j : j <> i -> names_of j (ordered h i base) = [].
Proof.
  intros Hj. rewrite ordered_names. unfold names_of. clear Hsort Hcs. induction cs as [| c l IH]; [done |].
  rewrite fmap_cons, filter_cons_False; [exact IH | cbn; congruence].
Qed.

Lemma registered_ids names ds :
  Forall2 (fun name d => exists fd, insertion prog_id prog_of_fd h p (name, fd) d) names ds ->
  chain_ids h (with_region h i p) names = ds.
Proof.
  induction 1 as [| name d names ds (fd & info & q & Hreg & Hh & Hid & _) _ IH]; [done |].
  unfold chain_ids. cbn [fst] in Hreg. cbn. change (lookupProgInfo name (with_region h i p)) with (lookupProgInfo name p).
  rewrite Hreg. cbn. rewrite bool_decide_eq_false_2 by (by intros []). cbn. by rewrite Hid, <- IH.
Qed.

Lemma chained_here : chained h (with_region h i p) (entry_name h <$> cs) = s :: (pid <$> cs).
Proof.
  apply registered_ids. constructor.
  - destruct (fc_scheduler _ _ _ _ _ _ _ _ _ _ Hfirst) as (fd & Hp & _). by exists fd.
  - apply Forall2_fmap, Forall_Forall2_diag, Forall_forall. intros c Hc. rewrite Hcs in Hc.
    destruct (first_entry c Hc) as (_ & fd & Hp & _). by exists fd.
Qed.

Lemma chained_none : chained h (with_region h i p) [] = [s].
Proof.
  apply registered_ids. destruct (fc_scheduler _ _ _ _ _ _ _ _ _ _ Hfirst) as (fd & Hp & _).
  constructor; [by exists fd | constructor].
Qed.

Lemma cs_length : length cs = size base.
Proof. by rewrite Hcs, length_fmap, length_map_to_list. Qed.

Lemma cs_some : cs <> [].
Proof.
  intros Hnil. pose proof cs_length as Hlen. rewrite Hnil in Hlen.
  by apply (fc_some _ _ _ _ _ _ _ _ _ _ Hfirst), map_size_empty_inv.
Qed.

Lemma chain_nodup j : NoDup (chained h (with_region h i p) (names_of j (ordered h i base))).
Proof.
  destruct (decide (j = i)) as [-> | Hj].
  - rewrite names_here, chained_here, Hcs. apply Hfirst.
  - rewrite names_elsewhere, chained_none by done. apply NoDup_singleton.
Qed.

Lemma start_here : getStartIndex h i (with_region h i p) = 0.
Proof. unfold getStartIndex. cbn. rewrite lookup_insert_eq. by rewrite lookup_singleton_eq. Qed.

Lemma first_ready : chain_ready h (ordered h i base) (with_region h i p) k maps m.
Proof.
  destruct Hfirst. split; try done.
  - assert (Hgroup : group_by_ifindex (ordered h i base) = {[ i := entry_name h <$> cs ]}).
    { apply map_eq. intros j. rewrite group_by_ifindex_lookup. destruct (decide (j = i)) as [-> | Hj].
      - rewrite names_here, lookup_singleton_eq. destruct (entry_name h <$> cs) eqn:E; [| done].
        by apply fmap_nil_inv, cs_some in E.
      - by rewrite names_elsewhere, lookup_singleton_ne. }
    rewrite Hgroup, map_to_list_singleton. unfold nics_entries. cbn. rewrite app_nil_r. unfold nic_entries. cbn [fst snd].
    rewrite start_here. cbn [Z.leb]. rewrite chained_here. change (MAX_PER_NIC_PROGS <=? 0) with false. cbn iota.
    rewrite length_number. cbn. by rewrite length_fmap, cs_length.
  - intros e He. rewrite ordered_names in He. apply list_elem_of_fmap in He as (c & -> & _). cbn.
    by rewrite start_here.
Qed.

Context (Hplain : plain_keys base).

(** the entries in the order in which they are loaded, and the programs they
    register *)
Definition loading_order : list (string * ConfigEbpf.t) := uiter (with_schedulers base).

Lemma loading_order_perm : loading_order ≡ₚ (scheduler_id h i, scheduler_entry h i) :: map_to_list base.
Proof.
  destruct Hfirst. unfold loading_order. rewrite uiter_perm, (with_schedulers_one h i base) by done.
  apply map_to_list_insert, eq_None_not_Some. intros [c Hc]. apply Hplain in Hc. by rewrite scheduler_id_semicolon in Hc.
Qed.

(** every entry is for this hook and interface, and can be loaded *)
Lemma loading_order_fine : entries_ok (li_loadable (L := loader)) base ->
  Forall (fun kc => entry_here h i kc.2) loading_order.
Proof.
  intros Hok. apply Forall_forall. intros [x c] Hx. cbn [snd].
  assert (Hhere : ConfigEbpf.getHook c = h /\ ConfigEbpf.getIfindex c = i).
  { rewrite loading_order_perm in Hx. apply elem_of_cons in Hx as [[= -> ->] | Hx%elem_of_map_to_list]; [done |].
    by apply (fc_here _ _ _ _ _ _ _ _ _ _ Hfirst x). }
  unfold loading_order in Hx. rewrite uiter_perm in Hx. apply elem_of_map_to_list in Hx.
  destruct (ws_entry _ base x c Hok Hx) as (Hlib & _ & _ & Hld & _). destruct Hhere as [Hh Hi]. rewrite Hh, Hi in Hld. by split_and!.
Qed.

Lemma loading_order_once : config_ok (li_loadable (L := loader)) base ->
  NoDup ((fun kc => ConfigEbpf.getLib kc.2) <$> loading_order).
Proof.
  intros Hok. unfold loading_order. rewrite uiter_perm. apply NoDup_fmap_2_strong; [| apply NoDup_map_to_list].
  intros [x c] [x' c'] Hx%elem_of_map_to_list Hx'%elem_of_map_to_list Heq. cbn in Heq.
  pose proof (ws_once _ base x x' c c' Hok Hx Hx' Heq) as ->. congruence.
Qed.

Definition pid_of (kc : string * ConfigEbpf.t) : Z := if decide (kc.1 = scheduler_id h i) then s else pid kc.2.

Lemma pids_perm : pid_of <$> loading_order ≡ₚ s :: (pid <$> cs).
Proof.
  rewrite loading_order_perm, Hcs. cbn. unfold pid_of at 1. rewrite decide_True by done. f_equiv.
  rewrite <- list_fmap_compose. apply Permutation_refl', list_fmap_ext. intros n [x c] Hn. unfold pid_of. cbn.
  rewrite decide_False; [done |]. intros ->. apply list_elem_of_lookup_2, elem_of_map_to_list, Hplain in Hn.
  by rewrite scheduler_id_semicolon in Hn.
Qed.

Lemma programs_of_order :
  exists nfs, Forall2 (fun kc nf => entry_program h i p kc.2 nf (pid_of kc)) loading_order nfs.
Proof.
  assert (Hall : Forall (fun kc => exists nf, entry_program h i p kc.2 nf (pid_of kc)) loading_order).
  { rewrite loading_order_perm. constructor.
    - cbn. unfold pid_of. rewrite decide_True by done.
      destruct (fc_scheduler _ _ _ _ _ _ _ _ _ _ Hfirst) as (fd & Hp). by eexists.
    - apply Forall_forall. intros [x c] Hx. unfold pid_of. cbn. rewrite decide_False.
      + destruct (first_entry c) as (_ & fd & Hp); [| by eexists]. apply list_elem_of_fmap. by exists (x, c).
      + intros ->. apply elem_of_map_to_list, Hplain in Hx. by rewrite scheduler_id_semicolon in Hx. }
  clear -Hall. induction Hall as [| kc l [nf Hnf] _ (nfs & IH)]; [by exists [] |]. exists (nf :: nfs). by constructor.
Qed.

Lemma first_install nfs :
  Forall2 (fun kc nf => entry_program h i p kc.2 nf (pid_of kc)) loading_order nfs ->
  chain_install prog_id prog_of_fd h (ordered h i base) (with_region h i p) k maps m a i (s :: (pid <$> cs)) nfs.
Proof.
  intros Hnfs. pose proof first_ready as Hready. pose proof chain_nodup as Hnodup.
  pose proof chained_here as Hids. pose proof names_here as Hnames. pose proof cs_length as Hlen.
  pose proof cs_some as Hsome. destruct Hfirst. split; try done.
  - by rewrite Hnames, Hids.
  - rewrite Hnames. intros Hnil. by apply fmap_nil_inv in Hnil.
  - apply start_here.
  - lia.
  - cbn. rewrite length_fmap, Hlen. done.
  - exists (pid_of <$> loading_order). split; [| apply pids_perm]. apply Forall2_fmap_r.
    apply Forall2_flip. eapply Forall2_impl; [exact Hnfs |]. intros kc nf [Hins _]. exact Hins.
Qed.

End FirstConfiguration.

Lemma sorted_by_order h i cs :
  Sorted (fun e1 e2 : order_entry => e1.1.1 <= e2.1.1) (as_entry h i <$> cs) -> Sorted by_order cs.
Proof.
  induction cs as [| c cs IH]; [by constructor |]. rewrite fmap_cons. intros Hs. apply Sorted_inv in Hs as [Hs Hhd].
  constructor; [by apply IH |]. destruct cs as [| c' cs]; [by constructor |].
  rewrite fmap_cons in Hhd. apply HdRel_inv in Hhd. by constructor.
Qed.

Lemma uiter_empty_map {K V} `{Countable K} `{!UMapOrder K} : uiter (∅ : gmap K V) = [].
Proof. apply Permutation_nil. by rewrite uiter_perm, map_to_list_empty. Qed.

(** the update of a daemon with nothing loaded, on the loader *)
Lemma first_update h i base pid s p k maps m a (l : loader) :
  config_ok (li_loadable (L := loader)) base -> loader_inv dl l -> loaded l = ∅ -> chain_mgr_ l = Some (p, k) ->
  first_configuration h i base pid s p k maps m a ->
  exists l' k' m' a' cs, reconcile std_sort ∅ base l = (Ok tt, l') /\ chain_mgr_ l' = Some (with_region h i p, k') /\
    hashes k' !! id_hash_fd maps = Some m' /\ arrays k' !! prog_array_fd maps = Some a' /\
    cs ≡ₚ (map_to_list base).*2 /\ Sorted by_order cs /\
    run_chain prog_id MAX_TAIL_CALL_CNT m' a' i s = pid <$> cs /\ Forall (fun c => holds h i c l') cs /\
    holds h i (scheduler_entry h i) l'.
Proof.
  intros Hok Hinv Hempty Hcm Hfirst.
  destruct (sorted_entries h i base) as (cs & Hsort & Hcs).
  pose proof (ok_keys _ _ Hok) as Hplain.
  destruct (programs_of_order h i base pid s p k maps m a Hfirst Hplain) as (nfs & Hnfs).
  pose proof (first_install _ _ _ _ _ _ _ _ _ _ Hfirst cs Hsort Hcs Hplain nfs Hnfs) as Hinst.
  pose proof (cs_length base cs Hcs) as Hlen.
  destruct (chain_walk _ _ _ _ _ _ _ _ _ _ _ _ s Hinst eq_refl) as (k1 & k2 & m' & a' & Hup & Hins & Hm & Ha & Hrun).
  { cbn. rewrite length_fmap, Hlen. apply Hfirst. }
  assert (Hserved : Forall (fun kc => served h i kc.2) (uiter base)).
  { rewrite uiter_perm. apply Forall_forall. intros kc Hkc. eapply first_entry; [done |].
    apply list_elem_of_fmap. by exists kc. }
  assert (Hsome : uiter base <> []).
  { intros Hnil. apply (fc_some _ _ _ _ _ _ _ _ _ _ Hfirst). apply map_to_list_empty_iff, Permutation_nil.
    by rewrite <- uiter_perm, Hnil. }
  destruct (load_all h i (with_region h i p) (loading_order base) nfs k1 k2 (set_chain (Some (with_region h i p, k1)) l))
    as (l' & Hload & Hcm' & Hholds & _); [| | | | | done | done |].
  - by apply (loading_order_fine _ _ _ _ _ _ _ _ _ _ Hfirst Hplain), Hok.
  - eapply Forall2_impl; [exact Hnfs |]. intros kc nf Hp. eexists. exact Hp.
  - by apply loading_order_once.
  - by apply inv_set_chain.
  - apply Forall_forall. intros kc _. change (loaded l !! ConfigEbpf.getLib kc.2 = None). by rewrite Hempty, lookup_empty.
  - exists l', k2, m', a', cs. split; [| split; [exact Hcm' |]]; [| do 3 (split; [done |]); split; [| split; [exact Hrun | split]]].
    + unfold reconcile. replace (without_schedulers ∅) with (∅ : EbpfMap) by (symmetry; apply map_filter_empty).
      assert (Hneq : Configs.ebpfs_eqb base ∅ = false).
      { apply not_true_iff_false. rewrite ebpfs_eqb_spec. apply Hfirst. }
      rewrite Hneq. cbn [negb]. erewrite st_bind_ok; [| eapply rebuild_run; [apply Hfirst | exact Hserved | exact Hsome | apply Hfirst | exact Hcm | exact Hup]].
      rewrite uiter_empty_map. cbn [for_each]. erewrite st_bind_ok by done. exact Hload.
    + apply (sorted_by_order h i). rewrite <- Hsort. apply std_sort_sorted.
    + rewrite Hcs. apply Forall_fmap. rewrite (loading_order_perm _ _ _ _ _ _ _ _ _ _ Hfirst Hplain) in Hholds.
      apply Forall_cons in Hholds as [_ Hholds]. exact Hholds.
    + rewrite (loading_order_perm _ _ _ _ _ _ _ _ _ _ Hfirst Hplain) in Hholds. by apply Forall_cons in Hholds as [? _].
Qed.

(** the same through the daemon *)
Lemma first_daemon (config : Configs.t) (d : Daemon loader) h i pid s p k maps m a :
  config_ok (li_loadable (L := loader)) (Configs.getEbpfs config) -> daemon_ok ∅ d -> loaded (loader_ d) = ∅ ->
  chain_mgr_ (loader_ d) = Some (p, k) -> first_configuration h i (Configs.getEbpfs config) pid s p k maps m a ->
  exists d' p' k' m' a' cs, update std_sort config d = (Ok tt, d') /\ daemon_ok (Configs.getEbpfs config) d' /\
    cs ≡ₚ (map_to_list (Configs.getEbpfs config)).*2 /\ Sorted by_order cs /\
    chain_mgr_ (loader_ d') = Some (p', k') /\
    hashes k' !! id_hash_fd maps = Some m' /\ arrays k' !! prog_array_fd maps = Some a' /\
    (forall (body : Z -> program) data,
      run_packet prog_id body MAX_TAIL_CALL_CNT m' a' i s data = process body s (pid <$> cs) data) /\
    Forall (fun c => holds h i c (loader_ d')) cs /\ holds h i (scheduler_entry h i) (loader_ d').
Proof.
  intros Hok Hd Hempty Hcm Hfirst.
  destruct (first_update _ _ _ _ _ _ _ _ _ _ _ Hok (dk_inv _ _ Hd) Hempty Hcm Hfirst)
    as (l' & k' & m' & a' & cs & Hrec & Hcm' & Hm & Ha & Hcs & Hsorted & Hrun & Hholds & Hsched).
  assert (Hnone : config_ok (li_loadable (L := loader)) ∅).
  { split; [split; intros x c Hx; by rewrite lookup_empty in Hx |]. intros x1 x2 c1 c2 Hx. by rewrite lookup_empty in Hx. }
  destruct (update_spec std_sort std_sort_perm ∅ config d Hnone Hok) as (d' & Hup & Hd' & _); [| done |].
  { intros x1 x2 c1 c2 Hx. by rewrite lookup_empty in Hx. }
  assert (Hcur : current_ebpf_ d = ∅).
  { rewrite (dk_current _ _ Hd). apply map_empty. intros x. apply eq_None_not_Some. intros [c Hc].
    apply with_schedulers_spec in Hc as [Hc | (_ & ? & ? & (x' & c' & Hc & _) & _)]; by rewrite lookup_empty in Hc. }
  assert (Hl : loader_ d' = l').
  { revert Hup. unfold update. rewrite (st_bind_ok get _ d d d), Hcur by done.
    erewrite st_bind_ok; [| unfold on_loader; by rewrite Hrec]. by intros [= <-]. }
  exists d', (with_region h i p), k', m', a', cs. rewrite Hl. do 7 (split; [done |]). split; [| by split].
  intros body data. by rewrite run_packet_chain, Hrun.
Qed.

(** from a configuration to the packets.  A daemon with nothing loaded is
    told a configuration for one hook of one interface: the update succeeds,
    everything configured is loaded, and the kernel then does to every packet
    that enters the scheduler of that interface what the configured programs do
    one after the other in the order of their numbers, whatever those programs
    are and in whatever order the table of the configuration is iterated. *)
Theorem configuration_reaches_packets (config : Configs.t) (d : Daemon loader)
  (h : HookType) (i : Z) (pid : ConfigEbpf.t -> Z) (s : Z)
  (p : PinnedProgMap) (k : Kernel M A) (maps : HookMaps) (m : M) (a : A)
  (Hok : config_ok (li_loadable (L := loader)) (Configs.getEbpfs config))
  (Hd : daemon_ok ∅ d) (Hempty : loaded (loader_ d) = ∅) (Hcm : chain_mgr_ (loader_ d) = Some (p, k))
  (Hfirst : first_configuration h i (Configs.getEbpfs config) pid s p k maps m a) :
  exists d' p' k' m' a' cs, update std_sort config d = (Ok tt, d') /\ daemon_ok (Configs.getEbpfs config) d' /\
    cs ≡ₚ (map_to_list (Configs.getEbpfs config)).*2 /\ Sorted by_order cs /\
    chain_mgr_ (loader_ d') = Some (p', k') /\
    hashes k' !! id_hash_fd maps = Some m' /\ arrays k' !! prog_array_fd maps = Some a' /\
    forall (body : Z -> program) data,
      run_packet prog_id body MAX_TAIL_CALL_CNT m' a' i s data = process body s (pid <$> cs) data.
Proof.
  destruct (first_daemon config d h i pid s p k maps m a Hok Hd Hempty Hcm Hfirst)
    as (d' & p' & k' & m' & a' & cs & H1 & H2 & H3 & H4 & H5 & H6 & H7 & H8 & _).
  by exists d', p', k', m', a', cs.
Qed.

End System.

(** ** A concrete machine *)

Module Sample.

Import ProgMap.Sample.
#[local] Existing Instance release_build.
#[local] Instance order_string : UMapOrder string := default_order string.
#[local] Instance order_Z : UMapOrder Z := default_order Z.
#[local] Instance order_hook : UMapOrder HookType := default_order HookType.
#[local] Existing Instance array_ops.
#[local] Existing Instance array_laws.
#[local] Existing Instance Loader.Sample.watcher_if.
#[local] Existing Instance Loader.Sample.watcher_laws.

(** a service is the descriptor of its program *)
#[local] Instance service : EbpfIf Z nat := {|
  getName := fun fd => if fd =? 103 then "acl" else if fd =? 107 then "lb" else "scheduler";
  start := fun _ fd => (Ok true, fd);
  Loader.stop := fun fd => (Ok tt, fd);
  onConfigUpdate := fun _ _ _ fd => (Ok tt, fd);
  getMainProgFd := fun fd => fd;
  getPrometheusStatus := fun _ => 0%nat;
  getDebugStatus := fun _ => 0%nat
|}.
#[local] Program Instance service_laws : EbpfLaws Z nat := {|
  serving := fun _ => True; stopped := fun _ => True; accepts := fun _ _ => True |}.
Next Obligation. intros h i j s _ _. by exists s. Qed.
Next Obligation. intros s _. by exists s. Qed.

Definition acl_lib : string := "/lib/libhebpf_acl_xdp.so".
Definition lb_lib : string := "/lib/libhebpf_lb_xdp.so".
Definition dl (path : string) : library Z :=
  Service (if (path =? acl_lib)%string then 103 else if (path =? lb_lib)%string then 107 else 105).
Definition read_json (path : string) : nat := 0%nat.

Abbreviation machine := (Loader Z Loader.Sample.watchers (chain (M := RefHash.t Z Z) (A := gmap Z Z))).
#[local] Instance ops : LoaderIf machine Z := the_loader dl 0%nat read_json.
#[local] Instance laws : LoaderLaws machine Z := the_loader_laws dl 0%nat read_json.

(** in the table of the configuration the load balancer comes first *)
Definition acl : ConfigEbpf.t := ConfigEbpf.mk acl_lib "/etc/acl.json" XDP_GENERIC 2 1.
Definition lb : ConfigEbpf.t := ConfigEbpf.mk lb_lib "" XDP_GENERIC 2 2.
Definition base : EbpfMap := <[ "a" := lb ]> {[ "b" := acl ]}.
Definition config : Configs.t := Configs.setEbpfs base Configs.default.
Definition pid (c : ConfigEbpf.t) : Z := if (ConfigEbpf.getLib c =? acl_lib)%string then 3 else 7.

Definition no_regions : PinnedProgMap := mkProgMap {[ XDP_GENERIC := maps ]} ∅ true getDefaultProgMap.
Definition fresh : Daemon machine :=
  mkDaemon (mkLoader ∅ true (Some ∅) (Some (no_regions, kernel ∅)) []) true ∅ false false.

Definition before (e1 e2 : order_entry) : Prop := e1.1.1 <= e2.1.1.
#[export] Instance before_dec e1 e2 : Decision (before e1 e2) := Z_le_dec e1.1.1 e2.1.1.
#[export] Instance before_total : Total before.
Proof. intros e1 e2. unfold before. lia. Qed.
Definition sort : list order_entry -> list order_entry := merge_sort before.

Lemma base_entry x c : base !! x = Some c -> (x = "a" /\ c = lb) \/ (x = "b" /\ c = acl).
Proof.
  unfold base. intros [[<- <-] | [_ Hx]]%lookup_insert_Some; [by left |].
  apply lookup_singleton_Some in Hx as [<- <-]. by right.
Qed.

Lemma scheduler_here : loadable dl 0%nat read_json (scheduler_so XDP_GENERIC 2) XDP_GENERIC 2 "".
Proof.
  split; [done | done | done | |].
  - exists 105. split; [vm_compute; reflexivity |]. by exists 105.
  - left. split; vm_compute; reflexivity.
Qed.

Lemma config_fine : config_ok (li_loadable (L := machine)) (Configs.getEbpfs config).
Proof.
  change (Configs.getEbpfs config) with base. split; [split |].
  - intros x c [[-> ->] | [-> ->]]%base_entry; reflexivity.
  - intros x c [[-> ->] | [-> ->]]%base_entry; reflexivity.
  - intros x c [[-> ->] | [-> ->]]%base_entry; done.
  - intros x c [[-> ->] | [-> ->]]%base_entry; (split; [| exact scheduler_here]); split; try done.
    + exists 107. split; [vm_compute; reflexivity |]. by exists 107.
    + right. split; vm_compute; reflexivity.
    + exists 103. split; [vm_compute; reflexivity |]. by exists 103.
    + right. split; vm_compute; reflexivity.
  - intros x1 x2 c1 c2 [[-> ->] | [-> ->]]%base_entry [[-> ->] | [-> ->]]%base_entry; done.
Qed.

Lemma fresh_fine : daemon_ok ∅ fresh.
Proof.
  split.
  - split; [by exists ∅ | by eexists | done | apply map_Forall_empty].
  - vm_compute. reflexivity.
  - intros x c Hx. apply with_schedulers_spec in Hx as [Hx | (_ & h & i & (x' & c' & Hx' & _) & _)]; by rewrite lookup_empty in *.
  - intros x _ [v Hv]. discriminate Hv.
  - intros x v _ Hv. discriminate Hv.
Qed.

(** the program of a library whose service is its descriptor *)
Lemma program_of c name fd d :
  dl (real_path (ConfigEbpf.getLib c)) = Service fd -> getCanonicalName XDP_GENERIC PROGRAM (getName fd) = Ok name ->
  insertion Datatypes.id prog_of_fd XDP_GENERIC no_regions (name, fd) d ->
  entry_program Datatypes.id prog_of_fd dl 0%nat read_json XDP_GENERIC 2 no_regions c (name, fd) d.
Proof.
  intros Hdl Hname Hins. split; [exact Hins |]. exists fd, fd. split; [| by split]. split; [by exists fd |]. by case_match.
Qed.

Lemma first : first_configuration Datatypes.id prog_of_fd dl 0%nat read_json XDP_GENERIC 2 (Configs.getEbpfs config) pid 5
  no_regions (kernel ∅) maps hash ∅.
Proof.
  change (Configs.getEbpfs config) with base.
  assert (Hins : forall name fd info, lookupProgInfo name no_regions = Some info -> Names.hook info = XDP_GENERIC ->
    100 <= fd -> Names.id info = fd - 100 -> insertion Datatypes.id prog_of_fd XDP_GENERIC no_regions (name, fd) (fd - 100)).
  { intros name fd info Hreg Hh Hfd Hid. exists info, (fd - 100). cbn [fst snd]. split_and!; try done; [lia |].
    unfold prog_of_fd. by rewrite (proj2 (Z.leb_le _ _) Hfd). }
  split; try reflexivity; try done.
  - intros x c [[-> ->] | [-> ->]]%base_entry; done.
  - intros x c [[-> ->] | [-> ->]]%base_entry.
    + exists ("LB_XDP_GENERIC", 107). split; [| vm_compute; reflexivity]. apply program_of; [vm_compute; reflexivity .. |].
      by eapply (Hins _ 107); [vm_compute; reflexivity | ..].
    + exists ("ACL_XDP_GENERIC", 103). split; [| vm_compute; reflexivity]. apply program_of; [vm_compute; reflexivity .. |].
      by eapply (Hins _ 103); [vm_compute; reflexivity | ..].
  - exists 105. apply program_of; [vm_compute; reflexivity .. |].
    by eapply (Hins _ 105); [vm_compute; reflexivity | ..].
  - refine (bool_decide_unpack _ _). vm_compute. exact Logic.I.
  - exact registry_ok.
  - vm_compute. lia.
Qed.

(** the ACL, then the load balancer *)
Lemma configuration_reaches_packets_witness :
  exists d' m' (a' : gmap Z Z) cs, update sort config fresh = (Ok tt, d') /\ cs ≡ₚ [lb; acl] /\ Sorted by_order cs /\
    forall data, run_packet Datatypes.id Packet.Sample.bodies MAX_TAIL_CALL_CNT (m' : RefHash.t Z Z) a' 2 5 data
      = process Packet.Sample.bodies 5 (pid <$> cs) data.
Proof.
  destruct (configuration_reaches_packets Datatypes.id prog_of_fd dl 0%nat read_json sort
              (merge_sort_Permutation before) (Sorted_merge_sort before)
              config fresh XDP_GENERIC 2 pid 5 no_regions (kernel ∅) maps hash ∅
              config_fine fresh_fine eq_refl eq_refl first)
    as (d' & p' & k' & m' & a' & cs & Hup & _ & Hcs & Hs & _ & _ & _ & Hrun).
  exists d', m', a', cs. split; [exact Hup |]. split; [exact Hcs |]. split; [exact Hs | exact (Hrun _)].
Defined.

End Sample.
