(* ===== verification/Reconfig.v ===== *)
(** * Reconfigurations

    [Daemon::update] on a daemon that is already running programs, down to the
    chains of its hooks: what [System.v] shows of the first configuration is
    shown here of every later one.  Each hook the chain manager has maps for
    serves one interface, the one that owns the first region of the hook. *)

From stdpp Require Import sorting.
From S2P Require Import Prelude Configs Names BpfMap ProgMap Packet Loader Daemon System.

#[local] Open Scope string_scope.
#[local] Open Scope Z_scope.
#[local] Open Scope list_scope.

Section Reconfig.
Context {I J IM M A P : Type} `{!EbpfIf I J, !EbpfLaws I J} `{!InotifyManagerIf IM, !InotifyManagerLaws IM}.
Context `{!BpfHash M Z Z, !BpfHashLaws M Z Z} `{!BpfProgArray A P}.
Context (prog_id : P -> Z) (prog_of_fd : Z -> option P) `{!BpfProgArrayLaws A P prog_of_fd MAX_CHAIN_PROGS}.
Context `{!UMapOrder string, !UMapOrder Z, !UMapOrder HookType}.
#[local] Existing Instance release_build.
Context (dl : string -> library I) (json_null : J) (read_json : string -> J).
Context (std_sort : list order_entry -> list order_entry) (std_sort_perm : forall l, std_sort l ≡ₚ l)
  (std_sort_sorted : forall l, Sorted (fun e1 e2 : order_entry => e1.1.1 <= e2.1.1) (std_sort l)).

Abbreviation loader := (Loader I IM (chain (M := M) (A := A))).
#[local] Instance reconfig_loader : LoaderIf loader I := the_loader dl json_null read_json.
#[local] Instance reconfig_laws : LoaderLaws loader I := the_loader_laws dl json_null read_json.

(** the interface of each hook, its maps, and the manager without its regions *)
Context (nic : HookType -> Z) (hmaps : HookType -> HookMaps) (p0 : PinnedProgMap).

(** ** What a configuration asks of the chains *)

Definition prepared (h : HookType) : Prop := hook_maps_ p0 !! h = Some (hmaps h).

Definition program_id (name : string) : Z :=
  match lookupProgInfo name p0 with Some info => Names.id info | None => -1 end.
Definition sched (h : HookType) : Z := program_id (scheduler_name h).

Definition own_name (c : ConfigEbpf.t) : string := entry_name (ConfigEbpf.getHook c) c.
Definition own_program (c : ConfigEbpf.t) : Z := program_id (own_name c).

(** the entries of a hook, and its chain as [update] hands it to the manager *)
Definition hook_entries (h : HookType) (base : EbpfMap) : list ConfigEbpf.t :=
  filter (fun c => ConfigEbpf.getHook c = h) (uiter base).*2.
Definition chain_of (h : HookType) (base : EbpfMap) : list (string * Z) :=
  (fun e => (e.1.2, e.2)) <$> std_sort (as_entry h (nic h) <$> hook_entries h base).
Definition names (h : HookType) (base : EbpfMap) : list string := (chain_of h base).*1.
Definition ids (h : HookType) (base : EbpfMap) : list Z := program_id <$> names h base.

Definition known_as (h : HookType) (name : string) : Prop :=
  exists info, lookupProgInfo name p0 = Some info /\ Names.hook info = h.

(** the chain manager: its maps are apart from each other *)
Record manager_ok : Prop := {
  mo_init : initialized_ p0 = true;
  mo_registry : registry_wf p0;
  mo_hash : forall h h', prepared h -> prepared h' -> id_hash_fd (hmaps h) = id_hash_fd (hmaps h') -> h = h';
  mo_array : forall h h', prepared h -> prepared h' -> prog_array_fd (hmaps h) = prog_array_fd (hmaps h') -> h = h';
  mo_nic : forall h, prepared h -> 0 < nic h < 2 ^ 32;
  mo_sched : forall h, prepared h -> h <> UNKNOWN /\ known_as h (scheduler_name h)
}.

(** an entry for the interface of its hook, whose program is known under the
    name its library file gives it *)
Definition entry_fine (c : ConfigEbpf.t) : Prop :=
  let h := ConfigEbpf.getHook c in
  prepared h /\ ConfigEbpf.getIfindex c = nic h /\ getCanonicalName h LIBRARY (ConfigEbpf.getLib c) = Ok (own_name c) /\
  (exists fd, entry_program prog_id prog_of_fd dl json_null read_json h (nic h) p0 c (own_name c, fd) (own_program c)) /\
  exists fd, entry_program prog_id prog_of_fd dl json_null read_json h (nic h) p0 (scheduler_entry h (nic h))
    (scheduler_name h, fd) (sched h).

(** ... and chains that fit *)
Record chains_fit (base : EbpfMap) : Prop := {
  cf_entries : map_Forall (fun _ c => entry_fine c) base;
  cf_nodup : forall h, prepared h -> NoDup (sched h :: ids h base);
  cf_fits : forall h, prepared h -> Z.of_nat (S (length (ids h base))) <= MAX_CHAIN_PROGS
}.

(** ** The tables of the chains *)

Definition index_at (k : Kernel M A) (h : HookType) (d : Z) : option Z :=
  m ← hashes k !! id_hash_fd (hmaps h); bpf_lookup m (CHAIN_KEY (nic h) d).
Definition slot_at (k : Kernel M A) (h : HookType) (j : Z) : option P :=
  a ← arrays k !! prog_array_fd (hmaps h); pa_lookup a j.

(** the maps of a hook exist, and the id hash can be rebuilt *)
Definition tables_ok (k : Kernel M A) (h : HookType) : Prop :=
  (exists m, hashes k !! id_hash_fd (hmaps h) = Some m /\ bpf_lookup m 0 = None /\ (Z.to_nat MAX_CHAIN_PROGS <= bpf_max m)%nat) /\
  is_Some (arrays k !! prog_array_fd (hmaps h)).

(** the n-th program has number n, the scheduler being the first *)
Definition indexed (k : Kernel M A) (h : HookType) (l : list Z) : Prop :=
  forall n d, (sched h :: l) !! n = Some d -> index_at k h d = Some (Z.of_nat n).
(** ... and is in slot n *)
Definition in_slot (k : Kernel M A) (h : HookType) (n : nat) (d : Z) : Prop :=
  exists q, slot_at k h (Z.of_nat (S n)) = Some q /\ prog_id q = d.

Definition region_fine (R : gmap HookType (gmap Z Region)) (h : HookType) : Prop :=
  default ∅ (R !! h) = ∅ \/ R !! h = Some {[ nic h := mkRegion 0 ]}.

(** the chains of all hooks run what [base] says *)
Record chains_run (base : EbpfMap) (k : Kernel M A) : Prop := {
  cr_tables : forall h, prepared h -> tables_ok k h;
  cr_index : forall h, prepared h -> ids h base <> [] -> indexed k h (ids h base);
  cr_slots : forall h n d, prepared h -> ids h base !! n = Some d -> in_slot k h n d
}.

Definition manager_at (k : Kernel M A) (l : loader) : Prop :=
  exists R, chain_mgr_ l = Some (set_regions R p0, k) /\ forall h, prepared h -> region_fine R h.

Definition chained_as (base : EbpfMap) (l : loader) : Prop :=
  exists k, manager_at k l /\ chains_run base k.

(** ** The chain of one hook *)

Lemma names_of_all i (l : list (string * Z)) : Forall (fun e => e.2 = i) l -> names_of i l = l.*1.
Proof.
  unfold names_of. induction 1 as [| e l He _ IH]; [done |]. rewrite filter_cons_True by done. cbn. by rewrite IH.
Qed.

Lemma names_of_none i j (l : list (string * Z)) : Forall (fun e => e.2 = i) l -> j <> i -> names_of j l = [].
Proof.
  intros Hl Hj. unfold names_of. induction Hl as [| e l He _ IH]; [done |]. rewrite filter_cons_False by congruence. done.
Qed.

(** the sorted entries of a hook *)
Lemma chain_of_entries h base :
  exists cs, cs ≡ₚ hook_entries h base /\ Sorted by_order cs /\
    chain_of h base = (fun c => (entry_name h c, nic h)) <$> cs /\ names h base = own_name <$> cs.
Proof.
  destruct (Permutation_map_inv _ _ (std_sort_perm (as_entry h (nic h) <$> hook_entries h base))) as (cs & Hsort' & Hperm).
  assert (Hsort : std_sort (as_entry h (nic h) <$> hook_entries h base) = as_entry h (nic h) <$> cs) by exact Hsort'. clear Hsort'.
  assert (Hchain : chain_of h base = (fun c => (entry_name h c, nic h)) <$> cs).
  { unfold chain_of. by rewrite Hsort, <- list_fmap_compose. }
  exists cs. split; [by symmetry |]. split; [| split; [exact Hchain |]].
  - apply (sorted_by_order h (nic h)). rewrite <- Hsort. apply std_sort_sorted.
  - unfold names. rewrite Hchain, <- list_fmap_compose. apply list_fmap_ext. intros n c Hn. unfold own_name. cbn.
    assert (Hc : c ∈ hook_entries h base) by (rewrite Hperm; by eapply list_elem_of_lookup_2).
    apply list_elem_of_filter in Hc as [-> _]. done.
Qed.

Lemma chain_of_nic h base : Forall (fun e => e.2 = nic h) (chain_of h base).
Proof.
  destruct (chain_of_entries h base) as (cs & _ & _ & -> & _). apply Forall_fmap, Forall_true. done.
Qed.

Lemma hook_entries_elem h base c :
  c ∈ hook_entries h base <-> ConfigEbpf.getHook c = h /\ exists k, base !! k = Some c.
Proof.
  unfold hook_entries. rewrite list_elem_of_filter, uiter_perm, list_elem_of_fmap. split.
  - intros [Hh ([k c'] & -> & Hin)]. split; [done |]. exists k. by apply elem_of_map_to_list.
  - intros [Hh [k Hk]]. split; [done |]. exists (k, c). split; [done |]. by apply elem_of_map_to_list.
Qed.

Lemma names_elem h base name :
  name ∈ names h base <-> exists k c, base !! k = Some c /\ ConfigEbpf.getHook c = h /\ own_name c = name.
Proof.
  destruct (chain_of_entries h base) as (cs & Hperm & _ & _ & ->). rewrite list_elem_of_fmap. split.
  - intros (c & -> & Hc). rewrite Hperm in Hc. apply hook_entries_elem in Hc as [Hh [k Hk]]. by exists k, c.
  - intros (k & c & Hk & Hh & <-). exists c. split; [done |]. rewrite Hperm. apply hook_entries_elem. eauto.
Qed.

Lemma ids_lookup h base n d : ids h base !! n = Some d <-> exists name, names h base !! n = Some name /\ d = program_id name.
Proof. unfold ids. rewrite list_lookup_fmap_Some. naive_solver. Qed.

Lemma ids_nil h base : ids h base = [] <-> forall k c, base !! k = Some c -> ConfigEbpf.getHook c <> h.
Proof.
  unfold ids. split.
  - intros Hnil%fmap_nil_inv k c Hk Hh. assert (Hin : own_name c ∈ names h base) by (apply names_elem; eauto).
    rewrite Hnil in Hin. by apply not_elem_of_nil in Hin.
  - intros Hnone. destruct (names h base) as [| name l] eqn:E; [done |].
    assert (Hin : name ∈ names h base) by (rewrite E; left). apply names_elem in Hin as (k & c & Hk & Hh & _).
    by destruct (Hnone k c Hk).
Qed.

Lemma ids_some h base : hook_entries h base <> [] -> ids h base <> [].
Proof.
  destruct (chain_of_entries h base) as (cs & Hperm & _ & _ & Hnames). intros Hne. unfold ids. rewrite Hnames.
  intros Hnil%fmap_nil_inv%fmap_nil_inv. apply Hne. rewrite Hnil in Hperm. by apply Permutation_nil_l in Hperm.
Qed.

Lemma chain_ids_registered h R (l : list string) :
  Forall (known_as h) l -> chain_ids h (set_regions R p0) l = program_id <$> l.
Proof.
  induction 1 as [| name l (info & Hreg & Hh) _ IH]; [done |]. unfold chain_ids in *. cbn.
  change (lookupProgInfo name (set_regions R p0)) with (lookupProgInfo name p0). unfold program_id at 1.
  rewrite Hreg. cbn. rewrite bool_decide_eq_false_2 by tauto. cbn. by rewrite <- IH.
Qed.

Lemma insertion_registered h p name fd d : insertion prog_id prog_of_fd h p (name, fd) d -> lookupProgInfo name p = lookupProgInfo name p0 ->
  known_as h name.
Proof. intros (info & q & Hreg & Hh & _) Heq. exists info. by rewrite <- Heq. Qed.

Section Config.
Context (base : EbpfMap) (Hman : manager_ok) (Hfit : chains_fit base).

Lemma names_registered h : Forall (known_as h) (names h base).
Proof.
  apply Forall_forall. intros name Hin. apply names_elem in Hin as (k & c & Hk & <- & <-).
  destruct (cf_entries _ Hfit k c Hk) as (_ & _ & _ & (fd & Hins & _) & _). by eapply insertion_registered.
Qed.

Lemma chained_ids h R : prepared h -> chained h (set_regions R p0) (names h base) = sched h :: ids h base.
Proof.
  intros Hh. unfold chained. rewrite chain_ids_registered; [done |]. constructor; [by apply mo_sched | apply names_registered].
Qed.

Lemma chained_alone h R : prepared h -> chained h (set_regions R p0) [] = [sched h].
Proof. intros Hh. unfold chained. rewrite chain_ids_registered; [done |]. constructor; [by apply mo_sched | done]. Qed.

Lemma ids_range h d : prepared h -> d ∈ sched h :: ids h base -> 0 <= d < 2 ^ 32.
Proof.
  intros Hh Hd. apply (chain_ids_range h p0 (scheduler_name h :: names h base) d); [by apply mo_registry |].
  rewrite <- (chained_ids h (regions_ p0) Hh) in Hd. exact Hd.
Qed.

End Config.

(** ** Rebuilding the chains of all hooks *)

Definition own_entry (c : ConfigEbpf.t) : order_entry := as_entry (ConfigEbpf.getHook c) (ConfigEbpf.getIfindex c) c.

Lemma hook_order_temp_all l : forall m,
  Forall (fun kc : string * ConfigEbpf.t => getCanonicalName (ConfigEbpf.getHook kc.2) LIBRARY (ConfigEbpf.getLib kc.2) = Ok (own_name kc.2)) l ->
  exists m', hook_order_temp l m = Ok m' /\ forall h,
    m' !! h = match filter (fun c => ConfigEbpf.getHook c = h) l.*2 with
              | [] => m !! h
              | cs => Some (default [] (m !! h) ++ (own_entry <$> cs))
              end.
Proof.
  induction l as [| [k c] l IH]; intros m Hl; [by exists m |]. apply Forall_cons in Hl as [Hc Hl]. cbn [snd] in Hc.
  cbn [hook_order_temp]. rewrite Hc. cbn [mbind result_bind].
  destruct (IH (<[ConfigEbpf.getHook c := default [] (m !! ConfigEbpf.getHook c) ++ [own_entry c]]> m) Hl) as (m' & Hm' & Hspec).
  exists m'. split; [exact Hm' |]. intros h. rewrite Hspec, fmap_cons, filter_cons. cbn [snd].
  destruct (decide (ConfigEbpf.getHook c = h)) as [<- | Hne].
  - rewrite lookup_insert_eq. cbn. destruct (filter _ l.*2) as [| c' cs]; [done |]. by rewrite <- app_assoc.
  - by rewrite lookup_insert_ne.
Qed.

Section Rebuild.
Context (new : EbpfMap) (Hman : manager_ok) (Hfit : chains_fit new).

Lemma hook_entries_own h : own_entry <$> hook_entries h new = as_entry h (nic h) <$> hook_entries h new.
Proof.
  apply list_fmap_ext. intros n c Hn. apply list_elem_of_lookup_2, hook_entries_elem in Hn as [<- [k Hk]].
  destruct (cf_entries _ Hfit k c Hk) as (_ & Hi & _). unfold own_entry. by rewrite Hi.
Qed.

(** the chains, each hook that has entries once *)
Lemma rebuild_order :
  exists temp, hook_order_temp (uiter new) ∅ = Ok temp /\
    forall h v, (h, v) ∈ uiter (hook_order std_sort temp) <-> hook_entries h new <> [] /\ v = chain_of h new.
Proof.
  destruct (hook_order_temp_all (uiter new) ∅) as (temp & Htemp & Hspec).
  { rewrite uiter_perm. apply Forall_forall. intros [k c] Hin. apply elem_of_map_to_list in Hin.
    by destruct (cf_entries _ Hfit k c Hin) as (_ & _ & ? & _). }
  exists temp. split; [exact Htemp |]. intros h v.
  rewrite uiter_perm, elem_of_map_to_list. unfold hook_order. rewrite lookup_fmap, Hspec, lookup_empty.
  fold (hook_entries h new). pose proof (hook_entries_own h) as Hown. unfold chain_of. rewrite <- Hown.
  destruct (hook_entries h new) as [| c cs]; cbn [fmap option_fmap option_map default app]; [naive_solver |]. split.
  - intros [= <-]. by split.
  - by intros [_ ->].
Qed.

Lemma hook_entries_prepared h : hook_entries h new <> [] -> prepared h.
Proof.
  destruct (hook_entries h new) as [| c cs] eqn:E; [done |]. intros _.
  assert (Hc : c ∈ hook_entries h new) by (rewrite E; left). apply hook_entries_elem in Hc as [<- [k Hk]].
  by destruct (cf_entries _ Hfit k c Hk).
Qed.

Lemma ids_prepared h : ids h new <> [] -> prepared h.
Proof.
  intros Hne. apply hook_entries_prepared. intros Hnil. apply Hne, ids_nil. intros x c Hx Hh.
  assert (Hin : c ∈ hook_entries h new) by (apply hook_entries_elem; eauto). rewrite Hnil in Hin. by apply not_elem_of_nil in Hin.
Qed.

Lemma chain_of_some h : hook_entries h new <> [] -> chain_of h new <> [].
Proof.
  intros Hne. destruct (chain_of_entries h new) as (cs & Hperm & _ & -> & _). intros Hnil. apply fmap_nil_inv in Hnil.
  rewrite Hnil in Hperm. by apply Permutation_nil_l in Hperm.
Qed.

Lemma update_ready h R (k : Kernel M A) (m : M) :
  prepared h -> hook_entries h new <> [] -> R !! h = Some {[ nic h := mkRegion 0 ]} ->
  hashes k !! id_hash_fd (hmaps h) = Some m -> bpf_lookup m 0 = None -> (Z.to_nat MAX_CHAIN_PROGS <= bpf_max m)%nat ->
  chain_ready h (chain_of h new) (set_regions R p0) k (hmaps h) m.
Proof.
  intros Hh Hne HR Hm H0 Hmax.
  assert (Hstart : getStartIndex h (nic h) (set_regions R p0) = 0).
  { unfold getStartIndex. cbn. by rewrite HR, lookup_singleton_eq. }
  split; try done.
  - by apply mo_sched.
  - by apply mo_init.
  - assert (Hgroup : group_by_ifindex (chain_of h new) = {[ nic h := names h new ]}).
    { apply map_eq. intros j. rewrite group_by_ifindex_lookup. destruct (decide (j = nic h)) as [-> | Hj].
      - rewrite names_of_all, lookup_singleton_eq by apply chain_of_nic. unfold names.
        pose proof (chain_of_some h Hne). by destruct (chain_of h new).
      - by rewrite (names_of_none (nic h) j), lookup_singleton_ne by (done || apply chain_of_nic). }
    rewrite Hgroup, map_to_list_singleton. unfold nics_entries. cbn. rewrite app_nil_r. unfold nic_entries. cbn [fst snd].
    rewrite Hstart, (chained_ids new Hman Hfit h R Hh). change (MAX_PER_NIC_PROGS <=? 0) with false. cbn iota.
    rewrite length_number. cbn. pose proof (cf_fits _ Hfit h Hh). lia.
  - intros e He. pose proof (chain_of_nic h new) as Hall. rewrite Forall_forall in Hall. rewrite (Hall e He). split.
    + by apply mo_nic.
    + by rewrite Hstart.
  - by apply mo_registry.
Qed.

(** what updating the chain of one hook does to the tables *)
Lemma update_tables h R (k : Kernel M A) :
  prepared h -> hook_entries h new <> [] -> R !! h = Some {[ nic h := mkRegion 0 ]} ->
  (forall h', prepared h' -> tables_ok k h') ->
  exists k', updateChain h (chain_of h new) (set_regions R p0) k = Ok (true, k') /\ arrays k' = arrays k /\
    (forall h', prepared h' -> tables_ok k' h') /\ indexed k' h (ids h new) /\
    forall h', prepared h' -> h' <> h -> hashes k' !! id_hash_fd (hmaps h') = hashes k !! id_hash_fd (hmaps h').
Proof.
  intros Hh Hne HR Htab. destruct (Htab h Hh) as [(m & Hm & H0 & Hmax) _].
  pose proof (update_ready h R k m Hh Hne HR Hm H0 Hmax) as Hready.
  assert (Hnames : names_of (nic h) (chain_of h new) = names h new) by apply names_of_all, chain_of_nic.
  destruct (updateChain_slots _ _ _ _ _ _ Hready) as (m' & Hup & Hmax' & H0' & Hslots).
  { intros i. destruct (decide (i = nic h)) as [-> | Hi].
    - rewrite Hnames, (chained_ids new Hman Hfit h R Hh). by apply (cf_nodup _ Hfit).
    - rewrite (names_of_none (nic h) i) by (done || apply chain_of_nic). rewrite (chained_alone Hman h R) by done. apply NoDup_singleton. }
  exists (set_hash (id_hash_fd (hmaps h)) m' k). split; [exact Hup |]. split; [done |].
  assert (Hother : forall h', prepared h' -> h' <> h ->
    hashes (set_hash (id_hash_fd (hmaps h)) m' k) !! id_hash_fd (hmaps h') = hashes k !! id_hash_fd (hmaps h')).
  { intros h' Hh' Hne'. unfold set_hash. cbn. rewrite lookup_insert_ne; [done |]. intros Heq. by apply Hne', mo_hash. }
  split; [| split; [| exact Hother]].
  - intros h' Hh'. destruct (decide (h' = h)) as [-> | Hne'].
    + split; [| exact (proj2 (Htab h Hh))]. exists m'. unfold set_hash. cbn. rewrite lookup_insert_eq. by rewrite Hmax'.
    + unfold tables_ok. rewrite Hother by done. exact (Htab h' Hh').
  - intros n d Hn. unfold index_at, set_hash. cbn. rewrite lookup_insert_eq. cbn. rewrite Hslots.
    + unfold chain_slot. rewrite Hnames, (chained_ids new Hman Hfit h R Hh).
      assert (Hstart : getStartIndex h (nic h) (set_regions R p0) = 0).
      { unfold getStartIndex. cbn. by rewrite HR, lookup_singleton_eq. }
      rewrite Hstart, decide_True.
      * rewrite (position_NoDup d _ n); [| by apply (cf_nodup _ Hfit) | done]. cbn. f_equal.
        pose proof (lookup_lt_Some _ _ _ Hn) as Hlt. cbn in Hlt. pose proof (cf_fits _ Hfit h Hh) as Hroom.
        chain_consts. apply u32_small. lia.
      * split; [| chain_consts; lia]. unfold names. pose proof (chain_of_some h Hne). by destruct (chain_of h new).
    + pose proof (mo_nic Hman h Hh). lia.
    + eapply (ids_range new); try done. by eapply list_elem_of_lookup_2.
Qed.

Lemma allocate_hook h R (k : Kernel M A) (l : loader) :
  prepared h -> hook_entries h new <> [] -> region_fine R h -> chain_mgr_ l = Some (set_regions R p0, k) ->
  for_each (allocate_entry dl json_null read_json h) (chain_of h new) l =
    (Ok tt, set_chain (Some (set_regions (<[h := {[ nic h := mkRegion 0 ]}]> R) p0, k)) l).
Proof.
  intros Hh Hne HR Hcm. pose proof (mo_nic Hman h Hh) as Hnic. pose proof (chain_of_nic h new) as Hall. destruct HR as [HR | HR].
  - by apply (allocate_all dl json_null read_json h (nic h) (chain_of h new) (set_regions R p0) k l); [lia | apply chain_of_some | ..].
  - rewrite insert_id by done. replace (set_chain (Some (set_regions R p0, k)) l) with l by (destruct l; cbn in *; by subst).
    apply (allocate_again dl json_null read_json h (nic h) (chain_of h new) (set_regions R p0) k l); [lia | done |].
    unfold with_region. change (regions_ (set_regions R p0)) with R.
    change (set_regions ?X (set_regions R p0)) with (set_regions X p0). by rewrite insert_id.
Qed.

Lemma hook_chain_updated h R (k : Kernel M A) (l : loader) :
  prepared h -> hook_entries h new <> [] -> region_fine R h -> chain_mgr_ l = Some (set_regions R p0, k) ->
  (forall h', prepared h' -> tables_ok k h') ->
  exists k', update_hook_chain (h, chain_of h new) l =
      (Ok tt, set_chain (Some (set_regions (<[h := {[ nic h := mkRegion 0 ]}]> R) p0, k')) l) /\ arrays k' = arrays k /\
    (forall h', prepared h' -> tables_ok k' h') /\ indexed k' h (ids h new) /\
    forall h', prepared h' -> h' <> h -> hashes k' !! id_hash_fd (hmaps h') = hashes k !! id_hash_fd (hmaps h').
Proof.
  intros Hh Hne HR Hcm Htab.
  destruct (update_tables h (<[h := {[ nic h := mkRegion 0 ]}]> R) k Hh Hne) as (k' & Hup & Hrest); [by rewrite lookup_insert_eq | done |].
  exists k'. split; [| exact Hrest]. unfold update_hook_chain. cbn [fst snd].
  change (for_each _ (chain_of h new)) with (for_each (allocate_entry dl json_null read_json h) (chain_of h new)).
  rewrite (st_bind_ok _ _ _ _ _ (allocate_hook h R k l Hh Hne HR Hcm)).
  erewrite st_bind_ok; [done |]. cbn. unfold updateProgChain, on_chain. cbn. unfold chain_run. cbn. by rewrite Hup.
Qed.

(** the state of the loader while the hooks [done] are rebuilt; nothing but the
    chain manager changes *)
Definition rebuilding (k0 : Kernel M A) (l0 : loader) (done : list (HookType * list (string * Z))) (l : loader) : Prop :=
  exists R k, l = set_chain (Some (set_regions R p0, k)) l0 /\ (forall h, prepared h -> region_fine R h) /\
    arrays k = arrays k0 /\ (forall h, prepared h -> tables_ok k h) /\
    forall h v, (h, v) ∈ done -> indexed k h (ids h new).

Lemma region_fine_insert R h h' : region_fine R h' -> region_fine (<[h := {[ nic h := mkRegion 0 ]}]> R) h'.
Proof.
  intros HR. unfold region_fine. destruct (decide (h' = h)) as [-> | Hne]; [right; by rewrite lookup_insert_eq |].
  by rewrite lookup_insert_ne.
Qed.

Lemma rebuild_chains (k0 : Kernel M A) (l0 : loader) :
  manager_at k0 l0 -> (forall h, prepared h -> tables_ok k0 h) ->
  exists l, rebuild_chain std_sort new l0 = (Ok tt, l) /\
    exists R k, l = set_chain (Some (set_regions R p0, k)) l0 /\ (forall h, prepared h -> region_fine R h) /\
      arrays k = arrays k0 /\ (forall h, prepared h -> tables_ok k h) /\
      forall h, ids h new <> [] -> indexed k h (ids h new).
Proof.
  intros (R0 & Hcm & HR0) Htab. destruct rebuild_order as (temp & Htemp & Horder). unfold rebuild_chain. rewrite Htemp.
  change (exists l, for_each update_hook_chain (uiter (hook_order std_sort temp)) l0 = (Ok tt, l) /\
    exists R k, l = set_chain (Some (set_regions R p0, k)) l0 /\ (forall h, prepared h -> region_fine R h) /\
      arrays k = arrays k0 /\ (forall h, prepared h -> tables_ok k h) /\
      forall h, ids h new <> [] -> indexed k h (ids h new)).
  destruct (succeeds_for_each (rebuilding k0 l0) update_hook_chain (uiter (hook_order std_sort temp))) with (s := l0)
    as ([] & l & Hrun & (R & k & -> & HR & Harr & Htabs & Hidx)).
  - intros before [h v] after Heq l (R & k & -> & HR & Harr & Htabs & Hidx).
    assert (Hin : (h, v) ∈ uiter (hook_order std_sort temp)) by (rewrite Heq; set_solver).
    apply Horder in Hin as [Hne ->]. pose proof (hook_entries_prepared h Hne) as Hh.
    destruct (hook_chain_updated h R k (set_chain (Some (set_regions R p0, k)) l0) Hh Hne) as (k' & Hrun & Harr' & Htabs' & Hidx' & Hsame);
      [by apply HR | done | done |].
    eexists tt, _. split; [exact Hrun |]. exists (<[h := {[ nic h := mkRegion 0 ]}]> R), k'. split; [done |].
    split; [intros h' Hh'; by apply region_fine_insert, HR |]. split; [congruence |]. split; [done |].
    intros h' v' Hin. destruct (decide (h' = h)) as [-> | Hne']; [done |].
    apply elem_of_app in Hin as [Hin | Hin]; [| apply list_elem_of_singleton in Hin; congruence].
    assert (Hh' : prepared h').
    { apply hook_entries_prepared. apply (Horder h' v'). rewrite Heq. set_solver. }
    intros n d Hn. unfold index_at. rewrite Hsame by done. by apply (Hidx h' v' Hin).
  - exists R0, k0. split; [destruct l0; cbn in *; by subst |]. do 3 (split; [done |]). by intros h v ?%not_elem_of_nil.
  - eexists. split; [exact Hrun |]. exists R, k. do 4 (split; [done |]). intros h Hids.
    apply (Hidx h (chain_of h new)), Horder. split; [| done]. intros Hnil. apply Hids. unfold ids, names.
    destruct (chain_of_entries h new) as (cs & Hperm & _ & -> & _). rewrite Hnil in Hperm.
    by apply Permutation_nil_r in Hperm as ->.
Qed.

End Rebuild.

(** ** One entry of the new configuration *)

Section Steps.
(** what is claimed of every loaded object *)
Context (Q : string -> service_view -> I -> Prop) (HQ : object_claim dl json_null read_json Q).

Lemma unloaded_chain so (l : loader) :
  so <> "" -> loader_inv dl l ->
  exists l', unloadEbpf so l = (Ok tt, l') /\ loader_inv dl l' /\ loaded l' = delete so (loaded l) /\
    chain_mgr_ l' = chain_mgr_ l /\ (objects_ok Q l -> objects_ok Q l').
Proof.
  intros Hso Hinv. destruct (unload_spec dl so l Hinv) as (l' & ds & Hrun & Hinv' & Hld & _). exists l'.
  split; [unfold unloadEbpf; rewrite assert_true by (by rewrite negb_true_iff; apply String.eqb_neq); by erewrite st_bind_ok by exact Hrun |].
  do 2 (split; [done |]). split.
  - assert (Hk : keeps chain_mgr_ (unloadServices so) l).
    { apply keeps_unload; try done. intros s Hs. by destruct (inv_services dl l Hinv so s Hs) as (_ & _ & ?). }
    unfold keeps in Hk. by rewrite Hrun in Hk.
  - intros Hq. exact (objects_unload dl Q so l l' _ Hinv Hq Hrun).
Qed.

Lemma unload_removed_chain (new : EbpfMap) (L : list (string * ConfigEbpf.t)) : forall (l : loader),
  Forall (fun kc => ConfigEbpf.getLib kc.2 <> "") L -> loader_inv dl l -> objects_ok Q l ->
  exists l', for_each (unload_removed new) L l = (Ok tt, l') /\ chain_mgr_ l' = chain_mgr_ l /\ objects_ok Q l'.
Proof.
  induction L as [| [k c] L IH]; intros l HL Hinv Hq; [by exists l |]. apply Forall_cons in HL as [Hc HL]. cbn [snd] in Hc.
  assert (Hhead : exists l1, unload_removed new (k, c) l = (Ok tt, l1) /\ loader_inv dl l1 /\ chain_mgr_ l1 = chain_mgr_ l /\ objects_ok Q l1).
  { unfold unload_removed. cbn [fst snd]. destruct (new !! k) as [c' |]; [by exists l |].
    destruct (unloaded_chain (ConfigEbpf.getLib c) l Hc Hinv) as (l1 & Hrun & Hinv1 & _ & Hcm & Hobj).
    exists l1. do 3 (split; [done |]). by apply Hobj. }
  destruct Hhead as (l1 & Hrun & Hinv1 & Hcm & Hq1). destruct (IH l1 HL Hinv1 Hq1) as (l' & Hrest & Hcm' & Hq').
  exists l'. cbn [for_each]. rewrite (st_bind_ok _ _ _ _ _ Hrun). split; [exact Hrest |]. split; [congruence | done].
Qed.

Lemma refused_chain so h i conf v (l : loader) :
  loader_inv dl l -> loadable dl json_null read_json so h i conf -> loaded l !! so = Some v ->
  exists l', Daemon.loadEbpf so h i conf l = (Ok tt, l') /\ chain_mgr_ l' = chain_mgr_ l /\
    (objects_ok Q l -> objects_ok Q l').
Proof.
  intros Hinv Hl Hv. destruct (load_refused dl json_null read_json so h i conf l v Hinv Hl Hv) as (s' & Hrun & _).
  exists (retire s' l). unfold Daemon.loadEbpf. rewrite assert_true by (rewrite negb_true_iff; apply String.eqb_neq, Hl).
  split; [by erewrite st_bind_ok by exact Hrun |]. split; [done |]. intros Hq. by apply (objects_same Q l).
Qed.

(** a changed configuration file leaves the chains alone *)
Lemma changed_chain so h i c0 conf (l : loader) :
  loader_inv dl l -> loaded l !! so = Some ((h, i, c0) : service_view) -> loadable dl json_null read_json so h i conf ->
  exists l', (_ ← unregisterServiceConfig so c0; registerServiceConfig read_json so h i conf) l = (Ok tt, l') /\
    chain_mgr_ l' = chain_mgr_ l /\
    (objects_ok Q l -> objects_ok Q l').
Proof.
  intros Hinv Hso Hl.
  destruct (unregister_spec dl so c0 l Hinv ltac:(by eexists)) as (l1 & Hrun1 & Hinv1 & _ & _ & Hld1).
  assert (Hso1 : exists c1, loaded l1 !! so = Some ((h, i, c1) : service_view)).
  { rewrite Hld1. case_match; [by eexists |]. unfold view_config. rewrite lookup_alter_eq, Hso. by eexists. }
  destruct Hso1 as [c1 Hso1].
  destruct (register_spec dl json_null read_json so h i conf l1 Hinv1 ltac:(by eexists) Hl) as (l2 & Hrun2 & _).
  exists l2. rewrite (st_bind_ok _ _ _ _ _ Hrun1). split; [exact Hrun2 |]. split.
  - assert (Hk1 : keeps chain_mgr_ (unregisterServiceConfig so c0) l) by by apply keeps_unregister.
    assert (Hk2 : keeps chain_mgr_ (registerServiceConfig read_json so h i conf) l1) by by apply keeps_register.
    unfold keeps in Hk1, Hk2. rewrite Hrun1 in Hk1. rewrite Hrun2 in Hk2. cbn in Hk1, Hk2. congruence.
  - intros Hq. refine (objects_register dl json_null read_json Q HQ so h i c1 conf l1 l2 Hinv1 Hso1 Hl _ Hrun2).
    refine (objects_unregister dl json_null read_json Q HQ so c0 l l1 Hinv _ Hq Hrun1). by eexists.
Qed.

(** *** The chains while the entries are loaded *)

Context (Hman : manager_ok).
Context (old new : EbpfMap) (Hfit : chains_fit new) (k0 : Kernel M A).

(** an entry that [update] leaves running *)
Definition kept (k : string) (c : ConfigEbpf.t) : Prop :=
  exists cc, old !! k = Some cc /\ ConfigEbpf.getLib cc = ConfigEbpf.getLib c /\ ConfigEbpf.getHook cc = ConfigEbpf.getHook c /\
    ConfigEbpf.getIfindex cc = ConfigEbpf.getIfindex c.

(** the chains when the entries [before] are loaded: everything loaded or kept
    is in its slot, and nothing is written behind the chains *)
Record on_the_way (before : list (string * ConfigEbpf.t)) (k : Kernel M A) : Prop := {
  ow_tables : forall h, prepared h -> tables_ok k h;
  ow_index : forall h, ids h new <> [] -> indexed k h (ids h new);
  ow_placed : forall x c n, new !! x = Some c -> (x, c) ∈ before \/ kept x c ->
    names (ConfigEbpf.getHook c) new !! n = Some (own_name c) -> in_slot k (ConfigEbpf.getHook c) n (own_program c);
  ow_beyond : forall h j, prepared h -> Z.of_nat (S (length (ids h new))) <= j -> slot_at k h j = slot_at k0 h j
}.

Lemma insert_slot h R name fd d n (k : Kernel M A) :
  prepared h -> (forall h', prepared h' -> tables_ok k h') -> indexed k h (ids h new) ->
  (sched h :: ids h new) !! n = Some d -> insertion prog_id prog_of_fd h p0 (name, fd) d ->
  exists k' q, insertProg h name fd (nic h) (set_regions R p0) k = Ok (true, k') /\ prog_id q = d /\ hashes k' = hashes k /\
    (forall h', prepared h' -> tables_ok k' h') /\
    forall h' j, prepared h' -> slot_at k' h' j = if decide (h' = h /\ j = Z.of_nat n) then Some q else slot_at k h' j.
Proof.
  intros Hh Htab Hidx Hn Hins. destruct (Htab h Hh) as [(m & Hm & _) [a Ha]].
  pose proof (Hidx n d Hn) as Hslot. unfold index_at in Hslot. rewrite Hm in Hslot. cbn in Hslot.
  pose proof (lookup_lt_Some _ _ _ Hn) as Hlt. cbn in Hlt. pose proof (cf_fits _ Hfit h Hh) as Hroom.
  destruct (insertProg_ok prog_id prog_of_fd h (nic h) (set_regions R p0) k (hmaps h) m a (name, fd) d (Z.of_nat n))
    as (a' & q & Hrun & Hq & Ha'); try done; [by apply mo_init | lia |].
  exists (mkKernel (hashes k) (<[prog_array_fd (hmaps h) := a']> (arrays k))), q. do 3 (split; [done |]).
  assert (Harr : forall h', prepared h' -> (<[prog_array_fd (hmaps h) := a']> (arrays k)) !! prog_array_fd (hmaps h') =
    if decide (h' = h) then Some a' else arrays k !! prog_array_fd (hmaps h')).
  { intros h' Hh'. destruct (decide (h' = h)) as [-> | Hne]; [by rewrite lookup_insert_eq |].
    rewrite lookup_insert_ne; [done |]. intros Heq. by apply Hne, (mo_array Hman). }
  split.
  - intros h' Hh'. destruct (Htab h' Hh') as [Hhash Hsome]. split; [exact Hhash |]. cbn [arrays]. rewrite Harr by done.
    case_decide; [by eexists | done].
  - intros h' j Hh'. unfold slot_at. cbn [arrays]. rewrite Harr by done. destruct (decide (h' = h)) as [-> | Hne].
    + rewrite Ha. cbn [mbind option_bind]. rewrite Ha'. do 2 case_decide; try done; exfalso; naive_solver.
    + rewrite decide_False by tauto. done.
Qed.

(** a fresh load puts its program into its slot *)
Lemma fresh_chain h c name fd d n (k : Kernel M A) (l : loader) :
  ConfigEbpf.getHook c = h -> ConfigEbpf.getIfindex c = nic h -> ConfigEbpf.getLib c <> "" ->
  loadable dl json_null read_json (ConfigEbpf.getLib c) h (nic h) (ConfigEbpf.getConfig c) ->
  entry_program prog_id prog_of_fd dl json_null read_json h (nic h) p0 c (name, fd) d ->
  loader_inv dl l -> loaded l !! ConfigEbpf.getLib c = None -> objects_ok Q l -> manager_at k l ->
  prepared h -> (forall h', prepared h' -> tables_ok k h') -> indexed k h (ids h new) -> (sched h :: ids h new) !! n = Some d ->
  exists l' k' q, Daemon.loadEbpf (ConfigEbpf.getLib c) h (nic h) (ConfigEbpf.getConfig c) l = (Ok tt, l') /\
    objects_ok Q l' /\ manager_at k' l' /\ prog_id q = d /\ hashes k' = hashes k /\ (forall h', prepared h' -> tables_ok k' h') /\
    forall h' j, prepared h' -> slot_at k' h' j = if decide (h' = h /\ j = Z.of_nat n) then Some q else slot_at k h' j.
Proof.
  intros Hhook Hi Hlib Hload Hprog Hinv Hnone Hq (R & Hcm & HR) Hh Htab Hidx Hn.
  destruct (insert_slot h R name fd d n k Hh Htab Hidx Hn (proj1 Hprog)) as (k' & q & Hins & Hfacts).
  destruct (fresh_load_inserts prog_id prog_of_fd dl json_null read_json h (nic h) (set_regions R p0) k k' c (name, fd) d l)
    as (l' & Hrun & _ & Hld & Hcm' & (s1 & s2 & Hst & Hs2) & Hothers); try done.
  exists l', k', q. split; [exact Hrun |]. split; [| split; [by exists R | exact Hfacts]].
  intros so v Hv. rewrite Hld in Hv. apply lookup_insert_Some in Hv as [[<- <-] | [Hne Hv]].
  - exists s2. split; [done |]. exact (oc_started dl json_null read_json Q HQ _ _ _ _ _ _ Hload Hst).
  - rewrite Hothers by done. exact (Hq so v Hv).
Qed.

Lemma own_position x c :
  new !! x = Some c -> exists n, names (ConfigEbpf.getHook c) new !! n = Some (own_name c) /\
    ids (ConfigEbpf.getHook c) new !! n = Some (own_program c).
Proof.
  intros Hx. assert (Hin : own_name c ∈ names (ConfigEbpf.getHook c) new) by (apply names_elem; eauto).
  apply list_elem_of_lookup_1 in Hin as [n Hn]. exists n. split; [done |]. apply ids_lookup. by exists (own_name c).
Qed.

(** the tables after one entry: its program is in its slot, and every other
    slot behind the scheduler's is as it was *)
Lemma on_the_way_put before x c n h k k' q :
  on_the_way before k -> (sched h :: ids h new) !! n = Some (prog_id q) -> prepared h ->
  hashes k' = hashes k -> (forall h', prepared h' -> tables_ok k' h') ->
  (forall h' j, prepared h' -> slot_at k' h' j = if decide (h' = h /\ j = Z.of_nat n) then Some q else slot_at k h' j) ->
  (forall c', new !! x = Some c' -> c' = c -> ConfigEbpf.getHook c = h /\ (scheduler_name h :: names h new) !! n = Some (own_name c) /\ n <> O) ->
  on_the_way (before ++ [(x, c)]) k'.
Proof.
  intros [Htab Hidx Hplaced Hbeyond] Hn Hh Hhash Htab' Hslot Hown. split; [done | | |].
  - intros h' Hne m d Hm. unfold index_at. rewrite Hhash. by apply Hidx.
  - intros x' c' n' Hx' Hcase Hn'. destruct (cf_entries _ Hfit x' c' Hx') as (Hh' & _).
    unfold in_slot. rewrite Hslot by done. case_decide as Heq.
    + destruct Heq as [<- Heq]. apply Nat2Z.inj in Heq as <-. exists q. split; [done |].
      assert (Hd : ids (ConfigEbpf.getHook c') new !! n' = Some (own_program c')) by (apply ids_lookup; by exists (own_name c')).
      change (ids (ConfigEbpf.getHook c') new !! n' = Some (prog_id q)) in Hn. rewrite Hd in Hn. by injection Hn.
    + assert (Hcase' : (x', c') ∈ before \/ kept x' c').
      { destruct Hcase as [Hin | Hk]; [| by right]. apply elem_of_app in Hin as [Hin | Hin]; [by left |]. exfalso.
        apply list_elem_of_singleton in Hin. injection Hin as -> ->. destruct (Hown c Hx' eq_refl) as (Hhk & Hm & Hpos).
        destruct n as [| n]; [done |]. change (names h new !! n = Some (own_name c)) in Hm. apply Heq. split; [done |]. do 2 f_equal.
        rewrite Hhk in Hn'. assert (Hnd := cf_nodup _ Hfit h Hh). apply NoDup_cons in Hnd as [_ Hnd].
        apply (NoDup_lookup (ids h new) n' n (own_program c)); [done | |]; apply ids_lookup; by exists (own_name c). }
      exact (Hplaced x' c' n' Hx' Hcase' Hn').
  - intros h' j Hh' Hj. rewrite Hslot by done. rewrite decide_False; [by apply Hbeyond |]. intros [-> ->].
    apply lookup_lt_Some in Hn. cbn in Hn. lia.
Qed.

(** nothing to do for an entry that keeps running or is a scheduler *)
Lemma on_the_way_skip before x c k :
  on_the_way before k -> (new !! x = Some c -> kept x c) -> on_the_way (before ++ [(x, c)]) k.
Proof.
  intros [Htab Hidx Hplaced Hbeyond] Hskip. split; [done | done | | done]. intros x' c' n Hx' Hcase. apply (Hplaced x' c' n Hx').
  destruct Hcase as [Hin | Hk]; [| by right]. apply elem_of_app in Hin as [Hin | Hin]; [by left | right].
  apply list_elem_of_singleton in Hin. injection Hin as -> ->. by apply Hskip.
Qed.

Context (Hold_ok : config_ok (li_loadable (L := loader)) old) (Hnew_ok : config_ok (li_loadable (L := loader)) new)
  (Hstay : libs_stay old new).

(** the loader on the way: the daemon's own invariant, the chains and the
    objects *)
Record loads_to (t1 : gmap string service_view) (before : list (string * ConfigEbpf.t)) (l : loader) (k : Kernel M A) : Prop := {
  lt_loading : loading (with_schedulers old) (with_schedulers new) t1 before l;
  lt_manager : manager_at k l;
  lt_chains : on_the_way before k;
  lt_objects : objects_ok Q l
}.

(** what one entry is shown to do, besides what the daemon's own proof shows *)
Definition advances (t1 : gmap string service_view) (before : list (string * ConfigEbpf.t)) (x : string) (c : ConfigEbpf.t) (l : loader) : Prop :=
  exists l' k', load_entry (with_schedulers old) (x, c) l = (Ok tt, l') /\ manager_at k' l' /\
    on_the_way (before ++ [(x, c)]) k' /\ objects_ok Q l'.

(** loading the library of a configured program *)
Lemma user_loaded before x c (l : loader) k :
  new !! x = Some c -> on_the_way before k -> manager_at k l -> objects_ok Q l -> loader_inv dl l ->
  loaded l !! ConfigEbpf.getLib c = None ->
  exists l' k', Daemon.loadEbpf (ConfigEbpf.getLib c) (ConfigEbpf.getHook c) (ConfigEbpf.getIfindex c) (ConfigEbpf.getConfig c) l = (Ok tt, l') /\
    manager_at k' l' /\ on_the_way (before ++ [(x, c)]) k' /\ objects_ok Q l'.
Proof.
  intros Hx How Hmgr Hq Hinv Hnone. destruct (cf_entries _ Hfit x c Hx) as (Hh & Hi & _ & (fd & Hprog) & _).
  destruct (ok_entries _ _ Hnew_ok x c Hx) as (Hlib & _ & _). destruct (ok_loadable _ _ Hnew_ok x c Hx) as [Hload _].
  destruct (own_position x c Hx) as (n & Hn & Hd). rewrite Hi in Hload |- *.
  assert (Hne : ids (ConfigEbpf.getHook c) new <> []) by (intros Hnil; by rewrite Hnil in Hd).
  destruct (fresh_chain (ConfigEbpf.getHook c) c (own_name c) fd (own_program c) (S n) k l eq_refl Hi Hlib Hload Hprog Hinv Hnone
              Hq Hmgr Hh (ow_tables _ _ How) (ow_index _ _ How _ Hne) Hd)
    as (l' & k' & q & Hrun & Hq' & Hmgr' & Hid & Hhash & Htab & Hslot).
  exists l', k'. split; [exact Hrun |]. split; [done |]. split; [| done].
  eapply (on_the_way_put before x c (S n) (ConfigEbpf.getHook c) k k' q); try done.
  by rewrite Hid.
Qed.

(** a scheduler is loaded afresh, or is still there from before *)
Lemma scheduler_run before x c (l : loader) k t1 :
  loads_to t1 before l k -> with_schedulers new !! x = Some c -> new !! x = None ->
  exists l' k', Daemon.loadEbpf (ConfigEbpf.getLib c) (ConfigEbpf.getHook c) (ConfigEbpf.getIfindex c) (ConfigEbpf.getConfig c) l = (Ok tt, l') /\
    manager_at k' l' /\ on_the_way (before ++ [(x, c)]) k' /\ objects_ok Q l'.
Proof.
  intros [Hl Hmgr How Hq] Hx Hnone. pose proof (ld_inv _ _ _ _ _ Hl) as Hinv.
  apply with_schedulers_spec in Hx as [Hx | (_ & h & i & (x' & c' & Hx' & Hh & Hi) & -> & ->)]; [congruence |].
  destruct (cf_entries _ Hfit x' c' Hx') as (Hprep & Hnic & _ & _ & (fd & Hprog)). rewrite Hh in *.
  assert (i = nic h) as -> by congruence. destruct (ok_loadable _ _ Hnew_ok x' c' Hx') as [_ Hload]. rewrite Hh, Hi in Hload.
  assert (Hlib : scheduler_so h (nic h) <> "") by apply Hload.
  assert (Hskip : new !! scheduler_id h (nic h) = Some (scheduler_entry h (nic h)) -> kept (scheduler_id h (nic h)) (scheduler_entry h (nic h)))
    by congruence.
  destruct (loaded l !! scheduler_so h (nic h)) as [v |] eqn:Ev.
  - destruct (refused_chain (scheduler_so h (nic h)) h (nic h) "" v l Hinv Hload Ev) as (l' & Hrun & Hcm & Hobj).
    exists l', k. split; [exact Hrun |]. split; [| split; [by apply on_the_way_skip | by apply Hobj]].
    destruct Hmgr as (R & Hr & HR). exists R. by rewrite Hcm.
  - assert (Hne : ids h new <> []) by (intros Hnil; by apply (proj1 (ids_nil h new) Hnil x' c')).
    destruct (fresh_chain h (scheduler_entry h (nic h)) (scheduler_name h) fd (sched h) 0 k l eq_refl eq_refl Hlib Hload Hprog
                Hinv Ev Hq Hmgr Hprep (ow_tables _ _ How) (ow_index _ _ How _ Hne) eq_refl)
      as (l' & k' & q & Hrun & Hq' & Hmgr' & Hid & Hhash & Htab & Hslot).
    exists l', k'. split; [exact Hrun |]. split; [done |]. split; [| done].
    eapply (on_the_way_put before _ _ 0 h k k' q); try done; [by rewrite Hid |]. intros c0 Hc0. congruence.
Qed.

(** an entry with the same library, hook and interface keeps its program *)
Lemma entry_stays before x c cc (l : loader) k t1 :
  loads_to t1 before l k -> with_schedulers old !! x = Some cc -> with_schedulers new !! x = Some c -> (x, c) ∉ before ->
  ConfigEbpf.getLib cc = ConfigEbpf.getLib c -> ConfigEbpf.getHook cc = ConfigEbpf.getHook c ->
  ConfigEbpf.getIfindex cc = ConfigEbpf.getIfindex c ->
  exists l' k', (if negb (ConfigEbpf.getConfig cc =? ConfigEbpf.getConfig c)%string then
      _ ← unregisterServiceConfig (ConfigEbpf.getLib c) (ConfigEbpf.getConfig cc);
      registerServiceConfig read_json (ConfigEbpf.getLib c) (ConfigEbpf.getHook c) (ConfigEbpf.getIfindex c) (ConfigEbpf.getConfig c)
    else mret tt) l = (Ok tt, l') /\ manager_at k' l' /\ on_the_way (before ++ [(x, c)]) k' /\ objects_ok Q l'.
Proof.
  intros [Hl Hmgr How Hq] Ecc Hx Hnotin Hlb Hhk Hif. pose proof (ld_inv _ _ _ _ _ Hl) as Hinv.
  assert (Hthere := ld_todo _ _ _ _ _ Hl x c cc Hx Hnotin Ecc).
  destruct (ws_entry _ new x c Hnew_ok Hx) as (_ & _ & _ & Hload & _).
  assert (Hskip : on_the_way (before ++ [(x, c)]) k).
  { apply on_the_way_skip; [done |]. intros Hnew. exists cc. split; [| done].
    apply with_schedulers_spec in Ecc as [Ecc | (_ & h & i & _ & -> & _)]; [done |].
    apply (ok_keys _ _ Hnew_ok) in Hnew. by rewrite scheduler_id_semicolon in Hnew. }
  destruct (negb (ConfigEbpf.getConfig cc =? ConfigEbpf.getConfig c)%string); [| by exists l, k].
  unfold entry_view in Hthere. rewrite Hlb, Hhk, Hif in Hthere.
  destruct (changed_chain (ConfigEbpf.getLib c) (ConfigEbpf.getHook c) (ConfigEbpf.getIfindex c) (ConfigEbpf.getConfig cc)
              (ConfigEbpf.getConfig c) l Hinv Hthere Hload) as (l' & Hrun & Hcm & Hobj).
  exists l', k. split; [exact Hrun |]. split; [| split; [done | by apply Hobj]].
  destruct Hmgr as (R & Hr & HR). exists R. by rewrite Hcm.
Qed.

Lemma entry_advances before x c (l : loader) k t1 :
  loads_to t1 before l k -> with_schedulers new !! x = Some c -> (x, c) ∉ before ->
  (forall x' c', (x', c') ∈ before -> with_schedulers new !! x' = Some c') -> advances t1 before x c l.
Proof.
  intros Hlt Hx Hnotin Hbefore. destruct (Hlt) as [Hl Hmgr How Hq]. pose proof (ld_inv _ _ _ _ _ Hl) as Hinv.
  unfold advances, load_entry. cbn [fst snd].
  destruct (with_schedulers old !! x) as [cc |] eqn:Ecc.
  2: { destruct (new !! x) as [c' |] eqn:Enew.
    - assert (c' = c) as -> by (assert (Hx' : with_schedulers new !! x = Some c') by (apply with_schedulers_spec; by left); congruence).
      eapply user_loaded; try done. eapply (between_free old new t1 Hold_ok Hnew_ok Hstay before x c l); try done.
      + intros cc Hcc. congruence.
      + by apply (ok_libs _ _ Hnew_ok x c).
    - by apply (scheduler_run before x c l k t1). }
  destruct (negb (ConfigEbpf.getLib cc =? ConfigEbpf.getLib c)%string
    || bool_decide (ConfigEbpf.getHook cc ≠ ConfigEbpf.getHook c)
    || negb (ConfigEbpf.getIfindex cc =? ConfigEbpf.getIfindex c)) eqn:Ech.
  - (* another library, hook or interface: only a configured program *)
    assert (Huser : no_char ";" (ConfigEbpf.getLib c) = true).
    { destruct (ws_same_scheduler _ old new x cc c Hold_ok Hnew_ok Ecc Hx) as [-> | [_ ?]]; [| done].
      rewrite String.eqb_refl, Z.eqb_refl, bool_decide_eq_false_2 in Ech by (by intros []). discriminate Ech. }
    assert (Hnew : new !! x = Some c).
    { destruct (ws_entry _ new x c Hnew_ok Hx) as (_ & _ & _ & _ & [(? & _) | (_ & ? & _)]); [done | congruence]. }
    destruct (ws_entry _ old x cc Hold_ok Ecc) as (Hcclib & _).
    destruct (unloaded_chain (ConfigEbpf.getLib cc) l Hcclib Hinv) as (l1 & Hrun1 & Hinv1 & Hld1 & Hcm1 & Hobj1).
    assert (Hmgr1 : manager_at k l1) by (destruct Hmgr as (R & Hr & HR); exists R; by rewrite Hcm1).
    destruct (user_loaded before x c l1 k Hnew How Hmgr1 (Hobj1 Hq) Hinv1) as (l' & k' & Hrun & Hrest).
    + rewrite Hld1. destruct (decide (ConfigEbpf.getLib cc = ConfigEbpf.getLib c)) as [-> | Hne]; [apply lookup_delete_eq |].
      rewrite lookup_delete_ne by done.
      eapply (between_free old new t1 Hold_ok Hnew_ok Hstay before x c l); try done. intros cc' Hcc'. congruence.
    + exists l', k'. rewrite (st_bind_ok _ _ _ _ _ Hrun1). by split.
  - apply orb_false_iff in Ech as [Ech Hif]. apply orb_false_iff in Ech as [Hlb Hhk].
    apply negb_false_iff, String.eqb_eq in Hlb. apply negb_false_iff, Z.eqb_eq in Hif.
    apply bool_decide_eq_false, dec_stable in Hhk. rewrite Hlb. by apply (entry_stays before x c cc l k t1).
Qed.

(** ** The whole update *)

(** a program that keeps running keeps its position *)
Definition positions_kept : Prop :=
  forall x c n, new !! x = Some c -> kept x c -> names (ConfigEbpf.getHook c) new !! n = Some (own_name c) ->
    names (ConfigEbpf.getHook c) old !! n = Some (own_name c).

Lemma loads_all (d : Daemon loader) (l : loader) k :
  loads_to (loaded (loader_ d)) [] l k ->
  exists l' k', for_each (load_entry (with_schedulers old)) (uiter (with_schedulers new)) l = (Ok tt, l') /\
    loads_to (loaded (loader_ d)) (uiter (with_schedulers new)) l' k'.
Proof.
  intros Hl. set (t1 := loaded (loader_ d)) in *.
  assert (Hnd : NoDup (uiter (with_schedulers new))) by (rewrite uiter_perm; apply NoDup_map_to_list).
  assert (Hsub : forall x c, (x, c) ∈ uiter (with_schedulers new) -> with_schedulers new !! x = Some c)
    by (intros x c Hin; rewrite uiter_perm in Hin; by apply elem_of_map_to_list).
  destruct (succeeds_for_each (fun before l => exists k, loads_to t1 before l k) (load_entry (with_schedulers old))
              (uiter (with_schedulers new))) with (s := l) as ([] & l' & Hrun & (k' & Hl')); [| by exists k | by exists l', k'].
  intros before [x c] after Heq l2 [k2 Hl2]. rewrite Heq in Hnd, Hsub.
  assert (Hx : with_schedulers new !! x = Some c) by (apply Hsub; set_solver).
  assert (Hbefore : forall x' c', (x', c') ∈ before -> with_schedulers new !! x' = Some c') by (intros x' c' Hin; apply Hsub; set_solver).
  apply NoDup_app in Hnd as (_ & Hdis & _).
  assert (Hnotin : (x, c) ∉ before) by (intros Hin; apply (Hdis _ Hin); left).
  destruct (entry_advances before x c l2 k2 t1 Hl2 Hx Hnotin Hbefore) as (l3 & k3 & Hrun & Hmgr & How & Hq).
  destruct (between_step old new t1 Hold_ok Hnew_ok Hstay before x c l2 (lt_loading _ _ _ _ Hl2) Hx Hnotin Hbefore)
    as (l3' & Hrun' & Hl3). rewrite Hrun in Hrun'. injection Hrun' as <-.
  exists tt, l3. split; [exact Hrun |]. by exists k3.
Qed.

(** before anything is unloaded: the chains are rebuilt, unless nothing
    changed *)
Lemma chains_rebuilt (l : loader) :
  loader_inv dl l -> manager_at k0 l -> chains_run old k0 ->
  exists l1 k1, (if negb (Configs.ebpfs_eqb new old) then rebuild_chain std_sort new else mret tt) l = (Ok tt, l1) /\
    loader_inv dl l1 /\ services_ l1 = services_ l /\ manager_at k1 l1 /\ arrays k1 = arrays k0 /\
    (forall h, prepared h -> tables_ok k1 h) /\ forall h, ids h new <> [] -> indexed k1 h (ids h new).
Proof.
  intros Hinv Hmgr Hrun. destruct (Configs.ebpfs_eqb new old) eqn:E; cbn [negb].
  - apply ebpfs_eqb_spec in E. exists l, k0. do 5 (split; [done |]). split; [apply Hrun |]. intros h Hne.
    pose proof (ids_prepared new Hfit h Hne) as Hh. destruct E. by apply (cr_index _ _ Hrun).
  - destruct (rebuild_chains new Hman Hfit k0 l Hmgr (cr_tables _ _ Hrun)) as (l1 & Hrb & R & k1 & -> & HR & Harr & Htab & Hidx).
    eexists _, k1. split; [exact Hrb |]. split; [by apply inv_set_chain |]. split; [done |]. split; [by exists R |]. done.
Qed.

Lemma start_of_loads (k1 : Kernel M A) :
  positions_kept -> chains_run old k0 -> arrays k1 = arrays k0 -> (forall h, prepared h -> tables_ok k1 h) ->
  (forall h, ids h new <> [] -> indexed k1 h (ids h new)) -> on_the_way [] k1.
Proof.
  intros Hpos Hrun Harr Htab Hidx.
  assert (Hslot : forall h j, slot_at k1 h j = slot_at k0 h j) by (intros h j; unfold slot_at; by rewrite Harr).
  split; [done | done | | done]. intros x c n Hx [Hin | Hk] Hn; [by apply not_elem_of_nil in Hin |].
  destruct (cf_entries _ Hfit x c Hx) as (Hh & _). unfold in_slot. rewrite Hslot. apply (cr_slots _ _ Hrun); [done |].
  apply ids_lookup. exists (own_name c). split; [| done]. by apply (Hpos x).
Qed.

Lemma end_of_loads (k : Kernel M A) : on_the_way (uiter (with_schedulers new)) k -> chains_run new k.
Proof.
  intros [Htab Hidx Hplaced _]. split; [done | by intros h _; apply Hidx |]. intros h n d Hh Hn.
  apply ids_lookup in Hn as (name & Hn & ->).
  assert (Hin : name ∈ names h new) by by eapply list_elem_of_lookup_2.
  apply names_elem in Hin as (x & c & Hx & <- & <-). apply (Hplaced x c n Hx); [left | done].
  rewrite uiter_perm, elem_of_map_to_list. apply with_schedulers_spec. by left.
Qed.

Lemma reconcile_chains (d : Daemon loader) :
  daemon_ok old d -> positions_kept -> manager_at k0 (loader_ d) -> chains_run old k0 -> objects_ok Q (loader_ d) ->
  exists l' k', reconcile std_sort (current_ebpf_ d) new (loader_ d) = (Ok tt, l') /\ manager_at k' l' /\ chains_run new k' /\
    (forall h j, prepared h -> Z.of_nat (S (length (ids h new))) <= j -> slot_at k' h j = slot_at k0 h j) /\ objects_ok Q l'.
Proof.
  intros Hd Hpos Hmgr Hrun Hq. pose proof (dk_inv _ _ Hd) as Hinv.
  unfold reconcile. rewrite (dk_current _ _ Hd), without_with_schedulers by apply Hold_ok.
  destruct (chains_rebuilt (loader_ d) Hinv Hmgr Hrun) as (l1 & k1 & Hrun1 & Hinv1 & Hsv1 & Hmgr1 & Harr1 & Htab1 & Hidx1).
  assert (Hld1 : loaded l1 = loaded (loader_ d)) by (unfold loaded; by rewrite Hsv1).
  assert (Hlibs : map_Forall (fun _ c => ConfigEbpf.getLib c ≠ "") old) by (intros x c Hx; by apply (ok_entries _ _ Hold_ok x)).
  destruct (unload_removed_all new old (loaded (loader_ d)) Hlibs l1) as ([] & l2 & Hrun2 & Hafter); [by split |].
  destruct (unload_removed_chain new (uiter old) l1) as (l2' & Hrun2' & Hcm2 & Hq2); [| done | by apply (objects_same Q (loader_ d)) |].
  { by apply (uiter_map_Forall (fun _ c => ConfigEbpf.getLib c ≠ "")). }
  rewrite Hrun2 in Hrun2'. injection Hrun2' as <-.
  destruct (loads_all d l2 k1) as (l' & k' & Hrun3 & Hl').
  { split; [exact (after_unload_loading old new d l2 Hold_ok Hnew_ok Hd Hafter) | | by apply start_of_loads | done].
    destruct Hmgr1 as (R & Hr & HR). exists R. by rewrite Hcm2. }
  exists l', k'. rewrite (st_bind_ok _ _ _ _ _ Hrun1), (st_bind_ok _ _ _ _ _ Hrun2). split; [exact Hrun3 |].
  destruct Hl' as [_ Hmgr' How' Hq']. split; [done |]. split; [by apply end_of_loads |]. split; [| done].
  by apply ow_beyond with (before := uiter (with_schedulers new)).
Qed.

End Steps.

(** ** What the packets meet *)

(** the run of the chain of one hook, when the slot behind it is free *)
Lemma chain_followed (base : EbpfMap) (k : Kernel M A) h :
  manager_ok -> chains_fit base -> chains_run base k -> prepared h -> ids h base <> [] ->
  slot_at k h (Z.of_nat (S (length (ids h base)))) = None ->
  exists m a, hashes k !! id_hash_fd (hmaps h) = Some m /\ arrays k !! prog_array_fd (hmaps h) = Some a /\
    run_chain prog_id MAX_TAIL_CALL_CNT m a (nic h) (sched h) = ids h base.
Proof.
  intros Hman Hfit Hrun Hh Hne Hfree. destruct (cr_tables _ _ Hrun h Hh) as [(m & Hm & _) [a Ha]]. exists m, a.
  split; [done |]. split; [done |]. pose proof (cr_index _ _ Hrun h Hh Hne) as Hidx. unfold indexed, index_at in Hidx.
  rewrite Hm in Hidx. cbn [mbind option_bind] in Hidx.
  assert (Hslots : forall n d, (sched h :: ids h base) !! S n = Some d -> exists q, pa_lookup a (Z.of_nat (S n)) = Some q /\ prog_id q = d).
  { intros n d Hn. destruct (cr_slots _ _ Hrun h n d Hh Hn) as (q & Hq & Hid). exists q. split; [| done].
    unfold slot_at in Hq. by rewrite Ha in Hq. }
  pose proof (cf_fits _ Hfit h Hh) as Hroom.
  destruct (run_chain_prefix prog_id m a (nic h) (sched h :: ids h base) (MAX_TAIL_CALL_CNT - length (ids h base))%nat 0%nat (sched h))
    as (e & Hlast & Hwalk); try done.
  change (drop 1 (sched h :: ids h base)) with (ids h base) in Hwalk.
  replace (length (ids h base) + (MAX_TAIL_CALL_CNT - length (ids h base)))%nat with MAX_TAIL_CALL_CNT in Hwalk
    by (unfold MAX_TAIL_CALL_CNT; chain_consts; lia).
  rewrite Hwalk. rewrite last_lookup in Hlast. cbn [length pred] in Hlast.
  destruct (MAX_TAIL_CALL_CNT - length (ids h base))%nat eqn:Efuel; [chain_consts; unfold MAX_TAIL_CALL_CNT in Efuel; lia |].
  cbn [run_chain]. unfold chain_next.
  rewrite (Hidx _ _ Hlast), u32_small by (chain_consts; lia). unfold slot_at in Hfree. rewrite Ha in Hfree. cbn in Hfree.
  replace (Z.of_nat (length (ids h base)) + 1) with (Z.of_nat (S (length (ids h base)))) by lia.
  rewrite Hfree. destruct (_ <? _); by rewrite app_nil_r.
Qed.

(** what a packet of the interface of hook [h] meets: the configured programs,
    in the order of their numbers *)
Definition packets_follow (base : EbpfMap) (k : Kernel M A) (h : HookType) : Prop :=
  exists m a cs, hashes k !! id_hash_fd (hmaps h) = Some m /\ arrays k !! prog_array_fd (hmaps h) = Some a /\
    cs ≡ₚ hook_entries h base /\ Sorted by_order cs /\
    forall (body : Z -> program) data,
      run_packet prog_id body MAX_TAIL_CALL_CNT m a (nic h) (sched h) data = process body (sched h) (own_program <$> cs) data.

Lemma packets_followed (base : EbpfMap) (k : Kernel M A) h :
  manager_ok -> chains_fit base -> chains_run base k -> prepared h -> ids h base <> [] ->
  slot_at k h (Z.of_nat (S (length (ids h base)))) = None -> packets_follow base k h.
Proof.
  intros Hman Hfit Hrun Hh Hne Hfree. destruct (chain_followed base k h Hman Hfit Hrun Hh Hne Hfree) as (m & a & Hm & Ha & Hwalk).
  destruct (chain_of_entries h base) as (cs & Hperm & Hsorted & _ & Hnames). exists m, a, cs. do 4 (split; [done |]).
  intros body data. rewrite run_packet_chain, Hwalk. unfold ids. rewrite Hnames, <- list_fmap_compose. done.
Qed.

(** ** Sequences of updates *)

(** from one configuration to the next: it can be brought up, its chains fit,
    no chain gets shorter, and a program that keeps running keeps its place *)
Record next_configuration (old new : EbpfMap) : Prop := {
  nc_ok : config_ok (li_loadable (L := loader)) new;
  nc_libs : libs_stay old new;
  nc_fit : chains_fit new;
  nc_positions : positions_kept old new;
  nc_longer : forall h, prepared h -> (length (ids h old) <= length (ids h new))%nat
}.

Fixpoint configurations (old : EbpfMap) (l : list Configs.t) : Prop :=
  match l with
  | [] => True
  | config :: l => next_configuration old (Configs.getEbpfs config) /\ configurations (Configs.getEbpfs config) l
  end.

Definition updates (l : list Configs.t) : ST (Daemon loader) unit := for_each (update std_sort) l.

Definition final_table (old : EbpfMap) (l : list Configs.t) : EbpfMap := default old (last (Configs.getEbpfs <$> l)).

(** the daemon runs [base], every object is as claimed, and nothing is behind
    the chains *)
Record running_as (Q : string -> service_view -> I -> Prop) (base : EbpfMap) (d : Daemon loader) (k : Kernel M A) : Prop := {
  ra_daemon : daemon_ok base d;
  ra_manager : manager_at k (loader_ d);
  ra_chains : chains_run base k;
  ra_objects : objects_ok Q (loader_ d);
  ra_free : forall h j, prepared h -> Z.of_nat (S (length (ids h base))) <= j -> slot_at k h j = None
}.

Lemma update_runs Q old config d k :
  object_claim dl json_null read_json Q -> manager_ok -> config_ok (li_loadable (L := loader)) old ->
  next_configuration old (Configs.getEbpfs config) -> running_as Q old d k ->
  exists d' k', update std_sort config d = (Ok tt, d') /\ running_as Q (Configs.getEbpfs config) d' k'.
Proof.
  intros HQ Hman Hold [Hnew Hstay Hfit Hpos Hlen] [Hd Hmgr Hrun Hq Hfree].
  destruct (reconcile_chains Q HQ Hman old (Configs.getEbpfs config) Hfit k Hold Hnew Hstay d Hd Hpos Hmgr Hrun Hq)
    as (l' & k' & Hrec & Hmgr' & Hrun' & Hbeyond & Hq').
  destruct (update_spec std_sort std_sort_perm old config d Hold Hnew Hstay Hd) as (d' & Hup & Hd' & _).
  assert (Hl : loader_ d' = l').
  { revert Hup. unfold update. rewrite (st_bind_ok get _ d d d) by done.
    erewrite st_bind_ok; [| unfold on_loader; by rewrite Hrec]. by intros [= <-]. }
  exists d', k'. split; [exact Hup |]. split; rewrite ?Hl; try done.
  intros h j Hh Hj. rewrite Hbeyond by done. apply Hfree; [done |]. specialize (Hlen h Hh). lia.
Qed.

Lemma updates_run Q l : forall old d k,
  object_claim dl json_null read_json Q -> manager_ok -> config_ok (li_loadable (L := loader)) old -> chains_fit old ->
  configurations old l -> running_as Q old d k ->
  exists d' k', updates l d = (Ok tt, d') /\ running_as Q (final_table old l) d' k' /\ chains_fit (final_table old l) /\
    config_ok (li_loadable (L := loader)) (final_table old l).
Proof.
  induction l as [| config l IH]; intros old d k HQ Hman Hold Hfit Hl Hd.
  { exists d, k. by split_and!. }
  destruct Hl as [Hnext Hl]. destruct (update_runs Q old config d k HQ Hman Hold Hnext Hd) as (d1 & k1 & Hup & Hd1).
  destruct (IH (Configs.getEbpfs config) d1 k1 HQ Hman (nc_ok _ _ Hnext) (nc_fit _ _ Hnext) Hl Hd1) as (d' & k' & Hups & Hrest).
  exists d', k'. unfold updates. cbn [for_each]. rewrite (st_bind_ok _ _ _ _ _ Hup). split; [exact Hups |].
  unfold final_table in *. rewrite fmap_cons, last_cons. by destruct (last (Configs.getEbpfs <$> l)).
Qed.

(** C4: From any running configuration through a sequence of others to the
    packets. A daemon that runs [base] is told one configuration after the
    other. In each, all entries of a hook are on one interface, that of the
    hook's first region (the packets of a second interface do not meet their
    programs); every library can be loaded, has a known program and occurs in
    one entry; a library in use goes to an entry of another name only when its
    old entry goes; a chain fits the program array and gets no shorter (the
    slots it would leave keep their programs), and a program that stays keeps
    its position. At first nothing is in the slots behind the chains. Then
    every update succeeds, everything the last configuration names is loaded,
    and the packets of each hook's interface meet exactly the hook's programs,
    in the order of their numbers, whatever the programs do. *)
Theorem updates_reach_packets (base : EbpfMap) (l : list Configs.t) (d : Daemon loader) (k : Kernel M A)
  (Hman : manager_ok) (Hbase : config_ok (li_loadable (L := loader)) base) (Hfit : chains_fit base)
  (Hl : configurations base l) (Hd : running_as (fun _ _ _ => True) base d k) :
  exists d' k', updates l d = (Ok tt, d') /\ daemon_ok (final_table base l) d' /\
    (exists R, chain_mgr_ (loader_ d') = Some (set_regions R p0, k')) /\
    forall h, prepared h -> hook_entries h (final_table base l) <> [] -> packets_follow (final_table base l) k' h.
Proof.
  destruct (updates_run (fun _ _ _ => True) l base d k) as (d' & k' & Hups & [Hd' (R & HR & _) Hrun Hq Hfree] & Hfit' & _); try done.
  exists d', k'. split; [exact Hups |]. split; [done |]. split; [by exists R |]. intros h Hh Hne.
  apply packets_followed; try done.
  - by apply ids_some.
  - by apply Hfree.
Qed.

(** ** Only the order changes *)

(** the entries are the same but for their numbers *)
Definition same_program (c c' : ConfigEbpf.t) : Prop :=
  ConfigEbpf.getLib c = ConfigEbpf.getLib c' /\ ConfigEbpf.getConfig c = ConfigEbpf.getConfig c' /\
  ConfigEbpf.getHook c = ConfigEbpf.getHook c' /\ ConfigEbpf.getIfindex c = ConfigEbpf.getIfindex c'.

Definition renumbered (old new : EbpfMap) : Prop :=
  (forall x c, old !! x = Some c -> exists c', new !! x = Some c' /\ same_program c c') /\
  (forall x c', new !! x = Some c' -> exists c, old !! x = Some c /\ same_program c c').

Lemma renumbered_schedulers old new x c' :
  plain_keys old -> plain_keys new -> renumbered old new -> with_schedulers new !! x = Some c' ->
  exists c, with_schedulers old !! x = Some c /\ same_program c c'.
Proof.
  intros Hold Hnew [_ Hback] Hx. apply with_schedulers_spec in Hx as [Hx | (_ & h & i & (y & c1 & Hy & <- & <-) & -> & ->)].
  - destruct (Hback x c' Hx) as (c & Hc & Hsame). exists c. split; [| done]. apply with_schedulers_spec. by left.
  - destruct (Hback y c1 Hy) as (c & Hc & _ & _ & Hh & Hi). eexists. split; [| by repeat split].
    apply with_schedulers_spec. right. split.
    + apply eq_None_not_Some. intros [c2 Hc2]. apply Hold in Hc2. by rewrite scheduler_id_semicolon in Hc2.
    + eexists _, _. split; [exists y, c; done |]. by rewrite <- Hh, <- Hi.
Qed.

Lemma for_each_idle {X S} (f : X -> ST S unit) (l : list X) s : Forall (fun x => f x s = (Ok tt, s)) l -> for_each f l s = (Ok tt, s).
Proof. induction 1 as [| x l Hx _ IH]; [done |]. cbn [for_each]. by rewrite (st_bind_ok _ _ _ _ _ Hx). Qed.

(** the id hash gets the new numbers; no program is loaded again, so the
    program array is what it was *)
Lemma renumber_update old config d k :
  manager_ok -> chains_fit (Configs.getEbpfs config) -> plain_keys old -> plain_keys (Configs.getEbpfs config) ->
  renumbered old (Configs.getEbpfs config) -> Configs.getEbpfs config <> old ->
  daemon_ok old d -> manager_at k (loader_ d) -> (forall h, prepared h -> tables_ok k h) ->
  exists d' k', update std_sort config d = (Ok tt, d') /\ manager_at k' (loader_ d') /\ arrays k' = arrays k /\
    (forall h, prepared h -> tables_ok k' h) /\
    forall h, ids h (Configs.getEbpfs config) <> [] -> indexed k' h (ids h (Configs.getEbpfs config)).
Proof.
  intros Hman Hfit Hold Hnew Hsame Hne Hd Hmgr Htab. set (new := Configs.getEbpfs config) in *.
  destruct (rebuild_chains new Hman Hfit k (loader_ d) Hmgr Htab) as (l' & Hrun & R & k' & -> & HR & Harr & Htab' & Hidx).
  assert (Hrec : reconcile std_sort (current_ebpf_ d) new (loader_ d) = (Ok tt, set_chain (Some (set_regions R p0, k')) (loader_ d))).
  { unfold reconcile. rewrite (dk_current _ _ Hd), without_with_schedulers by done.
    assert (Hneq : Configs.ebpfs_eqb new old = false) by (apply not_true_iff_false; by rewrite ebpfs_eqb_spec).
    rewrite Hneq. cbn [negb]. rewrite (st_bind_ok _ _ _ _ _ Hrun).
    rewrite (st_bind_ok (for_each (unload_removed new) (uiter old)) _ _ tt (set_chain (Some (set_regions R p0, k')) (loader_ d))).
    - apply for_each_idle. rewrite uiter_perm. apply Forall_forall. intros [x c'] Hin. apply elem_of_map_to_list in Hin.
      destruct (renumbered_schedulers old new x c' Hold Hnew Hsame Hin) as (c & Hc & Hlib & Hconf & Hh & Hi).
      unfold load_entry. cbn [fst snd]. rewrite Hc, Hlib, Hconf, Hh, Hi, !String.eqb_refl, Z.eqb_refl.
      by rewrite bool_decide_eq_false_2 by (by intros []).
    - apply for_each_idle. rewrite uiter_perm. apply Forall_forall. intros [x c] Hin. apply elem_of_map_to_list in Hin.
      destruct (proj1 Hsame x c Hin) as (c' & Hc' & _). unfold unload_removed. cbn [fst snd]. by rewrite Hc'. }
  exists (set_current (with_schedulers new) (set_loader (set_chain (Some (set_regions R p0, k')) (loader_ d)) d)), k'.
  split; [| split; [by exists R |]; split; [exact Harr |]; by split].
  unfold update. rewrite (st_bind_ok get _ d d d) by done. fold new.
  erewrite st_bind_ok; [| unfold on_loader; by rewrite Hrec]. done.
Qed.

(** C40: Giving programs new numbers does not move them.  The daemon runs a chain
    and is told a configuration in which only the order numbers differ, so that
    the first program of a hook comes last: the update succeeds, the id hash
    has the new positions, but no program is put into its new slot: a packet
    meets the program that was first, and none of the others, although they are
    all configured. *)
Theorem first_to_last_runs_alone (Q : string -> service_view -> I -> Prop) (old : EbpfMap) (config : Configs.t)
  (d : Daemon loader) (k : Kernel M A) (h : HookType) (first : Z) (rest : list Z)
  (Hman : manager_ok) (Hfit_old : chains_fit old) (Hfit : chains_fit (Configs.getEbpfs config))
  (Hold : plain_keys old) (Hnew : plain_keys (Configs.getEbpfs config))
  (Hd : running_as Q old d k) (Hsame : renumbered old (Configs.getEbpfs config)) (Hh : prepared h)
  (Hids : ids h old = first :: rest) (Hids' : ids h (Configs.getEbpfs config) = rest ++ [first]) (Hrest : rest <> []) :
  exists d' k' m a, update std_sort config d = (Ok tt, d') /\ (exists R, chain_mgr_ (loader_ d') = Some (set_regions R p0, k')) /\
    hashes k' !! id_hash_fd (hmaps h) = Some m /\ arrays k' !! prog_array_fd (hmaps h) = Some a /\
    run_chain prog_id MAX_TAIL_CALL_CNT m a (nic h) (sched h) = [first].
Proof.
  assert (Hne : Configs.getEbpfs config <> old).
  { intros Heq. rewrite Heq, Hids in Hids'. destruct rest as [| r rest]; [done |]. injection Hids' as -> _.
    pose proof (cf_nodup _ Hfit_old h Hh) as Hnd. rewrite Hids in Hnd. apply NoDup_cons in Hnd as [_ Hnd].
    apply NoDup_cons in Hnd as [Hnd _]. apply Hnd. left. }
  destruct (renumber_update old config d k Hman Hfit Hold Hnew Hsame Hne (ra_daemon _ _ _ _ Hd) (ra_manager _ _ _ _ Hd)
              (cr_tables _ _ (ra_chains _ _ _ _ Hd))) as (d' & k' & Hup & (R & HR & _) & Harr & Htab & Hidx).
  destruct (Htab h Hh) as [(m & Hm & _) [a Ha]]. exists d', k', m, a. split; [exact Hup |]. split; [by exists R |].
  do 2 (split; [done |]).
  assert (Hidx' : indexed k' h (rest ++ [first])) by (rewrite <- Hids'; apply Hidx; rewrite Hids'; by destruct rest).
  unfold indexed, index_at in Hidx'. rewrite Hm in Hidx'. cbn [mbind option_bind] in Hidx'.
  assert (Hslot : forall j, pa_lookup a j = slot_at k h j) by (intros j; unfold slot_at; by rewrite <- Harr, Ha).
  destruct (cr_slots _ _ (ra_chains _ _ _ _ Hd) h 0 first Hh) as (q & Hq & Hid); [by rewrite Hids |].
  assert (Hlen : length (ids h old) = S (length rest)) by (by rewrite Hids).
  pose proof (cf_fits _ Hfit_old h Hh) as Hroom. rewrite Hlen in Hroom.
  pose proof (ra_free _ _ _ _ Hd h (Z.of_nat (S (S (length rest)))) Hh) as Hfree. rewrite Hlen in Hfree.
  change MAX_TAIL_CALL_CNT with (S (S 31)). cbn [run_chain]. unfold chain_next at 1.
  rewrite (Hidx' 0%nat (sched h)) by done. rewrite u32_small by lia. rewrite (proj2 (Z.ltb_lt _ _)) by (chain_consts; lia).
  change (Z.of_nat 0 + 1) with (Z.of_nat 1). rewrite Hslot, Hq, Hid. f_equal.
  unfold chain_next. rewrite (Hidx' (S (length rest)) first); [| by apply (list_lookup_middle (sched h :: rest) [] first)].
  rewrite u32_small by (chain_consts; lia).
  replace (Z.of_nat (S (length rest)) + 1) with (Z.of_nat (S (S (length rest)))) by lia.
  rewrite Hslot, Hfree by lia. by destruct (_ <? _).
Qed.
End Reconfig.

(** ** Concrete reconfigurations *)

Module Sample.

Import ProgMap.Sample System.Sample.
#[local] Existing Instance release_build.
#[local] Existing Instance System.Sample.order_string.
#[local] Existing Instance System.Sample.order_Z.
#[local] Existing Instance System.Sample.order_hook.
#[local] Existing Instance array_ops.
#[local] Existing Instance array_laws.
#[local] Existing Instance Loader.Sample.watcher_if.
#[local] Existing Instance Loader.Sample.watcher_laws.
#[local] Existing Instance System.Sample.service.
#[local] Existing Instance System.Sample.service_laws.
#[local] Existing Instance System.Sample.ops.
#[local] Existing Instance System.Sample.laws.

(** one interface, with the generic XDP hook *)
Definition nic2 (h : HookType) : Z := 2.
Definition all_maps (h : HookType) : HookMaps := maps.

Inductive acl_or_lb : ConfigEbpf.t -> Prop :=
| AnAcl conf order : conf <> "/etc/lb.json" -> acl_or_lb (ConfigEbpf.mk acl_lib conf XDP_GENERIC 2 order)
| AnLb conf order : conf = "" \/ conf = "/etc/lb.json" -> acl_or_lb (ConfigEbpf.mk lb_lib conf XDP_GENERIC 2 order).

Abbreviation fits := (chains_fit Datatypes.id prog_of_fd System.Sample.dl 0%nat System.Sample.read_json sort nic2 all_maps no_regions).
Abbreviation chain_ids_of := (ids sort nic2 no_regions XDP_GENERIC).

Lemma only_xdp h : prepared all_maps no_regions h -> h = XDP_GENERIC.
Proof. unfold prepared. cbn. by intros [<- _]%lookup_singleton_Some. Qed.

Lemma manager_fine : manager_ok nic2 all_maps no_regions.
Proof.
  split; try done.
  - exact registry_ok.
  - by intros h h' ->%only_xdp ->%only_xdp.
  - by intros h h' ->%only_xdp ->%only_xdp.
  - intros h ->%only_xdp. split; [done |]. eexists. split; vm_compute; reflexivity.
Qed.

Lemma programs_fine c : acl_or_lb c ->
  entry_fine Datatypes.id prog_of_fd System.Sample.dl 0%nat System.Sample.read_json nic2 all_maps no_regions c.
Proof.
  assert (Hins : forall name fd info, lookupProgInfo name no_regions = Some info -> Names.hook info = XDP_GENERIC ->
    100 <= fd -> Names.id info = fd - 100 -> insertion Datatypes.id prog_of_fd XDP_GENERIC no_regions (name, fd) (fd - 100)).
  { intros name fd info Hreg Hh Hfd Hid. exists info, (fd - 100). cbn [fst snd]. split_and!; try done; [lia |].
    unfold prog_of_fd. by rewrite (proj2 (Z.leb_le _ _) Hfd). }
  assert (Hsched : exists fd, entry_program Datatypes.id prog_of_fd System.Sample.dl 0%nat System.Sample.read_json XDP_GENERIC 2 no_regions
    (scheduler_entry XDP_GENERIC 2) (scheduler_name XDP_GENERIC, fd) 5).
  { exists 105. apply program_of; [vm_compute; reflexivity .. |]. by eapply (Hins _ 105); [vm_compute; reflexivity | ..]. }
  intros [conf order _ | conf order _]; (split; [done |]); (split; [done |]); (split; [vm_compute; reflexivity |]); (split; [| exact Hsched]).
  - exists 103. apply program_of; [vm_compute; reflexivity .. |]. by eapply (Hins _ 103); [vm_compute; reflexivity | ..].
  - exists 107. apply program_of; [vm_compute; reflexivity .. |]. by eapply (Hins _ 107); [vm_compute; reflexivity | ..].
Qed.

(** the programs of a table fit into the chain *)
Definition ids_fit (m : EbpfMap) : Prop := NoDup (5 :: chain_ids_of m) /\ (length (chain_ids_of m) < 32)%nat.

Lemma sample_fits m : map_Forall (fun _ c => acl_or_lb c) m -> ids_fit m -> fits m.
Proof.
  intros Hm [Hnd Hlen]. split.
  - intros x c Hx. by apply programs_fine, (Hm x c).
  - by intros h ->%only_xdp.
  - intros h ->%only_xdp. chain_consts. lia.
Qed.

Lemma sample_loads c : acl_or_lb c ->
  li_loadable (L := machine) (ConfigEbpf.getLib c) XDP_GENERIC 2 (ConfigEbpf.getConfig c).
Proof.
  intros [conf order _ | conf order _]; split; try done.
  - exists 103. split; [vm_compute; reflexivity |]. by exists 103.
  - right. split; vm_compute; reflexivity.
  - exists 107. split; [vm_compute; reflexivity |]. by exists 107.
  - right. split; vm_compute; reflexivity.
Qed.

(** first the ACL alone, then the load balancer behind it, then another file
    for the ACL, and the load balancer under another name *)
Definition only_acl : EbpfMap := {[ "b" := acl ]}.
Definition acl2 : ConfigEbpf.t := ConfigEbpf.mk acl_lib "/etc/acl2.json" XDP_GENERIC 2 1.
Definition renamed : EbpfMap := <[ "c" := lb ]> {[ "b" := acl2 ]}.
(** ... and a file for the load balancer *)
Definition lb_with_file : ConfigEbpf.t := ConfigEbpf.mk lb_lib "/etc/lb.json" XDP_GENERIC 2 2.
Definition balanced : EbpfMap := <[ "c" := lb_with_file ]> {[ "b" := acl2 ]}.
Definition as_config (m : EbpfMap) : Configs.t := Configs.setEbpfs m Configs.default.
Definition story : list Configs.t := [as_config only_acl; as_config base; as_config renamed; as_config balanced].

(** the entries of a table of one or two *)
Lemma singleton_entry x y (c d : ConfigEbpf.t) : ({[ y := d ]} : EbpfMap) !! x = Some c -> x = y /\ c = d.
Proof. by intros [<- <-]%lookup_singleton_Some. Qed.

Lemma pair_entry x y z (c d e : ConfigEbpf.t) :
  (<[ y := d ]> {[ z := e ]} : EbpfMap) !! x = Some c -> (x = y /\ c = d) \/ (x = z /\ c = e).
Proof. intros [[<- <-] | [_ Hx%singleton_entry]]%lookup_insert_Some; [by left | by right]. Qed.

Ltac entries H := first [apply singleton_entry in H as [-> ->] | apply pair_entry in H as [[-> ->] | [-> ->]]].

Lemma acl_entry : acl_or_lb acl. Proof. by constructor. Qed.
Lemma acl2_entry : acl_or_lb acl2. Proof. by constructor. Qed.
Lemma lb_entry : acl_or_lb lb. Proof. constructor. by left. Qed.
Lemma lb_with_file_entry : acl_or_lb lb_with_file. Proof. constructor. by right. Qed.

Lemma pair_entries y c z d : acl_or_lb c -> acl_or_lb d -> map_Forall (fun _ c => acl_or_lb c) (<[ y := c ]> {[ z := d ]} : EbpfMap).
Proof. intros Hc Hd x e Hx. by entries Hx. Qed.

Lemma only_acl_entries : map_Forall (fun _ c => acl_or_lb c) only_acl.
Proof. intros x e Hx. unfold only_acl in Hx. entries Hx. exact acl_entry. Qed.
Lemma base_entries : map_Forall (fun _ c => acl_or_lb c) base.
Proof. exact (pair_entries _ _ _ _ lb_entry acl_entry). Qed.
Lemma renamed_entries : map_Forall (fun _ c => acl_or_lb c) renamed.
Proof. exact (pair_entries _ _ _ _ lb_entry acl2_entry). Qed.
Lemma balanced_entries : map_Forall (fun _ c => acl_or_lb c) balanced.
Proof. exact (pair_entries _ _ _ _ lb_with_file_entry acl2_entry). Qed.

(** the tables are fine wherever these libraries can be loaded *)
Section Tables.
Context (can_load : string -> HookType -> Z -> string -> Prop)
  (Hload : forall c, acl_or_lb c -> can_load (ConfigEbpf.getLib c) XDP_GENERIC 2 (ConfigEbpf.getConfig c))
  (Hsched : can_load (scheduler_so XDP_GENERIC 2) XDP_GENERIC 2 "").

Lemma sample_config m :
  plain_keys m -> map_Forall (fun _ c => acl_or_lb c) m ->
  (forall x1 x2 c1 c2, m !! x1 = Some c1 -> m !! x2 = Some c2 -> ConfigEbpf.getLib c1 = ConfigEbpf.getLib c2 -> x1 = x2) ->
  config_ok can_load m.
Proof.
  intros Hplain Hm Honce. split; [split; [done | ..] | exact Honce].
  - intros x c Hx. by destruct (Hm x c Hx).
  - intros x c Hx. by destruct (Hm x c Hx).
  - intros x c Hx. pose proof (Hload c (Hm x c Hx)) as Hc. destruct (Hm x c Hx); by split.
Qed.

Lemma pair_config y c z d :
  acl_or_lb c -> acl_or_lb d -> ConfigEbpf.getLib c <> ConfigEbpf.getLib d ->
  no_char ";" y = true -> no_char ";" z = true -> config_ok can_load (<[ y := c ]> {[ z := d ]}).
Proof.
  intros Hc Hd Hne Hy Hz. apply sample_config; [| by apply pair_entries |].
  - intros x e Hx. by entries Hx.
  - intros x1 x2 c1 c2 H1 H2. entries H1; entries H2; congruence.
Qed.

Lemma only_acl_config : config_ok can_load only_acl.
Proof.
  apply sample_config; [| exact only_acl_entries |]; unfold only_acl.
  - intros x e Hx. by entries Hx.
  - intros x1 x2 c1 c2 H1 H2. by entries H1; entries H2.
Qed.
Lemma base_config : config_ok can_load base.
Proof. by apply pair_config; [apply lb_entry | apply acl_entry | ..]. Qed.
Lemma renamed_config : config_ok can_load renamed.
Proof. by apply pair_config; [apply lb_entry | apply acl2_entry | ..]. Qed.
Lemma balanced_config : config_ok can_load balanced.
Proof. by apply pair_config; [apply lb_with_file_entry | apply acl2_entry | ..]. Qed.
Lemma nothing_config : config_ok can_load ∅.
Proof. by apply sample_config. Qed.
End Tables.

Ltac fit_ids := split; [refine (bool_decide_unpack _ _); vm_compute; exact Logic.I | vm_compute; lia].
Lemma only_acl_ids : ids_fit only_acl. Proof. fit_ids. Qed.
Lemma base_ids : ids_fit base. Proof. fit_ids. Qed.
Lemma renamed_ids : ids_fit renamed. Proof. fit_ids. Qed.
Lemma balanced_ids : ids_fit balanced. Proof. fit_ids. Qed.
Lemma nothing_ids : ids_fit ∅. Proof. fit_ids. Qed.

(** what a step of the story needs besides *)
Definition step_fine (old new : EbpfMap) : Prop :=
  libs_stay old new /\ positions_kept sort nic2 old new /\
  forall h, prepared all_maps no_regions h -> (length (ids sort nic2 no_regions h old) <= length (ids sort nic2 no_regions h new))%nat.

Ltac in_place n H := destruct n as [| [| n]]; vm_compute in H; try discriminate H; vm_compute; reflexivity.
Ltac not_before H := exfalso; vm_compute in H; discriminate H.

Lemma first_step : step_fine ∅ only_acl.
Proof.
  split; [| split].
  - intros x1 x2 c1 c2 H1. by rewrite lookup_empty in H1.
  - intros x c n _ (cc & Hcc & _). by rewrite lookup_empty in Hcc.
  - intros h ->%only_xdp. vm_compute. lia.
Qed.

Lemma second_step : step_fine only_acl base.
Proof.
  split; [| split].
  - intros x1 x2 c1 c2 H1 H2 _. unfold only_acl, base in *. entries H1. by entries H2.
  - intros x c n Hx (cc & Hcc & _) Hn. unfold base in Hx. entries Hx; [not_before Hcc | in_place n Hn].
  - intros h ->%only_xdp. vm_compute. lia.
Qed.

Lemma third_step : step_fine base renamed.
Proof.
  split; [| split].
  - intros x1 x2 c1 c2 H1 H2 [c3 H3]. unfold base, renamed in H1, H2. entries H1; [not_before H3 |]. by entries H2.
  - intros x c n Hx (cc & Hcc & _) Hn. unfold renamed in Hx. entries Hx; [not_before Hcc | in_place n Hn].
  - intros h ->%only_xdp. vm_compute. lia.
Qed.

Lemma fourth_step : step_fine renamed balanced.
Proof.
  split; [| split].
  - intros x1 x2 c1 c2 H1 H2 _. unfold renamed, balanced in H1, H2. entries H1; by entries H2.
  - intros x c n Hx _ Hn. unfold balanced in Hx. entries Hx; in_place n Hn.
  - intros h ->%only_xdp. vm_compute. lia.
Qed.

Lemma story_fine : configurations Datatypes.id prog_of_fd System.Sample.dl 0%nat System.Sample.read_json sort nic2 all_maps no_regions ∅ story.
Proof.
  split; [| split; [| split; [| split; [| done]]]].
  - destruct first_step as (? & ? & ?). split; [exact (only_acl_config _ sample_loads scheduler_here) | done | | done | done].
    exact (sample_fits _ only_acl_entries only_acl_ids).
  - destruct second_step as (? & ? & ?). split; [exact (base_config _ sample_loads scheduler_here) | done | | done | done].
    exact (sample_fits _ base_entries base_ids).
  - destruct third_step as (? & ? & ?). split; [exact (renamed_config _ sample_loads scheduler_here) | done | | done | done].
    exact (sample_fits _ renamed_entries renamed_ids).
  - destruct fourth_step as (? & ? & ?). split; [exact (balanced_config _ sample_loads scheduler_here) | done | | done | done].
    exact (sample_fits _ balanced_entries balanced_ids).
Qed.

Lemma fresh_running : running_as Datatypes.id System.Sample.dl 0%nat System.Sample.read_json sort nic2 all_maps no_regions
  (fun _ _ _ => True) ∅ fresh (kernel ∅).
Proof.
  split.
  - exact fresh_fine.
  - exists ∅. split; [done |]. intros h _. by left.
  - split.
    + intros h ->%only_xdp. split; [exists hash; split; [done |]; split; [done | vm_compute; lia] | by eexists].
    + intros h _ Hne. by destruct Hne.
    + intros h n d ->%only_xdp Hn. by vm_compute in Hn; destruct n.
  - intros so v Hv. discriminate Hv.
  - intros h j _ _. done.
Qed.

(** after four updates the packets of the interface meet the ACL, then the
    load balancer *)
Lemma updates_reach_packets_witness :
  exists d' (k' : Kernel (RefHash.t Z Z) (gmap Z Z)) m a cs, updates System.Sample.dl 0%nat System.Sample.read_json sort story fresh = (Ok tt, d') /\
    hashes k' !! 11 = Some m /\ arrays k' !! 10 = Some a /\ cs ≡ₚ [lb_with_file; acl2] /\ Sorted by_order cs /\
    forall data, run_packet Datatypes.id Packet.Sample.bodies MAX_TAIL_CALL_CNT m a 2 5 data
      = process Packet.Sample.bodies 5 (own_program no_regions <$> cs) data.
Proof.
  destruct (updates_reach_packets Datatypes.id prog_of_fd System.Sample.dl 0%nat System.Sample.read_json sort
              (merge_sort_Permutation before) (Sorted_merge_sort before) nic2 all_maps no_regions ∅ story fresh (kernel ∅)
              manager_fine
              (nothing_config _ sample_loads scheduler_here) (sample_fits _ (map_Forall_empty _) nothing_ids) story_fine fresh_running)
    as (d' & k' & Hups & _ & _ & Hpackets).
  destruct (Hpackets XDP_GENERIC eq_refl) as (m & a & cs & Hm & Ha & Hcs & Hs & Hrun).
  - vm_compute. discriminate.
  - exists d', k', m, a, cs. split; [exact Hups |]. split; [exact Hm |]. split; [exact Ha |]. split; [exact Hcs |].
    split; [exact Hs |]. exact (Hrun Packet.Sample.bodies).
Defined.

(** the ACL, which was first, gets the larger number *)
Definition acl_last : ConfigEbpf.t := ConfigEbpf.mk acl_lib "/etc/acl.json" XDP_GENERIC 2 3.
Definition swapped : EbpfMap := <[ "a" := lb ]> {[ "b" := acl_last ]}.

Lemma swapped_entries : map_Forall (fun _ c => acl_or_lb c) swapped.
Proof. apply pair_entries; [exact lb_entry | by constructor]. Qed.
Lemma swapped_ids : ids_fit swapped. Proof. fit_ids. Qed.

Lemma base_plain : plain_keys base.
Proof. intros x c Hx. unfold base in Hx. by entries Hx. Qed.
Lemma swapped_plain : plain_keys swapped.
Proof. intros x c Hx. unfold swapped in Hx. by entries Hx. Qed.

Lemma swapped_renumbered : renumbered base swapped.
Proof.
  split; intros x c Hx; unfold base, swapped in *; entries Hx.
  - exists lb. split; [vm_compute; reflexivity | done].
  - exists acl_last. split; [vm_compute; reflexivity | done].
  - exists lb. split; [vm_compute; reflexivity | done].
  - exists acl. split; [vm_compute; reflexivity | done].
Qed.

(** the daemon that runs [base] *)
Lemma base_running :
  exists d k, running_as Datatypes.id System.Sample.dl 0%nat System.Sample.read_json sort nic2 all_maps no_regions (fun _ _ _ => True) base d k.
Proof.
  destruct (updates_run Datatypes.id prog_of_fd System.Sample.dl 0%nat System.Sample.read_json sort
              (merge_sort_Permutation before) (Sorted_merge_sort before) nic2 all_maps no_regions (fun _ _ _ => True)
              [as_config only_acl; as_config base] ∅ fresh (kernel ∅))
    as (d & k & _ & Hd & _); [done | exact manager_fine | exact (nothing_config _ sample_loads scheduler_here)
       | exact (sample_fits _ (map_Forall_empty _) nothing_ids) | | exact fresh_running |].
  - destruct story_fine as (H1 & H2 & _). by split; [| split].
  - by exists d, k.
Qed.

(** the load balancer is configured, and no packet meets it *)
Lemma first_to_last_runs_alone_witness :
  exists d d' (k' : Kernel (RefHash.t Z Z) (gmap Z Z)) m a, update sort (as_config swapped) d = (Ok tt, d') /\
    hashes k' !! 11 = Some m /\ arrays k' !! 10 = Some a /\ run_chain Datatypes.id MAX_TAIL_CALL_CNT m a 2 5 = [3].
Proof.
  destruct base_running as (d & k & Hd).
  destruct (first_to_last_runs_alone Datatypes.id prog_of_fd System.Sample.dl 0%nat System.Sample.read_json sort
              (merge_sort_Permutation before) (Sorted_merge_sort before) nic2 all_maps no_regions (fun _ _ _ => True)
              base (as_config swapped) d k XDP_GENERIC 3 [7] manager_fine (sample_fits _ base_entries base_ids) (sample_fits _ swapped_entries swapped_ids)
              base_plain swapped_plain
              Hd swapped_renumbered eq_refl)
    as (d' & k' & m & a & Hup & _ & Hm & Ha & Hrun).
  - vm_compute. reflexivity.
  - vm_compute. reflexivity.
  - discriminate.
  - exists d, d', k', m, a. split; [exact Hup |]. split; [exact Hm |]. split; [exact Ha | exact Hrun].
Defined.

End Sample.
