(* ===== verification/Report.v ===== *)
(** * The debug report

    What a request to the debug server is answered with: the part the daemon
    writes ([src/daemon/daemon.cc]), with the services of the loader
    ([src/daemon/loader.cc]) and the content of the chain maps
    ([src/ebpf/pinned_prog_map.cc]), as JSON. *)

From S2P Require Import Prelude Configs Names BpfMap ProgMap Json Queue Loader Daemon.

#[local] Open Scope string_scope.
#[local] Open Scope Z_scope.
#[local] Open Scope list_scope.

(** ** Objects built with [operator[]] *)

(** [object[key] = value] on the members of an object *)
Fixpoint assign {V} (key : string) (value : V) (o : list (string * V)) : list (string * V) :=
  match o with
  | [] => [(key, value)]
  | (k, v) :: o => if decide (k = key) then (key, value) :: o else (k, v) :: assign key value o
  end.

Section Assign.
Context {V : Type}.
Implicit Types (o : list (string * V)).

Lemma assign_keys key v o : (assign key v o).*1 = if decide (key ∈ o.*1) then o.*1 else o.*1 ++ [key].
Proof.
  induction o as [| [k w] o IH]; cbn; [done |]. destruct (decide (k = key)) as [-> | Hne]; cbn.
  - rewrite decide_True; [done | left].
  - rewrite IH. destruct (decide (key ∈ o.*1)) as [Hin | Hout].
    + rewrite decide_True; [done | by right].
    + rewrite decide_False; [done |]. intros [Heq | Hin]%elem_of_cons; [by apply Hne | done].
Qed.

Lemma assign_nodup key v o : NoDup o.*1 -> NoDup (assign key v o).*1.
Proof.
  intros Hnd. rewrite assign_keys. case_decide as Hin; [done |].
  apply NoDup_app. split_and!; [done | | apply NoDup_singleton]. intros k Hk ->%list_elem_of_singleton. done.
Qed.

Lemma assign_here key v o : (key, v) ∈ assign key v o.
Proof. induction o as [| [k w] o IH]; cbn; [left |]. case_decide; [left | by right]. Qed.

Lemma assign_other key v o k w : k <> key -> (k, w) ∈ o -> (k, w) ∈ assign key v o.
Proof.
  intros Hne. induction o as [| [k' w'] o IH]; cbn; [by intros ?%not_elem_of_nil |].
  intros [[= <- <-] | Hin]%elem_of_cons; case_decide; simplify_eq; [left | by right | right; by apply IH].
Qed.

End Assign.

(** ** The maps of a hook *)

Section Report.
Context {M A P json : Type} `{!BpfHash M Z Z} `{!BpfProgArray A P} `{!JsonLib json}.
(** what user space reads from a slot of a program array, [fmt]'s [{:#x}], and
    the JSON values [JsonLib] does not have *)
Context (prog_id : P -> Z) (fmt_hex : Z -> string) (jnull : json) (jbool : bool -> json).
Context `{!UMapOrder HookType, !UMapOrder string}.

(* src/ebpf/pinned_prog_map_data.h:13-21 EbpfHashElem *)
Record EbpfHashElem : Type := mkHashElem { he_key : string; he_value : Z }.
(* src/ebpf/pinned_prog_map_data.h:23-30 EbpfHash *)
Record EbpfHash : Type := mkEbpfHash { eh_hash : list EbpfHashElem }.
(* src/ebpf/pinned_prog_map_data.h:32-39 EbpfArray *)
Record EbpfArray : Type := mkEbpfArray { ea_array : list Z }.

(* src/ebpf/pinned_prog_map_data.h:16-16 NLOHMANN_DEFINE_TYPE_INTRUSIVE *)
Definition hash_elem_to_json (e : EbpfHashElem) : json :=
  jobject [("key", jstring (he_key e)); ("value", jnumber (he_value e))].
(* src/ebpf/pinned_prog_map_data.h:26-26 NLOHMANN_DEFINE_TYPE_INTRUSIVE *)
Definition hash_to_json (h : EbpfHash) : json := jobject [("hash", jarray (hash_elem_to_json <$> eh_hash h))].
(* src/ebpf/pinned_prog_map_data.h:35-35 NLOHMANN_DEFINE_TYPE_INTRUSIVE *)
Definition array_to_json (a : EbpfArray) : json := jobject [("array", jarray (jnumber <$> ea_array a))].

(** The loop over the id hash, from key 0 on: one iteration per entry and one
    to notice the end. *)
(* src/ebpf/pinned_prog_map.cc:107-113 PinnedProgMap::getDebugStatus *)
Fixpoint hash_loop (fuel : nat) (m : M) (key64 : Z) : option (list EbpfHashElem) :=
  match fuel with
  | O => None
  | S fuel =>
      match bpf_next_key m (Some key64) with
      | None => Some []
      | Some next_key64 =>
          rest ← hash_loop fuel m next_key64;
          Some (match bpf_lookup m next_key64 with
                | Some index => mkHashElem (fmt_hex next_key64) index :: rest
                | None => rest
                end)
      end
  end.

(** a descriptor that is none makes the first call fail *)
(* src/ebpf/pinned_prog_map.cc:103-116 PinnedProgMap::getDebugStatus *)
Definition hash_status (hash_fd : Z) (k : Kernel M A) : EbpfHash :=
  mkEbpfHash (match hashes k !! hash_fd with
              | None => []
              | Some m => default [] (hash_loop (S (length (bpf_keys m))) m 0)
              end).

(** the slots that hold a program; their positions are not reported *)
(* src/ebpf/pinned_prog_map.cc:118-130 PinnedProgMap::getDebugStatus *)
Definition array_status (array_fd : Z) (k : Kernel M A) : EbpfArray :=
  mkEbpfArray (match arrays k !! array_fd with
               | None => []
               | Some a => filter (fun index => index <> 0) (omap (fun key => prog_id <$> pa_lookup a key) (seqZ 0 MAX_CHAIN_PROGS))
               end).

Definition hook_status (k : Kernel M A) (result : list (string * json)) (hm : HookType * HookMaps) : list (string * json) :=
  let result := assign (pin_path_id_to_index hm.2) (hash_to_json (hash_status (id_hash_fd hm.2) k)) result in
  assign (pin_path_prog_array hm.2) (array_to_json (array_status (prog_array_fd hm.2) k)) result.

(** [json result{}] stays null when nothing is assigned *)
(* src/ebpf/pinned_prog_map.cc:92-135 PinnedProgMap::getDebugStatus *)
Definition chain_status (p : PinnedProgMap) (k : Kernel M A) : json :=
  match foldl (hook_status k) [] (uiter (hook_maps_ p)) with
  | [] => jnull
  | result => jobject result
  end.

(** ** The services and the daemon *)

Section Daemon.
Context {I IM : Type} `{!EbpfIf I json}.

(* src/daemon/loader.cc:355-366 Loader::getDebugStatus *)
Definition service_status (r : ServiceReport (J := json)) : json :=
  jobject ([("so_path", jstring (r_so_path r)); ("name", jstring (r_name r)); ("config_path", jstring (r_config_path r));
            ("hook", jstring (r_hook r)); ("ifindex", jnumber (r_ifindex r))] ++
           match r_status r with Some status => [("status", status)] | None => [] end).

(* src/daemon/loader.cc:345-375 Loader::getDebugStatus *)
Definition loader_status (l : Loader I IM (chain (M := M) (A := A))) : json :=
  let '(services, chain_mgr) := loaderDebugStatus (J := json) l in
  jarray ((service_status <$> services) ++ match chain_mgr with Some c => [chain_status c.1 c.2] | None => [] end).

(** [queue]: the state of the status queue *)
(* src/daemon/daemon.cc:71-93 Daemon::update *)
Definition daemon_status {T} (d : Daemon (Loader I IM (chain (M := M) (A := A)))) (queue : Queue.Queue T)
  (out : list (string * json)) : list (string * json) :=
  let obj := [("running", jbool (running_ d))] in
  let obj := if status_queue_ d
             then obj ++ [("queue_empty", jbool (Queue.empty queue)); ("queue_full", jbool (Queue.full queue))]
             else obj in
  let obj := obj ++ [("Loader", loader_status (loader_ d))] in
  assign "Daemon" (jobject obj) out.

End Daemon.

(** ** The report is the state *)

Context `{!BpfHashLaws M Z Z} `{!JsonLaws json}.

Lemma hash_loop_after (m : M) : forall fuel l1 key l2, bpf_keys m = l1 ++ key :: l2 -> (length l2 < fuel)%nat ->
  hash_loop fuel m key = Some (omap (fun key => mkHashElem (fmt_hex key) <$> bpf_lookup m key) l2).
Proof.
  induction fuel as [| fuel IH]; intros l1 key l2 Hks Hlen; [lia |]. cbn [hash_loop].
  rewrite (bpf_next_present m l1 key l2 Hks). destruct l2 as [| next l2]; cbn; [done |].
  rewrite (IH (l1 ++ [key]) next l2); [| by rewrite Hks, <- app_assoc | cbn in Hlen; lia]. cbn.
  by destruct (bpf_lookup m next).
Qed.

Lemma hash_loop_all (m : M) : bpf_lookup m 0 = None ->
  hash_loop (S (length (bpf_keys m))) m 0 = Some (omap (fun key => mkHashElem (fmt_hex key) <$> bpf_lookup m key) (bpf_keys m)).
Proof.
  intros H0. cbn [hash_loop]. rewrite bpf_next_absent by (rewrite bpf_keys_lookup, H0; apply is_Some_None).
  destruct (bpf_keys m) as [| key ks] eqn:Hks; [done |]. cbn [head].
  rewrite (hash_loop_after m _ [] key ks Hks) by (cbn; lia). cbn. by destruct (bpf_lookup m key).
Qed.

Definition paths (hm : HookType * HookMaps) : list string := [pin_path_id_to_index hm.2; pin_path_prog_array hm.2].

Lemma hook_statuses k l : forall o, NoDup o.*1 -> NoDup (l ≫= paths) ->
  (forall key, key ∈ l ≫= paths -> key ∉ o.*1) ->
  NoDup (foldl (hook_status k) o l).*1 /\
  (forall kv, kv ∈ o -> kv ∈ foldl (hook_status k) o l) /\
  forall hm, hm ∈ l ->
    (pin_path_id_to_index hm.2, hash_to_json (hash_status (id_hash_fd hm.2) k)) ∈ foldl (hook_status k) o l /\
    (pin_path_prog_array hm.2, array_to_json (array_status (prog_array_fd hm.2) k)) ∈ foldl (hook_status k) o l.
Proof.
  induction l as [| hm l IH]; intros o Ho Hnd Hfresh; cbn [foldl].
  { split; [done |]. split; [done |]. by intros hm ?%not_elem_of_nil. }
  rewrite bind_cons in Hnd. apply NoDup_app in Hnd as (Hhm & Hdis & Hnd).
  assert (Hne : pin_path_prog_array hm.2 <> pin_path_id_to_index hm.2).
  { apply NoDup_cons in Hhm as [Hnot _]. intros Heq. apply Hnot. rewrite Heq. left. }
  destruct (IH (hook_status k o hm)) as (Hnd' & Hkeep & Hall).
  - unfold hook_status. by repeat apply assign_nodup.
  - done.
  - intros key Hkey. unfold hook_status. rewrite !assign_keys.
    assert (Hko : key ∉ o.*1) by (apply Hfresh; rewrite bind_cons; set_solver).
    assert (Hkp : key ∉ paths hm) by (intros Hin; by apply (Hdis key)).
    unfold paths in Hkp. repeat case_decide; set_solver.
  - assert (Hkeep0 : forall kv, kv ∈ o -> kv ∈ hook_status k o hm).
    { intros [key v] Hin. unfold hook_status.
      assert (Hkey : key ∉ paths hm).
      { intros Hp. apply (Hfresh key); [rewrite bind_cons; set_solver |]. apply list_elem_of_fmap. by exists (key, v). }
      unfold paths in Hkey. apply assign_other; [set_solver |]. apply assign_other; [set_solver | done]. }
    split; [done |]. split; [auto |]. intros hm' [-> | Hin]%elem_of_cons; [| by apply Hall].
    split; apply Hkeep; unfold hook_status; [apply assign_other; [congruence |] |]; apply assign_here.
Qed.

(** the content of the maps of one hook, as reported *)
Lemma chain_status_hook p k h maps :
  NoDup (map_to_list (hook_maps_ p) ≫= paths) -> hook_maps_ p !! h = Some maps ->
  jget (chain_status p k) (pin_path_id_to_index maps) = Some (hash_to_json (hash_status (id_hash_fd maps) k)) /\
  jget (chain_status p k) (pin_path_prog_array maps) = Some (array_to_json (array_status (prog_array_fd maps) k)).
Proof.
  intros Hnd Hh. unfold chain_status.
  destruct (hook_statuses k (uiter (hook_maps_ p)) []) as (Hkeys & _ & Hall).
  { apply NoDup_nil_2. }
  { by rewrite uiter_perm. }
  { intros key _. apply not_elem_of_nil. }
  assert (Hin : (h, maps) ∈ uiter (hook_maps_ p)) by (by rewrite uiter_perm, elem_of_map_to_list).
  destruct (Hall (h, maps) Hin) as [H1 H2]. cbn in H1, H2.
  destruct (foldl (hook_status k) [] (uiter (hook_maps_ p))) as [| e o]; [by apply not_elem_of_nil in H1 |].
  split; by apply jget_object.
Qed.

Lemma hash_elems_of (m : M) elems :
  elems = omap (fun key => mkHashElem (fmt_hex key) <$> bpf_lookup m key) (bpf_keys m) ->
  length elems = length (bpf_keys m) /\ forall key v, bpf_lookup m key = Some v -> mkHashElem (fmt_hex key) v ∈ elems.
Proof.
  intros ->. split.
  - assert (Hall : forall key, key ∈ bpf_keys m -> is_Some (bpf_lookup m key)) by (intros key; apply bpf_keys_lookup).
    induction (bpf_keys m) as [| key ks IH]; [done |]. cbn.
    destruct (Hall key) as [v ->]; [left |]. cbn. rewrite IH; [done |]. intros key' Hin. apply Hall. by right.
  - intros key v Hv. apply list_elem_of_omap. exists key. rewrite bpf_keys_lookup, Hv. split; [by eexists | done].
Qed.

Lemma array_ids_of (a : A) ids d :
  ids = filter (fun index => index <> 0) (omap (fun key => prog_id <$> pa_lookup a key) (seqZ 0 MAX_CHAIN_PROGS)) ->
  d ∈ ids <-> d <> 0 /\ exists slot, 0 <= slot < MAX_CHAIN_PROGS /\ prog_id <$> pa_lookup a slot = Some d.
Proof.
  intros ->. rewrite list_elem_of_filter, list_elem_of_omap. f_equiv. f_equiv. intros slot.
  by rewrite elem_of_seqZ, Z.add_0_l.
Qed.

Context {I IM : Type} `{!EbpfIf I json}.

(** [svc]: the entry of a service in the report *)
Definition describes (svc : json) (so : string) (s : ServiceHandle I) : Prop :=
  jget svc "so_path" = Some (jstring so) /\ jget svc "name" = Some (jstring (name s)) /\
  jget svc "config_path" = Some (jstring (config s)) /\ jget svc "hook" = Some (jstring (enumName (Loader.hook s))) /\
  jget svc "ifindex" = Some (jnumber (ifindex s)) /\ jget svc "status" = getDebugStatus <$> instance s.

Lemma service_described so (s : ServiceHandle I) :
  describes (service_status (mkReport so (name s) (config s) (enumName (Loader.hook s)) (ifindex s) (getDebugStatus <$> instance s))) so s.
Proof.
  unfold describes, service_status. cbn. destruct (instance s) as [i |]; cbn.
  all: split_and!;
    first [ apply jget_object; [refine (bool_decide_unpack _ _); vm_compute; exact Logic.I
                               | repeat (first [left; reflexivity | right])]
          | apply jget_object_none; refine (bool_decide_unpack _ _); vm_compute; exact Logic.I ].
Qed.

(** Everything a report contains. *)
Lemma daemon_reported {T} (d : Daemon (Loader I IM (chain (M := M) (A := A)))) (queue : Queue.Queue T)
  (out : list (string * json)) (p : PinnedProgMap) (k : Kernel M A) :
  NoDup out.*1 -> chain_mgr_ (loader_ d) = Some (p, k) -> NoDup (map_to_list (hook_maps_ p) ≫= paths) ->
  let report := jobject (daemon_status d queue out) in
  exists dj svcs cj,
    jget report "Daemon" = Some dj /\ (forall key v, key <> "Daemon" -> (key, v) ∈ out -> jget report key = Some v) /\
    jget dj "running" = Some (jbool (running_ d)) /\ jget dj "Loader" = Some (jarray (svcs ++ [cj])) /\
    length svcs = size (services_ (loader_ d)) /\
    (forall so s, services_ (loader_ d) !! so = Some s -> exists svc, svc ∈ svcs /\ describes svc so s) /\
    (forall svc, svc ∈ svcs -> exists so s, services_ (loader_ d) !! so = Some s /\ describes svc so s) /\
    forall h maps m a, hook_maps_ p !! h = Some maps -> hashes k !! id_hash_fd maps = Some m -> bpf_lookup m 0 = None ->
      arrays k !! prog_array_fd maps = Some a ->
      exists elems ids, jget cj (pin_path_id_to_index maps) = Some (hash_to_json (mkEbpfHash elems)) /\
        length elems = length (bpf_keys m) /\
        (forall key v, bpf_lookup m key = Some v -> mkHashElem (fmt_hex key) v ∈ elems) /\
        jget cj (pin_path_prog_array maps) = Some (array_to_json (mkEbpfArray ids)) /\
        forall id, id ∈ ids <-> id <> 0 /\ exists slot, 0 <= slot < MAX_CHAIN_PROGS /\ prog_id <$> pa_lookup a slot = Some id.
Proof.
  intros Hout Hcm Hpaths. cbv zeta. assert (Hnd : NoDup (daemon_status d queue out).*1) by (by apply assign_nodup).
  eexists _, (service_status <$> (loaderDebugStatus (loader_ d)).1), (chain_status p k).
  split; [apply jget_object; [done | apply assign_here] |]. split; [| split; [| split; [| split; [| split; [| split]]]]].
  - intros key v Hk Hin. apply jget_object; [done |]. by apply assign_other.
  - apply jget_object; [| destruct (status_queue_ d); left].
    destruct (status_queue_ d); refine (bool_decide_unpack _ _); vm_compute; exact Logic.I.
  - apply jget_object.
    + destruct (status_queue_ d); refine (bool_decide_unpack _ _); vm_compute; exact Logic.I.
    + apply elem_of_app. right. apply list_elem_of_singleton. unfold loader_status, loaderDebugStatus. cbn. by rewrite Hcm.
  - unfold loaderDebugStatus. cbn. by rewrite !length_fmap, uiter_perm, length_map_to_list.
  - intros so s Hs. eexists. split; [| apply service_described]. apply list_elem_of_fmap. eexists. split; [done |].
    unfold loaderDebugStatus. cbn. apply list_elem_of_fmap. exists (so, s). split; [done |].
    by rewrite uiter_perm, elem_of_map_to_list.
  - intros svc (r & -> & Hr)%list_elem_of_fmap. unfold loaderDebugStatus in Hr. cbn in Hr.
    apply list_elem_of_fmap in Hr as ([so s] & -> & Hs). rewrite uiter_perm, elem_of_map_to_list in Hs.
    exists so, s. split; [done | apply service_described].
  - intros h maps m a Hmaps Hm H0 Ha. destruct (chain_status_hook p k h maps Hpaths Hmaps) as [Hhash Harr].
    unfold hash_status in Hhash. rewrite Hm, (hash_loop_all m H0) in Hhash. unfold array_status in Harr. rewrite Ha in Harr.
    destruct (hash_elems_of m _ eq_refl) as [Hlen Helems]. eexists _, _. split; [exact Hhash |]. split; [exact Hlen |].
    split; [exact Helems |]. split; [exact Harr |]. intros id. by apply array_ids_of.
Qed.

(** the debug report is the state: every loaded service is described by
    an entry of the list under Daemon/Loader, which has no other entry but the
    last one, and that one gives for a hook every entry of the id hash and
    exactly the programs in the program array; what other subscribers wrote is
    kept. *)
Theorem debug_report_is_the_state {T} (d : Daemon (Loader I IM (chain (M := M) (A := A)))) (queue : Queue.Queue T)
  (out : list (string * json)) (p : PinnedProgMap) (k : Kernel M A) (h : HookType) (maps : HookMaps) (m : M) (a : A)
  (Hout : NoDup out.*1) (Hcm : chain_mgr_ (loader_ d) = Some (p, k))
  (Hpaths : NoDup (map_to_list (hook_maps_ p) ≫= paths)) (Hmaps : hook_maps_ p !! h = Some maps)
  (Hm : hashes k !! id_hash_fd maps = Some m) (H0 : bpf_lookup m 0 = None) (Ha : arrays k !! prog_array_fd maps = Some a) :
  let report := jobject (daemon_status d queue out) in
  exists dj svcs cj elems ids,
    jget report "Daemon" = Some dj /\ (forall key v, key <> "Daemon" -> (key, v) ∈ out -> jget report key = Some v) /\
    jget dj "running" = Some (jbool (running_ d)) /\ jget dj "Loader" = Some (jarray (svcs ++ [cj])) /\
    length svcs = size (services_ (loader_ d)) /\
    (forall so s, services_ (loader_ d) !! so = Some s -> exists svc, svc ∈ svcs /\ describes svc so s) /\
    jget cj (pin_path_id_to_index maps) = Some (hash_to_json (mkEbpfHash elems)) /\
    length elems = length (bpf_keys m) /\ (forall key v, bpf_lookup m key = Some v -> mkHashElem (fmt_hex key) v ∈ elems) /\
    jget cj (pin_path_prog_array maps) = Some (array_to_json (mkEbpfArray ids)) /\
    forall id, id ∈ ids <-> id <> 0 /\ exists slot, 0 <= slot < MAX_CHAIN_PROGS /\ prog_id <$> pa_lookup a slot = Some id.
Proof.
  cbv zeta. destruct (daemon_reported d queue out p k Hout Hcm Hpaths) as (dj & svcs & cj & H1 & H2 & H3 & H4 & H5 & H6 & _ & Hhook).
  destruct (Hhook h maps m a Hmaps Hm H0 Ha) as (elems & ids & Hhash). by exists dj, svcs, cj, elems, ids.
Qed.

End Report.

(** ** A concrete report *)

Module Sample.

Import ProgMap.Sample.
#[local] Instance order_string : UMapOrder string := default_order string.
#[local] Instance order_hook : UMapOrder HookType := default_order HookType.
#[local] Existing Instance array_ops.

#[local] Instance service : EbpfIf nat RefJson.t := {|
  getName := fun _ => "acl";
  start := fun _ s => (Ok true, s);
  Loader.stop := fun s => (Ok tt, s);
  onConfigUpdate := fun _ _ _ s => (Ok tt, s);
  getMainProgFd := fun _ => -1;
  getPrometheusStatus := fun _ => RefJson.Null;
  getDebugStatus := fun _ => RefJson.Null
|}.

(** one service, one chain entry, one program *)
Definition full_hash : RefHash.t Z Z := default hash (bpf_update hash (CHAIN_KEY 2 3) 1).
Definition acl : ServiceHandle nat := mkService true (Some 0%nat) "acl" "/lib/libhebpf_acl.so" "/etc/acl.json" XDP_GENERIC 2.
Definition daemon : Daemon (Loader nat unit (chain (M := RefHash.t Z Z) (A := gmap Z Z))) :=
  mkDaemon (mkLoader {[ "/lib/libhebpf_acl.so" := acl ]} true (Some tt)
              (Some (manager, mkKernel {[ 11 := full_hash ]} {[ 10 := {[ 1 := 3 ]} ]})) []) true ∅ true true.
Definition queue : Queue.Queue nat := Queue.mkQueue None [] 16 false [] [] [].
Definition report : list (string * RefJson.t) :=
  daemon_status Datatypes.id (fun z => if z =? CHAIN_KEY 2 3 then "0x200000003" else "") RefJson.Null
    (fun b => RefJson.Num (Z.b2z b)) daemon queue [("Monitor", RefJson.Null)].

Lemma debug_report_is_the_state_witness :
  exists dj svcs cj elems ids,
    jget (jobject report) "Daemon" = Some dj /\ jget (jobject report) "Monitor" = Some RefJson.Null /\
    jget dj "Loader" = Some (jarray (svcs ++ [cj])) /\ length svcs = 1%nat /\
    jget cj "/sys/fs/bpf/XDP_Gen_idhash" = Some (hash_to_json (mkEbpfHash elems)) /\ length elems = 1%nat /\
    mkHashElem "0x200000003" 1 ∈ elems /\
    jget cj "/sys/fs/bpf/XDP_Gen_parray" = Some (array_to_json (mkEbpfArray ids)) /\ 3 ∈ ids.
Proof.
  destruct (debug_report_is_the_state Datatypes.id (fun z => if z =? CHAIN_KEY 2 3 then "0x200000003" else "")
              RefJson.Null (fun b => RefJson.Num (Z.b2z b)) daemon queue [("Monitor", RefJson.Null)]
              manager (mkKernel {[ 11 := full_hash ]} {[ 10 := {[ 1 := 3 ]} ]}) XDP_GENERIC maps full_hash {[ 1 := 3 ]})
    as (dj & svcs & cj & elems & ids & H1 & H2 & _ & H3 & H4 & _ & H5 & H6 & H7 & H8 & H9).
  - apply NoDup_singleton.
  - reflexivity.
  - refine (bool_decide_unpack _ _). vm_compute. exact Logic.I.
  - reflexivity.
  - reflexivity.
  - vm_compute. reflexivity.
  - reflexivity.
  - exists dj, svcs, cj, elems, ids. split; [exact H1 |]. split; [apply (H2 "Monitor"); [discriminate | left] |].
    split; [exact H3 |]. split; [exact H4 |]. split; [exact H5 |]. split; [exact H6 |].
    split; [exact (H7 (CHAIN_KEY 2 3) 1 ltac:(vm_compute; reflexivity)) |]. split; [exact H8 |].
    apply H9. split; [discriminate |]. exists 1. split; [vm_compute; split; [discriminate | reflexivity] | reflexivity].
Defined.

End Sample.
