(* ===== verification/NetHook.v ===== *)
(** * Attaching programs to network interfaces

    [EbpfNetHookIf], [TcHook] and [XdpHook] ([src/ebpf/ebpf_net_hook_if.cc],
    [tc_hook.cc], [xdp_hook.cc]), the skeleton wrapper [EbpfSkelIf]
    ([src/ebpf/ebpf_if.tpp]), [EbpfWithNetHook]
    ([src/ebpf/ebpf_with_net_hook.tpp]) and the scheduler service
    ([src/services/scheduler/scheduler_base.tpp]), as programs over calls into
    libbpf and the kernel whose answers are arbitrary. *)

From S2P Require Import Prelude Configs PinMaps.

#[local] Open Scope string_scope.
#[local] Open Scope Z_scope.
#[local] Open Scope list_scope.

(** ** Calls *)

Inductive attach_point : Type := BPF_TC_INGRESS | BPF_TC_EGRESS | BPF_TC_CUSTOM.

Record bpf_tc_hook : Type := mkTcHook { th_ifindex : Z; th_attach_point : attach_point; th_parent : Z }.

Inductive netcall : Type :=
| TcHookCreate (hook : bpf_tc_hook)
| TcHookDestroy (hook : bpf_tc_hook)
| TcAttach (hook : bpf_tc_hook) (prog_fd : Z)
| TcDetach (hook : bpf_tc_hook) (handle priority : Z)
| XdpAttach (ifindex prog_fd flags : Z)
| XdpDetach (ifindex flags : Z)
| CloseFd (fd : Z)
| SkelOpen
| SkelLoad
| SkelAttach
| SkelDetach
| SkelDestroy.

(** the returned error, and what [bpf_tc_attach] stores in its options; for
    [SkelOpen] the error is negative when no object is returned, and [r_fd] is
    the descriptor of the main program *)
Record netresp : Type := mkNetresp { err : Z; r_handle : Z; r_priority : Z; r_fd : Z }.

Abbreviation net := (prog netcall netresp).
Definition nettrace : Type := list (netcall * netresp).

(** ** The hooks *)

(* src/ebpf/tc_hook.h:13-13 TcHook::Direct *)
Inductive Direct : Type := INGRESS | EGRESS.
(* src/ebpf/xdp_hook.h:13-13 XdpHook::Mode *)
Inductive Mode : Type := MODE_GENERIC | MODE_NATIVE | MODE_OFFLOAD | MODE_UNKNOWN.

(* src/ebpf/tc_hook.h:11-30 TcHook *)
Record TcHook : Type := mkTc { hook_ : bpf_tc_hook; hook_created_ : bool; handle_ : Z; priority_ : Z }.

(** the derived part of a hook object *)
Inductive hook_impl : Type := Tc (t : TcHook) | Xdp (mode_ : Mode).

(* src/ebpf/ebpf_net_hook_if.h:13-36 EbpfNetHookIf *)
Record EbpfNetHook : Type := mkHook {
  ifindex_ : Z;
  attached_ : bool;
  prog_fd_ : option Z;
  impl : hook_impl
}.

(* src/ebpf/tc_hook.cc:85-116 TcHook::setBpfTcHook *)
Definition setBpfTcHook (ifindex : Z) (direct : Direct) (parent : Z) : bpf_tc_hook :=
  mkTcHook ifindex (match direct with INGRESS => BPF_TC_INGRESS | EGRESS => BPF_TC_EGRESS end) parent.

(* src/ebpf/tc_hook.cc:9-13 TcHook::TcHook *)
Definition newTcHook (ifindex : Z) (direct : Direct) : EbpfNetHook :=
  mkHook ifindex false None (Tc (mkTc (setBpfTcHook ifindex direct 0) false 0 0)).

(* src/ebpf/xdp_hook.cc:10-11 XdpHook::XdpHook *)
Definition newXdpHook (ifindex : Z) (mode : Mode) : EbpfNetHook := mkHook ifindex false None (Xdp mode).

Definition XDP_FLAGS_SKB_MODE : Z := 2.
Definition XDP_FLAGS_DRV_MODE : Z := 4.
Definition XDP_FLAGS_HW_MODE : Z := 8.

(* src/ebpf/xdp_hook.cc:42-64 XdpHook::getFlags *)
Definition getFlags (mode_ : Mode) : Z :=
  match mode_ with
  | MODE_NATIVE => XDP_FLAGS_DRV_MODE
  | MODE_OFFLOAD => XDP_FLAGS_HW_MODE
  | _ => XDP_FLAGS_SKB_MODE
  end.

Definition set_impl (i : hook_impl) (h : EbpfNetHook) : EbpfNetHook := mkHook (ifindex_ h) (attached_ h) (prog_fd_ h) i.
Definition set_created (b : bool) (t : TcHook) : TcHook := mkTc (hook_ t) b (handle_ t) (priority_ t).

(** [do_attach] of both classes: the error and the object *)
(* src/ebpf/tc_hook.cc:15-33 TcHook::do_attach *)
Definition do_attach (prog_fd : Z) (h : EbpfNetHook) : net (Z * EbpfNetHook) :=
  match impl h with
  | Tc t =>
      r ← call (TcAttach (hook_ t) prog_fd);
      if err r =? 0
      then Ret (err r, set_impl (Tc (mkTc (hook_ t) (hook_created_ t) (r_handle r) (r_priority r))) h)
      else Ret (err r, h)
  | Xdp mode_ => r ← call (XdpAttach (ifindex_ h) prog_fd (getFlags mode_)); Ret (err r, h)
  end.

(* src/ebpf/tc_hook.cc:35-49 TcHook::do_detach *)
Definition do_detach (h : EbpfNetHook) : net Z :=
  match impl h with
  | Tc t => r ← call (TcDetach (hook_ t) (handle_ t) (priority_ t)); Ret (err r)
  | Xdp mode_ => r ← call (XdpDetach (ifindex_ h) (getFlags mode_)); Ret (err r)
  end.

(* src/ebpf/tc_hook.cc:51-70 TcHook::pre_attach_check *)
Definition pre_attach_check (h : EbpfNetHook) : net (Z * EbpfNetHook) :=
  match impl h with
  | Tc t =>
      r ← call (TcHookCreate (hook_ t));
      if err r =? 0 then Ret (0, set_impl (Tc (set_created true t)) h)
      else if err r =? - EEXIST then Ret (0, set_impl (Tc (set_created false t)) h)
      else Ret (err r, h)
  | Xdp _ => Ret (0, h)
  end.

(* src/ebpf/tc_hook.cc:72-83 TcHook::post_detach_cleanup *)
Definition post_detach_cleanup (h : EbpfNetHook) : net EbpfNetHook :=
  match impl h with
  | Tc t =>
      if hook_created_ t then
        r ← call (TcHookDestroy (hook_ t));
        if err r =? 0 then Ret (set_impl (Tc (set_created false t)) h) else Ret h
      else Ret h
  | Xdp _ => Ret h
  end.

(** [std::unique_ptr<FdIf>::reset()]: the owner closes its descriptor *)
Definition reset_fd (fd : option Z) : net unit :=
  match fd with Some fd => _ ← call (CloseFd fd); Ret tt | None => Ret tt end.

(** [attach] takes the owner of the descriptor: unless it is kept in
    [prog_fd_], it is destroyed on return and closes it *)
(* src/ebpf/ebpf_net_hook_if.cc:32-61 EbpfNetHookIf::attach *)
Definition attach (fd : Z) (h : EbpfNetHook) : net (bool * EbpfNetHook) :=
  if attached_ h then _ ← reset_fd (Some fd); Ret (false, h)
  else
    c ← pre_attach_check h;
    let '(e, h) := c in
    if e <? 0 then _ ← reset_fd (Some fd); Ret (false, h)
    else
      c ← do_attach fd h;
      let '(e, h) := c in
      if e =? 0 then
        _ ← reset_fd (prog_fd_ h);
        Ret (true, mkHook (ifindex_ h) true (Some fd) (impl h))
      else _ ← reset_fd (Some fd); Ret (false, h).

(* src/ebpf/ebpf_net_hook_if.cc:63-86 EbpfNetHookIf::detach *)
Definition detach (h : EbpfNetHook) : net (bool * EbpfNetHook) :=
  if negb (attached_ h) then Ret (true, h)
  else
    e ← do_detach h;
    if e =? 0 then
      _ ← reset_fd (prog_fd_ h);
      h ← post_detach_cleanup (mkHook (ifindex_ h) false None (impl h));
      Ret (true, h)
    else
      h ← post_detach_cleanup h;
      Ret (false, h).

(** The destructor of the base class: an attached object calls [do_detach],
    which is pure there because the derived part is gone already, and the
    process is terminated; then the members are destroyed. *)
(* src/ebpf/ebpf_net_hook_if.cc:11-15 EbpfNetHookIf::~EbpfNetHookIf *)
Definition destroyHook (h : EbpfNetHook) : net (result exn unit) :=
  if attached_ h then Ret (Err ABORT)
  else _ ← reset_fd (prog_fd_ h); Ret (Ok tt).

(** ** A service with a network hook *)

(** [skel_]: the skeleton, as the descriptor of its main program *)
(* src/ebpf/ebpf_with_net_hook.h:16-39 EbpfWithNetHook *)
Record Service : Type := mkSvc {
  skel_ : option Z;
  io_ctx_ : bool;
  net_hook_ : option EbpfNetHook;
  svc_ifindex_ : Z;
  svc_attached_ : bool
}.

Definition set_skel (s : option Z) (v : Service) : Service :=
  mkSvc s (io_ctx_ v) (net_hook_ v) (svc_ifindex_ v) (svc_attached_ v).
Definition set_net_hook (h : option EbpfNetHook) (v : Service) : Service :=
  mkSvc (skel_ v) (io_ctx_ v) h (svc_ifindex_ v) (svc_attached_ v).
Definition set_attached (b : bool) (v : Service) : Service :=
  mkSvc (skel_ v) (io_ctx_ v) (net_hook_ v) (svc_ifindex_ v) b.

(* src/ebpf/ebpf_with_net_hook.tpp:14-16 EbpfWithNetHook::EbpfWithNetHook *)
Definition newService : Service := mkSvc None false None (-1) false.

(** the class of the hook for a configured type *)
(* src/ebpf/ebpf_with_net_hook.tpp:60-76 EbpfWithNetHook::attachGeneric *)
Definition make_hook (hook_type : HookType) (ifindex : Z) : option EbpfNetHook :=
  match hook_type with
  | TC => Some (newTcHook ifindex INGRESS)
  | XDP_GENERIC => Some (newXdpHook ifindex MODE_GENERIC)
  | XDP_NATIVE => Some (newXdpHook ifindex MODE_NATIVE)
  | XDP_OFFLOAD => Some (newXdpHook ifindex MODE_OFFLOAD)
  | _ => None
  end.

(** [hook_ = ...]: the old hook object is destroyed *)
Definition assign_hook (h : option EbpfNetHook) (v : Service) : net (result exn Service) :=
  match net_hook_ v with
  | None => Ret (Ok (set_net_hook h v))
  | Some old => r ← destroyHook old; Ret (match r with Ok _ => Ok (set_net_hook h v) | Err e => Err e end)
  end.

Section Service.
Context `{BuildMode}.

(** [main_fd] is [getMainProgFd()] of the derived class *)
(* src/ebpf/ebpf_with_net_hook.tpp:35-93 EbpfWithNetHook::attachGeneric *)
Definition attachGeneric (main_fd : Service -> Z) (hook_type : HookType) (ifindex : Z) (v : Service)
  : net (result exn (bool * Service)) :=
  if ifindex <? 0 then Ret (Ok (false, v))
  else if svc_attached_ v then Ret (Ok (true, v))
  else
    let fd := main_fd v in
    if fd <? 0 then Ret (Ok (false, v))
    else
      match make_hook hook_type ifindex with
      | None => Ret (Ok (false, v))
      | Some hook =>
          assigned ← assign_hook (Some hook) v;
          match assigned with
          | Err e => Ret (Err e)
          | Ok v =>
              attached ← attach fd hook;
              match attached with
              | (false, hook) =>
                  r ← destroyHook hook;
                  Ret (match r with Ok _ => Ok (false, set_net_hook None v) | Err e => Err e end)
              | (true, hook) => Ret (Ok (true, mkSvc (skel_ v) (io_ctx_ v) (Some hook) ifindex true))
              end
          end
      end.

(* src/ebpf/ebpf_with_net_hook.tpp:18-33 EbpfWithNetHook::detach *)
Definition detachHook (v : Service) : net Service :=
  if negb (svc_attached_ v) then Ret v
  else
    match net_hook_ v with
    | None => Ret v
    | Some h => r ← detach h; Ret (set_attached false (set_net_hook (Some r.2) v))
    end.

(** *** The skeleton *)

(* src/ebpf/ebpf_if.tpp:34-42 EbpfSkelIf::open *)
Definition open (v : Service) : net Service :=
  match skel_ v with
  | Some _ => Ret v
  | None => r ← call SkelOpen; Ret (set_skel (if err r <? 0 then None else Some (r_fd r)) v)
  end.

(** [ASSERT(skel_ != nullptr)] and the use of the pointer *)
Definition with_skel {A} (v : Service) (f : Z -> net (result exn A)) : net (result exn A) :=
  match skel_ v with
  | Some fd => f fd
  | None => Ret (match ASSERT false with Ok _ => Err SEGV | Err e => Err e end)
  end.

(* src/ebpf/ebpf_if.tpp:44-55 EbpfSkelIf::load *)
Definition load (v : Service) : net (result exn unit) :=
  with_skel v (fun _ => r ← call SkelLoad; Ret (if err r <? 0 then Err (EXCEPT "Failed to load BPF program") else Ok tt)).

(* src/ebpf/ebpf_if.tpp:57-68 EbpfSkelIf::attach *)
Definition attachSkel (v : Service) : net (result exn unit) :=
  with_skel v (fun _ => r ← call SkelAttach; Ret (if err r <? 0 then Err (EXCEPT "Failed to attach BPF program") else Ok tt)).

(* src/ebpf/ebpf_if.tpp:70-78 EbpfSkelIf::detach *)
Definition detachSkel (v : Service) : net (result exn unit) :=
  with_skel v (fun _ => _ ← call SkelDetach; Ret (Ok tt)).

(* src/ebpf/ebpf_if.tpp:80-89 EbpfSkelIf::destroy *)
Definition destroy (v : Service) : net (result exn Service) :=
  with_skel v (fun _ => _ ← call SkelDestroy; Ret (Ok (set_skel None v))).

(* src/ebpf/ebpf_if.tpp:91-106 EbpfSkelIf::start *)
Definition startSkel (io_ctx : bool) (v : Service) : bool * Service :=
  let v := if io_ctx then mkSvc (skel_ v) true (net_hook_ v) (svc_ifindex_ v) (svc_attached_ v) else v in
  (io_ctx_ v, v).

(** *** The scheduler *)

(* src/services/scheduler/scheduler_base.tpp:52-64 SchedulerBase::getMainProgFd *)
Definition getMainProgFd (v : Service) : Z := default (-1) (skel_ v).

(* src/services/scheduler/scheduler_base.tpp:16-38 SchedulerBase::start *)
Definition start (io_ctx : bool) (v : Service) : net (result exn (bool * Service)) :=
  let '(ok, v) := startSkel io_ctx v in
  if negb ok then Ret (Ok (false, v))
  else
    v ← open v;
    match skel_ v with
    | None => Ret (Ok (false, v))
    | Some _ =>
        r ← load v;
        match r with
        | Err e => Ret (Err e)
        | Ok _ => r ← attachSkel v; Ret (match r with Ok _ => Ok (true, v) | Err e => Err e end)
        end
    end.

(* src/services/scheduler/scheduler_base.tpp:40-50 SchedulerBase::stop *)
Definition stop (v : Service) : net (result exn Service) :=
  v ← detachHook v;
  r ← detachSkel v;
  match r with
  | Err e => Ret (Err e)
  | Ok _ => destroy v
  end.

(* src/services/scheduler/scheduler_base.tpp:66-78 SchedulerBase::onConfigUpdate *)
Definition onConfigUpdate (hook_type : HookType) (ifindex : Z) (v : Service) : net (result exn Service) :=
  r ← attachGeneric getMainProgFd hook_type ifindex v;
  Ret (match r with Ok (_, v) => Ok v | Err e => Err e end).

End Service.

(** ** What the hook object knows about the kernel *)

(** [bpf_tc_hook_destroy] on the ingress or the egress hook keeps the qdisc and
    removes all filters of the hook *)
Definition flushes (c : netcall) : bool :=
  match c with
  | TcHookDestroy hk => match th_attach_point hk with BPF_TC_CUSTOM => false | _ => true end
  | _ => false
  end.
Definition attaches (c : netcall) : bool := match c with TcAttach _ _ | XdpAttach _ _ _ => true | _ => false end.
Definition detaches (c : netcall) : bool := match c with TcDetach _ _ _ | XdpDetach _ _ => true | _ => false end.

(** what the kernel has attached through one hook object after some calls: the
    calls it answered with an error change nothing *)
Definition live_step (n : Z) (cr : netcall * netresp) : Z :=
  if negb (err cr.2 =? 0) then n
  else if attaches cr.1 then n + 1
  else if detaches cr.1 then Z.max 0 (n - 1)
  else if flushes cr.1 then 0
  else n.
Definition live (tr : nettrace) : Z := foldl live_step 0 tr.

(** the filters have been flushed since the last attachment *)
Definition flushed_step (b : bool) (cr : netcall * netresp) : bool :=
  if negb (err cr.2 =? 0) then b else if attaches cr.1 then false else if flushes cr.1 then true else b.
Definition flushed (tr : nettrace) : bool := foldl flushed_step false tr.

(** a detachment that the kernel refused *)
Definition refused (cr : netcall * netresp) : bool := detaches cr.1 && negb (err cr.2 =? 0).
Definition refusals (tr : nettrace) : bool := existsb refused tr.

Definition closing (c : netcall) : list Z := match c with CloseFd fd => [fd] | _ => [] end.
(** descriptors closed, the latest first *)
Definition closed (tr : nettrace) : list Z := foldl (fun l cr => closing cr.1 ++ l) [] tr.

Lemma live_snoc tr c r : live (tr ++ [(c, r)]) = live_step (live tr) (c, r).
Proof. unfold live. by rewrite foldl_app. Qed.

Lemma flushed_snoc tr c r : flushed (tr ++ [(c, r)]) = flushed_step (flushed tr) (c, r).
Proof. unfold flushed. by rewrite foldl_app. Qed.

Lemma refusals_snoc tr c r : refusals (tr ++ [(c, r)]) = refusals tr || refused (c, r).
Proof. unfold refusals. rewrite existsb_app. cbn [existsb]. by rewrite orb_false_r. Qed.

Lemma closed_snoc tr c r : closed (tr ++ [(c, r)]) = closing c ++ closed tr.
Proof. unfold closed. by rewrite foldl_app. Qed.

Inductive hook_op : Type := OpAttach (fd : Z) | OpDetach.

Definition hook_exec (op : hook_op) (h : EbpfNetHook) : net EbpfNetHook :=
  match op with
  | OpAttach fd => prog_bind (attach fd h) (fun r => Ret r.2)
  | OpDetach => prog_bind (detach h) (fun r => Ret r.2)
  end.

Fixpoint hook_run (ops : list hook_op) (h : EbpfNetHook) : net EbpfNetHook :=
  match ops with
  | [] => Ret h
  | op :: ops => prog_bind (hook_exec op h) (hook_run ops)
  end.

Definition given1 (op : hook_op) : list Z := match op with OpAttach fd => [fd] | OpDetach => [] end.
Definition given (ops : list hook_op) : list Z := ops ≫= given1.

(** the object and the history agree, unless the filters were flushed after a
    refused detachment, and every descriptor handed over is either closed or
    owned *)
Definition hook_ok (fds : list Z) (h : EbpfNetHook) (tr : nettrace) : Prop :=
  live tr = (if attached_ h && negb (flushed tr) then 1 else 0) /\ (attached_ h && flushed tr = true -> refusals tr = true) /\
  (is_Some (prog_fd_ h) <-> attached_ h = true) /\ option_list (prog_fd_ h) ++ closed tr ≡ₚ fds.

#[local] Arguments flushed : simpl never.
#[local] Arguments refusals : simpl never.
#[local] Arguments live : simpl never.
#[local] Arguments closed : simpl never.

(** runs through the answers of the outside world *)
Ltac net_steps :=
  cbn; repeat (match goal with
  | |- forall _ : netresp, _ => intros ?
  | |- context [if err ?r =? ?b then _ else _] => let E := fresh "E" in destruct (err r =? b) eqn:E
  | |- context [if err ?r <? ?b then _ else _] => let E := fresh "E" in destruct (err r <? b) eqn:E
  end; cbn).

Ltac net_trace :=
  rewrite ?live_snoc, ?flushed_snoc, ?refusals_snoc, ?closed_snoc; unfold live_step, flushed_step, refused; cbn;
  repeat match goal with E : (err ?r =? ?b) = _ |- context [err ?r =? ?b] => rewrite E end; cbn.

(** the cases that are left: the attach point of a hook that is destroyed, and
    whether a state before was flushed *)
Ltac net_cases :=
  repeat match goal with
  | |- context [match th_attach_point ?hk with _ => _ end] => destruct (th_attach_point hk); cbn
  | |- context [err ?r =? 0] => destruct (err r =? 0); cbn
  | |- context [flushed ?tr] => destruct (flushed tr); cbn in *
  end.

Lemma attach_ok fds fd h tr :
  hook_ok fds h tr -> always (hook_ok (fd :: fds)) (hook_exec (OpAttach fd) h) tr.
Proof.
  intros (Hlive & Hgone & Hown & Hfds). destruct h as [i [|] own im]; unfold hook_ok in *; cbn in Hlive, Hgone, Hown, Hfds.
  - cbn. intros r. net_trace. net_cases.
    all: rewrite ?orb_false_r; split; [done |]; split; [done |]; split; [done |]; rewrite <- Hfds; by rewrite Permutation_middle.
  - assert (own = None) as -> by (destruct own; [by destruct Hown as [Hown _]; discriminate Hown | done]).
    unfold attach, pre_attach_check, do_attach. destruct im as [t | m]; net_steps; net_trace; net_cases.
    all: split; [lia |]; split; [done |]; split; [naive_solver | by rewrite Hfds].
Qed.

Lemma detach_ok fds h tr :
  hook_ok fds h tr -> always (hook_ok fds) (hook_exec OpDetach h) tr.
Proof.
  intros (Hlive & Hgone & Hown & Hfds). destruct h as [i [|] own im]; unfold hook_ok in *; cbn in Hlive, Hgone, Hown, Hfds; [| done].
  destruct own as [fd |]; [| by destruct Hown as [_ Hown]; destruct (Hown eq_refl)].
  destruct (flushed tr) eqn:Hf; cbn in Hlive, Hgone;
    unfold detach, do_detach, post_detach_cleanup; destruct im as [[hk [|] hd pr] | m]; net_steps; net_trace; rewrite ?Hf; cbn; net_cases.
  all: rewrite ?orb_true_r; split; [lia |]; split; [done |]; split; [naive_solver | done].
Qed.

Lemma hook_exec_ok fds op h tr :
  hook_ok fds h tr -> always (hook_ok (given1 op ++ fds)) (hook_exec op h) tr.
Proof. destruct op as [fd |]; [apply attach_ok | apply detach_ok]. Qed.

Lemma hook_run_ok ops : forall fds h tr,
  hook_ok fds h tr -> always (hook_ok (reverse (given ops) ++ fds)) (hook_run ops h) tr.
Proof.
  induction ops as [| op ops IH]; intros fds h tr Hok; [done |].
  cbn [hook_run]. eapply always_bind; [by apply hook_exec_ok |]. intros h' tr' Hok'.
  replace (reverse (given (op :: ops)) ++ fds) with (reverse (given ops) ++ given1 op ++ fds); [by apply IH |].
  change (given (op :: ops)) with (given1 op ++ given ops). rewrite reverse_app, <- app_assoc. by destruct op.
Qed.

(** C18: The hook object and the kernel.  Whatever the kernel answers to a
    sequence of attach and detach calls, at most one program is attached through
    the object, and none while attached_ is false; while attached_ is true
    exactly one is, unless the filters of the hook were flushed after the last
    attachment, and that only happens after the kernel refused to detach the
    filter: detach() then destroys the hook all the same, which removes the
    filter, and attached_ stays true.  The object owns a descriptor exactly
    while attached_ is true, and every descriptor handed to attach is that one
    or has been closed once. *)
Theorem hook_matches_kernel (ops : list hook_op) (ifindex : Z) (impl0 : hook_impl) (e : env netcall netresp) :
  let '(h, tr) := run e (hook_run ops (mkHook ifindex false None impl0)) [] in
  live tr = (if attached_ h && negb (flushed tr) then 1 else 0) /\
  (attached_ h = true -> flushed tr = true -> Exists (fun cr => refused cr = true) tr) /\
  (is_Some (prog_fd_ h) <-> attached_ h = true) /\ option_list (prog_fd_ h) ++ closed tr ≡ₚ given ops.
Proof.
  assert (Hok := hook_run_ok ops [] (mkHook ifindex false None impl0) []).
  apply (always_run _ _ _ e) in Hok;
    [| split; [done |]; split; [done |]; split; [split; [by intros [? [=]] | done] | done]].
  destruct (run e _ []) as [h tr]. cbn [fst snd] in Hok. destruct Hok as (? & Hgone & ? & Hfds). split; [done |]. split; [| split; [done |]].
  - intros Ha Hf. rewrite Ha, Hf in Hgone. specialize (Hgone eq_refl). unfold refusals in Hgone.
    apply existsb_exists in Hgone as (cr & Hin & Hr). apply Exists_exists. exists cr. by rewrite list_elem_of_In.
  - by rewrite Hfds, app_nil_r, reverse_Permutation.
Qed.

(** the case does happen: the kernel refuses to detach, the hook is destroyed,
    and the object still says attached_ *)
Theorem failed_detach_flushes (e : env netcall netresp) (i fd : Z) (t : TcHook) (tr : nettrace)
  (Hpoint : th_attach_point (hook_ t) <> BPF_TC_CUSTOM) (Hcreated : hook_created_ t = true)
  (Hrefused : err (e tr (TcDetach (hook_ t) (handle_ t) (priority_ t))) <> 0)
  (Hdestroy : forall tr, err (e tr (TcHookDestroy (hook_ t))) = 0) :
  let '(ok, h, tr') := run e (detach (mkHook i true (Some fd) (Tc t))) tr in
  ok = false /\ attached_ h = true /\ prog_fd_ h = Some fd /\ live tr' = 0.
Proof.
  destruct t as [hk created hd pr]. cbn in *. subst created. unfold detach, do_detach, post_detach_cleanup. cbn.
  apply Z.eqb_neq in Hrefused. rewrite Hrefused. cbn. rewrite Hdestroy. cbn. do 3 (split; [done |]).
  net_trace. rewrite Hdestroy. cbn. by destruct (th_attach_point hk).
Qed.

(** ** Services *)

Section ServiceFacts.
Context `{BuildMode}.

(** when the kernel refuses the attachment, attachGeneric has closed the
    descriptor of the service's own program: the skeleton still holds the
    number and getMainProgFd keeps handing it out, to insertProg among
    others. *)
Theorem failed_attach_closes_program_fd (e : env netcall netresp) (hook_type : HookType) (ifindex fd : Z) (v v' : Service)
    (tr tr' : nettrace)
  (Hskel : skel_ v = Some fd) (Hfd : 0 <= fd) (Hif : 0 <= ifindex) (Hhook : is_Some (make_hook hook_type ifindex))
  (Hnone : net_hook_ v = None) (Hoff : svc_attached_ v = false)
  (Hrun : run e (onConfigUpdate hook_type ifindex v) tr = (Ok v', tr')) (Hfailed : svc_attached_ v' = false) :
  getMainProgFd v' = fd /\ closed tr' = fd :: closed tr.
Proof.
  assert (Hgen : always (fun r tr' => forall v', r = Ok v' -> svc_attached_ v' = false ->
    getMainProgFd v' = fd /\ closed tr' = fd :: closed tr) (onConfigUpdate hook_type ifindex v) tr).
  { destruct v as [sk io hk ix at_]. cbn in Hskel, Hnone, Hoff. subst sk hk at_. unfold onConfigUpdate, attachGeneric.
    apply Z.ltb_ge in Hfd, Hif. cbn. rewrite Hif. cbn. rewrite Hfd.
    destruct hook_type; try (by destruct Hhook as [? [=]]); cbn [make_hook assign_hook net_hook_ newTcHook newXdpHook].
    all: unfold attach, pre_attach_check, do_attach; net_steps; intros v1 [= <-]; cbn; try done.
    all: intros _; split; [done |]; net_trace; done. }
  apply (always_run _ _ _ e) in Hgen. rewrite Hrun in Hgen. by apply (Hgen v').
Qed.

(** the implicit destructor of the service *)
Definition destroyService (v : Service) : net (result exn unit) :=
  match net_hook_ v with Some h => destroyHook h | None => Ret (Ok tt) end.

(** when the kernel refuses the detachment, stop() of the scheduler goes
    on as if it had succeeded and destroys the skeleton; the object that
    unloadServices destroys next still holds an attached hook, whose
    destructor calls a pure virtual function: the daemon is terminated. *)
Theorem failed_detach_kills_daemon (e : env netcall netresp) (v : Service) (h : EbpfNetHook) (fd : Z) (tr : nettrace)
  (Hskel : skel_ v = Some fd) (Hon : svc_attached_ v = true) (Hhook : net_hook_ v = Some h) (Hatt : attached_ h = true)
  (Hrefused : (run e (do_detach h) tr).1 ≠ 0) :
  exists v' tr', run e (stop v) tr = (Ok v', tr') /\ svc_attached_ v' = false /\ skel_ v' = None /\
    run e (destroyService v') tr' = (Err ABORT, tr').
Proof.
  destruct v as [sk io hk ix at_], h as [i att own im]. cbn in *. subst sk hk at_ att.
  unfold stop, detachHook, detach, do_detach, post_detach_cleanup in *. cbn in *.
  destruct im as [[hk [|] hd pr] | m]; cbn in *; apply Z.eqb_neq in Hrefused; rewrite Hrefused; cbn.
  1: destruct (err (e _ (TcHookDestroy hk)) =? 0); cbn.
  all: eexists _, _; split; [done |]; by repeat split.
Qed.

Lemma last_two (tr : nettrace) c1 r1 c2 r2 : fst <$> ((tr ++ [(c1, r1)]) ++ [(c2, r2)]) = (fst <$> tr) ++ [c1; c2].
Proof. by rewrite !fmap_app, <- app_assoc. Qed.

(** the outside world does what it is asked *)
Definition accepting (e : env netcall netresp) : Prop := forall tr c, err (e tr c) = 0 /\ 0 <= r_fd (e tr c).

(** *** When every call succeeds *)

Section Accepting.
Context (e : env netcall netresp) (Hok : accepting e).

Lemma accepting_zero tr c : (err (e tr c) =? 0) = true.
Proof. apply Z.eqb_eq, (Hok tr c). Qed.
Lemma accepting_nonneg tr c : (err (e tr c) <? 0) = false.
Proof. by destruct (Hok tr c) as [-> _]. Qed.
Lemma accepting_fd tr c : (r_fd (e tr c) <? 0) = false.
Proof. apply Z.ltb_ge, Hok. Qed.

(** a started scheduler: its skeleton is loaded, it has no hook *)
Definition started_scheduler (v : Service) (fd : Z) : Prop := v = mkSvc (Some fd) true None (-1) false /\ 0 <= fd.

Lemma scheduler_starts :
  exists v tr, run e (start true newService) [] = (Ok (true, v), tr) /\ started_scheduler v (r_fd (e [] SkelOpen)) /\
    live tr = 0 /\ closed tr = [].
Proof.
  unfold start, open, load, attachSkel. do 3 (cbn; rewrite accepting_nonneg). cbn. eexists _, _. split; [done |].
  unfold live, live_step, closed. cbn. rewrite !(proj1 (Hok _ _)). cbn. split; [split; [done | apply Hok] | done].
Qed.

(** a scheduler attached to an interface *)
Definition attached_scheduler (v : Service) (fd ifindex : Z) : Prop :=
  exists im, v = mkSvc (Some fd) true (Some (mkHook ifindex true (Some fd) im)) ifindex true.

Lemma scheduler_attaches hook_type ifindex v fd tr :
  started_scheduler v fd -> 0 <= ifindex -> is_Some (make_hook hook_type ifindex) ->
  exists v' tr', run e (onConfigUpdate hook_type ifindex v) tr = (Ok v', tr') /\ attached_scheduler v' fd ifindex /\
    live tr' = live tr + 1 /\ closed tr' = closed tr.
Proof.
  intros [-> Hfd] Hif Hhook. apply Z.ltb_ge in Hif, Hfd. unfold onConfigUpdate, attachGeneric. rewrite Hif. cbn. rewrite Hfd.
  destruct hook_type; try (by destruct Hhook as [? [=]]); cbn; repeat (rewrite accepting_zero; cbn).
  all: eexists _, _; split; [done |]; split; [by eexists |].
  all: rewrite ?live_snoc, ?closed_snoc; unfold live_step; cbn; repeat (rewrite accepting_zero; cbn); split; [lia | done].
Qed.

Lemma scheduler_stops v fd ifindex tr :
  attached_scheduler v fd ifindex -> live tr = 1 ->
  exists v' tr' h before, run e (stop v) tr = (Ok v', tr') /\ skel_ v' = None /\ net_hook_ v' = Some h /\
    attached_ h = false /\ prog_fd_ h = None /\ live tr' = 0 /\ closed tr' = fd :: closed tr /\
    fst <$> tr' = before ++ [SkelDetach; SkelDestroy].
Proof.
  intros [im ->] Hlive. unfold stop, detachHook, detach, do_detach, post_detach_cleanup. cbn.
  destruct im as [[hk [|] hd pr] | m]; cbn; repeat (rewrite accepting_zero; cbn).
  all: eexists _, _, _, _; split; [done |]; split; [done |]; split; [done |]; split; [done |]; split; [done |].
  all: rewrite ?live_snoc, ?closed_snoc; unfold live_step; cbn; repeat (rewrite accepting_zero; cbn); rewrite Hlive.
  all: (split; [| split; [done | apply last_two]]); try done; by destruct (th_attach_point hk).
Qed.

End Accepting.

(** C19: the life of a scheduler, when every call succeeds: start loads the
    program, the configuration update attaches it to the interface, stop
    detaches it again and leaves an object that can be destroyed; the
    descriptor of the program has been closed once by the hook, before
    libbpf destroys the skeleton that also owns it. *)
Theorem scheduler_lifecycle (e : env netcall netresp) (hook_type : HookType) (ifindex : Z)
  (Hok : accepting e) (Hif : 0 <= ifindex) (Hhook : is_Some (make_hook hook_type ifindex)) :
  exists v1 v2 v3 tr1 tr2 tr3 fd before,
    run e (start true newService) [] = (Ok (true, v1), tr1) /\ getMainProgFd v1 = fd /\ live tr1 = 0 /\
    run e (onConfigUpdate hook_type ifindex v1) tr1 = (Ok v2, tr2) /\ svc_attached_ v2 = true /\ live tr2 = 1 /\
    run e (stop v2) tr2 = (Ok v3, tr3) /\ skel_ v3 = None /\ live tr3 = 0 /\
    run e (destroyService v3) tr3 = (Ok tt, tr3) /\
    closed tr3 = [fd] /\ fst <$> tr3 = before ++ [SkelDetach; SkelDestroy].
Proof.
  destruct (scheduler_starts e Hok) as (v1 & tr1 & Hs & Hv1 & Hl1 & Hc1).
  destruct (scheduler_attaches e Hok hook_type ifindex v1 _ tr1 Hv1 Hif Hhook) as (v2 & tr2 & Hu & Hv2 & Hl2 & Hc2).
  destruct (scheduler_stops e Hok v2 _ ifindex tr2 Hv2 ltac:(lia)) as (v3 & tr3 & h & before & Hst & Hsk & Hh & Hda & Hdo & Hl3 & Hc3 & Hlast).
  exists v1, v2, v3, tr1, tr2, tr3, (r_fd (e [] SkelOpen)), before.
  destruct Hv1 as [-> _]. destruct Hv2 as [im ->]. rewrite Hc2, Hc1 in Hc3.
  do 5 (split; [done |]). split; [lia |]. do 2 (split; [done |]). split; [lia |]. split; [| by split].
  unfold destroyService. rewrite Hh. unfold destroyHook. by rewrite Hda, Hdo.
Qed.

End ServiceFacts.

(** ** Concrete runs *)

Module Sample.

#[local] Instance release : BuildMode := true.

Definition ok : netresp := mkNetresp 0 1 1 5.
Definition EBUSY : Z := 16.
Definition willing : env netcall netresp := fun _ _ => ok.
(** another XDP program is on the interface *)
Definition no_attach : env netcall netresp := fun _ c =>
  match c with XdpAttach _ _ _ => mkNetresp (- EBUSY) 0 0 0 | _ => ok end.
Definition no_detach : env netcall netresp := fun _ c =>
  match c with XdpDetach _ _ => mkNetresp (- EBUSY) 0 0 0 | _ => ok end.

Definition loaded : Service := mkSvc (Some 5) true None (-1) false.
Definition hooked : EbpfNetHook := mkHook 2 true (Some 5) (Xdp MODE_GENERIC).
Definition running : Service := mkSvc (Some 5) true (Some hooked) 2 true.

Example running_reached :
  (run willing (r ← start true newService; match r with Ok (_, v) => onConfigUpdate XDP_GENERIC 2 v | Err e => Ret (Err e) end) []).1
  = Ok running.
Proof. vm_compute. reflexivity. Qed.

Lemma failed_attach_closes_program_fd_witness :
  exists v' tr', run no_attach (onConfigUpdate XDP_GENERIC 2 loaded) [] = (Ok v', tr') /\
    getMainProgFd v' = 5 /\ closed tr' = [5].
Proof.
  eexists _, _. split; [vm_compute; reflexivity |].
  eapply (failed_attach_closes_program_fd no_attach XDP_GENERIC 2 5 loaded _ [] _);
    [reflexivity | lia | lia | by eexists | reflexivity | reflexivity | vm_compute; reflexivity | reflexivity].
Defined.

Lemma failed_detach_kills_daemon_witness :
  exists v' tr', run no_detach (stop running) [] = (Ok v', tr') /\ svc_attached_ v' = false /\ skel_ v' = None /\
    run no_detach (destroyService v') tr' = (Err ABORT, tr').
Proof.
  apply (failed_detach_kills_daemon no_detach running hooked 5 []);
    [reflexivity | reflexivity | reflexivity | reflexivity | vm_compute; discriminate].
Defined.

(** the filter cannot be detached, the hook can be destroyed *)
Definition tc_no_detach : env netcall netresp := fun _ c =>
  match c with TcDetach _ _ _ => mkNetresp (- EBUSY) 0 0 0 | _ => ok end.

Lemma failed_detach_flushes_witness :
  let '(ok, h, tr) := run tc_no_detach (detach (mkHook 2 true (Some 5) (Tc (mkTc (setBpfTcHook 2 INGRESS 0) true 1 1)))) [] in
  ok = false /\ attached_ h = true /\ prog_fd_ h = Some 5 /\ live tr = 0.
Proof.
  apply (failed_detach_flushes tc_no_detach 2 5 (mkTc (setBpfTcHook 2 INGRESS 0) true 1 1) []);
    [discriminate | reflexivity | discriminate | reflexivity].
Defined.

Lemma scheduler_lifecycle_witness :
  exists v1 v2 v3 tr1 tr2 tr3 fd before,
    run willing (start true newService) [] = (Ok (true, v1), tr1) /\ getMainProgFd v1 = fd /\ live tr1 = 0 /\
    run willing (onConfigUpdate TC 2 v1) tr1 = (Ok v2, tr2) /\ svc_attached_ v2 = true /\ live tr2 = 1 /\
    run willing (stop v2) tr2 = (Ok v3, tr3) /\ skel_ v3 = None /\ live tr3 = 0 /\
    run willing (destroyService v3) tr3 = (Ok tt, tr3) /\
    closed tr3 = [fd] /\ fst <$> tr3 = before ++ [SkelDetach; SkelDestroy].
Proof.
  apply (scheduler_lifecycle willing TC 2); [intros tr c; split; [reflexivity | discriminate] | lia | by eexists].
Defined.

End Sample.
