(* ===== verification/Ring.v ===== *)
(** * Ring buffers, and the example that reads one

    [Ringbuffer] ([src/ebpf/ringbuffer.cc]) hands the address of the object to
    libbpf and to the io context, so its objects live in a store and are named
    by addresses.  On top of it the user-mode example
    ([src/services/examples/usermode/]): start, stop, and how the records of
    its kernel program reach its counter. *)

From S2P Require Import Prelude Net NetHook Metrics.

#[local] Open Scope Z_scope.
#[local] Open Scope list_scope.

(** ** libbpf *)

(** [ring_buffer__consume] over the pending records: what stays pending, and
    the state after the callbacks *)
Class RingLib : Type := {
  ring_buffer__consume : forall {S : Type}, (list Z -> S -> Z * S) -> list (list Z) -> S -> list (list Z) * S
}.

(** The callback is called on each pending record in order, which is consumed;
    a negative answer ends the call. *)
Class RingLaws `{RingLib} : Prop := {
  consume_nil : forall {S} (cb : list Z -> S -> Z * S) s, ring_buffer__consume cb [] s = ([], s);
  consume_cons : forall {S} (cb : list Z -> S -> Z * S) r rs s,
    ring_buffer__consume cb (r :: rs) s =
      if (cb r s).1 <? 0 then (rs, (cb r s).2) else ring_buffer__consume cb rs (cb r s).2
}.

(** ** The wrapper *)

Section Rings.
Context {S : Type} `{RingLib}.

(** [ringbuff_]: the context given to [ring_buffer__new]; [watcher_]: the
    object whose [consume] the registered read callback calls *)
(* src/ebpf/ringbuffer.h:15-48 Ringbuffer *)
Record Ringbuffer : Type := mkRingbuffer {
  fd_ : option Z;
  ringbuff_ : option nat;
  callback_ : option (list Z -> S -> Z * S);
  watcher_ : option nat;
  io_ctx_ : bool
}.

(** the objects by address *)
Abbreviation store := (gmap nat Ringbuffer).

(** a moved-from object *)
Definition emptied : Ringbuffer := mkRingbuffer None None None None false.

(* src/ebpf/ringbuffer.cc:11-13 Ringbuffer::Ringbuffer *)
Definition newRingbuffer (fd : option Z) (io_ctx : bool) (callback : option (list Z -> S -> Z * S)) : Ringbuffer :=
  mkRingbuffer fd None callback None io_ctx.

(* src/ebpf/ringbuffer.cc:15-24 Ringbuffer::Ringbuffer *)
Definition move_construct (this other : nat) (st : store) : store :=
  match st !! other with
  | Some rb => <[other := emptied]> (<[this := rb]> st)
  | None => st
  end.

(* src/ebpf/ringbuffer.cc:26-40 Ringbuffer::operator= *)
Definition move_assign (this other : nat) (st : store) : store :=
  if (this =? other)%nat then st else move_construct this other st.

Definition FD_INVALID : Z := -1.

(** [created]: whether [ring_buffer__new] returns an object *)
(* src/ebpf/ringbuffer.cc:46-68 Ringbuffer::init *)
Definition init (this : nat) (created : bool) (rb : Ringbuffer) : result exn unit * Ringbuffer :=
  match fd_ rb with
  | None => (Err (EXCEPT "MUST provide a eBPF program fd"), rb)
  | Some fd =>
      if fd =? FD_INVALID then (Err (EXCEPT "MUST provide a eBPF program fd"), rb)
      else if negb created then
        (Err (EXCEPT "ring_buffer__new() failed"), mkRingbuffer (fd_ rb) None (callback_ rb) (watcher_ rb) (io_ctx_ rb))
      else
        let rb := mkRingbuffer (fd_ rb) (Some this) (callback_ rb) (watcher_ rb) (io_ctx_ rb) in
        if negb (io_ctx_ rb) then (Err (EXCEPT "MUST provide a io context"), rb)
        else (Ok tt, mkRingbuffer (fd_ rb) (ringbuff_ rb) (callback_ rb) (Some this) (io_ctx_ rb))
  end.

(* src/ebpf/ringbuffer.cc:51-57 Ringbuffer::init *)
Definition raw_cb (st : store) (ctx : nat) (data : list Z) (s : S) : Z * S :=
  match st !! ctx ≫= callback_ with
  | Some callback => callback data s
  | None => (0, s)
  end.

(* src/ebpf/ringbuffer.cc:70-78 Ringbuffer::consume *)
Definition consume (this : nat) (st : store) (pending : list (list Z)) (s : S) : list (list Z) * S :=
  match st !! this ≫= ringbuff_ with
  | Some ctx => ring_buffer__consume (raw_cb st ctx) pending s
  | None => (pending, s)
  end.

(** the descriptor watched for the object at [holder] becomes readable *)
Definition readable (holder : nat) (st : store) (pending : list (list Z)) (s : S) : list (list Z) * S :=
  match st !! holder ≫= watcher_ with
  | Some this => consume this st pending s
  | None => (pending, s)
  end.

(** [good]: records whose callback does not answer with an error *)
Lemma consume_prefix `{!RingLaws} (cb : list Z -> S -> Z * S) good : forall rest s,
  (forall r s', r ∈ good -> 0 <= (cb r s').1) ->
  ring_buffer__consume cb (good ++ rest) s = ring_buffer__consume cb rest (foldl (fun s r => (cb r s).2) s good).
Proof.
  induction good as [| r good IH]; intros rest s Hgood; [done |]. cbn [app foldl]. rewrite consume_cons.
  rewrite (proj2 (Z.ltb_ge _ _)) by (apply Hgood; left). apply IH. intros r' s' Hr'. apply Hgood. by right.
Qed.

Lemma watched_readable this st rb pending s :
  st !! this = Some rb -> ringbuff_ rb = Some this -> watcher_ rb = Some this ->
  readable this st pending s = ring_buffer__consume (raw_cb st this) pending s.
Proof. intros Hrb Hring Hw. unfold readable, consume. rewrite Hrb. cbn. rewrite Hw, Hrb. cbn. by rewrite Hring. Qed.

(** a ring buffer that is moved after its initialisation is deaf: libbpf and
    the io context still have the old address, where nothing is left, so the
    records of the kernel stay where they are for ever. *)
Theorem moved_ring_is_deaf (this other : nat) (fd : Z) (cb : list Z -> S -> Z * S) (st : store)
  (pending : list (list Z)) (s : S)
  (Hfd : fd <> FD_INVALID) (Hne : this <> other)
  (Hrb : st !! other = Some (init other true (newRingbuffer (Some fd) true (Some cb))).2) :
  readable this (move_assign this other st) pending s = (pending, s) /\
  readable other (move_assign this other st) pending s = (pending, s).
Proof.
  unfold init, newRingbuffer in Hrb. cbn in Hrb. apply Z.eqb_neq in Hfd. rewrite Hfd in Hrb. cbn in Hrb.
  unfold move_assign, move_construct. apply Nat.eqb_neq in Hne as Hb. rewrite Hb, Hrb.
  unfold readable, consume. rewrite lookup_insert_eq. rewrite lookup_insert_ne by done. rewrite lookup_insert_eq. cbn.
  by rewrite lookup_insert_eq.
Qed.

End Rings.
Arguments Ringbuffer : clear implicits.

(** ** The user-mode example *)

Section Usermode.
Context `{BuildMode} `{RingLib}.

Abbreviation rings := (gmap nat (Ringbuffer ExampleUsermodeEbpf)).

Definition on_record (data : list Z) (u : ExampleUsermodeEbpf) : Z * ExampleUsermodeEbpf :=
  onEvent (Some data) (Z.of_nat (length data)) u.

(** [map_fd]: what [bpf_map__fd] returns; [this]: the address of the new ring
    buffer; the answers of the kernel are those of NetHook *)
(* src/services/examples/usermode/example_usermode.cc:29-41 ExampleUsermodeEbpf::load *)
Definition usermode_load (map_fd : Z) (created : bool) (this : nat) (v : Service) (st : rings) : net (result exn unit * rings) :=
  loaded ← NetHook.load v;
  match loaded with
  | Err e => Ret (Err e, st)
  | Ok _ =>
      if map_fd <? 0 then Ret (Err (EXCEPT "Cannot get ringbuffer fd: example_usermode"), st)
      else
        let '(r, rb) := init this created (newRingbuffer (Some map_fd) (NetHook.io_ctx_ v) (Some on_record)) in
        Ret (r, <[this := rb]> st)
  end.

(** the answer of [EbpfSkelIf::start] is ignored *)
(* src/services/examples/usermode/example_usermode.cc:50-61 ExampleUsermodeEbpf::start *)
Definition usermode_start (io_ctx : bool) (map_fd : Z) (created : bool) (this : nat) (v : Service) (st : rings)
  : net (result exn (bool * Service) * rings) :=
  let '(_, v) := startSkel io_ctx v in
  v ← NetHook.open v;
  match NetHook.skel_ v with
  | None => Ret (Ok (false, v), st)
  | Some _ =>
      r ← usermode_load map_fd created this v st;
      match r with
      | (Err e, st) => Ret (Err e, st)
      | (Ok _, st) =>
          attached ← attachSkel v;
          Ret (match attached with Ok _ => Ok (true, v) | Err e => Err e end, st)
      end
  end.

(** the ring buffer stays as it is *)
(* src/services/examples/usermode/example_usermode.cc:67-70 ExampleUsermodeEbpf::stop *)
Definition usermode_stop (v : Service) : net (result exn Service) :=
  r ← detachSkel v;
  match r with
  | Err e => Ret (Err e)
  | Ok _ => NetHook.destroy v
  end.

(** *** From the records to the counter *)

Context `{!RingLaws}.

Definition event_record (data : list Z) : Prop := length data = 8%nat.

Lemma on_record_ok data u : event_record data -> on_record data u = (0, mkUsermode (le data)).
Proof.
  intros Hd. unfold event_record in Hd. unfold on_record, onEvent. rewrite Hd. cbn [negb sizeof_execve_event Z.eqb Z.of_nat Pos.of_succ_nat Pos.succ Pos.eqb].
  by rewrite take_ge by (by rewrite Hd).
Qed.

Lemma records_counted good : forall u, Forall event_record good ->
  foldl (fun u r => (on_record r u).2) u good = match last good with Some r => mkUsermode (le r) | None => u end.
Proof.
  induction good as [| r good IH]; intros u Hg; [done |]. apply Forall_cons in Hg as [Hr Hg]. cbn [foldl].
  rewrite on_record_ok, IH by done. cbn [snd]. rewrite last_cons. by destruct (last good).
Qed.

Lemma started_ring io_ctx map_fd this v st tr (e : env netcall netresp) v' st' tr' :
  run e (usermode_start io_ctx map_fd true this v st) tr = ((Ok (true, v'), st'), tr') ->
  0 <= map_fd /\ st' !! this = Some (mkRingbuffer (Some map_fd) (Some this) (Some on_record) (Some this) true).
Proof.
  unfold usermode_start. destruct (startSkel io_ctx v) as [b v1]. cbv beta iota. cbv [mbind prog_mbind]. rewrite run_bind.
  destruct (run e (NetHook.open v1) tr) as [v2 tr2]. destruct (NetHook.skel_ v2) as [sk |] eqn:Esk; [| intros [=]].
  rewrite run_bind. destruct (run e (usermode_load map_fd true this v2 st) tr2) as [[r2 st2] tr3] eqn:El.
  destruct r2 as [[] | err2]; [| intros [=]].
  assert (Hst : 0 <= map_fd /\ st2 !! this = Some (mkRingbuffer (Some map_fd) (Some this) (Some on_record) (Some this) true)).
  { revert El. unfold usermode_load. cbv [mbind prog_mbind]. rewrite run_bind. destruct (run e (NetHook.load v2) tr2) as [[[] | le] tr4]; [| intros [=]].
    destruct (Z.ltb_spec map_fd 0) as [Hlt | Hge]; [intros [=] |]. unfold init, newRingbuffer. cbn [fd_ negb io_ctx_].
    destruct (Z.eqb_spec map_fd FD_INVALID) as [-> |]; [done |]. cbn. destruct (NetHook.io_ctx_ v2); cbn; [| intros [=]].
    intros [= <- _]. split; [done |]. apply lookup_insert_eq. }
  rewrite run_bind. destruct (run e (attachSkel v2) tr3) as [ra tr5]. cbn. destruct ra; [| intros [=]].
  intros [= _ <- _]. exact Hst.
Qed.

(** a started user-mode example follows its kernel program: when its ring
    buffer becomes readable every pending record is taken, in order, and the
    count is that of the last one; a record of another size ends the round, the
    records behind it stay pending, and nothing is lost of those before it. *)
Theorem usermode_follows_kernel (io_ctx : bool) (map_fd : Z) (this : nat) (v v' : Service) (st st' : rings)
  (tr tr' : nettrace) (e : env netcall netresp) (u : ExampleUsermodeEbpf) (good : list (list Z)) (bad : list Z)
  (rest : list (list Z))
  (Hstart : run e (usermode_start io_ctx map_fd true this v st) tr = ((Ok (true, v'), st'), tr'))
  (Hgood : Forall event_record good) (Hbad : length bad <> 8%nat) :
  let seen := match last good with Some r => mkUsermode (le r) | None => u end in
  readable this st' good u = ([], seen) /\ readable this st' (good ++ bad :: rest) u = (rest, seen).
Proof.
  destruct (started_ring _ _ _ _ _ _ _ _ _ _ Hstart) as [_ Hrb]. cbv zeta.
  assert (Hcb : forall data u, raw_cb st' this data u = on_record data u) by (intros; unfold raw_cb; by rewrite Hrb).
  assert (Hpos : forall r u', r ∈ good -> 0 <= (raw_cb st' this r u').1).
  { intros r u' Hr. rewrite Hcb, on_record_ok; [done |]. by apply (proj1 (Forall_forall _ _) Hgood). }
  assert (Hfold : foldl (fun u r => (raw_cb st' this r u).2) u good
    = match last good with Some r => mkUsermode (le r) | None => u end).
  { rewrite <- records_counted by done. clear -Hcb. revert u. induction good as [| r l IH]; intros u; [done |].
    cbn [foldl]. by rewrite Hcb, IH. }
  split; erewrite (watched_readable this st') by done.
  - rewrite <- (app_nil_r good) at 1. rewrite consume_prefix, consume_nil by done. by rewrite Hfold.
  - rewrite consume_prefix, consume_cons, Hfold by done. rewrite Hcb. unfold on_record, onEvent.
    destruct (Z.eqb_spec (Z.of_nat (length bad)) sizeof_execve_event) as [Heq | _]; [unfold sizeof_execve_event in Heq; lia |].
    done.
Qed.

End Usermode.

(** ** Concrete runs *)

Module Sample.

#[local] Instance release : BuildMode := true.

Fixpoint consume_all {S} (cb : list Z -> S -> Z * S) (pending : list (list Z)) (s : S) : list (list Z) * S :=
  match pending with
  | [] => ([], s)
  | r :: rs => if (cb r s).1 <? 0 then (rs, (cb r s).2) else consume_all cb rs (cb r s).2
  end.
#[local] Instance ref_ring : RingLib := {| ring_buffer__consume := @consume_all |}.
#[local] Instance ref_ring_laws : RingLaws.
Proof. by split. Qed.

(** a kernel that says yes *)
Definition willing : env netcall netresp := fun _ _ => mkNetresp 0 0 0 5.
Definition record (n : Z) : list Z := n :: replicate 7 0.

Lemma usermode_follows_kernel_witness :
  exists st, readable 1 st [record 1; record 2] newUsermode = ([], mkUsermode 2) /\
    readable 1 st [record 1; [9]; record 2] newUsermode = ([record 2], mkUsermode 1).
Proof.
  destruct (run willing (usermode_start true 7 true 1 newService ∅) []) as [[[[b v'] | x] st'] tr'] eqn:E;
    [| vm_compute in E; discriminate E].
  assert (Hb : b = true) by (vm_compute in E; congruence). rewrite Hb in E.
  exists st'. split.
  - apply (usermode_follows_kernel true 7 1 newService v' ∅ st' [] tr' willing newUsermode [record 1; record 2] [9] [] E);
      [repeat constructor | discriminate].
  - apply (usermode_follows_kernel true 7 1 newService v' ∅ st' [] tr' willing newUsermode [record 1] [9] [record 2] E);
      [repeat constructor | discriminate].
Defined.

Lemma moved_ring_is_deaf_witness :
  exists st, readable 0 st [record 1] newUsermode = ([record 1], newUsermode).
Proof.
  exists (move_assign 0 1 {[ 1%nat := (init 1 true (newRingbuffer (Some 7) true (Some on_record))).2 ]}).
  apply (moved_ring_is_deaf 0 1 7 on_record); [discriminate | discriminate | reflexivity].
Defined.

End Sample.
