(* ===== verification/KernelLog.v ===== *)
(** * The kernel log, from the macro to the log file

    The macro [KLOG] of [src/services/klog/klog_helpers.bpf.h] submits records to
    a shared ring buffer; the ring buffer of [Klog] ([Ring.v]) hands each one to
    [Klog::logEvent] ([Klog.v]), which writes a line with the module logger
    ([Log.v]).  The kernel's ring accepts a record or not, as it likes.  The last
    part follows the messages of the ACL program ([Acl.v]). *)

From stdpp Require Import pretty.
From S2P Require Import Prelude Configs Names BpfMap Json Net Addr Log Klog Ring Acl.

#[local] Open Scope string_scope.
#[local] Open Scope Z_scope.
#[local] Open Scope list_scope.

Section KernelLog.
Context `{RingLib, !RingLaws}.
(** whether spdlog can open a file, and whether the ring has room for a record
    of this size behind the pending ones *)
Context (can_open : string -> bool) (reserve : list (list Z) -> nat -> bool).

(** ** The kernel side *)

(** a use of [KLOG], with the bytes of the record that nobody writes *)
Record message : Type := mkMessage { m_level : Z; m_fmt : list Z; m_args : list Z; m_pad : list Z; m_tail : list Z }.

(** [uint64_t _args[MAX_ARGS_CNT] = {...}]: what is not given is zero *)
Definition args_array (m : message) : list Z := m_args m ++ replicate (MAX_ARGS_CNT - length (m_args m)) 0.
Definition record_of (m : message) : list Z :=
  bpf_log_event_internal (m_pad m) (m_tail m) (m_level m) (m_fmt m) (args_array m).

(* src/services/klog/klog_helpers.bpf.h:35-39 bpf_log_event_internal *)
Definition has_room (m : message) (pending : list (list Z)) : bool :=
  reserve pending (sizeof_log_event + length (m_fmt m) + 1)%nat.

(* src/services/klog/klog_helpers.bpf.h:68-72 KLOG *)
Definition KLOG (m : message) (pending : list (list Z)) : list (list Z) :=
  if has_room m pending then pending ++ [record_of m] else pending.

(** ** The user side *)

(** what else can end the callback *)
Inductive accident : Type :=
| Overrun (f : fault)
| Escaped (x : exn).

Definition text_of (bytes : list Z) : string :=
  foldr (fun c text => String (ascii_of_nat (Z.to_nat c)) text) EmptyString bytes.

(** the cases of the switch *)
(* src/services/klog/klog.cc:149-171 Klog::logEvent *)
Definition level_of (klevel : Z) : Level :=
  if klevel =? 0 then trace else if klevel =? 1 then debug else if klevel =? 2 then info
  else if klevel =? 3 then warn else if klevel =? 4 then error else if klevel =? 5 then critical else off.

Definition logged (id : Id) (lev : Level) (text : string) (answer : Z) (log : Log) : Z * result accident Log :=
  match LOG can_open id lev text log with
  | (Ok _, log) => (answer, Ok log)
  | (Err x, _) => (answer, Err (Escaped x))
  end.

(** the callback of the ring buffer; after an accident nothing more happens *)
(* src/services/klog/klog.cc:35-174 Klog::logEvent *)
Definition log_event_cb (data : list Z) (s : result accident Log) : Z * result accident Log :=
  match s with
  | Err _ => (0, s)
  | Ok log =>
      match logEvent (level_num (getLevel log)) data with
      | Err f => (0, Err (Overrun f))
      | Ok Rejected =>
          logged Id_ebpf error ("invalid event size: " +:+ decimal (Z.of_nat (length data)) +:+ " for log_event object size: "
            +:+ decimal (Z.of_nat sizeof_log_event)) (-1) log
      | Ok Filtered => (0, Ok log)
      | Ok (Logged l text) => logged Id_ebpf (level_of l) (text_of text) 0 log
      end
  end.

(** ** What should be written *)

Record message_fine (m : message) : Prop := {
  mf_pad : length (m_pad m) = 6%nat;
  mf_tail : length (m_tail m) = 6%nat;
  mf_args : (length (m_args m) <= MAX_ARGS_CNT)%nat;
  mf_fmt : complete (m_fmt m) = true;
  mf_fits : (length (render (m_fmt m) (u64 <$> args_array m) 0) <= BUFFER_SIZE - 1)%nat
}.

(** the module logger of [Klog]: the one there is, or the one that will be made *)
Definition ebpf_logger (log : Log) : LoggerType :=
  default (mkLogger (g_logfile log) (g_stdout log) (g_level log)) (g_map log !! "ebpf").

Definition can_log (log : Log) : Prop := is_Some (g_map log !! "ebpf") \/ can_open (g_logfile log) = true.

(** the line of a message, if its level passes both filters *)
Definition line_of (l : LoggerType) (threshold : Level) (m : message) : option line :=
  let lev := level_of (log_level (u16 (m_level m))) in
  if Z.max (level_num threshold) (level_num (logger_level l)) <=? level_num lev
  then Some (mkLine (sink_file l) (sink_stdout l) "ebpf" lev (text_of (render (m_fmt m) (u64 <$> args_array m) 0)))
  else None.

(** ** One line *)

Lemma level_num_of klevel : 0 <= klevel -> level_num (level_of (log_level klevel)) = log_level klevel.
Proof.
  intros Hk. unfold log_level, level_of. destruct (Z.leb_spec klevel 5) as [Hle |]; [| done].
  assert (klevel = 0 \/ klevel = 1 \/ klevel = 2 \/ klevel = 3 \/ klevel = 4 \/ klevel = 5) as Hcases by lia.
  by destruct Hcases as [-> | [-> | [-> | [-> | [-> | ->]]]]].
Qed.

Definition same_log (log log' : Log) : Prop :=
  g_level log' = g_level log /\ ebpf_logger log' = ebpf_logger log /\ can_log log'.

Lemma log_line lev text log :
  can_log log ->
  exists log', LOG can_open Id_ebpf lev text log = (Ok tt, log') /\ same_log log log' /\
    written log' = written log ++
      (if Z.max (level_num (g_level log)) (level_num (logger_level (ebpf_logger log))) <=? level_num lev
       then [mkLine (sink_file (ebpf_logger log)) (sink_stdout (ebpf_logger log)) "ebpf" lev text] else []).
Proof.
  intros Hcan. unfold LOG, LOG_TO, getLogger. change (enumName Id_ebpf) with "ebpf". change ("ebpf" =? "")%string with false.
  cbv [mbind st_bind get getLevel].
  destruct (Z.ltb_spec (level_num lev) (level_num (g_level log))) as [Hlt | Hge].
  { exists log. split; [done |]. split; [done |]. rewrite (proj2 (Z.leb_gt _ _)) by lia. by rewrite app_nil_r. }
  destruct (g_map log !! "ebpf") as [l |] eqn:El.
  - assert (Hl : ebpf_logger log = l) by (unfold ebpf_logger; by rewrite El). rewrite Hl. cbn.
    destruct (Z.ltb_spec (level_num lev) (level_num (logger_level l))) as [Hlt | Hge'].
    + exists log. split; [done |]. split; [done |]. rewrite (proj2 (Z.leb_gt _ _)) by lia. by rewrite app_nil_r.
    + eexists. split; [done |]. rewrite (proj2 (Z.leb_le _ _)) by lia. split; [| done].
      split; [done |]. split; [by unfold ebpf_logger | exact Hcan].
  - assert (Hopen : can_open (g_logfile log) = true) by (destruct Hcan as [[? ?] |]; [congruence | done]). rewrite Hopen.
    assert (Hl : ebpf_logger log = mkLogger (g_logfile log) (g_stdout log) (g_level log)) by (unfold ebpf_logger; by rewrite El).
    rewrite Hl. cbn. rewrite (proj2 (Z.ltb_ge _ _)) by lia. eexists. split; [done |].
    rewrite (proj2 (Z.leb_le _ _)) by lia. split; [| done]. split; [done |]. split; [| by right].
    unfold ebpf_logger. cbn. by rewrite lookup_insert_eq.
Qed.

(** ** One record *)

Lemma length_args m : message_fine m -> length (args_array m) = MAX_ARGS_CNT.
Proof. intros Hm. unfold args_array. rewrite length_app, length_replicate. pose proof (mf_args m Hm). lia. Qed.

Lemma line_of_level l threshold m :
  u16 (m_level m) < level_num threshold -> line_of l threshold m = None.
Proof.
  intros Hlt. unfold line_of. assert (0 <= u16 (m_level m)) by (unfold u16, wrap; apply Z.mod_pos_bound; done).
  rewrite level_num_of by done. rewrite (proj2 (Z.leb_gt _ _)); [done |]. unfold log_level.
  destruct (Z.leb_spec (u16 (m_level m)) 5); lia.
Qed.

Lemma record_logged m log :
  message_fine m -> can_log log ->
  exists log', log_event_cb (record_of m) (Ok log) = (0, Ok log') /\ same_log log log' /\
    written log' = written log ++ option_list (line_of (ebpf_logger log) (g_level log) m).
Proof.
  intros Hm Hcan. assert (Ht : u32 (level_num (g_level log)) = level_num (g_level log)) by (by destruct (g_level log)).
  unfold log_event_cb, record_of, getLevel. destruct (Z.ltb_spec (u16 (m_level m)) (level_num (g_level log))) as [Hlt | Hge].
  - exists log. rewrite filtered_event by (rewrite ?length_args by done; rewrite ?Ht; try done; apply Hm).
    split; [done |]. split; [done |]. by rewrite line_of_level, app_nil_r.
  - rewrite klog_roundtrip by (rewrite ?length_args by done; rewrite ?Ht; try done; apply Hm). unfold logged.
    destruct (log_line (level_of (log_level (u16 (m_level m)))) (text_of (render (m_fmt m) (u64 <$> args_array m) 0)) log Hcan)
      as (log' & -> & Hsame & Hw).
    exists log'. split; [done |]. split; [done |]. rewrite Hw. unfold line_of. by case_match.
Qed.

(** ** Any sequence of messages and rounds *)

Inductive klog_step : Type := Submit (m : message) | Drain.

(** [this], [st]: the ring buffer object of [Klog] and where it is *)
Context (this : nat) (st : gmap nat (Ringbuffer (result accident Log))).

Definition klog_state : Type := list (list Z) * result accident Log.

Definition klog_exec (x : klog_state) (step : klog_step) : klog_state :=
  match step with
  | Submit m => (KLOG m x.1, x.2)
  | Drain => readable this st x.1 x.2
  end.

(** the messages the ring had room for *)
Fixpoint accepted (x : klog_state) (steps : list klog_step) : list message :=
  match steps with
  | [] => []
  | Submit m :: steps =>
      let later := accepted (klog_exec x (Submit m)) steps in if has_room m x.1 then m :: later else later
  | Drain :: steps => accepted (klog_exec x Drain) steps
  end.

Definition submits (steps : list klog_step) : list message := omap (fun s => match s with Submit m => Some m | Drain => None end) steps.

Lemma accepted_sublist steps : forall x, accepted x steps `sublist_of` submits steps.
Proof.
  induction steps as [| [m |] steps IH]; intros x; cbn [accepted]; [done | | apply IH].
  change (submits (Submit m :: steps)) with (m :: submits steps).
  destruct (has_room m x.1); [apply sublist_skip, IH | apply sublist_cons, IH].
Qed.

(** the messages that wait in the ring, and what is already written *)
Definition in_flight (log0 : Log) (waiting done : list message) (x : klog_state) : Prop :=
  Forall message_fine waiting /\ x.1 = record_of <$> waiting /\
  exists log, x.2 = Ok log /\ same_log log0 log /\
    written log = written log0 ++ omap (line_of (ebpf_logger log0) (g_level log0)) done.

Lemma records_logged log0 waiting : forall done log,
  Forall message_fine waiting -> same_log log0 log ->
  written log = written log0 ++ omap (line_of (ebpf_logger log0) (g_level log0)) done ->
  exists log', ring_buffer__consume log_event_cb (record_of <$> waiting) (Ok log) = ([], Ok log') /\ same_log log0 log' /\
    written log' = written log0 ++ omap (line_of (ebpf_logger log0) (g_level log0)) (done ++ waiting).
Proof.
  induction waiting as [| m waiting IH]; intros done log Hfine Hsame Hw; cbn [fmap list_fmap].
  { exists log. rewrite consume_nil, app_nil_r. done. }
  apply Forall_cons in Hfine as [Hm Hfine]. destruct Hsame as (Hlev & Hlogger & Hcan).
  destruct (record_logged m log Hm Hcan) as (log1 & Hcb & (Hlev1 & Hlogger1 & Hcan1) & Hw1).
  destruct (IH (done ++ [m]) log1) as (log' & Hrun & Hsame' & Hw'); [done | by repeat split; congruence | |].
  - rewrite Hw1, Hw, Hlev, Hlogger, omap_app, <- app_assoc. do 2 f_equal; cbn; by destruct (line_of _ _ m).
  - exists log'. rewrite consume_cons, Hcb. cbn [fst snd Z.ltb Z.compare]. split; [exact Hrun |]. split; [done |].
    by rewrite Hw', <- app_assoc.
Qed.

Context (fd : Z) (Hfd : fd <> FD_INVALID)
  (Hring : st !! this = Some (init this true (newRingbuffer (Some fd) true (Some log_event_cb))).2).

Lemma ring_readable pending s : readable this st pending s = ring_buffer__consume log_event_cb pending s.
Proof.
  unfold init, newRingbuffer in Hring. cbn in Hring. apply Z.eqb_neq in Hfd. rewrite Hfd in Hring. cbn in Hring.
  erewrite (watched_readable this st) by done.
  assert (Hcb : raw_cb st this = log_event_cb) by (unfold raw_cb; by rewrite Hring). by rewrite Hcb.
Qed.

Lemma klog_run log0 steps : forall waiting done x,
  Forall message_fine (submits steps) -> in_flight log0 waiting done x ->
  exists waiting' done', in_flight log0 waiting' done' (foldl klog_exec x steps) /\
    done' ++ waiting' = done ++ waiting ++ accepted x steps.
Proof.
  induction steps as [| step steps IH]; intros waiting done x Hfine Hx; cbn [foldl].
  { exists waiting, done. cbn [accepted]. by rewrite app_nil_r. }
  destruct Hx as (Hw & Hpend & log & Hlog & Hsame & Hwritten). destruct step as [m |]; cbn [accepted].
  - apply Forall_cons in Hfine as [Hm Hfine]. destruct (has_room m x.1) eqn:Hroom.
    + destruct (IH (waiting ++ [m]) done (klog_exec x (Submit m)) Hfine) as (w' & d' & Hx' & Heq).
      { split; [apply Forall_app; by rewrite Forall_singleton |]. cbn [klog_exec fst snd]. unfold KLOG. rewrite Hroom.
        split; [by rewrite fmap_app, Hpend | by exists log]. }
      exists w', d'. split; [exact Hx' |]. by rewrite Heq, <- app_assoc.
    + apply (IH waiting done (klog_exec x (Submit m)) Hfine). split; [done |]. cbn [klog_exec fst snd]. unfold KLOG.
      rewrite Hroom. split; [done | by exists log].
  - destruct (records_logged log0 waiting done log Hw Hsame Hwritten) as (log' & Hrun & Hsame' & Hwritten').
    destruct (IH [] (done ++ waiting) (klog_exec x Drain) Hfine) as (w' & d' & Hx' & Heq).
    + split; [done |]. cbn [klog_exec]. rewrite ring_readable, Hpend, Hlog, Hrun. split; [done | by exists log'].
    + exists w', d'. split; [exact Hx' |]. by rewrite Heq, <- app_assoc.
Qed.

Lemma klog_drained (log : Log) (steps : list klog_step) :
  can_log log -> Forall message_fine (submits steps) ->
  exists log', foldl klog_exec ([], Ok log) (steps ++ [Drain]) = ([], Ok log') /\
    written log' = written log ++ omap (line_of (ebpf_logger log) (getLevel log)) (accepted ([], Ok log) steps).
Proof.
  intros Hcan Hfine.
  destruct (klog_run log steps [] [] ([], Ok log) Hfine) as (waiting & done & (Hw & Hpend & log1 & Hlog & Hsame & Hwritten) & Heq).
  { split; [done |]. split; [done |]. exists log. by rewrite app_nil_r. }
  destruct (records_logged log waiting done log1 Hw Hsame Hwritten) as (log' & Hrun & _ & Hwritten').
  exists log'. rewrite foldl_app. cbn [foldl klog_exec]. rewrite ring_readable, Hpend, Hlog, Hrun. split; [done |].
  by rewrite Hwritten', Heq.
Qed.

(** C28: What the kernel programs log is in the log file, once and in order.
    The messages are such that the formatter stays in its buffer: at most ten
    arguments, a format in which every [%] is followed by a character, and a
    text of at most 1023 bytes when expanded (longer ones write past the
    buffer, see [Klog.klog_overflow]); the logger exists or its file can be opened.  Then
    whatever messages are submitted and whenever the ring buffer becomes
    readable in between, after the last round the ring is empty and the lines
    added to the log are those of the messages the ring had room for (some or
    all of those submitted), in the order of their submission: each one with
    its level, if this passes the levels of the log and of the logger, and
    with its format string expanded. *)
Theorem kernel_log_reaches_file (log : Log) (steps : list klog_step)
  (Hcan : can_log log) (Hfine : Forall message_fine (submits steps)) :
  exists log', foldl klog_exec ([], Ok log) (steps ++ [Drain]) = ([], Ok log') /\
    written log' = written log ++
      omap (line_of (ebpf_logger log) (getLevel log)) (accepted ([], Ok log) steps) /\
    accepted ([], Ok log) steps `sublist_of` submits steps.
Proof.
  destruct (klog_drained log steps Hcan Hfine) as (log' & Hrun & Hw). exists log'. do 2 (split; [done |]).
  apply accepted_sublist.
Qed.

(** ** What the ACL logs about packets *)

Section AclMessages.
Context {K json : Type} `{!BpfHash K ipv4_tuple Z, !BpfHashLaws K ipv4_tuple Z} `{!JsonLib json} `{BuildMode}.

(* src/services/klog/klog.bpf.h:38-38 KLOG_LEVEL_DEBUG *)
Definition KLOG_LEVEL_DEBUG : Z := 1.
Definition DROP_FORMAT : list Z := str "Hebpf packet drop [%P] %A:%u".
Definition PASS_FORMAT : list Z := str "Hebpf packet [%P]: %A:%u -> %A:%u".

(** the message of a packet the filter looks up, as [acl_filter] treats it *)
(* src/services/acl/acl_xdp.bpf.c:76-83 hebpf_acl_xdp_generic *)
Definition acl_message (krules : K) (pad tail data : list Z) : option message :=
  if negb (sizeof_ethhdr <=? length data)%nat || negb (h_proto data =? htons ETH_P_IP) then None
  else
    '(tuple, origin_src_port) ← flow data;
    let dropped := match find_action krules tuple origin_src_port with Some action => action =? ACL_ACTION_DENY | None => false end in
    Some (if dropped : bool
          then mkMessage KLOG_LEVEL_DEBUG DROP_FORMAT [protocol tuple; saddr tuple; ntohs origin_src_port] pad tail
          else mkMessage KLOG_LEVEL_DEBUG PASS_FORMAT
                 [protocol tuple; saddr tuple; ntohs origin_src_port; daddr tuple; ntohs (dport tuple)] pad tail).

(** packets reach the program, and the ring buffer becomes readable *)
Inductive net_step : Type := Packet (data pad tail : list Z) | Wake.

Definition in_kernel (krules : K) (step : net_step) : list klog_step :=
  match step with
  | Packet data pad tail => option_list (Submit <$> acl_message krules pad tail data)
  | Wake => [Drain]
  end.

Definition packets (steps : list net_step) : list (list Z) :=
  omap (fun s => match s with Packet data _ _ => Some data | Wake => None end) steps.

(** the data are bytes, and structures have padding of the right size *)
Definition padded (step : net_step) : Prop :=
  match step with
  | Packet data pad tail => Forall is_byte data /\ length pad = 6%nat /\ length tail = 6%nat
  | Wake => True
  end.

(** *** The texts *)

Definition proto_name (p : Z) : list Z := if p =? IPPROTO_TCP then str "TCP" else str "UDP".

(** what should be in the log about a packet under these rules, in the words of
    [Policy]: the line about a dropped packet has its source only *)
Definition endpoint (a : list Z) (port : Z) : string := dotted a +:+ ":" +:+ pretty port.
Definition drop_line (p : Policy.packet) : string :=
  "Hebpf packet drop [" +:+ AclRulesElem.ProtocolToString (Policy.proto p) +:+ "] " +:+ endpoint (Policy.from p) (Policy.src_port p).
Definition pass_line (p : Policy.packet) : string :=
  "Hebpf packet [" +:+ AclRulesElem.ProtocolToString (Policy.proto p) +:+ "]: " +:+ endpoint (Policy.from p) (Policy.src_port p) +:+
  " -> " +:+ endpoint (Policy.to p) (Policy.dst_port p).
Definition packet_line (l : LoggerType) (rs : list AclRulesElem.t) (data : list Z) : option line :=
  if decide (Policy.ipv4_frame data) then
    p ← Policy.seen data;
    Some (mkLine (sink_file l) (sink_stdout l) "ebpf" debug (if Policy.denied rs p then drop_line p else pass_line p))
  else None.

Lemma render_plain pre rest args idx : plain pre -> render (pre ++ rest) args idx = pre ++ render rest args idx.
Proof.
  induction 1 as [| c pre [_ Hc] _ IH]; [done |]. cbn [app render]. rewrite (proj2 (Z.eqb_neq _ _) Hc). cbn [negb]. by rewrite IH.
Qed.

Lemma render_spec spec rest args idx : (spec =? PERCENT) = false -> is_spec spec = true -> (idx < MAX_ARGS_CNT)%nat ->
  render (PERCENT :: spec :: rest) args idx = default [] (convert spec (nth idx args 0)) ++ render rest args (S idx).
Proof. intros Hp Hs Hi. cbn [render]. rewrite Z.eqb_refl, Hp, Hs, (proj2 (Nat.leb_gt _ _) Hi). done. Qed.

Lemma u64_idemp v : u64 (u64 v) = u64 v.
Proof. unfold u64, wrap. by rewrite Z.mod_mod. Qed.

Lemma fmt_llu_u64 v : fmt_llu (u64 v) = fmt_llu v.
Proof. unfold fmt_llu. by rewrite u64_idemp. Qed.

Lemma octet_u64 v k : 0 <= k <= 3 -> Z.land (Z.shiftr (u64 v) (8 * k)) 255 = Z.land (Z.shiftr v (8 * k)) 255.
Proof.
  intros Hk. change 255 with (Z.ones 8). rewrite !Z.land_ones by lia. apply Z.bits_inj'. intros i Hi.
  destruct (Z.lt_ge_cases i 8) as [Hlt | Hge]; [| by rewrite !Z.mod_pow2_bits_high by lia].
  rewrite !Z.mod_pow2_bits_low, !Z.shiftr_spec by lia. unfold u64, wrap. by rewrite Z.mod_pow2_bits_low by lia.
Qed.

Lemma inet_ntoa_u64 v : inet_ntoa (u64 v) = inet_ntoa v.
Proof. unfold inet_ntoa. by rewrite !octet_u64 by lia. Qed.

(** plain text up to the next specifier, and its conversion *)
Ltac expand :=
  rewrite render_plain by (repeat constructor; discriminate); rewrite render_spec by (done || unfold MAX_ARGS_CNT; lia).

Definition is_tcp_udp (p : Z) : Prop := p = IPPROTO_TCP \/ p = IPPROTO_UDP.

Lemma converted_protocol p : is_tcp_udp p -> default [] (convert 80 (u64 p)) = proto_name p.
Proof. by intros [-> | ->]. Qed.
Lemma converted_address a : default [] (convert 65 (u64 a)) = inet_ntoa a.
Proof. exact (inet_ntoa_u64 a). Qed.
Lemma converted_number n : default [] (convert 117 (u64 n)) = fmt_llu n.
Proof. exact (fmt_llu_u64 n). Qed.

Lemma drop_rendered p a n : is_tcp_udp p ->
  render DROP_FORMAT (u64 <$> [p; a; n; 0; 0; 0; 0; 0; 0; 0]) 0 =
    str "Hebpf packet drop [" ++ proto_name p ++ str "] " ++ inet_ntoa a ++ str ":" ++ fmt_llu n.
Proof.
  intros Hp. change DROP_FORMAT with (str "Hebpf packet drop [" ++ PERCENT :: 80 :: str "] " ++ PERCENT :: 65 :: str ":" ++ [PERCENT; 117]).
  do 3 expand. cbn [fmap list_fmap nth render]. by rewrite converted_protocol, converted_address, converted_number, app_nil_r.
Qed.

Lemma pass_rendered p a n a' n' : is_tcp_udp p ->
  render PASS_FORMAT (u64 <$> [p; a; n; a'; n'; 0; 0; 0; 0; 0]) 0 =
    str "Hebpf packet [" ++ proto_name p ++ str "]: " ++ inet_ntoa a ++ str ":" ++ fmt_llu n ++
    str " -> " ++ inet_ntoa a' ++ str ":" ++ fmt_llu n'.
Proof.
  intros Hp. change PASS_FORMAT with (str "Hebpf packet [" ++ PERCENT :: 80 :: str "]: " ++ PERCENT :: 65 :: str ":" ++ PERCENT :: 117 ::
    str " -> " ++ PERCENT :: 65 :: str ":" ++ [PERCENT; 117]).
  do 5 expand. cbn [fmap list_fmap nth render].
  by rewrite converted_protocol, !converted_address, !converted_number, app_nil_r.
Qed.

(** *** They fit the buffer *)

Lemma length_digits fuel upper base n : forall acc, (length (digits fuel upper base n acc) <= fuel + length acc)%nat.
Proof.
  revert n. induction fuel as [| fuel IH]; intros n acc; cbn [digits]; [done |].
  destruct (_ =? 0); cbn [length]; [lia |]. etrans; [apply IH |]. cbn [length]. lia.
Qed.

Lemma length_unsigned upper base n : (length (unsigned upper base n) <= 64)%nat.
Proof. etrans; [apply length_digits |]. cbn. lia. Qed.

Lemma length_inet_ntoa a : (length (inet_ntoa a) <= 259)%nat.
Proof.
  unfold inet_ntoa. rewrite !length_app.
  pose proof (fun k => length_unsigned false 10 (Z.land (Z.shiftr a (8 * k)) 255)) as Hl.
  pose proof (Hl 0). pose proof (Hl 1). pose proof (Hl 2). pose proof (Hl 3). change (length (str ".")) with 1%nat. lia.
Qed.

Lemma length_fmt_llu n : (length (fmt_llu n) <= 64)%nat.
Proof. apply length_unsigned. Qed.

Lemma length_proto_name p : length (proto_name p) = 3%nat.
Proof. unfold proto_name. by case_match. Qed.

(** *** They read as the packet's addresses and ports *)

Lemma text_of_app x y : text_of (x ++ y) = text_of x +:+ text_of y.
Proof. unfold text_of. induction x as [| c x IH]; [done |]. cbn [app foldr]. by rewrite IH. Qed.

Lemma text_of_str s : text_of (str s) = s.
Proof. unfold text_of. induction s as [| c s IH]; [done |]. cbn [str foldr]. by rewrite IH, Nat2Z.id, ascii_nat_embedding. Qed.

Lemma text_of_digit d : (d < 10)%N -> ascii_of_nat (Z.to_nat (digit_char false (Z.of_N d))) = pretty_N_char d.
Proof.
  intros Hd. assert (d = 0 \/ d = 1 \/ d = 2 \/ d = 3 \/ d = 4 \/ d = 5 \/ d = 6 \/ d = 7 \/ d = 8 \/ d = 9)%N as Hcases by lia.
  naive_solver.
Qed.

Lemma text_of_digits fuel : forall n acc, (0 < n)%N -> (n < 10 ^ N.of_nat fuel)%N ->
  text_of (digits fuel false 10 (Z.of_N n) acc) = pretty_N_go n (text_of acc).
Proof.
  induction fuel as [| fuel IH]; intros n acc Hpos Hn; [cbn in Hn; lia |]. rewrite Nat2N.inj_succ, N.pow_succ_r' in Hn.
  cbn [digits]. rewrite pretty_N_go_step by done.
  change 10 with (Z.of_N 10). rewrite <- N2Z.inj_mod, <- N2Z.inj_div.
  assert (Hmod : (n `mod` 10 < 10)%N) by (by apply N.mod_lt).
  assert (Htext : text_of (digit_char false (Z.of_N (n `mod` 10)) :: acc) = String (pretty_N_char (n `mod` 10)) (text_of acc))
    by (cbn; by rewrite text_of_digit).
  destruct (Z.eqb_spec (Z.of_N (n `div` 10)) 0) as [Hz | Hz].
  - destruct (n `div` 10)%N; [by rewrite pretty_N_go_0 | done].
  - rewrite <- Htext. apply IH; [| apply N.Div0.div_lt_upper_bound; lia].
    apply N.neq_0_lt_0. by intros Heq; rewrite Heq in Hz.
Qed.

Lemma text_of_number n : 0 <= n < 2 ^ 16 -> text_of (fmt_llu n) = pretty n.
Proof.
  intros Hn. unfold fmt_llu, unsigned, u64, wrap. rewrite Z.mod_small by lia.
  destruct n as [| n |]; [done | | lia]. change (Z.pos n) with (Z.of_N (N.pos n)).
  rewrite text_of_digits; [done | lia |]. etrans; [| by apply (N.pow_lt_mono_r 10 6 (N.of_nat 64))]. cbn. lia.
Qed.

Lemma text_of_octet b : is_byte b -> text_of (unsigned false 10 b) = pretty b.
Proof.
  intros Hb. unfold is_byte in Hb. rewrite <- text_of_number by lia. unfold fmt_llu, u64, wrap. by rewrite Z.mod_small by lia.
Qed.

Lemma octet_div v k : 0 <= k -> Z.land (Z.shiftr v (8 * k)) 255 = (v / 2 ^ (8 * k)) mod 256.
Proof. intros Hk. change 255 with (Z.ones 8). by rewrite Z.land_ones, Z.shiftr_div_pow2 by lia. Qed.

Lemma text_of_address a : address a -> text_of (inet_ntoa (le a)) = dotted a.
Proof.
  intros [Hlen Ha]. destruct a as [| b0 [| b1 [| b2 [| b3 [|]]]]]; try discriminate.
  repeat match goal with H : Forall _ (_ :: _) |- _ => apply Forall_cons in H as [? H] end.
  unfold inet_ntoa. rewrite !octet_div by lia. unfold is_byte in *. cbn [le].
  set (v := b0 + 256 * (b1 + 256 * (b2 + 256 * (b3 + 256 * 0)))).
  assert ((v / 2 ^ (8 * 0)) mod 256 = b0) as -> by (subst v; change (2 ^ (8 * 0)) with 1; Z.to_euclidean_division_equations; lia).
  assert ((v / 2 ^ (8 * 1)) mod 256 = b1) as -> by (subst v; change (2 ^ (8 * 1)) with 256; Z.to_euclidean_division_equations; lia).
  assert ((v / 2 ^ (8 * 2)) mod 256 = b2) as -> by (subst v; change (2 ^ (8 * 2)) with 65536; Z.to_euclidean_division_equations; lia).
  assert ((v / 2 ^ (8 * 3)) mod 256 = b3) as -> by (subst v; change (2 ^ (8 * 3)) with 16777216; Z.to_euclidean_division_equations; lia).
  rewrite !text_of_app, !text_of_octet, !text_of_str by done. done.
Qed.

Lemma text_of_proto p : p <> Protocol.UNKNOWN ->
  text_of (proto_name (default 0 (protocol_number p))) = AclRulesElem.ProtocolToString p.
Proof. by destruct p. Qed.

(** *** The message of a packet is its line *)

Lemma ipv4_frame_guards data : Forall is_byte data ->
  negb (sizeof_ethhdr <=? length data)%nat || negb (h_proto data =? htons ETH_P_IP) = negb (bool_decide (Policy.ipv4_frame data)).
Proof.
  intros Hd. rewrite <- negb_andb. f_equal. apply eq_true_iff_eq. rewrite andb_true_iff, bool_decide_eq_true, Nat.leb_le, Z.eqb_eq.
  unfold Policy.ipv4_frame, h_proto. rewrite load16_be by done. split; [intros [Hl He] | intros (_ & Hl & ->)]; [| done].
  apply htons_inj in He; [done | by apply be16_range | unfold ETH_P_IP; lia].
Qed.

Lemma message_line krules rs pad tail data m l threshold :
  Forall elem_wf rs -> (forall t, bpf_lookup krules t = last_of (entries rs) t) -> acl_message krules pad tail data = Some m ->
  Forall is_byte data -> length pad = 6%nat -> length tail = 6%nat ->
  level_num threshold <= level_num debug -> level_num (logger_level l) <= level_num debug ->
  message_fine m /\ line_of l threshold m = packet_line l rs data.
Proof.
  intros Hwf Hv Hm Hd Hpad Htail Hth Hl. unfold acl_message in Hm. unfold packet_line. rewrite ipv4_frame_guards in Hm by done.
  destruct (decide (Policy.ipv4_frame data)) as [Hframe |]; [| by rewrite bool_decide_eq_false_2 in Hm].
  rewrite bool_decide_eq_true_2, flow_seen in Hm by done. cbn [negb] in Hm.
  destruct (Policy.seen data) as [p |] eqn:Hp; [| done]. apply seen_wf in Hp as Hpwf; [| done].
  cbn [mbind option_bind] in *. pose proof Hpwf as [Hf Ht Hpr Hsp Hdp].
  assert (Hdeny : match find_action krules (key_of p ANY_PORT) (htons (Policy.src_port p)) with
                  | Some action => action =? ACL_ACTION_DENY | None => false end = Policy.denied rs p).
  { unfold find_action. change (with_sport _ _) with (key_of p (Policy.src_port p)). rewrite !Hv. by apply last_of_denied. }
  rewrite Hdeny in Hm. cbn [protocol saddr daddr dport key_of] in Hm. unfold ntohs in Hm.
  rewrite !(htons_htons : forall x, 0 <= x < 2 ^ 16 -> bswap16 (htons x) = x) in Hm by done.
  assert (Htu : is_tcp_udp (default 0 (protocol_number (Policy.proto p)))) by (destruct (Policy.proto p); [by left | by right | done]).
  injection Hm as <-.
  assert (Hmax : (Z.max (level_num threshold) (level_num (logger_level l)) <=? level_num debug) = true) by (apply Z.leb_le; lia).
  pose proof (length_inet_ntoa (le (Policy.from p))). pose proof (length_inet_ntoa (le (Policy.to p))).
  pose proof (length_fmt_llu (Policy.src_port p)). pose proof (length_fmt_llu (Policy.dst_port p)).
  set (pn := default 0 (protocol_number (Policy.proto p))) in *. pose proof (length_proto_name pn).
  destruct (Policy.denied rs p); (split; [split; try done |]).
  - unfold MAX_ARGS_CNT. cbn. lia.
  - change (args_array _) with [pn; le (Policy.from p); Policy.src_port p; 0; 0; 0; 0; 0; 0; 0]. cbn [m_fmt]. rewrite drop_rendered by done.
    rewrite !length_app. change (length (str "Hebpf packet drop [")) with 19%nat. change (length (str "] ")) with 2%nat.
    change (length (str ":")) with 1%nat. unfold BUFFER_SIZE. lia.
  - unfold line_of. change (args_array _) with [pn; le (Policy.from p); Policy.src_port p; 0; 0; 0; 0; 0; 0; 0]. cbn [m_fmt m_level].
    rewrite drop_rendered by done. change (level_of (log_level (u16 KLOG_LEVEL_DEBUG))) with debug. rewrite Hmax.
    unfold pn. by rewrite !text_of_app, !text_of_str, text_of_address, text_of_number, text_of_proto.
  - unfold MAX_ARGS_CNT. cbn. lia.
  - change (args_array _) with [pn; le (Policy.from p); Policy.src_port p; le (Policy.to p); Policy.dst_port p; 0; 0; 0; 0; 0]. cbn [m_fmt].
    rewrite pass_rendered by done.
    rewrite !length_app. change (length (str "Hebpf packet [")) with 14%nat. change (length (str "]: ")) with 3%nat.
    change (length (str ":")) with 1%nat. change (length (str " -> ")) with 4%nat. unfold BUFFER_SIZE. lia.
  - unfold line_of. change (args_array _) with [pn; le (Policy.from p); Policy.src_port p; le (Policy.to p); Policy.dst_port p; 0; 0; 0; 0; 0].
    cbn [m_fmt m_level].
    rewrite pass_rendered by done. change (level_of (log_level (u16 KLOG_LEVEL_DEBUG))) with debug. rewrite Hmax.
    unfold pn. rewrite !text_of_app, !text_of_str, !text_of_address, !text_of_number, text_of_proto by done.
    unfold pass_line, endpoint. by rewrite <- !string_app_assoc.
Qed.

Lemma submits_app steps steps' : submits (steps ++ steps') = submits steps ++ submits steps'.
Proof. apply omap_app. Qed.

Lemma messages_lines krules rs l threshold steps :
  Forall elem_wf rs -> (forall t, bpf_lookup krules t = last_of (entries rs) t) -> Forall padded steps ->
  level_num threshold <= level_num debug -> level_num (logger_level l) <= level_num debug ->
  Forall message_fine (submits (steps ≫= in_kernel krules)) /\
  omap (line_of l threshold) (submits (steps ≫= in_kernel krules)) = omap (packet_line l rs) (packets steps).
Proof.
  intros Hwf Hv Hpad Hth Hl. induction Hpad as [| step steps Hstep _ [IH1 IH2]]; [done |].
  rewrite bind_cons, submits_app. destruct step as [data pad tail |]; [| done]. destruct Hstep as (Hd & Hp & Ht).
  change (packets (Packet data pad tail :: steps)) with (data :: packets steps). cbn [in_kernel].
  destruct (acl_message krules pad tail data) as [m |] eqn:Em.
  - destruct (message_line krules rs pad tail data m l threshold Hwf Hv Em Hd Hp Ht Hth Hl) as [Hfine Hline].
    change (submits (option_list (Submit <$> Some m))) with [m]. split; [by constructor |]. cbn. by rewrite Hline, IH2.
  - split; [done |]. cbn. assert (Hnone : packet_line l rs data = None).
    { unfold acl_message in Em. unfold packet_line. rewrite ipv4_frame_guards in Em by done.
      destruct (decide (Policy.ipv4_frame data)); [| done]. rewrite bool_decide_eq_true_2, flow_seen in Em by done.
      by destruct (Policy.seen data). }
    by rewrite Hnone, IH2.
Qed.

(** C7: What the ACL decides is in the log.  Once a configuration has been
    applied, and when the log and its logger have the level debug and the file
    can be opened, then whatever packets arrive and
    whenever the ring buffer is read, if it was never full: the lines added
    are, in the order of the packets, one for each TCP or UDP packet in an IPv4
    frame whose IP header and first eight bytes of transport header are there;
    a shorter frame passes without a line.  The line says that the packet was
    dropped exactly when the rules of the file deny it ([Policy], which knows
    nothing of the loader and the filter); about a dropped packet it gives the
    protocol and the source address and port, about another one also the
    destination.  Ports the filter does not read (UDP packets with twelve or
    more bytes of payload, TCP packets without a complete header) count and
    appear as 0. *)
Theorem acl_decisions_are_logged (config : json) (table : K) (old : AclRules.t) (rs : list AclRulesElem.t)
  (log : Log) (steps : list net_step)
  (Hjson : AclRules.from_json config AclRules.default = Ok (AclRules.mk rs))
  (Hroom : (length (valid_rules rs) <= bpf_max table)%nat) (Hmax : Z.of_nat (length (valid_rules rs)) <= Acl.MAX_RULES_SIZE)
  (Hcan : can_log log) (Hlevel : level_num (getLevel log) <= level_num debug)
  (Hlogger : level_num (logger_level (ebpf_logger log)) <= level_num debug) (Hpadded : Forall padded steps) :
  exists krules s', Acl.onConfigUpdate config (mkAcl (Some (Some table)) old) = Ok s' /\ skel_ s' = Some (Some krules) /\
    (accepted ([], Ok log) (steps ≫= in_kernel krules) = submits (steps ≫= in_kernel krules) ->
     exists log', foldl klog_exec ([], Ok log) ((steps ≫= in_kernel krules) ++ [Drain]) = ([], Ok log') /\
       written log' = written log ++ omap (packet_line (ebpf_logger log) rs) (packets steps)).
Proof.
  destruct (onConfigUpdate_ok config table old rs Hjson Hroom Hmax) as (krules & Hup & _ & Hv).
  exists krules. eexists. split; [exact Hup |]. split; [done |]. intros Hall.
  destruct (messages_lines krules rs (ebpf_logger log) (getLevel log) steps
    (from_json_wf _ _ Hjson) Hv Hpadded Hlevel Hlogger) as [Hfine Hlines].
  destruct (klog_drained log (steps ≫= in_kernel krules) Hcan Hfine) as (log' & Hrun & Hw).
  exists log'. split; [exact Hrun |]. by rewrite Hw, Hall, Hlines.
Qed.

End AclMessages.

End KernelLog.

(** ** Concrete logs *)

Module Sample.

#[local] Existing Instance Ring.Sample.ref_ring.
#[local] Existing Instance Ring.Sample.ref_ring_laws.
#[local] Instance release : BuildMode := true.

Definition can_open (path : string) : bool := true.
(** the ring holds four records *)
Definition reserve (pending : list (list Z)) (size : nat) : bool := (length pending <? 4)%nat.
Definition ring : gmap nat (Ringbuffer (result accident Log)) :=
  {[ 1%nat := (init 1 true (newRingbuffer (Some 7) true (Some (log_event_cb can_open)))).2 ]}.
Definition quiet : Log := initial.
Definition verbose : Log := mkLog ∅ debug LOGFILE_DEFAULT false [].

Definition hello (lv : Z) : message := mkMessage lv (str "execve %u") [42] (replicate 6 170) (replicate 6 187).

(** a message below the level, one above, and five at once, of which one finds
    no room *)
Lemma kernel_log_reaches_file_witness :
  exists log', foldl (klog_exec reserve 1 ring) ([], Ok quiet)
      ([Submit (hello 1); Submit (hello 2); Drain] ++ replicate 5 (Submit (hello 9)) ++ [Drain]) = ([], Ok log') /\
    l_text <$> written log' = replicate 5 "execve 42".
Proof.
  assert (Hfine : forall lv, message_fine (hello lv)) by (intros lv; split; vm_compute; (reflexivity || lia)).
  destruct (kernel_log_reaches_file can_open reserve 1 ring 7 ltac:(discriminate) eq_refl quiet
              ([Submit (hello 1); Submit (hello 2); Drain] ++ replicate 5 (Submit (hello 9)))) as (log' & Hrun & Hw & _).
  - right. reflexivity.
  - repeat constructor; apply Hfine.
  - exists log'. split; [exact Hrun |]. rewrite Hw. vm_compute. reflexivity.
Defined.

(** the packet the rule denies, and one it says nothing about *)
Definition traffic : list net_step :=
  [Packet Acl.Sample.tcp_to_80 (replicate 6 170) (replicate 6 187); Wake;
   Packet Acl.Sample.udp_to_53 (replicate 6 170) (replicate 6 187)].

Lemma acl_decisions_are_logged_witness :
  exists krules log', foldl (klog_exec reserve 1 ring) ([], Ok verbose) ((traffic ≫= in_kernel (krules : RefHash.t ipv4_tuple Z)) ++ [Drain]) = ([], Ok log') /\
    l_text <$> written log' = ["Hebpf packet drop [TCP] 10.0.0.1:12345"; "Hebpf packet [UDP]: 10.0.0.1:0 -> 10.0.0.2:0"].
Proof.
  destruct (acl_decisions_are_logged can_open reserve 1 ring 7 ltac:(discriminate) eq_refl
              Acl.Sample.config Acl.Sample.table AclRules.default [Acl.Sample.rule; Acl.Sample.bad] verbose traffic)
    as (krules & s' & Hup & Hs & Hlog).
  - vm_compute. reflexivity.
  - vm_compute. lia.
  - vm_compute. discriminate.
  - right. reflexivity.
  - vm_compute. discriminate.
  - vm_compute. discriminate.
  - constructor; [split; [exact (proj1 Acl.Sample.tcp_frame) | by split] |].
    constructor; [exact Logic.I |]. constructor; [split; [exact (proj1 Acl.Sample.udp_frame) | by split] | constructor].
  - vm_compute in Hup. injection Hup as <-. cbn in Hs. injection Hs as <-.
    destruct Hlog as (log' & Hrun & Hw); [vm_compute; reflexivity |]. eexists _, log'. split; [exact Hrun |].
    rewrite Hw. vm_compute. reflexivity.
Defined.

End Sample.
