(* ===== verification/Services.v ===== *)
(** * The services as the loader sees them

    The life of the service objects that the libraries of [src/services]
    export: [AclBase] ([acl_base.tpp]), [LbBase] ([lb_base.tpp]),
    [SchedulerBase] ([scheduler_base.tpp]) and the example
    ([examples/hello/example_hello.cc]), each on top of the skeleton wrapper of
    NetHook.  They implement the loader's interface [EbpfIf], so the theorems
    about the loader hold of them, and what the ACL enforces can be followed
    from the configuration file through the loader into the kernel's table. *)

From S2P Require Import Prelude Configs Names BpfMap Json Net Acl Lb Inotify Loader.
From S2P Require NetHook Io.

#[local] Open Scope string_scope.
#[local] Open Scope Z_scope.
#[local] Open Scope list_scope.

(** ** Objects *)

(** A service object: the part in [EbpfWithNetHook], the kernel maps of its
    skeleton, its rules, and the calls it has made. *)
Record Object (K R : Type) : Type := mkObject {
  base : NetHook.Service;
  maps : K;
  rules : R;
  calls : NetHook.nettrace
}.
Arguments mkObject {K R} base maps rules calls.
Arguments base {K R} o : rename.
Arguments maps {K R} o : rename.
Arguments rules {K R} o : rename.
Arguments calls {K R} o : rename.

Definition set_maps {K R} (m : K) (o : Object K R) : Object K R := mkObject (base o) m (rules o) (calls o).

Section Skeleton.
Context `{BuildMode} (e : env NetHook.netcall NetHook.netresp) {K R : Type}.

(** a method of the base part, run against the outside world *)
Definition on_base {A} (p : NetHook.Service -> NetHook.net (result exn (A * NetHook.Service))) : ST (Object K R) A :=
  fun o =>
    match run e (p (base o)) (calls o) with
    | (Ok (a, v), tr) => (Ok a, mkObject v (maps o) (rules o) tr)
    | (Err x, tr) => (Err x, mkObject (base o) (maps o) (rules o) tr)
    end.

Definition total (p : NetHook.Service -> NetHook.net NetHook.Service) (v : NetHook.Service) :
  NetHook.net (result exn (unit * NetHook.Service)) := v ← p v; Ret (Ok (tt, v)).
Definition keeping (p : NetHook.Service -> NetHook.net (result exn unit)) (v : NetHook.Service) :
  NetHook.net (result exn (unit * NetHook.Service)) :=
  r ← p v; Ret (match r with Ok _ => Ok (tt, v) | Err x => Err x end).
Definition fallible (p : NetHook.Service -> NetHook.net (result exn NetHook.Service)) (v : NetHook.Service) :
  NetHook.net (result exn (unit * NetHook.Service)) :=
  r ← p v; Ret (match r with Ok v => Ok (tt, v) | Err x => Err x end).

(** [open], [load] and [attach] in a row, after which the maps exist; shared
    by every service *)
(* src/services/acl/acl_base.tpp:34-41 AclBase::start *)
Definition bring_up (created : K) : ST (Object K R) bool :=
  _ ← on_base (total NetHook.open);
  o ← get;
  match NetHook.skel_ (base o) with
  | None => mret false
  | Some _ =>
      _ ← on_base (keeping NetHook.load);
      _ ← modify (set_maps created);
      _ ← on_base (keeping NetHook.attachSkel);
      mret true
  end.

(** [created]: the maps the kernel creates for the skeleton *)
(* src/services/acl/acl_base.tpp:21-42 AclBase::start *)
Definition start (name : string) (created : K) (io_ctx : bool) : ST (Object K R) bool :=
  started ← on_base (fun v => Ret (Ok (NetHook.startSkel io_ctx v)));
  if negb started then throw (EXCEPT ("Start " +:+ name +:+ " service failed"))
  else bring_up created.

(** the network hook is left alone: the chained services have none *)
(* src/services/acl/acl_base.tpp:44-54 AclBase::stop *)
Definition stop : ST (Object K R) unit :=
  _ ← on_base (keeping NetHook.detachSkel);
  on_base (fallible NetHook.destroy).

(** The load balancer's methods are copies of the ACL's. *)
(* src/services/lb/lb_base.tpp:22-43 LbBase::start *)
Definition lb_start (created : K) : bool -> ST (Object K R) bool := start "lb" created.
(* src/services/lb/lb_base.tpp:45-55 LbBase::stop *)
Definition lb_stop : ST (Object K R) unit := stop.

(** the answer of the base class is not looked at *)
(* src/services/examples/hello/example_hello.cc:21-47 ExampleHelloEbpf::start *)
Definition hello_start (created : K) (io_ctx : bool) : ST (Object K R) bool :=
  _ ← on_base (fun v => Ret (Ok (NetHook.startSkel io_ctx v)));
  bring_up created.

(* src/services/examples/hello/example_hello.cc:49-56 ExampleHelloEbpf::stop *)
Definition hello_stop : ST (Object K R) unit :=
  _ ← on_base (keeping NetHook.detachSkel);
  on_base (fallible NetHook.destroy).

(* src/services/acl/acl_base.tpp:56-68 AclBase::getMainProgFd *)
Definition getMainProgFd (o : Object K R) : Z := default (-1) (NetHook.skel_ (base o)).

End Skeleton.

(** *** What a service does that does not override a method *)

Section Defaults.
Context {O json : Type} (json_null : json).

(** [nlohmann::json()] is null *)
(* src/ebpf/ebpf_if.tpp:113-116 EbpfSkelIf::getPrometheusStatus *)
Definition skel_getPrometheusStatus (o : O) : json := json_null.
(* src/ebpf/ebpf_if.tpp:123-126 EbpfSkelIf::getDebugStatus *)
Definition skel_getDebugStatus (o : O) : json := json_null.
(* src/ebpf/ebpf_if.tpp:133-136 EbpfSkelIf::getMainProgFd *)
Definition skel_getMainProgFd (o : O) : Z := -1.
(* src/ebpf/ebpf_if.tpp:145-150 EbpfSkelIf::onConfigUpdate *)
Definition skel_onConfigUpdate (h : HookType) (ifindex : Z) (config : json) : ST O unit := mret tt.
End Defaults.

(** ** The ACL *)

Section AclService.
Context `{BuildMode} (e : env NetHook.netcall NetHook.netresp).
Context {M json : Type} `{!BpfHash M ipv4_tuple Z} `{!JsonLib json} (json_null : json) (created : M).

Definition AclObject : Type := Object (option M) AclRules.t.

Definition acl_view (o : AclObject) : AclBase M :=
  mkAcl (match NetHook.skel_ (base o) with Some _ => Some (maps o) | None => None end) (rules o).

Definition acl_update (h : HookType) (ifindex : Z) (config : json) : ST AclObject unit := fun o =>
  match Acl.onConfigUpdate config (acl_view o) with
  | Ok s => (Ok tt, mkObject (base o) (default None (Acl.skel_ s)) (Acl.rules_ s) (calls o))
  | Err x => (Err x, o)
  end.

(* src/services/acl/acl.cc:9-9 Acl::Acl *)
Definition newAcl : AclObject := mkObject NetHook.newService None AclRules.default [].

(* src/services/acl/acl_base.h:14-38 AclBase *)
#[export] Instance acl_service : EbpfIf AclObject json := {|
  getName := fun _ => "acl";
  Loader.start := start e "acl" (Some created);
  Loader.stop := stop e;
  Loader.onConfigUpdate := acl_update;
  Loader.getMainProgFd := getMainProgFd;
  getPrometheusStatus := skel_getPrometheusStatus json_null;
  Loader.getDebugStatus := fun o => Acl.getDebugStatus (acl_view o)
|}.
End AclService.
Arguments AclObject : clear implicits.

(** ** The load balancer *)

Section LbService.
Context `{BuildMode} (e : env NetHook.netcall NetHook.netresp).
Context {V B L json : Type} `{!BpfHash V vip_key vip_group} `{!BpfArray B backend_info} `{!BpfArray L (list Z)}.
Context `{!JsonLib json} (make_address_v4 : string -> option Z) (mac_init : list Z) (json_null : json).
Context (vips : V) (pool : B) (lomac : L).

Definition LbObject : Type := Object (LbSkel V B L) LbRules.t.
Definition no_maps : LbSkel V B L := mkLbSkel None None None.

Definition lb_view (o : LbObject) : LbBase V B L :=
  mkLb (match NetHook.skel_ (base o) with Some _ => Some (maps o) | None => None end) (rules o).

Definition lb_update (h : HookType) (ifindex : Z) (config : json) : ST LbObject unit := fun o =>
  let '(r, s) := Lb.onConfigUpdate make_address_v4 mac_init config (lb_view o) in
  (r, mkObject (base o) (default (maps o) (Lb.skel_ s)) (Lb.rules_ s) (calls o)).

(* src/services/lb/lb_xdp.cc:9-9 LbXdp::LbXdp *)
Definition newLb : LbObject := mkObject NetHook.newService no_maps LbRules.default [].

(* src/services/lb/lb_base.h:14-40 LbBase *)
#[export] Instance lb_service : EbpfIf LbObject json := {|
  getName := fun _ => "lb";
  Loader.start := lb_start e (mkLbSkel (Some vips) (Some pool) (Some lomac));
  Loader.stop := lb_stop e;
  Loader.onConfigUpdate := lb_update;
  Loader.getMainProgFd := getMainProgFd;
  getPrometheusStatus := skel_getPrometheusStatus json_null;
  Loader.getDebugStatus := fun o => Lb.getDebugStatus (lb_view o)
|}.
End LbService.

(** ** The scheduler and the example *)

Section OtherServices.
Context `{BuildMode} (e : env NetHook.netcall NetHook.netresp) {json : Type} (json_null : json).

Definition Bare : Type := Object unit unit.
Definition newBare : Bare := mkObject NetHook.newService tt tt [].

Definition scheduler_start (io_ctx : bool) : ST Bare bool := on_base e (NetHook.start io_ctx).
Definition scheduler_stop : ST Bare unit := on_base e (fallible NetHook.stop).
Definition scheduler_update (h : HookType) (ifindex : Z) (config : json) : ST Bare unit :=
  on_base e (fallible (NetHook.onConfigUpdate h ifindex)).

(* src/services/scheduler/scheduler_base.h:13-23 SchedulerBase *)
Definition scheduler_service : EbpfIf Bare json := {|
  getName := fun _ => "scheduler";
  Loader.start := scheduler_start;
  Loader.stop := scheduler_stop;
  Loader.onConfigUpdate := scheduler_update;
  Loader.getMainProgFd := getMainProgFd;
  getPrometheusStatus := skel_getPrometheusStatus json_null;
  Loader.getDebugStatus := skel_getDebugStatus json_null
|}.

(* src/services/examples/hello/example_hello.h:15-24 ExampleHelloEbpf *)
Definition hello_service : EbpfIf Bare json := {|
  getName := fun _ => "example_hello";
  Loader.start := hello_start e tt;
  Loader.stop := hello_stop e;
  Loader.onConfigUpdate := skel_onConfigUpdate;
  Loader.getMainProgFd := skel_getMainProgFd;
  getPrometheusStatus := skel_getPrometheusStatus json_null;
  Loader.getDebugStatus := skel_getDebugStatus json_null
|}.
End OtherServices.

(** ** What the loader may rely on *)

Section LifeCycle.
Context `{BuildMode} (e : env NetHook.netcall NetHook.netresp) {K R : Type}.
Implicit Types (o : Object K R).

Definition up (o : Object K R) : Prop := exists fd, NetHook.skel_ (base o) = Some fd.
Definition down (o : Object K R) : Prop := NetHook.skel_ (base o) = None.

(** [stop] of an object with a skeleton always ends, whatever the calls answer *)
Lemma stop_returns o : up o -> exists o', stop e o = (Ok tt, o') /\ down o'.
Proof.
  intros [fd Hs]. unfold stop, on_base, keeping, fallible, NetHook.detachSkel, NetHook.destroy, NetHook.with_skel.
  cbv [mbind st_bind]. cbn. rewrite Hs. cbn. rewrite Hs. cbn. by eexists.
Qed.

Context (Hok : NetHook.accepting e).

Lemma bring_up_returns (created : K) m (r : R) v :
  NetHook.skel_ v = None ->
  exists o, bring_up e created (mkObject v m r []) = (Ok true, o) /\ up o /\ maps o = created /\ rules o = r.
Proof.
  assert (Hneg : forall tr c, (NetHook.err (e tr c) <? 0) = false)
    by (intros tr c; destruct (Hok tr c) as [-> _]; done).
  intros Hs. unfold bring_up, on_base, total, keeping, NetHook.open, NetHook.load, NetHook.attachSkel, NetHook.with_skel.
  cbv [mbind st_bind get modify]. cbn. rewrite Hs. cbn. rewrite Hneg. cbn. rewrite Hneg. cbn. rewrite Hneg. cbn.
  eexists. split; [done |]. split; [by eexists | done].
Qed.

Lemma start_returns name (created : K) m (r : R) :
  exists o, start e name created true (mkObject NetHook.newService m r []) = (Ok true, o) /\ up o /\
    maps o = created /\ rules o = r.
Proof. unfold start. cbv [mbind st_bind]. cbn. by apply bring_up_returns. Qed.

Lemma hello_start_returns (created : K) io m (r : R) :
  exists o, hello_start e created io (mkObject NetHook.newService m r []) = (Ok true, o) /\ up o /\
    maps o = created /\ rules o = r.
Proof. unfold hello_start. destruct io; cbv [mbind st_bind]; cbn; by apply bring_up_returns. Qed.
End LifeCycle.

(** the scheduler keeps its hook consistent, whatever the calls answer *)
Section SchedulerLife.
Context `{BuildMode} (e : env NetHook.netcall NetHook.netresp).

Definition hook_consistent (v : NetHook.Service) : Prop :=
  NetHook.svc_attached_ v = false ->
  match NetHook.net_hook_ v with Some h => NetHook.attached_ h = false | None => True end.

Lemma attach_answer fd h tr :
  NetHook.attached_ h = false -> always (fun r _ => NetHook.attached_ r.2 = r.1) (NetHook.attach fd h) tr.
Proof.
  destruct h as [i a own im]. cbn. intros ->. unfold NetHook.attach, NetHook.pre_attach_check, NetHook.do_attach. cbn.
  destruct im as [t | m], own as [fd' |]; NetHook.net_steps; done.
Qed.

Lemma destroy_hook_returns h tr :
  NetHook.attached_ h = false -> always (fun r _ => r = Ok tt) (NetHook.destroyHook h) tr.
Proof. intros Ha. unfold NetHook.destroyHook. rewrite Ha. by destruct (NetHook.prog_fd_ h). Qed.

Lemma make_hook_detached ht i h : NetHook.make_hook ht i = Some h -> NetHook.attached_ h = false.
Proof. destruct ht; intros [= <-]; done. Qed.

Lemma update_consistent ht i v tr :
  hook_consistent v ->
  always (fun r _ => exists v', r = Ok v' /\ NetHook.skel_ v' = NetHook.skel_ v /\ hook_consistent v')
    (NetHook.onConfigUpdate ht i v) tr.
Proof.
  intros Hv. unfold NetHook.onConfigUpdate. eapply always_bind with (Q := fun r _ => exists b v', r = Ok (b, v') /\
    NetHook.skel_ v' = NetHook.skel_ v /\ hook_consistent v'); [| by intros r tr' (b & v' & -> & ?); exists v'].
  unfold NetHook.attachGeneric. destruct (i <? 0); [by eexists _, _ |].
  destruct (NetHook.svc_attached_ v) eqn:Ea; [by eexists _, _ |].
  destruct (NetHook.getMainProgFd v <? 0); [by eexists _, _ |].
  destruct (NetHook.make_hook ht i) as [h |] eqn:Eh; [| by eexists _, _]. apply make_hook_detached in Eh.
  eapply always_bind with (Q := fun r _ => r = Ok (NetHook.set_net_hook (Some h) v)).
  { unfold NetHook.assign_hook. specialize (Hv Ea). destruct (NetHook.net_hook_ v) as [old |]; [| done].
    eapply always_bind; [by apply destroy_hook_returns |]. by intros r tr' ->. }
  intros r tr' ->. eapply always_bind; [by apply attach_answer |].
  intros [[|] h'] tr2 Hh'; cbn in Hh'; [by eexists _, _ |].
  eapply always_bind; [by apply destroy_hook_returns |]. intros r tr3 ->. eexists _, _. by split.
Qed.

End SchedulerLife.

Section BareFacts.
Context `{BuildMode} (e : env NetHook.netcall NetHook.netresp).

Lemma on_base_always {K R A} (p : NetHook.Service -> NetHook.net (result exn (A * NetHook.Service)))
  (Q : A -> NetHook.Service -> Prop) (o : Object K R) :
  always (fun r _ => exists a v, r = Ok (a, v) /\ Q a v) (p (base o)) (calls o) ->
  exists a v tr, on_base e p o = (Ok a, mkObject v (maps o) (rules o) tr) /\ Q a v.
Proof.
  intros Hp. apply (always_run _ _ _ e) in Hp. unfold on_base.
  destruct (run e _ _) as [r tr]. destruct Hp as (a & v & Hr & Hq). cbn in Hr. subst r. by exists a, v, tr.
Qed.

Lemma detachHook_skel v tr : always (fun v' _ => NetHook.skel_ v' = NetHook.skel_ v) (NetHook.detachHook v) tr.
Proof.
  unfold NetHook.detachHook. destruct (negb _); [done |]. destruct (NetHook.net_hook_ v) as [h |]; [| done].
  eapply always_bind with (Q := fun _ _ => True); [| done].
  unfold NetHook.detach, NetHook.do_detach, NetHook.post_detach_cleanup.
  destruct h as [i [|] own im]; [| done]. destruct im as [[hk [|] hd pr] | m], own; NetHook.net_steps; done.
Qed.

Lemma scheduler_stop_returns o : up o -> exists o', scheduler_stop e o = (Ok tt, o') /\ down o'.
Proof.
  intros [fd Hs]. destruct (on_base_always (fallible NetHook.stop) (fun _ v => NetHook.skel_ v = None) o)
    as ([] & v & tr & Hrun & Hv); [| by eexists].
  unfold fallible. eapply always_bind with (Q := fun r _ => exists v, r = Ok v /\ NetHook.skel_ v = None);
    [| by intros r tr (v & -> & ?); exists tt, v].
  unfold NetHook.stop. eapply always_bind; [apply detachHook_skel |]. intros v tr Hv.
  unfold NetHook.detachSkel, NetHook.destroy, NetHook.with_skel. rewrite Hv, Hs. cbn. by eexists.
Qed.

Lemma scheduler_update_returns {json} h i (j : json) o :
  up o -> hook_consistent (base o) ->
  exists o', scheduler_update e h i j o = (Ok tt, o') /\ up o' /\ hook_consistent (base o').
Proof.
  intros [fd Hs] Hc.
  destruct (on_base_always (fallible (NetHook.onConfigUpdate h i))
    (fun _ v => NetHook.skel_ v = NetHook.skel_ (base o) /\ hook_consistent v) o) as ([] & v & tr & Hrun & Hv & Hc').
  { unfold fallible. eapply always_bind; [by apply update_consistent |]. intros r tr (v & -> & ?). by exists tt, v. }
  eexists. split; [exact Hrun |]. split; [exists fd; cbn; congruence | done].
Qed.

Context (Hok : NetHook.accepting e).

Lemma scheduler_start_returns :
  exists o, scheduler_start e true newBare = (Ok true, o) /\ up o /\ hook_consistent (base o).
Proof.
  assert (Hneg : forall tr c, (NetHook.err (e tr c) <? 0) = false)
    by (intros tr c; destruct (Hok tr c) as [-> _]; done).
  unfold scheduler_start, on_base, NetHook.start, NetHook.open, NetHook.load, NetHook.attachSkel.
  cbn. rewrite Hneg. cbn. rewrite Hneg. cbn. rewrite Hneg. cbn.
  eexists. split; [done |]. split; [by eexists | done].
Qed.
End BareFacts.

(** ** All services together *)

Inductive service (M V B L : Type) : Type :=
| SAcl (o : AclObject M)
| SLb (o : LbObject (V := V) (B := B) (L := L))
| SScheduler (o : Bare)
| SHello (o : Bare).
Arguments SAcl {M V B L} o.
Arguments SLb {M V B L} o.
Arguments SScheduler {M V B L} o.
Arguments SHello {M V B L} o.

(** the object that [dlsym("create_service")] of a library gives *)
Section Factories.
Context {M V B L : Type}.

(* src/services/acl/acl.cc:27-29 create_service *)
Definition create_acl : service M V B L := SAcl newAcl.
(* src/services/acl/acl_xdp.cc:27-29 create_service *)
Definition create_acl_xdp : service M V B L := SAcl newAcl.
(* src/services/lb/lb_xdp.cc:27-29 create_service *)
Definition create_lb_xdp : service M V B L := SLb newLb.
(* src/services/scheduler/scheduler.cc:27-29 create_service *)
Definition create_scheduler : service M V B L := SScheduler newBare.
(* src/services/scheduler/scheduler_xdp.cc:28-30 create_service *)
Definition create_scheduler_xdp : service M V B L := SScheduler newBare.
(* src/services/examples/hello/example_hello.cc:67-69 create_service *)
Definition create_hello : service M V B L := SHello newBare.
End Factories.

(** the skeleton of a service: each has its own programs, so the outside world
    answers each in its own way *)
Inductive skeleton : Type := AclSkeleton | LbSkeleton | SchedulerSkeleton | HelloSkeleton.

Section AllServices.
Context `{BuildMode} (e : skeleton -> env NetHook.netcall NetHook.netresp).
Context {M V B L json : Type} `{!BpfHash M ipv4_tuple Z} `{!BpfHash V vip_key vip_group}.
Context `{!BpfArray B backend_info} `{!BpfArray L (list Z)} `{!JsonLib json}.
Context (make_address_v4 : string -> option Z) (mac_init : list Z) (json_null : json).
Context (krules : M) (vips : V) (pool : B) (lomac : L).

#[local] Instance acl_if : EbpfIf (AclObject M) json := acl_service (e AclSkeleton) json_null krules.
#[local] Instance lb_if : EbpfIf (LbObject (V := V) (B := B) (L := L)) json :=
  lb_service (e LbSkeleton) make_address_v4 mac_init json_null vips pool lomac.

(** the method of the object's class *)
Definition dispatch {A} (f : forall O : Type, EbpfIf O json -> ST O A) : ST (service M V B L) A := fun s =>
  match s with
  | SAcl o => let '(r, o) := f _ acl_if o in (r, SAcl o)
  | SLb o => let '(r, o) := f _ lb_if o in (r, SLb o)
  | SScheduler o => let '(r, o) := f _ (scheduler_service (e SchedulerSkeleton) json_null) o in (r, SScheduler o)
  | SHello o => let '(r, o) := f _ (hello_service (e HelloSkeleton) json_null) o in (r, SHello o)
  end.
Definition ask {A} (f : forall O : Type, EbpfIf O json -> O -> A) (s : service M V B L) : A :=
  match s with
  | SAcl o => f _ acl_if o
  | SLb o => f _ lb_if o
  | SScheduler o => f _ (scheduler_service (e SchedulerSkeleton) json_null) o
  | SHello o => f _ (hello_service (e HelloSkeleton) json_null) o
  end.

#[export] Instance all_services : EbpfIf (service M V B L) json := {|
  getName := ask (fun O _ => getName);
  Loader.start io := dispatch (fun O _ => Loader.start io);
  Loader.stop := dispatch (fun O _ => Loader.stop);
  Loader.onConfigUpdate h i j := dispatch (fun O _ => Loader.onConfigUpdate h i j);
  Loader.getMainProgFd := ask (fun O _ => Loader.getMainProgFd);
  getPrometheusStatus := ask (fun O _ => getPrometheusStatus);
  Loader.getDebugStatus := ask (fun O _ => Loader.getDebugStatus)
|}.
End AllServices.

Section AllLaws.
Context `{BuildMode} (e : skeleton -> env NetHook.netcall NetHook.netresp) (Hok : forall sk, NetHook.accepting (e sk)).
Context {M V B L json : Type} `{!BpfHash M ipv4_tuple Z, !BpfHashLaws M ipv4_tuple Z}.
Context `{!BpfHash V vip_key vip_group, !BpfHashLaws V vip_key vip_group}.
Context `{!BpfArray B backend_info, !BpfArrayLaws B backend_info TOTAL_BACKENDS} `{!BpfArray L (list Z)} `{!JsonLib json}.
Context (make_address_v4 : string -> option Z) (mac_init : list Z) (json_null : json).
Context (krules : M) (vips : V) (pool : B) (lomac : L).

#[local] Instance objects : EbpfIf (service M V B L) json :=
  all_services e make_address_v4 mac_init json_null krules vips pool lomac.

Definition serves (s : service M V B L) : Prop :=
  match s with
  | SAcl o => up o /\ exists m, maps o = Some m
  | SLb o => up o /\ exists v p l, maps o = mkLbSkel (Some v) (Some p) (Some l)
  | SScheduler o => up o /\ hook_consistent (base o)
  | SHello o => up o
  end.
Definition released_all (s : service M V B L) : Prop :=
  match s with SAcl o => down o | SLb o => down o | SScheduler o | SHello o => down o end.
Definition decodes (s : service M V B L) (j : json) : Prop :=
  match s with
  | SAcl _ => exists acl, AclRules.from_json j AclRules.default = Ok acl
  | SLb _ => exists lb, LbRules.from_json j LbRules.default = Ok lb
  | _ => True
  end.

Lemma acl_view_up (o : AclObject M) m : up o -> maps o = Some m -> acl_view o = mkAcl (Some (Some m)) (rules o).
Proof. unfold acl_view. by intros [fd ->] ->. Qed.

Lemma update_returns h i j s :
  serves s -> decodes s j ->
  exists s', onConfigUpdate h i j s = (Ok tt, s') /\ serves s' /\ (forall j', decodes s j' -> decodes s' j').
Proof.
  destruct s as [o | o | o | o]; cbn [onConfigUpdate objects all_services dispatch serves decodes].
  - intros [Hup [m Hm]] [acl Hj]. cbn. unfold acl_update. rewrite (acl_view_up o m Hup Hm).
    destruct (onConfigUpdate_returns j m (rules o) acl Hj) as (m' & kept & -> & _).
    eexists. split; [done |]. split; [| done]. split; [exact Hup | by exists m'].
  - intros [Hup (v & p & l & Hm)] [lb Hj]. cbn. unfold lb_update, lb_view. destruct Hup as [fd Hs]. rewrite Hs, Hm.
    destruct lb as [mac rs]. destruct (onConfigUpdate_run make_address_v4 mac_init j v p l (rules o) mac rs Hj)
      as (v0 & l' & _ & _ & ->). destruct (load_rules _ _ _ _ _ _ _) as [[v' p'] kept].
    eexists. split; [done |]. split; [| done]. split; [by exists fd | by exists v', p', l'].
  - intros [Hup Hc] _. cbn. destruct (scheduler_update_returns (e SchedulerSkeleton) h i j o Hup Hc) as (o' & -> & ? & ?). by eexists.
  - intros Hup _. cbn. by eexists.
Qed.

Lemma stop_returns_all s : serves s -> exists s', Loader.stop s = (Ok tt, s') /\ released_all s'.
Proof.
  destruct s as [o | o | o | o]; cbn.
  - intros [Hup _]. destruct (stop_returns (e AclSkeleton) o Hup) as (o' & -> & ?). by eexists.
  - intros [Hup _]. unfold lb_stop. destruct (stop_returns (e LbSkeleton) o Hup) as (o' & -> & ?). by eexists.
  - intros [Hup _]. destruct (scheduler_stop_returns (e SchedulerSkeleton) o Hup) as (o' & -> & ?). by eexists.
  - intros Hup. change (hello_stop (e HelloSkeleton) o) with (stop (e HelloSkeleton) o).
    destruct (stop_returns (e HelloSkeleton) o Hup) as (o' & -> & ?). by eexists.
Qed.

#[export] Instance all_laws : EbpfLaws (service M V B L) json := {|
  serving := serves;
  stopped := released_all;
  accepts := decodes;
  update_law := update_returns;
  stop_law := stop_returns_all
|}.

(** a fresh object of each library starts *)
Lemma fresh_starts (s : service M V B L) :
  s = SAcl (newAcl (M := M)) \/ s = SLb newLb \/ s = SScheduler newBare \/ s = SHello newBare ->
  exists s', Loader.start true s = (Ok true, s') /\ getName s' ≠ "" /\ serves s' /\
    (forall j, decodes s' j <-> decodes s j) /\ (forall o, s = SAcl o -> exists o', s' = SAcl o' /\ up o' /\ maps o' = Some krules) /\
    (forall o, s = SLb o -> exists o', s' = SLb o' /\ up o' /\ maps o' = mkLbSkel (Some vips) (Some pool) (Some lomac)).
Proof.
  intros [-> | [-> | [-> | ->]]]; cbn.
  - destruct (start_returns (e AclSkeleton) (Hok _) "acl" (Some krules) None AclRules.default) as (o & Ho & Hup & Hm & _).
    unfold newAcl. rewrite Ho. eexists. split; [done |]. split; [done |]. split; [split; [done | by exists krules] |].
    split; [done |]. split; [intros o0 _; by exists o | done].
  - unfold lb_start, newLb. destruct (start_returns (e LbSkeleton) (Hok _) "lb" (mkLbSkel (Some vips) (Some pool) (Some lomac)) no_maps LbRules.default)
      as (o & -> & Hup & Hm & _).
    eexists. split; [done |]. split; [done |]. split; [split; [done | by exists vips, pool, lomac] |].
    split; [done |]. split; [done |]. intros o0 _. by exists o.
  - destruct (scheduler_start_returns (e SchedulerSkeleton) (Hok _)) as (o & -> & ? & ?). by eexists.
  - unfold newBare. destruct (hello_start_returns (e HelloSkeleton) (Hok _) tt true tt tt) as (o & -> & ? & _). by eexists.
Qed.

End AllLaws.

(** ** From the configuration file to the kernel table *)

Section EndToEnd.
Context `{BuildMode} `{!UMapOrder string} (e : skeleton -> env NetHook.netcall NetHook.netresp) (Hok : forall sk, NetHook.accepting (e sk)).
Context {M V B L json IM CM : Type} `{!BpfHash M ipv4_tuple Z, !BpfHashLaws M ipv4_tuple Z}.
Context `{!BpfHash V vip_key vip_group, !BpfHashLaws V vip_key vip_group}.
Context `{!BpfArray B backend_info, !BpfArrayLaws B backend_info TOTAL_BACKENDS} `{!BpfArray L (list Z)} `{!JsonLib json}.
Context `{!InotifyManagerIf IM, !InotifyManagerLaws IM} `{!ChainIf CM, !ChainLaws CM}.
Context (make_address_v4 : string -> option Z) (mac_init : list Z) (json_null : json).
Context (krules : M) (vips : V) (pool : B) (lomac : L).
Context (dl : string -> library (service M V B L)).

#[local] Instance objs : EbpfIf (service M V B L) json :=
  all_services e make_address_v4 mac_init json_null krules vips pool lomac.
#[local] Instance objs_laws : EbpfLaws (service M V B L) json :=
  all_laws e make_address_v4 mac_init json_null krules vips pool lomac.

(** the configuration file holds these ACL rules, and the table has room *)
Record acl_file (read_json : string -> json) (conf : string) (rs : list AclRulesElem.t) : Prop := {
  af_json : AclRules.from_json (read_json conf) AclRules.default = Ok (AclRules.mk rs);
  af_room : (length (valid_rules rs) <= bpf_max krules)%nat;
  af_max : Z.of_nat (length (valid_rules rs)) <= Acl.MAX_RULES_SIZE
}.

(** the loaded ACL filters by these rules ([Policy] says what they mean), and
    reports those that take effect *)
Definition enforced (so : string) (rs : list AclRulesElem.t) (l : Loader (service M V B L) IM CM) : Prop :=
  exists o m, getService so l = Some (SAcl o) /\ up o /\ maps o = Some m /\ bpf_max m = bpf_max krules /\
    rules o = AclRules.mk (valid_rules rs) /\
    forall data, Policy.ipv4_frame data ->
      hebpf_acl_xdp_generic m data =
        match Policy.seen data with
        | None => Finish XDP_PASS
        | Some p => if Policy.denied rs p then Finish XDP_DROP else ChainNext XDP_PASS
        end.

(** the library is the ACL's, under a plain path *)
Record acl_library (so : string) (h : HookType) (i : Z) (conf : string) : Prop := {
  al_so : so ≠ "";
  al_hook : h ≠ UNKNOWN;
  al_if : 0 < i;
  al_conf : conf ≠ "";
  al_dl : dl so = Service (SAcl newAcl);
  al_real : real_path so = so;
  al_plain : is_scheduler_lib so = false
}.

Lemma acl_service_loadable so h i conf rs read_json :
  acl_library so h i conf -> acl_file read_json conf rs ->
  loadable dl json_null read_json so h i conf.
Proof.
  intros Hlib Hfile. split; [apply Hlib .. | |].
  - rewrite (al_real _ _ _ _ Hlib), (al_dl _ _ _ _ Hlib). eexists. split; [done |].
    destruct (fresh_starts e Hok make_address_v4 mac_init json_null krules vips pool lomac (SAcl newAcl))
      as (s' & Hs & Hn & Hserv & Hdec & _); [by left |].
    exists s'. do 3 (split; [done |]). intros _. apply Hdec.
    unfold first_config. rewrite (al_real _ _ _ _ Hlib), (al_plain _ _ _ _ Hlib). eexists. apply Hfile.
  - right. rewrite (al_real _ _ _ _ Hlib). split; [apply Hlib | done].
Qed.

(** a configuration that decodes replaces what an ACL object enforces *)
Lemma acl_reconfigured so h i conf rs read_json o m o' l :
  acl_file read_json conf rs -> up o -> maps o = Some m -> bpf_max m = bpf_max krules ->
  onConfigUpdate h i (read_json conf) (SAcl o) = (Ok tt, o') -> getService so l = Some o' -> enforced so rs l.
Proof.
  intros [Hj Hroom Hmax] Hup Hm Hcap Hrun Hs. cbn in Hrun. unfold acl_update in Hrun.
  rewrite (acl_view_up o m Hup Hm) in Hrun. rewrite <- Hcap in Hroom.
  destruct (onConfigUpdate_ok (read_json conf) m (rules o) rs Hj Hroom Hmax) as (m' & Hu & Hcap' & Hv).
  rewrite Hu in Hrun. injection Hrun as <-. eexists _, m'. split; [exact Hs |]. split; [exact Hup |]. split; [done |].
  split; [congruence |]. split; [done |]. intros data. apply filter_policy; [by eapply from_json_wf | done].
Qed.

(** an ACL that has been loaded with its file *)
Lemma acl_started so h i conf rs read_json s1 s2 l :
  acl_library so h i conf -> acl_file read_json conf rs -> started dl json_null read_json so h i conf s1 s2 ->
  getService so l = Some s2 -> enforced so rs l.
Proof.
  intros Hlib Hfile [(s & Hdl & Hst) Hup] Hs2.
  rewrite (al_real _ _ _ _ Hlib), (al_dl _ _ _ _ Hlib) in Hdl. injection Hdl as <-.
  destruct (fresh_starts e Hok make_address_v4 mac_init json_null krules vips pool lomac (SAcl newAcl))
    as (s' & Hs & _ & _ & _ & Hacl); [by left |].
  pose proof (eq_trans (eq_sym Hs) Hst) as [= <-]. destruct (proj1 Hacl _ eq_refl) as (o & -> & Hupo & Hm).
  unfold first_config in Hup. rewrite (al_real _ _ _ _ Hlib), (al_plain _ _ _ _ Hlib) in Hup.
  rewrite (proj2 (String.eqb_neq _ _) (al_conf _ _ _ _ Hlib)) in Hup. cbn [orb negb] in Hup.
  by eapply acl_reconfigured.
Qed.

(** What a run of the closure finds: the text in the storage that its view of
    the library path points to, and the contents of the files. *)
Record Moment : Type := mkMoment { stored : StringView -> string; content : string -> json }.

Definition changed (so : string) (h : HookType) (i : Z) (conf : string) (now : Moment) : ST (Loader (service M V B L) IM CM) unit :=
  on_config_changed (content now) (stored now) (mkConfigCb (view_of so) h i) conf.

(** a file that does not decode changes nothing *)
Lemma acl_bad_file so h i conf now what o m l :
  h ≠ UNKNOWN -> 0 < i -> stored now (view_of so) = so ->
  AclRules.from_json (content now conf) AclRules.default = Err (StdException what) ->
  getService so l = Some (SAcl o) -> up o -> maps o = Some m ->
  exists l', changed so h i conf now l = (Err (invalid_config what), l') /\ getService so l' = Some (SAcl o) /\
    inotify_mgr_ l' = inotify_mgr_ l.
Proof.
  intros Hh Hi Hview Hbad Ho Hup Hm. unfold changed, on_config_changed, loadServiceConfigs. cbn [cb_so_path cb_hook_type cb_ifindex].
  rewrite Hview. rewrite assert_true by (by rewrite negb_true_iff, bool_decide_eq_false).
  rewrite assert_true by (by apply Z.ltb_lt). rewrite (st_bind_ok get _ l l l) by done.
  unfold getService in Ho |- *. destruct (services_ l !! so) as [s |] eqn:Es; [| done]. cbn in Ho. rewrite Ho.
  unfold on_service. cbn. unfold acl_update. rewrite (acl_view_up o m Hup Hm).
  unfold Acl.onConfigUpdate. rewrite Hbad. eexists. split; [done |]. cbn. by rewrite lookup_insert_eq.
Qed.

Definition not_found : exn := EXCEPT "Service not found, MUST BE load service first".

(** a view that reads a text which is no library's path: the registration of
    the file is removed instead *)
Lemma lost_library so h i conf now im b im' (l : Loader (service M V B L) IM CM) :
  h ≠ UNKNOWN -> 0 < i -> conf ≠ "" -> services_ l !! stored now (view_of so) = None ->
  inotify_mgr_ l = Some im -> im_goodbyeConfig conf im = (Ok b, im') ->
  changed so h i conf now l = (Err not_found, set_inotify (Some im') l).
Proof.
  intros Hh Hi Hc Hnone Him Hbye. unfold changed, on_config_changed, loadServiceConfigs. cbn [cb_so_path cb_hook_type cb_ifindex].
  rewrite assert_true by (by rewrite negb_true_iff, bool_decide_eq_false).
  rewrite assert_true by (by apply Z.ltb_lt). rewrite (st_bind_ok get _ l l l), Hnone by done.
  unfold unregisterServiceConfig. rewrite (st_bind_ok get _ l l l), Him by done.
  rewrite assert_true by done. apply String.eqb_neq in Hc as ->.
  erewrite st_bind_ok by (unfold on_inotify; by rewrite Him, Hbye).
  erewrite st_bind_ok by done. cbn. by rewrite Hnone.
Qed.

(** the changes of a file while the view still reads the library's path, with
    the rules that each one brings *)
Definition readable_changes (so conf : string) (cs : list (Moment * list AclRulesElem.t)) : Prop :=
  Forall (fun c => stored c.1 (view_of so) = so /\ acl_file (content c.1) conf c.2) cs.

Lemma changes_followed so h i conf cs : forall rs (l : Loader (service M V B L) IM CM),
  acl_library so h i conf -> loader_inv dl l -> enforced so rs l -> readable_changes so conf cs ->
  exists l', for_each (changed so h i conf) cs.*1 l = (Ok tt, l') /\ loader_inv dl l' /\ loaded l' = loaded l /\
    enforced so (default rs (last cs.*2)) l'.
Proof.
  induction cs as [| [now rs'] cs IH]; intros rs l Hlib Hinv Hforced Hcs; [by exists l |].
  apply Forall_cons in Hcs as [[Hview Hfile] Hcs]. cbn [fst snd] in Hview, Hfile.
  pose proof Hforced as (o & m & Ho & Hupo & Hm & Hcap & _).
  destruct (loadServiceConfigs_spec dl json_null (content now) so h i conf l Hinv)
    as (l1 & i0 & i1 & Hrun & Hinv1 & _ & Hld1 & Hi0 & Hup & Hi1);
    [| by eapply acl_service_loadable | apply Hlib | apply Hlib | apply Hlib |].
  { apply loaded_lookup. unfold getService in Ho. destruct (services_ l !! so); [by eexists | done]. }
  rewrite Ho in Hi0. injection Hi0 as <-.
  assert (Hforced1 : enforced so rs' l1) by (by eapply acl_reconfigured).
  destruct (IH rs' l1 Hlib Hinv1 Hforced1 Hcs) as (l' & Hrest & Hinv' & Hld' & Hforced').
  exists l'. split; [| split; [done |]; split; [congruence |]].
  - cbn [fmap list_fmap for_each fst]. erewrite st_bind_ok; [exact Hrest |].
    unfold changed, on_config_changed. cbn [cb_so_path cb_hook_type cb_ifindex]. by rewrite Hview.
  - rewrite !fmap_cons, last_cons. by destruct (last cs.*2).
Qed.

Definition file_callback (conf : string) (l : Loader (service M V B L) IM CM) : option ConfigCb :=
  inotify_mgr_ l ≫= fun im => im_callback im conf.


End EndToEnd.

(** ** The thread that reloads *)

Section ReloadingThread.
Context `{BuildMode} `{!UMapOrder string} (e : skeleton -> env NetHook.netcall NetHook.netresp) (ei : env icall Z).
Context {M V B L json CM : Type} `{!BpfHash M ipv4_tuple Z, !BpfHashLaws M ipv4_tuple Z}.
Context `{!BpfHash V vip_key vip_group, !BpfHashLaws V vip_key vip_group}.
Context `{!BpfArray B backend_info, !BpfArrayLaws B backend_info TOTAL_BACKENDS} `{!BpfArray L (list Z)} `{!JsonLib json}.
Context `{!ChainIf CM}.
Context (make_address_v4 : string -> option Z) (mac_init : list Z) (json_null : json).
Context (krules : M) (vips : V) (pool : B) (lomac : L).

#[local] Instance reloaded_objects : EbpfIf (service M V B L) json :=
  all_services e make_address_v4 mac_init json_null krules vips pool lomac.
#[local] Instance reloading_watcher : InotifyManagerIf watcher := watcher_if ei.

(** What the handler of the inotify descriptor works on: the loader with the
    inotify manager it shares, the bytes that each coming [read] returns, and
    what each coming run of a closure finds. *)
Record Reloading : Type := mkReloading {
  loader_ : Loader (service M V B L) watcher CM;
  reads : list (list Z);
  moments : nat -> Moment (json := json)
}.

(** the callback that the manager gives to [Inotify]: the closure of the file
    runs, and an exception of it leaves the callback *)
(* src/inotify/inotify_manager.cc:99-100 InotifyManager::initManager *)
Definition event_callback (name : string) (mask : Z) (s : Reloading) : result (exn * Reloading) Reloading :=
  match inotify_mgr_ (loader_ s) with
  | None => Ok s
  | Some w =>
      match onInotifyEvent name mask w.1 with
      | Err x => Err (x, s)
      | Ok None => Ok s
      | Ok (Some call) =>
          let now := moments s 0 in
          let '(r, l) := on_config_changed (content now) (stored now) (callee call) (arg_name call) (loader_ s) in
          let s := mkReloading l (reads s) (fun n => moments s (S n)) in
          match r with Ok _ => Ok s | Err x => Err (x, s) end
      end
  end.

(** the handler that [initManager] registers: one [read] of at most 4096 bytes;
    without anything to read it answers -1 *)
(* src/inotify/inotify_manager.cc:118-126 InotifyManager::initManager *)
Definition inotify_readable : Io.IoCb Reloading :=
  Io.mkCallback "inotify_manager.cc:119" (Some (fun _ s =>
    match reads s with
    | [] => (Ok tt, s)
    | buffer :: rest =>
        let s := mkReloading (loader_ s) rest (moments s) in
        if (0 <? length buffer)%nat then
          match processInotify event_callback buffer s with Ok s => (Ok tt, s) | Err (x, s) => (Err x, s) end
        else (Ok tt, s)
    end)).

Lemma goodbye_returns conf (w : watcher) : conf ≠ "" -> exists b w', im_goodbyeConfig conf w = (Ok b, w').
Proof.
  intros Hc. cbn. unfold watcher_run, goodbyeConfig. rewrite getParentDir_ok by done.
  destruct (findWatchInfo _ _ _) as [[ws [[k wi] |]] |]; cbn; [| by eexists _, _ ..].
  destruct (negb _); cbn; [| by eexists _, _]. destruct (ei _ _ =? -1); cbn; by eexists _, _.
Qed.

(** the event makes its closure throw: the file does not decode, or the view
    of the library path reads a text that is no loaded library *)
Definition reload_fails (so conf : string) (now : Moment) (l : Loader (service M V B L) watcher CM) : Prop :=
  (stored now (view_of so) = so /\
    exists what, AclRules.from_json (content now conf) AclRules.default = Err (StdException what)) \/
  loaded l !! stored now (view_of so) = None.

Lemma event_throws so conf h i rs mask w (s : Reloading) :
  h ≠ UNKNOWN -> 0 < i -> conf ≠ "" -> enforced krules so rs (loader_ s) ->
  inotify_mgr_ (loader_ s) = Some w -> im_callback w conf = Some (mkConfigCb (view_of so) h i) ->
  reload_fails so conf (moments s 0) (loader_ s) ->
  exists x s', event_callback conf mask s = Err (x, s') /\ enforced krules so rs (loader_ s') /\ reads s' = reads s.
Proof.
  intros Hh Hi Hc Hforced Hw Hcb Hfails. destruct Hforced as (o & m & Ho & Hup & Hm & Hrest).
  unfold event_callback. rewrite Hw, onInotifyEvent_registered by done. cbn in Hcb.
  destruct (registered conf w.1) as [cb |]; [| done]. cbn in Hcb. subst cb. cbn [mbind option_bind callee arg_name].
  destruct Hfails as [[Hview [what Hbad]] | Hlost].
  - destruct (acl_bad_file e make_address_v4 mac_init json_null krules vips pool lomac so h i conf (moments s 0) what o m (loader_ s))
      as (l' & Hrun & Ho' & _); [done .. |].
    destruct (on_config_changed _ _ _ _ _) as [r l1] eqn:Erun. pose proof (eq_trans (eq_sym Erun) Hrun) as [= -> ->].
    eexists _, _. split; [done |]. split; [by exists o, m | done].
  - destruct (goodbye_returns conf w Hc) as (b & w' & Hbye).
    assert (Hlost' : services_ (loader_ s) !! stored (moments s 0) (view_of so) = None).
    { apply eq_None_not_Some. intros Hs. apply loaded_lookup in Hs. by rewrite Hlost in Hs; destruct Hs. }
    pose proof (lost_library e make_address_v4 mac_init json_null krules vips pool lomac so h i conf (moments s 0) w b w' (loader_ s)
      Hh Hi Hc Hlost' Hw Hbye) as Hrun.
    destruct (on_config_changed _ _ _ _ _) as [r l1] eqn:Erun. pose proof (eq_trans (eq_sym Erun) Hrun) as [= -> ->].
    eexists _, _. split; [done |]. split; [by exists o, m | done].
Qed.

(** C38: one bad configuration file ends the reloading of all of them.  The
    bytes that the inotify descriptor delivers are those of events of which the
    first is about a watched file, and its closure throws: the content does not
    decode, or the closure's view of the library path (whose storage is freed
    since the library was loaded) reads a text that is no loaded library.  Then
    the exception leaves [processInotify] and the read handler, the thread of
    the IO context ends, the later events of the buffer and all later reads are
    never looked at, and from then on the ACL enforces the rules it had. *)
Theorem bad_file_ends_reloading (so conf : string) (h : HookType) (i : Z) (rs : list AclRulesElem.t) (w : watcher)
  (io io' : Io.Io Reloading) (id : nat) (d : Io.DescriptorBase (S := Reloading))
  (ev : kevent) (evs : list kevent) (later : list (list Z)) (es : list (Io.event Reloading))
  (Hh : h ≠ UNKNOWN) (Hi : 0 < i) (Hconf : conf ≠ "") (Hforced : enforced krules so rs (loader_ (Io.world io)))
  (Hw : inotify_mgr_ (loader_ (Io.world io)) = Some w) (Hcb : im_callback w conf = Some (mkConfigCb (view_of so) h i))
  (Hname : ev_name ev = conf) (Hevents : Forall event_wf (ev :: evs))
  (Hreads : reads (Io.world io) = encode_events (ev :: evs) :: later)
  (Hfails : reload_fails so conf (moments (Io.world io) 0) (loader_ (Io.world io)))
  (Hthread : Io.thread io = Io.Running id) (Hd : Io.descriptors io !! id = Some d)
  (Hhandler : Io.handler_ d = inotify_readable) (Hrun : Io.io_run (Io.Finish :: es) io = Some io') :
  Io.thread io' = Io.Ended /\ reads (Io.world io') = later /\ enforced krules so rs (loader_ (Io.world io')).
Proof.
  pose (s := mkReloading (loader_ (Io.world io)) later (moments (Io.world io))).
  destruct (event_throws so conf h i rs (ev_mask ev) w s) as (x & s' & Hev & Hforced' & Hleft); [done .. |].
  assert (Hlen : 0 < ev_len ev). { unfold ev_len. rewrite Hname. destruct conf; [done | cbn [String.length]; lia]. }
  assert (Hthrow : Io.invoke (Io.handler_ d) tt (Io.world io) = (Err x, s')).
  { rewrite Hhandler. unfold inotify_readable, Io.invoke. cbn -[Nat.ltb processInotify]. rewrite Hreads.
    rewrite (proj2 (Nat.ltb_lt _ _)) by (by apply length_encode_events_pos).
    rewrite processInotify_events by done. cbn [feed]. rewrite (proj2 (Z.ltb_lt _ _) Hlen), Hname.
    fold s. rewrite Hev. done. }
  destruct (Io.finish_throws io id d x s' es io' Hthread Hd Hthrow Hrun) as (Hended & Hworld & _).
  rewrite Hworld. done.
Qed.

End ReloadingThread.

(** ** A concrete run *)

Module Sample.

#[local] Existing Instance Loader.Sample.release.
#[local] Existing Instance Loader.Sample.order_string.
#[local] Existing Instance Loader.Sample.order_Z.
#[local] Existing Instance Loader.Sample.watcher_if.
#[local] Existing Instance Loader.Sample.watcher_laws.
#[local] Existing Instance Loader.Sample.array_ops.
#[local] Existing Instance Lb.Sample.pool_ops.
#[local] Existing Instance Lb.Sample.pool_laws.
#[local] Existing Instance Lb.Sample.mac_ops.

Definition willing : skeleton -> env NetHook.netcall NetHook.netresp := fun sk _ _ =>
  NetHook.mkNetresp 0 1 1 (match sk with AclSkeleton => 103 | LbSkeleton => 107 | SchedulerSkeleton => 105 | HelloSkeleton => 5 end).
Lemma willing_ok sk : NetHook.accepting (willing sk).
Proof. intros tr c. destruct sk; cbn; lia. Qed.

Abbreviation krules := Acl.Sample.table.
Abbreviation K := (RefHash.t ipv4_tuple Z).
Abbreviation V := (RefHash.t vip_key vip_group).
Abbreviation B := (RefArrayMap.t backend_info).
Abbreviation L := (RefArrayMap.t (list Z)).

Definition so : string := "/lib/libhebpf_acl.so".
Definition dl (path : string) : library (service K V B L) := if (path =? so)%string then Service create_acl_xdp else NotOpened.

Definition other_rule : AclRulesElem.t := AclRulesElem.setDport 443 Acl.Sample.rule.
Definition before (path : string) : RefJson.t := Acl.Sample.config.
Definition after (path : string) : RefJson.t := AclRules.to_json (AclRules.mk [other_rule]).
Definition broken (path : string) : RefJson.t := jobject [("rules", jstring "none")].

Definition empty : Loader (service K V B L) Loader.Sample.watchers (chain (M := RefHash.t Z Z) (A := gmap Z Z)) :=
  mkLoader ∅ true (Some ∅) (Some Loader.Sample.empty_chain) [].

#[local] Instance objects : EbpfIf (service K V B L) RefJson.t :=
  all_services willing Lb.Sample.parse_v4 Lb.Sample.garbage (jstring "") krules Lb.Sample.vips Lb.Sample.pool Lb.Sample.lomac.
#[local] Instance object_laws : EbpfLaws (service K V B L) RefJson.t :=
  all_laws willing Lb.Sample.parse_v4 Lb.Sample.garbage (jstring "") krules Lb.Sample.vips Lb.Sample.pool Lb.Sample.lomac.

Definition filters (l : Loader (service K V B L) Loader.Sample.watchers (chain (M := RefHash.t Z Z) (A := gmap Z Z)))
  (v : verdict) : Prop :=
  exists o m, getService so l = Some (SAcl o) /\ maps o = Some m /\ hebpf_acl_xdp_generic m Acl.Sample.tcp_to_80 = v.

Lemma empty_ok : loader_inv dl empty.
Proof. split; [by exists ∅ | by exists Loader.Sample.empty_chain | done | apply map_Forall_empty]. Qed.

Lemma library_ok : acl_library dl so XDP_GENERIC 2 "/etc/acl.json".
Proof. split; try reflexivity; discriminate. Qed.

(** the view still reads the path of the library; its storage has been used
    for something else *)
Definition intact (files : string -> RefJson.t) : Moment := mkMoment viewed files.
Definition reused (files : string -> RefJson.t) : Moment := mkMoment (fun _ => "") files.

Lemma before_file : acl_file krules before "/etc/acl.json" [Acl.Sample.rule; Acl.Sample.bad].
Proof. split; [vm_compute; reflexivity | vm_compute; lia | vm_compute; discriminate]. Qed.
Lemma after_file : acl_file krules after "/etc/acl.json" [other_rule].
Proof. split; [vm_compute; reflexivity | vm_compute; lia | vm_compute; discriminate]. Qed.


(** an ACL that enforces [before]; the inotify manager watches its file, and
    two buffers of events are waiting *)
Definition fresh_acl : AclObject K := mkObject (NetHook.mkSvc (Some 5) false None (-1) true) (Some krules) AclRules.default [].
Definition running_acl : service K V B L := (onConfigUpdate XDP_GENERIC 2 (before "") (SAcl fresh_acl)).2.
Definition file_watch : WatchInfo ConfigCb := mkWatchInfo 3 "acl.json" (Some (mkConfigCb (view_of so) XDP_GENERIC 2)).
Definition watching : watcher := (mkManager {["." := [file_watch]]} (Some 9) true, []).
Definition with_acl : Loader (service K V B L) watcher (chain (M := RefHash.t Z Z) (A := gmap Z Z)) :=
  mkLoader {[so := mkService true (Some running_acl) "acl" so "acl.json" XDP_GENERIC 2]} true (Some watching)
    (Some Loader.Sample.empty_chain) [].
Definition written : kevent := mkEvent 3 8 0 "acl.json" 8.
Definition waiting (first : Moment (json := RefJson.t)) :=
  mkReloading with_acl [encode_events [written; written]; encode_events [written]] (fun n => match n with O => first | _ => intact after end).
Definition kernel_answers : env icall Z := fun _ _ => 3.
Definition handler :=
  inotify_readable willing kernel_answers (CM := chain (M := RefHash.t Z Z) (A := gmap Z Z))
    Lb.Sample.parse_v4 Lb.Sample.garbage (jstring "") krules Lb.Sample.vips Lb.Sample.pool Lb.Sample.lomac.
Definition in_handler first := Io.mkIo [Io.mkDescriptor handler true false false] (Io.Running 0) false (waiting first).

Lemma with_acl_enforces :
  enforced krules so [Acl.Sample.rule; Acl.Sample.bad] with_acl.
Proof.
  apply (acl_reconfigured willing Lb.Sample.parse_v4 Lb.Sample.garbage (jstring "") krules Lb.Sample.vips
    Lb.Sample.pool Lb.Sample.lomac so XDP_GENERIC 2 "" _ before fresh_acl krules running_acl with_acl).
  - split; [vm_compute; reflexivity | vm_compute; lia | vm_compute; discriminate].
  - by exists 5.
  - done.
  - done.
  - vm_compute. reflexivity.
  - done.
Qed.

Lemma written_wf : event_wf written.
Proof. split; [cbn; lia |]. split; [vm_compute; reflexivity |]. by split. Qed.

(** both ways to fail: the second of them with a file that decodes *)
Lemma bad_file_ends_reloading_witness :
  Forall (fun first => exists io, Io.io_run [Io.Finish; Io.Release 0] (in_handler first) = Some io /\ Io.thread io = Io.Ended /\
    length (reads (Io.world io)) = 1%nat /\
    exists o m, getService so (loader_ (Io.world io)) = Some (SAcl o) /\ maps o = Some m /\
      hebpf_acl_xdp_generic m Acl.Sample.tcp_to_80 = Finish XDP_DROP) [intact broken; reused after].
Proof.
  assert (Hall : forall first, reload_fails so "acl.json" first with_acl ->
    match Io.io_run [Io.Finish; Io.Release 0] (in_handler first) with Some _ => true | None => false end = true ->
    exists io, Io.io_run [Io.Finish; Io.Release 0] (in_handler first) = Some io /\ Io.thread io = Io.Ended /\
      length (reads (Io.world io)) = 1%nat /\
      exists o m, getService so (loader_ (Io.world io)) = Some (SAcl o) /\ maps o = Some m /\
        hebpf_acl_xdp_generic m Acl.Sample.tcp_to_80 = Finish XDP_DROP).
  { intros first Hfails Hsome.
    destruct (Io.io_run [Io.Finish; Io.Release 0] (in_handler first)) as [io |] eqn:Hrun; [| discriminate Hsome]. exists io.
    destruct (bad_file_ends_reloading willing kernel_answers Lb.Sample.parse_v4 Lb.Sample.garbage (jstring "") krules
                Lb.Sample.vips Lb.Sample.pool Lb.Sample.lomac so "acl.json" XDP_GENERIC 2
                [Acl.Sample.rule; Acl.Sample.bad] watching (in_handler first) io 0
                (Io.mkDescriptor handler true false false) written [written] [encode_events [written]] [Io.Release 0])
      as (Hended & Hleft & (o & m & Ho & _ & Hm & _ & _ & Hf)).
    - discriminate.
    - reflexivity.
    - discriminate.
    - exact with_acl_enforces.
    - reflexivity.
    - vm_compute. reflexivity.
    - reflexivity.
    - repeat constructor; apply written_wf.
    - reflexivity.
    - exact Hfails.
    - reflexivity.
    - reflexivity.
    - reflexivity.
    - exact Hrun.
    - split; [reflexivity | split; [exact Hended | split; [rewrite Hleft; reflexivity |]]].
      exists o, m. split; [exact Ho | split; [exact Hm |]].
      rewrite (Hf _ Acl.Sample.tcp_frame). vm_compute. reflexivity. }
  constructor; [| constructor; [| constructor]]; apply Hall.
  - left. split; [reflexivity |]. exists "type must be other". vm_compute. reflexivity.
  - vm_compute. reflexivity.
  - right. vm_compute. reflexivity.
  - vm_compute. reflexivity.
Defined.

End Sample.
