(* ===== verification/Firewall.v ===== *)
(** * A firewall, from its configuration files to the packets

    Everything together: the daemon ([Daemon.v]) is told a configuration with
    the ACL in it; the loader ([Loader.v]) starts the service objects
    ([Services.v]), which read their JSON files, fill their kernel tables
    ([Acl.v]) and attach the scheduler ([NetHook.v]); the chain manager
    ([ProgMap.v]) chains the programs; and the packets of the interface meet
    the rules of the file ([Packet.v]). *)

From stdpp Require Import sorting.
From S2P Require Import Prelude Configs Names BpfMap Json Net ProgMap Acl Lb Packet Loader Services Daemon System Reconfig.
From S2P Require NetHook.

#[local] Open Scope string_scope.
#[local] Open Scope Z_scope.
#[local] Open Scope list_scope.

Section Firewall.
Context {K V B L json IM M A P : Type} `{!BpfHash K ipv4_tuple Z, !BpfHashLaws K ipv4_tuple Z}.
Context `{!BpfHash V vip_key vip_group, !BpfHashLaws V vip_key vip_group}.
Context `{!BpfArray B backend_info, !BpfArrayLaws B backend_info TOTAL_BACKENDS} `{!BpfArray L (list Z)} `{!JsonLib json}.
Context `{!InotifyManagerIf IM, !InotifyManagerLaws IM}.
Context `{!BpfHash M Z Z, !BpfHashLaws M Z Z} `{!BpfProgArray A P}.
Context (prog_id : P -> Z) (prog_of_fd : Z -> option P) `{!BpfProgArrayLaws A P prog_of_fd MAX_CHAIN_PROGS}.
Context `{!UMapOrder string, !UMapOrder Z, !UMapOrder HookType}.
#[local] Existing Instance release_build.

Context (e : skeleton -> env NetHook.netcall NetHook.netresp) (Haccept : forall sk, NetHook.accepting (e sk)).
Context (make_address_v4 : string -> option Z) (mac_init : list Z) (json_null : json).
Context (krules : K) (vips : V) (pool : B) (lomac : L).
Context (dl : string -> library (service K V B L)) (read_json : string -> json).
Context (std_sort : list order_entry -> list order_entry) (std_sort_perm : forall l, std_sort l ≡ₚ l)
  (std_sort_sorted : forall l, Sorted (fun e1 e2 : order_entry => e1.1.1 <= e2.1.1) (std_sort l)).

#[local] Instance objs : EbpfIf (service K V B L) json :=
  all_services e make_address_v4 mac_init json_null krules vips pool lomac.
#[local] Instance objs_laws : EbpfLaws (service K V B L) json :=
  all_laws e make_address_v4 mac_init json_null krules vips pool lomac.

Abbreviation machine := (Loader (service K V B L) IM (chain (M := M) (A := A))).
#[local] Instance machine_if : LoaderIf machine (service K V B L) := the_loader dl json_null read_json.
#[local] Instance machine_laws : LoaderLaws machine (service K V B L) := the_loader_laws dl json_null read_json.

(** the entry with the smallest number is the first *)
Lemma leading_of_sorted c cs :
  c ∈ cs -> (forall c', c' ∈ cs -> c' = c \/ ConfigEbpf.getOrder c < ConfigEbpf.getOrder c') -> Sorted by_order cs ->
  exists rest, cs = c :: rest.
Proof.
  intros Hc Hlead Hs. destruct cs as [| c0 cs]; [by apply not_elem_of_nil in Hc |]. exists cs. f_equal.
  destruct (Hlead c0 ltac:(left)) as [-> | Hlt]; [done |].
  apply elem_of_cons in Hc as [Heq | Hc]; [by rewrite Heq in Hlt; lia |].
  apply Sorted_StronglySorted in Hs; [| intros a b c1; unfold by_order; lia].
  apply StronglySorted_inv in Hs as [_ Hall]. apply (proj1 (Forall_forall _ _) Hall) in Hc. unfold by_order in Hc. lia.
Qed.

Lemma leading_entry (m : EbpfMap) x c cs :
  m !! x = Some c -> (forall x' c', m !! x' = Some c' -> x' <> x -> ConfigEbpf.getOrder c < ConfigEbpf.getOrder c') ->
  cs ≡ₚ (map_to_list m).*2 -> Sorted by_order cs -> exists rest, cs = c :: rest.
Proof.
  intros Hx Hlead Hcs Hs. assert (Hin : forall c', c' ∈ cs <-> exists x', m !! x' = Some c').
  { intros c'. rewrite Hcs, list_elem_of_fmap. split.
    - intros ([x' c2] & -> & H). exists x'. by apply elem_of_map_to_list.
    - intros [x' H]. exists (x', c'). split; [done |]. by apply elem_of_map_to_list. }
  apply leading_of_sorted; [apply Hin; eauto | | done]. intros c' [x' Hx']%Hin.
  destruct (decide (x' = x)) as [-> | Hne]; [left; congruence | right; by apply (Hlead x')].
Qed.

(** the scheduler's object after its load *)
Lemma scheduler_loaded h i fd s1 s2 :
  0 < i -> is_Some (NetHook.make_hook h i) -> dl (real_path (scheduler_so h i)) = Service (SScheduler newBare) ->
  is_scheduler_lib (real_path (scheduler_so h i)) = true ->
  started dl json_null read_json (scheduler_so h i) h i "" s1 s2 -> Loader.getMainProgFd s2 = fd ->
  exists o, s2 = SScheduler o /\ NetHook.attached_scheduler (base o) fd i.
Proof.
  intros Hi Hhook Hdl Hsched [(s & Hs & Hst) Hup] Hfd. rewrite Hdl in Hs. injection Hs as <-.
  rewrite Hsched in Hup. cbn [orb] in Hup.
  destruct (NetHook.scheduler_starts (e SchedulerSkeleton) (Haccept _)) as (v1 & tr1 & Hrun1 & Hv1 & _).
  assert (Hs1 : s1 = SScheduler (mkObject v1 tt tt tr1)).
  { cbn in Hst. unfold scheduler_start, on_base in Hst. cbn [base newBare calls maps rules] in Hst. rewrite Hrun1 in Hst. congruence. }
  subst s1. destruct (NetHook.scheduler_attaches (e SchedulerSkeleton) (Haccept _) h i v1 _ tr1 Hv1)
    as (v2 & tr2 & Hrun2 & Hv2 & _); [lia | done |].
  cbn in Hup. unfold scheduler_update, on_base, fallible in Hup. cbn [base calls maps rules] in Hup.
  change (mbind ?f ?p) with (prog_bind p f) in Hup. rewrite run_bind, Hrun2 in Hup. cbn in Hup. injection Hup as <-.
  eexists. split; [done |]. cbn [base]. destruct Hv2 as [im ->]. cbn in Hfd. rewrite Hfd. by exists im.
Qed.

(** the rules of the ACL's configuration file are what happens to the
    packets of the interface.  A daemon with nothing loaded is told a
    configuration for the generic XDP hook of one interface in which the ACL
    comes first: the update succeeds, the scheduler is attached to that
    interface, and every TCP or UDP packet that enters it is dropped exactly
    when the rules deny it, and is handed to the later programs otherwise,
    whatever they are; other IPv4 frames pass. *)
Theorem nic_enforces_acl_file (config : Configs.t) (d : Daemon machine) (i : Z) (pid : ConfigEbpf.t -> Z) (s : Z)
  (p : PinnedProgMap) (k : Kernel M A) (maps : HookMaps) (m : M) (a : A)
  (x : string) (c : ConfigEbpf.t) (rs : list AclRulesElem.t)
  (Hok : config_ok (li_loadable (L := machine)) (Configs.getEbpfs config))
  (Hd : daemon_ok ∅ d) (Hempty : loaded (loader_ d) = ∅) (Hcm : chain_mgr_ (loader_ d) = Some (p, k))
  (Hfirst : first_configuration prog_id prog_of_fd dl json_null read_json XDP_GENERIC i (Configs.getEbpfs config) pid s p k maps m a)
  (Hx : Configs.getEbpfs config !! x = Some c)
  (Hlead : forall x' c', Configs.getEbpfs config !! x' = Some c' -> x' <> x -> ConfigEbpf.getOrder c < ConfigEbpf.getOrder c')
  (Hacl : acl_library dl (ConfigEbpf.getLib c) XDP_GENERIC i (ConfigEbpf.getConfig c))
  (Hfile : acl_file krules read_json (ConfigEbpf.getConfig c) rs)
  (Hsched : dl SCHEDULER_XDP_LIB = Service create_scheduler_xdp) :
  exists d' o krules' os fd k' m' a' rest, update std_sort config d = (Ok tt, d') /\ daemon_ok (Configs.getEbpfs config) d' /\
    getService (ConfigEbpf.getLib c) (loader_ d') = Some (SAcl o) /\ Services.maps o = Some krules' /\
    getService (scheduler_so XDP_GENERIC i) (loader_ d') = Some (SScheduler os) /\
    NetHook.attached_scheduler (base os) fd i /\ prog_id <$> prog_of_fd fd = Some s /\
    snd <$> chain_mgr_ (loader_ d') = Some k' /\ hashes k' !! id_hash_fd maps = Some m' /\ arrays k' !! prog_array_fd maps = Some a' /\
    c :: rest ≡ₚ (map_to_list (Configs.getEbpfs config)).*2 /\
    forall (body : Z -> program) data,
      body s = hebpf_scheduler_xdp_gen -> body (pid c) = (fun data => (hebpf_acl_xdp_generic krules' data, data)) ->
      Policy.ipv4_frame data ->
      run_packet prog_id body MAX_TAIL_CALL_CNT m' a' i s data =
        match Policy.seen data with
        | None => (XDP_PASS, data)
        | Some pkt =>
            if Policy.denied rs pkt then (XDP_DROP, data)
            else match pid <$> rest with
                 | [] => (XDP_PASS, data)
                 | next :: later => process body next later data
                 end
        end.
Proof.
  destruct (first_daemon prog_id prog_of_fd dl json_null read_json std_sort std_sort_perm std_sort_sorted
              config d XDP_GENERIC i pid s p k maps m a Hok Hd Hempty Hcm Hfirst)
    as (d' & p' & k' & m' & a' & cs & Hup & Hd' & Hcs & Hsorted & Hcm' & Hm & Ha & Hrun & Hholds & (s1 & s2 & Hst & Hs2)).
  destruct (leading_entry _ x c cs Hx Hlead Hcs Hsorted) as (rest & ->).
  apply Forall_cons in Hholds as [(sa1 & sa2 & Hsta & Hsa2) _].
  destruct (acl_started e Haccept make_address_v4 mac_init json_null krules vips pool lomac dl _ _ _ _ _ _ _ _ _
              Hacl Hfile Hsta Hsa2) as (o & krules' & Ho & _ & Hmaps & _ & _ & Hfilter).
  destruct (fc_scheduler _ _ _ _ _ _ _ _ _ _ _ _ _ _ _ Hfirst)
    as (fd & (info & q & _ & _ & _ & Hfd & Hq & Hqid) & t1 & t2 & Hst' & _ & Hmain).
  destruct (started_fun dl json_null read_json _ _ _ _ _ _ _ _ Hst Hst') as [<- <-].
  assert (Hreal : real_path (scheduler_so XDP_GENERIC i) = SCHEDULER_XDP_LIB).
  { unfold real_path, scheduler_so. rewrite bool_decide_eq_false_2 by done. change (";" +:+ ?s) with (String ";" s).
    by rewrite before_last_app by apply scheduler_suffix_no_semicolon. }
  destruct (scheduler_loaded XDP_GENERIC i fd s1 s2) as (os & -> & Hatt); try done.
  { apply (fc_nic _ _ _ _ _ _ _ _ _ _ _ _ _ _ _ Hfirst). }
  { by rewrite Hreal. }
  { by rewrite Hreal. }
  exists d', o, krules', os, fd, k', m', a', rest. rewrite Hcm'. cbn [snd fst] in Hq.
  do 6 (split; [done |]). split; [by rewrite Hq, <- Hqid |]. do 4 (split; [done |]).
  intros body data Hbs Hbc Hframe. rewrite Hrun. cbn [fmap list_fmap process]. rewrite Hbs.
  unfold hebpf_scheduler_xdp_gen.
  destruct (pid <$> rest); cbn [process]; rewrite Hbc; cbv beta; rewrite (Hfilter data Hframe);
    (destruct (Policy.seen data) as [pkt |]; [by destruct (Policy.denied rs pkt) | done]).
Qed.

(** ** What holds of every loaded object *)

(** the ACL's filter over this table does what the rules say *)
Definition acl_filters (table : K) (rs : list AclRulesElem.t) : Prop :=
  forall data, Policy.ipv4_frame data ->
    hebpf_acl_xdp_generic table data =
      match Policy.seen data with
      | None => Finish XDP_PASS
      | Some p => if Policy.denied rs p then Finish XDP_DROP else ChainNext XDP_PASS
      end.

(** the load balancer's program over these tables sends a packet for a virtual
    address to the backend its source address selects *)
Definition lb_balances (groups : V) (backends : B) (mac : L) (rs : list LbRulesElem.t) : Prop :=
  forall r vk data, r ∈ rs -> rule_key make_address_v4 r = Some vk -> rule_backends r <> [] -> packet_for data vk ->
    exists be, rule_backends r !! Z.to_nat (ip_saddr data mod Z.of_nat (length (rule_backends r))) = Some be /\
      hebpf_lb_xdp_gen groups backends mac data = (ChainNext XDP_TX, rewrite_macs mac (backend_entry be) data).

(** a file of the load balancer whose rules its tables have room for *)
Definition lb_file (conf : string) (rs : list LbRulesElem.t) : Prop :=
  (exists local_mac, LbRules.from_json (read_json conf) LbRules.default = Ok (LbRules.mk local_mac rs)) /\
  lb_fits make_address_v4 vips rs.

(** the library is one of the services, under a plain path *)
Definition service_library (so : string) (s : service K V B L) : Prop :=
  dl so = Service s /\ real_path so = so /\ is_scheduler_lib so = false.

(** what is claimed of the object of a library: a scheduler is as its load left
    it; an ACL filters by the rules of the file it is configured with
    and reports the valid ones, and a load
    balancer balances by those of its file, if they fit *)
Definition scheduler_fine (so : string) (v : service_view) (o : service K V B L) : Prop :=
  is_scheduler_lib (real_path so) = true -> exists s1, started dl json_null read_json so v.1.1 v.1.2 "" s1 o.
Definition acl_fine (so : string) (v : service_view) (o : service K V B L) : Prop :=
  service_library so (SAcl newAcl) ->
  exists a table, o = SAcl a /\ up a /\ Services.maps a = Some table /\ bpf_max table = bpf_max krules /\
    (v.2 <> "" -> forall rs, acl_file krules read_json v.2 rs ->
       acl_filters table rs /\ Services.rules a = AclRules.mk (valid_rules rs)).
Definition lb_fine (so : string) (v : service_view) (o : service K V B L) : Prop :=
  service_library so (SLb newLb) ->
  exists b groups backends mac, o = SLb b /\ up b /\ Services.maps b = mkLbSkel (Some groups) (Some backends) (Some mac) /\
    bpf_max groups = bpf_max vips /\ (v.2 <> "" -> forall rs, lb_file v.2 rs -> lb_balances groups backends mac rs).

Definition object_fine (so : string) (v : service_view) (o : service K V B L) : Prop :=
  scheduler_fine so v o /\ acl_fine so v o /\ lb_fine so v o.

Lemma acl_updated h i conf (a : AclObject K) table o' :
  up a -> Services.maps a = Some table -> bpf_max table = bpf_max krules ->
  Loader.onConfigUpdate h i (read_json conf) (SAcl a) = (Ok tt, o') ->
  exists a' table', o' = SAcl a' /\ up a' /\ Services.maps a' = Some table' /\ bpf_max table' = bpf_max krules /\
    forall rs, acl_file krules read_json conf rs ->
      acl_filters table' rs /\ Services.rules a' = AclRules.mk (valid_rules rs).
Proof.
  intros Hup Hm Hcap Hrun. cbn in Hrun. unfold acl_update in Hrun. rewrite (acl_view_up a table Hup Hm) in Hrun.
  destruct (AclRules.from_json (read_json conf) AclRules.default) as [acl | x] eqn:Ej.
  - destruct (onConfigUpdate_returns (read_json conf) table (rules a) acl Ej) as (table' & kept & Hu & Hmax).
    rewrite Hu in Hrun. injection Hrun as <-. eexists _, table'. split; [done |]. split; [exact Hup |]. split; [done |].
    split; [congruence |]. intros rs [Hj Hroom Hfits]. rewrite <- Hcap in Hroom.
    destruct (onConfigUpdate_ok (read_json conf) table (rules a) rs Hj Hroom Hfits) as (table2 & Hu2 & _ & Hv).
    rewrite Hu in Hu2. injection Hu2 as <- ->. split; [| done]. intros data.
    apply filter_policy; [by eapply from_json_wf | done].
  - unfold Acl.onConfigUpdate in Hrun. rewrite Ej in Hrun. destruct x; discriminate Hrun.
Qed.

Lemma lb_updated h i conf (b : Object (LbSkel V B L) LbRules.t) groups backends mac o' :
  up b -> Services.maps b = mkLbSkel (Some groups) (Some backends) (Some mac) -> bpf_max groups = bpf_max vips ->
  Loader.onConfigUpdate h i (read_json conf) (SLb b) = (Ok tt, o') ->
  exists b' groups' backends' mac', o' = SLb b' /\ up b' /\ Services.maps b' = mkLbSkel (Some groups') (Some backends') (Some mac') /\
    bpf_max groups' = bpf_max vips /\ forall rs, lb_file conf rs -> lb_balances groups' backends' mac' rs.
Proof.
  intros [fd Hup] Hm Hcap Hrun. cbn in Hrun. unfold lb_update, lb_view in Hrun. rewrite Hup, Hm in Hrun.
  destruct (LbRules.from_json (read_json conf) LbRules.default) as [[local_mac rules'] | x] eqn:Ej.
  2: { unfold Lb.onConfigUpdate in Hrun. rewrite Ej in Hrun. destruct x; discriminate Hrun. }
  destruct (onConfigUpdate_run make_address_v4 mac_init (read_json conf) groups backends mac (Services.rules b) local_mac rules' Ej)
    as (groups0 & mac' & _ & Hmax0 & Hu).
  pose proof (lb_load_rules_max make_address_v4 rules' groups0 backends (LbRules.mk local_mac []) 0 0) as Hmax.
  destruct (load_rules make_address_v4 rules' groups0 backends (LbRules.mk local_mac []) 0 0) as [[groups' backends'] kept].
  rewrite Hu in Hrun. injection Hrun as <-. cbn [fst] in Hmax. eexists _, groups', backends', mac'.
  split; [done |]. split; [by exists fd |]. split; [done |]. split; [congruence |]. intros rs [[lm Hj] Hfits].
  rewrite Ej in Hj. injection Hj as -> ->.
  destruct (lb_applied make_address_v4 mac_init (read_json conf) groups backends mac (Services.rules b) lm rs Ej)
    as (g2 & b2 & m2 & kept2 & Hu2 & Hbal); [apply Hfits | apply Hfits | rewrite Hcap; apply Hfits | apply Hfits | apply Hfits |].
  rewrite Hu in Hu2. injection Hu2 as -> -> -> _. exact Hbal.
Qed.

(** the object a service library starts *)
Lemma library_started so s s1 h i conf s2 :
  service_library so s -> started dl json_null read_json so h i conf s1 s2 ->
  Loader.start true s = (Ok true, s1) /\
  if (conf =? "")%string then s2 = s1 else Loader.onConfigUpdate h i (read_json conf) s1 = (Ok tt, s2).
Proof.
  intros (Hdl & Hreal & Hplain) [(s0 & Hs & Hst) Hup]. rewrite Hreal, Hdl in Hs. injection Hs as <-. split; [exact Hst |].
  unfold first_config in Hup. rewrite Hreal, Hplain in Hup. cbn [orb] in Hup. by destruct (conf =? "")%string.
Qed.

Lemma acl_first so h i conf s1 s2 : started dl json_null read_json so h i conf s1 s2 -> acl_fine so (h, i, conf) s2.
Proof.
  intros Hst Hlib. destruct (library_started so _ s1 h i conf s2 Hlib Hst) as [Hstart Hup].
  destruct (fresh_starts e Haccept make_address_v4 mac_init json_null krules vips pool lomac (SAcl newAcl))
    as (s' & Hs & _ & _ & _ & Hacl & _); [by left |].
  pose proof (eq_trans (eq_sym Hs) Hstart) as [= <-]. destruct (Hacl _ eq_refl) as (a & -> & Hupa & Hm). cbn [snd].
  destruct (String.eqb_spec conf "") as [-> | Hconf].
  - subst s2. exists a, krules. do 4 (split; [done |]). by intros [].
  - destruct (acl_updated h i conf a krules s2 Hupa Hm eq_refl Hup) as (a' & table' & ? & ? & ? & ? & Hf).
    exists a', table'. do 4 (split; [done |]). by intros _.
Qed.

Lemma lb_first so h i conf s1 s2 : started dl json_null read_json so h i conf s1 s2 -> lb_fine so (h, i, conf) s2.
Proof.
  intros Hst Hlib. destruct (library_started so _ s1 h i conf s2 Hlib Hst) as [Hstart Hup].
  destruct (fresh_starts e Haccept make_address_v4 mac_init json_null krules vips pool lomac (SLb newLb))
    as (s' & Hs & _ & _ & _ & _ & Hlb); [by auto |].
  pose proof (eq_trans (eq_sym Hs) Hstart) as [= <-]. destruct (Hlb _ eq_refl) as (b & -> & Hupb & Hm). cbn [snd].
  destruct (String.eqb_spec conf "") as [-> | Hconf].
  - subst s2. exists b, vips, pool, lomac. do 4 (split; [done |]). by intros [].
  - destruct (lb_updated h i conf b vips pool lomac s2 Hupb Hm eq_refl Hup) as (b' & g' & p' & m' & ? & ? & ? & ? & Hf).
    exists b', g', p', m'. do 4 (split; [done |]). by intros _.
Qed.

Lemma objects_fine : object_claim dl json_null read_json object_fine.
Proof.
  split.
  - intros so h i conf s1 s2 Hload Hst. split; [| split; [by eapply acl_first | by eapply lb_first]].
    intros Hsched. exists s1. destruct (ld_path _ _ _ _ _ _ _ Hload) as [[_ ->] | [Hplain _]]; [exact Hst | congruence].
  - intros so h i conf conf' o o' (Hsc & Hacl & Hlb) Hload Hconf Hup. split; [| split].
    + intros Hsched. destruct (ld_path _ _ _ _ _ _ _ Hload) as [[_ ?] | [Hplain _]]; congruence.
    + intros Hlib. destruct (Hacl Hlib) as (a & table & -> & Hupa & Hm & Hcap & _).
      destruct (acl_updated h i conf' a table o' Hupa Hm Hcap Hup) as (a' & table' & ? & ? & ? & ? & Hf).
      exists a', table'. do 4 (split; [done |]). by intros _.
    + intros Hlib. destruct (Hlb Hlib) as (b & g & p & m & -> & Hupb & Hm & Hcap & _).
      destruct (lb_updated h i conf' b g p m o' Hupb Hm Hcap Hup) as (b' & g' & p' & m' & ? & ? & ? & ? & Hf).
      exists b', g', p', m'. do 4 (split; [done |]). by intros _.
  - intros so h i conf o (Hsc & Hacl & Hlb). split; [exact Hsc | split]; intros Hlib.
    + destruct (Hacl Hlib) as (a & table & ? & ? & ? & ? & _). exists a, table. do 4 (split; [done |]). by intros [].
    + destruct (Hlb Hlib) as (b & g & p & m & ? & ? & ? & ? & _). exists b, g, p, m. do 4 (split; [done |]). by intros [].
Qed.

(** ** The rules after reconfigurations *)

Context (nic : HookType -> Z) (hmaps : HookType -> HookMaps) (p0 : PinnedProgMap).

Abbreviation reconfigurations := (configurations prog_id prog_of_fd dl json_null read_json std_sort nic hmaps p0).
Abbreviation daemon_runs := (running_as prog_id dl json_null read_json std_sort nic hmaps p0 object_fine).

(** the scheduler the daemon has loaded for a hook *)
Lemma scheduler_of_hook h (base : EbpfMap) (d : Daemon machine) x c :
  h = XDP_GENERIC -> dl SCHEDULER_XDP_LIB = Service create_scheduler_xdp ->
  0 < nic h -> plain_keys base -> daemon_ok base d -> objects_ok object_fine (loader_ d) ->
  base !! x = Some c -> ConfigEbpf.getHook c = h ->
  entry_fine prog_id prog_of_fd dl json_null read_json nic hmaps p0 c ->
  exists os fd, getService (scheduler_so h (nic h)) (loader_ d) = Some (SScheduler os) /\
    NetHook.attached_scheduler (Services.base os) fd (nic h) /\ prog_id <$> prog_of_fd fd = Some (sched p0 h).
Proof.
  intros -> Hdl Hnic Hplain Hd Hq Hx Hh (_ & Hi & _ & _ & (fd & Hprog)). rewrite Hh in Hi, Hprog.
  assert (Hws : with_schedulers base !! scheduler_id XDP_GENERIC (nic XDP_GENERIC) = Some (scheduler_entry XDP_GENERIC (nic XDP_GENERIC))).
  { apply with_schedulers_spec. right. split.
    - apply eq_None_not_Some. intros [c2 Hc2]. apply Hplain in Hc2. by rewrite scheduler_id_semicolon in Hc2.
    - eexists _, _. split; [by exists x, c | done]. }
  destruct (Hq _ _ (dk_loaded _ _ Hd _ _ Hws)) as (o & Ho & Hsc & _). unfold scheduler_fine in Hsc.
  assert (Hreal : real_path (scheduler_so XDP_GENERIC (nic XDP_GENERIC)) = SCHEDULER_XDP_LIB).
  { unfold real_path, scheduler_so. rewrite bool_decide_eq_false_2 by done. change (";" +:+ ?s) with (String ";" s).
    by rewrite before_last_app by apply scheduler_suffix_no_semicolon. }
  change (ConfigEbpf.getLib (scheduler_entry XDP_GENERIC (nic XDP_GENERIC))) with (scheduler_so XDP_GENERIC (nic XDP_GENERIC)) in *.
  destruct Hsc as [s1 Hst]; [by rewrite Hreal |].
  destruct Hprog as [(info & q & _ & _ & _ & Hfd & Hq' & Hid) (t1 & t2 & Hst' & _ & Hmain)].
  destruct (started_fun dl json_null read_json _ _ _ _ _ _ _ _ Hst Hst') as [<- <-].
  destruct (scheduler_loaded XDP_GENERIC (nic XDP_GENERIC) fd s1 o) as (os & -> & Hatt); try done.
  { by rewrite Hreal. }
  { by rewrite Hreal. }
  exists os, fd. split; [exact Ho |]. split; [exact Hatt |]. cbn [snd] in Hq'. by rewrite Hq', <- Hid.
Qed.

(** what both theorems below start from: the daemon after the updates, with the
    generic XDP hook in use *)
Definition xdp_state (final : EbpfMap) (d : Daemon machine) (cs : list ConfigEbpf.t) (m : M) (a : A) : Prop :=
  daemon_ok final d /\ objects_ok object_fine (loader_ d) /\ config_ok (li_loadable (L := machine)) final /\
  (exists k, snd <$> chain_mgr_ (loader_ d) = Some k /\
    hashes k !! id_hash_fd (hmaps XDP_GENERIC) = Some m /\ arrays k !! prog_array_fd (hmaps XDP_GENERIC) = Some a) /\
  (exists os fd, getService (scheduler_so XDP_GENERIC (nic XDP_GENERIC)) (loader_ d) = Some (SScheduler os) /\
    NetHook.attached_scheduler (Services.base os) fd (nic XDP_GENERIC) /\ prog_id <$> prog_of_fd fd = Some (sched p0 XDP_GENERIC)) /\
  cs ≡ₚ hook_entries XDP_GENERIC final /\ Sorted by_order cs /\
  forall (body : Z -> program) data,
    run_packet prog_id body MAX_TAIL_CALL_CNT m a (nic XDP_GENERIC) (sched p0 XDP_GENERIC) data =
      process body (sched p0 XDP_GENERIC) (own_program p0 <$> cs) data.

Abbreviation fitting := (chains_fit prog_id prog_of_fd dl json_null read_json std_sort nic hmaps p0).

Lemma xdp_running (final : EbpfMap) (d : Daemon machine) (k : Kernel M A) x c :
  manager_ok nic hmaps p0 -> config_ok (li_loadable (L := machine)) final -> fitting final -> daemon_runs final d k ->
  prepared hmaps p0 XDP_GENERIC -> dl SCHEDULER_XDP_LIB = Service create_scheduler_xdp ->
  final !! x = Some c -> ConfigEbpf.getHook c = XDP_GENERIC ->
  exists cs m a, xdp_state final d cs m a.
Proof.
  intros Hman Hok Hfit [Hdk (R & HR & _) Hchains Hq Hfree] Hprep Hsched Hx Hh.
  pose proof (cf_entries _ _ _ _ _ _ _ _ _ _ Hfit x c Hx) as Hentry.
  destruct (scheduler_of_hook XDP_GENERIC final d x c eq_refl Hsched) as (os & fd & Hos & Hatt & Hfd); try done.
  { by apply (mo_nic _ _ _ Hman). }
  { apply Hok. }
  destruct (packets_followed prog_id prog_of_fd dl json_null read_json std_sort std_sort_perm std_sort_sorted nic hmaps p0
              final k XDP_GENERIC Hman Hfit Hchains Hprep) as (m & a & cs & Hm & Ha & Hcs & Hsorted & Hrun).
  { intros Hnil. by apply (proj1 (ids_nil std_sort std_sort_perm std_sort_sorted nic p0 XDP_GENERIC final) Hnil x c). }
  { by apply Hfree. }
  exists cs, m, a. do 3 (split; [done |]).
  split; [exists k; by rewrite HR |]. split; [by exists os, fd | done].
Qed.

Lemma xdp_after_updates (base : EbpfMap) (l : list Configs.t) (d : Daemon machine) (k : Kernel M A) x c :
  manager_ok nic hmaps p0 -> config_ok (li_loadable (L := machine)) base -> fitting base ->
  reconfigurations base l -> daemon_runs base d k -> prepared hmaps p0 XDP_GENERIC ->
  dl SCHEDULER_XDP_LIB = Service create_scheduler_xdp ->
  final_table base l !! x = Some c -> ConfigEbpf.getHook c = XDP_GENERIC ->
  exists d' cs m a, updates dl json_null read_json std_sort l d = (Ok tt, d') /\ xdp_state (final_table base l) d' cs m a.
Proof.
  intros Hman Hbase Hfit Hl Hd Hprep Hsched Hx Hh.
  destruct (updates_run prog_id prog_of_fd dl json_null read_json std_sort std_sort_perm std_sort_sorted nic hmaps p0
              object_fine l base d k objects_fine Hman Hbase Hfit Hl Hd) as (d' & k' & Hups & Hd' & Hfit' & Hok').
  destruct (xdp_running _ d' k' x c Hman Hok' Hfit' Hd' Hprep Hsched Hx Hh) as (cs & m & a & Hstate).
  by exists d', cs, m, a.
Qed.

(** the object of a configured entry *)
Lemma object_of_entry final (d : Daemon machine) x c :
  daemon_ok final d -> objects_ok object_fine (loader_ d) -> final !! x = Some c ->
  exists o, getService (ConfigEbpf.getLib c) (loader_ d) = Some o /\ object_fine (ConfigEbpf.getLib c) (entry_view c) o.
Proof.
  intros Hd Hq Hx. apply Hq, (dk_loaded _ _ Hd x), with_schedulers_spec. by left.
Qed.

Lemma acl_is_service so h i conf : acl_library dl so h i conf -> service_library so (SAcl newAcl).
Proof. intros Hacl. split; [apply Hacl | split; apply Hacl]. Qed.

(** C2: The rules stay in force. A daemon is told a sequence of
    configurations, under the conditions of [updates_reach_packets] (per hook
    one interface, the one of its first region; libraries loadable and used
    once; chains not getting shorter); the last one has the ACL in front of
    the other programs of the generic XDP hook, with a rule file that decodes,
    fits the table and stays as it is. Whatever happened in between (the ACL
    loaded late, unloaded and loaded again, or given another file), for every
    IPv4 frame that enters the hook's interface: a TCP or UDP packet is
    dropped exactly when the rules of the file the last configuration names
    deny it, and handed to the later programs otherwise; a frame without one
    (ICMP, too short) passes, past the later programs. What rules deny is said
    by [Policy], independently of the code, which departs from it only in
    taking UDP packets with twelve or more bytes of payload, and TCP packets
    without a complete header, for packets from port 0 to port 0. *)
Theorem acl_enforced_after_updates (base : EbpfMap) (l : list Configs.t) (d : Daemon machine) (k : Kernel M A)
  (x : string) (c : ConfigEbpf.t) (rs : list AclRulesElem.t)
  (Hman : manager_ok nic hmaps p0) (Hbase : config_ok (li_loadable (L := machine)) base)
  (Hfit : chains_fit prog_id prog_of_fd dl json_null read_json std_sort nic hmaps p0 base)
  (Hl : reconfigurations base l) (Hd : daemon_runs base d k) (Hprep : prepared hmaps p0 XDP_GENERIC)
  (Hx : final_table base l !! x = Some c) (Hh : ConfigEbpf.getHook c = XDP_GENERIC)
  (Hlead : forall x' c', final_table base l !! x' = Some c' -> ConfigEbpf.getHook c' = XDP_GENERIC -> x' <> x ->
     ConfigEbpf.getOrder c < ConfigEbpf.getOrder c')
  (Hacl : acl_library dl (ConfigEbpf.getLib c) XDP_GENERIC (nic XDP_GENERIC) (ConfigEbpf.getConfig c))
  (Hfile : acl_file krules read_json (ConfigEbpf.getConfig c) rs)
  (Hsched : dl SCHEDULER_XDP_LIB = Service create_scheduler_xdp) :
  exists d' o table os fd k' m a rest, updates dl json_null read_json std_sort l d = (Ok tt, d') /\
    daemon_ok (final_table base l) d' /\
    getService (ConfigEbpf.getLib c) (loader_ d') = Some (SAcl o) /\ Services.maps o = Some table /\
    getService (scheduler_so XDP_GENERIC (nic XDP_GENERIC)) (loader_ d') = Some (SScheduler os) /\
    NetHook.attached_scheduler (Services.base os) fd (nic XDP_GENERIC) /\ prog_id <$> prog_of_fd fd = Some (sched p0 XDP_GENERIC) /\
    snd <$> chain_mgr_ (loader_ d') = Some k' /\
    hashes k' !! id_hash_fd (hmaps XDP_GENERIC) = Some m /\ arrays k' !! prog_array_fd (hmaps XDP_GENERIC) = Some a /\
    c :: rest ≡ₚ hook_entries XDP_GENERIC (final_table base l) /\
    forall (body : Z -> program) data,
      body (sched p0 XDP_GENERIC) = hebpf_scheduler_xdp_gen ->
      body (own_program p0 c) = (fun data => (hebpf_acl_xdp_generic table data, data)) ->
      Policy.ipv4_frame data ->
      run_packet prog_id body MAX_TAIL_CALL_CNT m a (nic XDP_GENERIC) (sched p0 XDP_GENERIC) data =
        match Policy.seen data with
        | None => (XDP_PASS, data)
        | Some pkt =>
            if Policy.denied rs pkt then (XDP_DROP, data)
            else match own_program p0 <$> rest with
                 | [] => (XDP_PASS, data)
                 | next :: later => process body next later data
                 end
        end.
Proof.
  destruct (xdp_after_updates base l d k x c Hman Hbase Hfit Hl Hd Hprep Hsched Hx Hh)
    as (d' & cs & m & a & Hups & Hdk & Hq & _ & (k' & HR & Hm & Ha) & (os & fd & Hos & Hatt & Hfd) & Hcs & Hsorted & Hrun).
  assert (Hc : c ∈ hook_entries XDP_GENERIC (final_table base l)) by (apply hook_entries_elem; eauto).
  destruct (leading_of_sorted c cs) as (rest & ->); [by rewrite Hcs | | done |].
  { intros c' Hc'. rewrite Hcs in Hc'. apply hook_entries_elem in Hc' as [Hh' [x' Hx']].
    destruct (decide (x' = x)) as [-> | Hne]; [left; congruence | right; by apply (Hlead x')]. }
  destruct (object_of_entry _ d' x c Hdk Hq Hx) as (o & Ho & _ & Hof & _).
  destruct (Hof (acl_is_service _ _ _ _ Hacl)) as (ao & table & -> & _ & Hmaps & _ & Hfilters).
  exists d', ao, table, os, fd, k', m, a, rest. do 11 (split; [done |]).
  intros body data Hbs Hbc Hframe. rewrite Hrun. cbn [fmap list_fmap process]. rewrite Hbs.
  unfold hebpf_scheduler_xdp_gen.
  destruct (Hfilters (al_conf _ _ _ _ _ Hacl) rs Hfile) as [Hacts _].
  destruct (own_program p0 <$> rest); cbn [process]; rewrite Hbc; cbv beta; rewrite (Hacts data Hframe);
    (destruct (Policy.seen data) as [pkt |]; [by destruct (Policy.denied rs pkt) | done]).
Qed.

(** the two entries of a hook *)
Lemma two_hook_entries h (base : EbpfMap) x c y c' :
  base !! x = Some c -> base !! y = Some c' -> x <> y -> ConfigEbpf.getHook c = h -> ConfigEbpf.getHook c' = h ->
  (forall z ce, base !! z = Some ce -> ConfigEbpf.getHook ce = h -> z = x \/ z = y) -> hook_entries h base ≡ₚ [c; c'].
Proof.
  intros Hx Hy Hne Hh Hh' Honly.
  assert (Hpairs : hook_entries h base = (filter (fun kc => ConfigEbpf.getHook kc.2 = h) (uiter base)).*2).
  { unfold hook_entries. induction (uiter base) as [| [z ce] es IH]; [done |]. rewrite fmap_cons, !filter_cons. cbn [snd].
    case_decide; [by rewrite fmap_cons, IH | done]. }
  rewrite Hpairs. change [c; c'] with ([(x, c); (y, c')].*2). apply Permutation_map, NoDup_Permutation.
  - apply NoDup_filter. rewrite uiter_perm. apply NoDup_map_to_list.
  - apply NoDup_cons. split; [| apply NoDup_singleton]. rewrite list_elem_of_singleton. congruence.
  - intros [z ce]. rewrite list_elem_of_filter, uiter_perm, elem_of_map_to_list, elem_of_cons, list_elem_of_singleton. cbn [snd]. split.
    + intros [He Hz]. destruct (Honly z ce Hz He) as [-> | ->]; [left | right]; congruence.
    + intros [[= -> ->] | [= -> ->]]; done.
Qed.

(** the table has the ACL and the load balancer, in this order, on the generic
    XDP hook, with files whose rules there is room for *)
Record firewall_table (final : EbpfMap) (c cl : ConfigEbpf.t) (rs : list AclRulesElem.t) (lb_rules : list LbRulesElem.t) : Prop := {
  ft_entries : exists x y, final !! x = Some c /\ final !! y = Some cl /\
    forall z ce, final !! z = Some ce -> ConfigEbpf.getHook ce = XDP_GENERIC -> z = x \/ z = y;
  ft_acl_hook : ConfigEbpf.getHook c = XDP_GENERIC;
  ft_lb_hook : ConfigEbpf.getHook cl = XDP_GENERIC;
  ft_order : ConfigEbpf.getOrder c < ConfigEbpf.getOrder cl;
  ft_acl : acl_library dl (ConfigEbpf.getLib c) XDP_GENERIC (nic XDP_GENERIC) (ConfigEbpf.getConfig c);
  ft_acl_file : acl_file krules read_json (ConfigEbpf.getConfig c) rs;
  ft_lb : service_library (ConfigEbpf.getLib cl) (SLb newLb);
  ft_lb_config : ConfigEbpf.getConfig cl <> "";
  ft_lb_file : lb_file (ConfigEbpf.getConfig cl) lb_rules
}.

(** the rules of both files decide about the packets: the daemon [d] has both
    objects loaded, and with the kernel programs over their tables, the chain
    drops the TCP and UDP packets the rules [rs] deny, sends the others that
    are for a virtual address to the backend their source address selects, and
    passes the other IPv4 frames *)
Definition files_decide (d : Daemon machine) (c cl : ConfigEbpf.t) (rs : list AclRulesElem.t) (lb_rules : list LbRulesElem.t) : Prop :=
  exists o table b groups backends mac k m a,
    getService (ConfigEbpf.getLib c) (loader_ d) = Some (SAcl o) /\ Services.maps o = Some table /\
    getService (ConfigEbpf.getLib cl) (loader_ d) = Some (SLb b) /\
    Services.maps b = mkLbSkel (Some groups) (Some backends) (Some mac) /\
    snd <$> chain_mgr_ (loader_ d) = Some k /\
    hashes k !! id_hash_fd (hmaps XDP_GENERIC) = Some m /\ arrays k !! prog_array_fd (hmaps XDP_GENERIC) = Some a /\
    forall (body : Z -> program) data,
      body (sched p0 XDP_GENERIC) = hebpf_scheduler_xdp_gen ->
      body (own_program p0 c) = (fun data => (hebpf_acl_xdp_generic table data, data)) ->
      body (own_program p0 cl) = hebpf_lb_xdp_gen groups backends mac ->
      Policy.ipv4_frame data ->
      let fate := run_packet prog_id body MAX_TAIL_CALL_CNT m a (nic XDP_GENERIC) (sched p0 XDP_GENERIC) data in
      match Policy.seen data with
      | None => fate = (XDP_PASS, data)
      | Some pkt =>
          if Policy.denied rs pkt then fate = (XDP_DROP, data)
          else forall r vk, r ∈ lb_rules -> rule_key make_address_v4 r = Some vk -> rule_backends r <> [] -> packet_for data vk ->
            exists be, rule_backends r !! Z.to_nat (ip_saddr data mod Z.of_nat (length (rule_backends r))) = Some be /\
              fate = (XDP_TX, rewrite_macs mac (backend_entry be) data)
      end.

Lemma firewall_decides (final : EbpfMap) (d : Daemon machine) (cs : list ConfigEbpf.t) (m : M) (a : A)
  (c cl : ConfigEbpf.t) (rs : list AclRulesElem.t) (lb_rules : list LbRulesElem.t) :
  xdp_state final d cs m a -> firewall_table final c cl rs lb_rules -> files_decide d c cl rs lb_rules.
Proof.
  intros (Hdk & Hq & _ & (k & HR & Hm & Ha) & _ & Hcs & Hsorted & Hrun)
    [(x & y & Hx & Hy & Honly) Hh Hh' Horder Hacl Hfile Hlb Hlbconf Hlbfile].
  assert (Hne : x <> y) by (intros ->; assert (c = cl) as -> by congruence; lia).
  rewrite (two_hook_entries XDP_GENERIC _ x c y cl Hx Hy Hne Hh Hh' Honly) in Hcs.
  destruct (leading_of_sorted c cs) as (rest & ->); [rewrite Hcs; left | | done |].
  { intros c' Hc'. rewrite Hcs in Hc'. apply elem_of_cons in Hc' as [-> | Hc'%list_elem_of_singleton]; [by left | right; by subst]. }
  apply Permutation_cons_inv, Permutation_singleton_r in Hcs as ->.
  destruct (object_of_entry _ d x c Hdk Hq Hx) as (o & Ho & _ & Hof & _).
  destruct (Hof (acl_is_service _ _ _ _ Hacl)) as (ao & table & -> & _ & Hmaps & _ & Hfilters).
  destruct (object_of_entry _ d y cl Hdk Hq Hy) as (ol & Hol & _ & _ & Hlf).
  destruct (Hlf Hlb) as (b & groups & backends & mac & -> & _ & Hbmaps & _ & Hbalances).
  exists ao, table, b, groups, backends, mac, k, m, a. do 7 (split; [done |]).
  intros body data Hbs Hbc Hbl Hframe. cbv zeta. rewrite Hrun. cbn [fmap list_fmap process]. rewrite Hbs.
  unfold hebpf_scheduler_xdp_gen. cbn [process]. rewrite Hbc. cbv beta.
  rewrite (proj1 (Hfilters (al_conf _ _ _ _ _ Hacl) rs Hfile) data Hframe).
  destruct (Policy.seen data) as [pkt |]; [| done]. destruct (Policy.denied rs pkt); [done |]. intros r vk Hr Hk Hbe Hpkt. cbn [process]. rewrite Hbl.
  destruct (Hbalances Hlbconf lb_rules Hlbfile r vk data Hr Hk Hbe Hpkt) as (be & Hsel & Hgo).
  exists be. split; [exact Hsel |]. by rewrite Hgo.
Qed.

(** The firewall in front of the balancer, through the daemon.  When the last
    configuration has the ACL and the load balancer, in this order, on the
    generic XDP hook, then after any sequence of updates that leads to it the
    two rule files decide about every TCP or UDP packet that enters the
    interface: what the ACL's rules deny is dropped; everything else that is
    for a virtual address is sent out again towards the backend its source
    address selects, with rewritten MAC addresses.  Other IPv4 frames pass. *)
Theorem files_decide_after_updates (base : EbpfMap) (l : list Configs.t) (d : Daemon machine) (k : Kernel M A)
  (c cl : ConfigEbpf.t) (rs : list AclRulesElem.t) (lb_rules : list LbRulesElem.t)
  (Hman : manager_ok nic hmaps p0) (Hbase : config_ok (li_loadable (L := machine)) base) (Hfit : fitting base)
  (Hl : reconfigurations base l) (Hd : daemon_runs base d k) (Hprep : prepared hmaps p0 XDP_GENERIC)
  (Hsched : dl SCHEDULER_XDP_LIB = Service create_scheduler_xdp)
  (Hfinal : firewall_table (final_table base l) c cl rs lb_rules) :
  exists d', updates dl json_null read_json std_sort l d = (Ok tt, d') /\ daemon_ok (final_table base l) d' /\
    files_decide d' c cl rs lb_rules.
Proof.
  destruct (ft_entries _ _ _ _ _ Hfinal) as (x & _ & Hx & _).
  destruct (xdp_after_updates base l d k x c Hman Hbase Hfit Hl Hd Hprep Hsched Hx (ft_acl_hook _ _ _ _ _ Hfinal))
    as (d' & cs & m & a & Hups & Hstate).
  exists d'. split; [exact Hups |]. split; [apply Hstate |]. by eapply firewall_decides.
Qed.

End Firewall.

(** ** A concrete firewall *)

Module Sample.

Import ProgMap.Sample.
#[local] Existing Instance release_build.
#[local] Existing Instance System.Sample.order_string.
#[local] Existing Instance System.Sample.order_Z.
#[local] Existing Instance System.Sample.order_hook.
#[local] Existing Instance array_ops.
#[local] Existing Instance array_laws.
#[local] Existing Instance Loader.Sample.watcher_if.
#[local] Existing Instance Loader.Sample.watcher_laws.
#[local] Existing Instance Lb.Sample.pool_ops.
#[local] Existing Instance Lb.Sample.pool_laws.
#[local] Existing Instance Lb.Sample.mac_ops.
#[local] Existing Instance System.Sample.before_dec.
#[local] Existing Instance System.Sample.before_total.

Abbreviation K := (RefHash.t ipv4_tuple Z).
Abbreviation V := (RefHash.t vip_key vip_group).
Abbreviation B := (RefArrayMap.t backend_info).
Abbreviation L := (RefArrayMap.t (list Z)).
Abbreviation machine := (Loader (service K V B L) Loader.Sample.watchers (chain (M := RefHash.t Z Z) (A := gmap Z Z))).

(** the configuration of the module Sample of System: the ACL has number 1 and
    the load balancer number 2 *)
Abbreviation base := System.Sample.base.
Abbreviation config := System.Sample.config.
Abbreviation no_regions := System.Sample.no_regions.

Definition dl (path : string) : library (service K V B L) :=
  if (path =? System.Sample.acl_lib)%string then Service create_acl_xdp
  else if (path =? System.Sample.lb_lib)%string then Service (SLb newLb)
  else Service create_scheduler_xdp.
(** one ACL file drops a connection, the other lets it pass *)
Definition read_json (path : string) : RefJson.t :=
  if (path =? "/etc/acl2.json")%string then Services.Sample.after path
  else if (path =? "/etc/lb.json")%string then Lb.Sample.config [Lb.Sample.rb]
  else Acl.Sample.config.
Definition null : RefJson.t := jstring "".

#[local] Instance objects : EbpfIf (service K V B L) RefJson.t :=
  all_services Services.Sample.willing Lb.Sample.parse_v4 Lb.Sample.garbage null Acl.Sample.table Lb.Sample.vips
    Lb.Sample.pool Lb.Sample.lomac.
#[local] Instance object_laws : EbpfLaws (service K V B L) RefJson.t :=
  all_laws Services.Sample.willing Lb.Sample.parse_v4 Lb.Sample.garbage null Acl.Sample.table Lb.Sample.vips
    Lb.Sample.pool Lb.Sample.lomac.
#[local] Instance ops : LoaderIf machine (service K V B L) := the_loader dl null read_json.
#[local] Instance laws : LoaderLaws machine (service K V B L) := the_loader_laws dl null read_json.

Definition fresh : Daemon machine :=
  mkDaemon (mkLoader ∅ true (Some ∅) (Some (no_regions, kernel ∅)) []) true ∅ false false.

(** the started objects, in full *)
Definition run_start (s : service K V B L) : service K V B L := (Loader.start true s).2.

Lemma starts (s : service K V B L) :
  s = SAcl newAcl \/ s = SLb newLb \/ s = SScheduler newBare \/ s = SHello newBare ->
  Loader.start true s = (Ok true, run_start s) /\ serves (run_start s).
Proof.
  intros Hs. destruct (fresh_starts Services.Sample.willing Services.Sample.willing_ok Lb.Sample.parse_v4 Lb.Sample.garbage null
    Acl.Sample.table Lb.Sample.vips Lb.Sample.pool Lb.Sample.lomac s Hs) as (s' & Hst & _ & Hserv & _).
  assert (Hst' : Loader.start true s = (Ok true, s')) by exact Hst. unfold run_start. by rewrite Hst'.
Qed.

Lemma fw_scheduler_here : loadable dl null read_json (scheduler_so XDP_GENERIC 2) XDP_GENERIC 2 "".
Proof.
  split; [done | done | done | |].
  - exists (SScheduler newBare). split; [vm_compute; reflexivity |]. exists (run_start (SScheduler newBare)).
    destruct (starts (SScheduler newBare)) as [H1 H2]; [by auto |]. by split_and!.
  - left. split; vm_compute; reflexivity.
Qed.

Lemma acl_decodes path : path <> "/etc/lb.json" -> exists acl, AclRules.from_json (read_json path) AclRules.default = Ok acl.
Proof.
  intros Hp%String.eqb_neq. unfold read_json. rewrite Hp. destruct (path =? "/etc/acl2.json")%string; eexists; vm_compute; reflexivity.
Qed.

Lemma lb_decodes : exists lb, LbRules.from_json (read_json "/etc/lb.json") LbRules.default = Ok lb.
Proof. eexists. vm_compute. reflexivity. Qed.

Lemma fw_config_fine : config_ok (li_loadable (L := machine)) (Configs.getEbpfs config).
Proof.
  change (Configs.getEbpfs config) with base. split; [split |].
  - intros x c [[-> ->] | [-> ->]]%System.Sample.base_entry; reflexivity.
  - intros x c [[-> ->] | [-> ->]]%System.Sample.base_entry; reflexivity.
  - intros x c [[-> ->] | [-> ->]]%System.Sample.base_entry; done.
  - intros x c [[-> ->] | [-> ->]]%System.Sample.base_entry; (split; [| exact fw_scheduler_here]); split; try done.
    + exists (SLb newLb). split; [vm_compute; reflexivity |]. exists (run_start (SLb newLb)).
      destruct (starts (SLb newLb)) as [H1 H2]; [by auto |]. split_and!; [exact H1 | done | exact H2 | by intros [| [=]]].
    + right. split; vm_compute; reflexivity.
    + exists (SAcl newAcl). split; [vm_compute; reflexivity |]. exists (run_start (SAcl newAcl)).
      destruct (starts (SAcl newAcl)) as [H1 H2]; [by auto |].
      split_and!; [exact H1 | done | exact H2 | intros _; by apply acl_decodes].
    + right. split; vm_compute; reflexivity.
  - intros x1 x2 c1 c2 [[-> ->] | [-> ->]]%System.Sample.base_entry [[-> ->] | [-> ->]]%System.Sample.base_entry; done.
Qed.

Lemma fw_fresh_fine : daemon_ok ∅ fresh.
Proof.
  split.
  - split; [by exists ∅ | by eexists | done | apply map_Forall_empty].
  - vm_compute. reflexivity.
  - intros x c Hx. apply with_schedulers_spec in Hx as [Hx | (_ & h & i & (x' & c' & Hx' & _) & _)]; by rewrite lookup_empty in *.
  - intros x _ [v Hv]. discriminate Hv.
  - intros x v _ Hv. discriminate Hv.
Qed.

(** the program of a library, read off its started object *)
Lemma fw_program_of so conf s s2 name fd d :
  dl (real_path so) = Service s -> s = SAcl newAcl \/ s = SLb newLb \/ s = SScheduler newBare \/ s = SHello newBare ->
  (if is_scheduler_lib (real_path so) || negb (conf =? "")%string
   then onConfigUpdate XDP_GENERIC 2 (first_config null read_json so conf) (run_start s) = (Ok tt, s2) else s2 = run_start s) ->
  getCanonicalName XDP_GENERIC PROGRAM (getName (run_start s)) = Ok name -> Loader.getMainProgFd s2 = fd ->
  insertion Datatypes.id prog_of_fd XDP_GENERIC no_regions (name, fd) d ->
  insertion Datatypes.id prog_of_fd XDP_GENERIC no_regions (name, fd) d /\
  exists s1 s2, started dl null read_json so XDP_GENERIC 2 conf s1 s2 /\
    getCanonicalName XDP_GENERIC PROGRAM (getName s1) = Ok (name, fd).1 /\ Loader.getMainProgFd s2 = (name, fd).2.
Proof.
  intros Hdl Hs Hup Hname Hfd Hins. split; [exact Hins |]. exists (run_start s), s2. split; [| by split].
  split; [| exact Hup]. exists s. split; [exact Hdl | by apply starts].
Qed.

Lemma inserted name fd info :
  lookupProgInfo name no_regions = Some info -> Names.hook info = XDP_GENERIC -> 100 <= fd -> Names.id info = fd - 100 ->
  insertion Datatypes.id prog_of_fd XDP_GENERIC no_regions (name, fd) (fd - 100).
Proof.
  intros Hreg Hh Hfd Hid. exists info, (fd - 100). cbn [fst snd]. split_and!; try done; [lia |].
  unfold prog_of_fd. by rewrite (proj2 (Z.leb_le _ _) Hfd).
Qed.

Lemma fw_first : first_configuration Datatypes.id prog_of_fd dl null read_json XDP_GENERIC 2 (Configs.getEbpfs config)
  System.Sample.pid 5 no_regions (kernel ∅) maps hash ∅.
Proof.
  change (Configs.getEbpfs config) with base. split; try reflexivity; try done.
  - intros x c [[-> ->] | [-> ->]]%System.Sample.base_entry; done.
  - intros x c [[-> ->] | [-> ->]]%System.Sample.base_entry.
    + exists ("LB_XDP_GENERIC", 107). split; [| vm_compute; reflexivity].
      eapply fw_program_of; [vm_compute; reflexivity | by auto | vm_compute; reflexivity | vm_compute; reflexivity | vm_compute; reflexivity |].
      by eapply (inserted _ 107); [vm_compute; reflexivity | ..].
    + exists ("ACL_XDP_GENERIC", 103). split; [| vm_compute; reflexivity].
      eapply fw_program_of; [vm_compute; reflexivity | by auto | vm_compute; reflexivity | vm_compute; reflexivity | vm_compute; reflexivity |].
      by eapply (inserted _ 103); [vm_compute; reflexivity | ..].
  - exists 105. eapply fw_program_of; [vm_compute; reflexivity | by auto | vm_compute; reflexivity | vm_compute; reflexivity | vm_compute; reflexivity |].
    by eapply (inserted _ 105); [vm_compute; reflexivity | ..].
  - refine (bool_decide_unpack _ _). vm_compute. exact Logic.I.
  - exact registry_ok.
  - vm_compute. lia.
Qed.

Lemma acl_leads x c : base !! x = Some c -> x <> "b" -> ConfigEbpf.getOrder System.Sample.acl < ConfigEbpf.getOrder c.
Proof. by intros [[-> ->] | [-> ->]]%System.Sample.base_entry. Qed.

(** the kernel's programs: the scheduler and the ACL with its table *)
Definition programs (krules : K) (id : Z) : program :=
  if id =? 3 then fun data => (hebpf_acl_xdp_generic krules data, data) else hebpf_scheduler_xdp_gen.

Lemma nic_enforces_acl_file_witness :
  exists d' krules m' (a' : gmap Z Z), update System.Sample.sort config fresh = (Ok tt, d') /\
    run_packet Datatypes.id (programs krules) MAX_TAIL_CALL_CNT (m' : RefHash.t Z Z) a' 2 5 Acl.Sample.tcp_to_80
      = (XDP_DROP, Acl.Sample.tcp_to_80).
Proof.
  destruct (nic_enforces_acl_file Datatypes.id prog_of_fd Services.Sample.willing Services.Sample.willing_ok
              Lb.Sample.parse_v4 Lb.Sample.garbage null Acl.Sample.table Lb.Sample.vips Lb.Sample.pool Lb.Sample.lomac
              dl read_json System.Sample.sort (merge_sort_Permutation System.Sample.before)
              (Sorted_merge_sort System.Sample.before)
              config fresh 2 System.Sample.pid 5 no_regions (kernel ∅) maps hash ∅
              "b" System.Sample.acl [Acl.Sample.rule; Acl.Sample.bad]
              fw_config_fine fw_fresh_fine eq_refl eq_refl fw_first)
    as (d' & o & krules & os & fd & k' & m' & a' & rest & Hup & _ & _ & _ & _ & _ & _ & _ & _ & _ & _ & Hrun).
  - reflexivity.
  - exact acl_leads.
  - split; try reflexivity; discriminate.
  - split; [vm_compute; reflexivity | vm_compute; lia | vm_compute; discriminate].
  - reflexivity.
  - exists d', krules, m', a'. split; [exact Hup |].
    rewrite (Hrun (programs krules) Acl.Sample.tcp_to_80 eq_refl eq_refl Acl.Sample.tcp_frame).
    vm_compute. reflexivity.
Defined.

(** *** The same firewall through three updates *)

Import Reconfig.Sample.

Lemma fw_loads c : acl_or_lb c -> li_loadable (L := machine) (ConfigEbpf.getLib c) XDP_GENERIC 2 (ConfigEbpf.getConfig c).
Proof.
  intros [conf order Hconf | conf order Hconf]; split; try done.
  - exists (SAcl newAcl). split; [vm_compute; reflexivity |]. exists (run_start (SAcl newAcl)).
    destruct (starts (SAcl newAcl)) as [H1 H2]; [by auto |].
    split_and!; [exact H1 | done | exact H2 | intros _; by apply acl_decodes].
  - right. split; vm_compute; reflexivity.
  - exists (SLb newLb). split; [vm_compute; reflexivity |]. exists (run_start (SLb newLb)).
    destruct (starts (SLb newLb)) as [H1 H2]; [by auto |]. split_and!; [exact H1 | done | exact H2 |].
    destruct Hconf as [-> | ->]; [by intros [| [=]] | intros _; exact lb_decodes].
  - right. split; vm_compute; reflexivity.
Qed.

Abbreviation fw_entry := (entry_program Datatypes.id prog_of_fd dl null read_json XDP_GENERIC 2 no_regions).

(** a started ACL takes either file, a started load balancer its own, and their
    programs stay the same *)
Definition configured_run (lib conf : string) (sv s2 : service K V B L) : Prop :=
  if is_scheduler_lib (real_path lib) || negb (conf =? "")%string
  then onConfigUpdate XDP_GENERIC 2 (first_config null read_json lib conf) (run_start sv) = (Ok tt, s2)
  else s2 = run_start sv.

Lemma acl_update_runs conf : conf <> "/etc/lb.json" ->
  exists s2, configured_run System.Sample.acl_lib conf (SAcl newAcl) s2 /\ Loader.getMainProgFd s2 = 103.
Proof.
  intros Hconf%String.eqb_neq. unfold configured_run. change (is_scheduler_lib (real_path System.Sample.acl_lib)) with false.
  change (first_config null read_json System.Sample.acl_lib conf) with (read_json conf). cbn [orb]. unfold read_json. rewrite Hconf.
  destruct (conf =? "")%string; cbn [negb]; [eexists; split; [reflexivity | vm_compute; reflexivity] |].
  destruct (conf =? "/etc/acl2.json")%string; eexists; (split; vm_compute; reflexivity).
Qed.

Lemma lb_update_runs conf : conf = "" \/ conf = "/etc/lb.json" ->
  exists s2, configured_run System.Sample.lb_lib conf (SLb newLb) s2 /\ Loader.getMainProgFd s2 = 107.
Proof. intros [-> | ->]; eexists; (split; vm_compute; reflexivity). Qed.

Lemma fw_programs_fine c : acl_or_lb c -> entry_fine Datatypes.id prog_of_fd dl null read_json nic2 all_maps no_regions c.
Proof.
  assert (Hsched : exists fd, fw_entry (scheduler_entry XDP_GENERIC 2) (scheduler_name XDP_GENERIC, fd) 5).
  { exists 105. eapply fw_program_of; [vm_compute; reflexivity | by auto | vm_compute; reflexivity | vm_compute; reflexivity | vm_compute; reflexivity |].
    by eapply (inserted _ 105); [vm_compute; reflexivity | ..]. }
  intros [conf order Hconf | conf order Hconf];
    (split; [done |]); (split; [done |]); (split; [vm_compute; reflexivity |]); (split; [| exact Hsched]).
  - exists 103. destruct (acl_update_runs conf Hconf) as (s2 & Hup & Hfd).
    eapply fw_program_of; [vm_compute; reflexivity | by auto | exact Hup | vm_compute; reflexivity | exact Hfd |].
    by eapply (inserted _ 103); [vm_compute; reflexivity | ..].
  - exists 107. destruct (lb_update_runs conf Hconf) as (s2 & Hup & Hfd).
    eapply fw_program_of; [vm_compute; reflexivity | by auto | exact Hup | vm_compute; reflexivity | exact Hfd |].
    by eapply (inserted _ 107); [vm_compute; reflexivity | ..].
Qed.

Lemma fw_fits m : map_Forall (fun _ c => acl_or_lb c) m -> ids_fit m ->
  chains_fit Datatypes.id prog_of_fd dl null read_json System.Sample.sort nic2 all_maps no_regions m.
Proof.
  intros Hm [Hnd Hlen]. split.
  - intros x c Hx. by apply fw_programs_fine, (Hm x c).
  - by intros h ->%only_xdp.
  - intros h ->%only_xdp. chain_consts. lia.
Qed.

Lemma fw_story : configurations Datatypes.id prog_of_fd dl null read_json System.Sample.sort nic2 all_maps no_regions ∅ story.
Proof.
  split; [| split; [| split; [| split; [| done]]]].
  - destruct first_step as (? & ? & ?). split; [exact (only_acl_config _ fw_loads fw_scheduler_here) | done | | done | done].
    exact (fw_fits _ only_acl_entries only_acl_ids).
  - destruct second_step as (? & ? & ?). split; [exact (Reconfig.Sample.base_config _ fw_loads fw_scheduler_here) | done | | done | done].
    exact (fw_fits _ base_entries base_ids).
  - destruct third_step as (? & ? & ?). split; [exact (renamed_config _ fw_loads fw_scheduler_here) | done | | done | done].
    exact (fw_fits _ renamed_entries renamed_ids).
  - destruct fourth_step as (? & ? & ?). split; [exact (balanced_config _ fw_loads fw_scheduler_here) | done | | done | done].
    exact (fw_fits _ balanced_entries balanced_ids).
Qed.

Lemma fw_fresh_running : running_as Datatypes.id dl null read_json System.Sample.sort nic2 all_maps no_regions
  (object_fine Services.Sample.willing Lb.Sample.parse_v4 Lb.Sample.garbage null Acl.Sample.table Lb.Sample.vips
     Lb.Sample.pool Lb.Sample.lomac dl read_json) ∅ fresh (kernel ∅).
Proof.
  split.
  - exact fw_fresh_fine.
  - exists ∅. split; [done |]. intros h _. by left.
  - split.
    + intros h ->%only_xdp. split; [exists hash; split; [done |]; split; [done | vm_compute; lia] | by eexists].
    + intros h _ Hne. by destruct Hne.
    + intros h n d ->%only_xdp Hn. by vm_compute in Hn; destruct n.
  - intros so v Hv. discriminate Hv.
  - intros h j _ _. done.
Qed.

Lemma balanced_leads x c : balanced !! x = Some c -> ConfigEbpf.getHook c = XDP_GENERIC -> x <> "b" ->
  ConfigEbpf.getOrder acl2 < ConfigEbpf.getOrder c.
Proof. unfold balanced. intros [[-> ->] | [-> ->]]%pair_entry; done. Qed.

Lemma balanced_only x c : balanced !! x = Some c -> ConfigEbpf.getHook c = XDP_GENERIC -> x = "b" \/ x = "c".
Proof. unfold balanced. intros [[-> ->] | [-> ->]]%pair_entry; auto. Qed.

(** a packet to port 443 of the address, which the second file denies *)
Definition tcp_to_443 : list Z :=
  Acl.Sample.packet 6 ([48; 57; 1; 187] ++ replicate 16 0).

(** what the first file denies passes after the updates, and the other way round *)
Lemma acl_enforced_after_updates_witness :
  exists d' table m (a : gmap Z Z), updates dl null read_json System.Sample.sort story fresh = (Ok tt, d') /\
    (exists o, getService System.Sample.acl_lib (loader_ d') = Some (SAcl o) /\ Services.maps o = Some table) /\
    run_packet Datatypes.id (programs table) MAX_TAIL_CALL_CNT (m : RefHash.t Z Z) a 2 5 tcp_to_443 = (XDP_DROP, tcp_to_443).
Proof.
  destruct (acl_enforced_after_updates Datatypes.id prog_of_fd Services.Sample.willing Services.Sample.willing_ok
              Lb.Sample.parse_v4 Lb.Sample.garbage null Acl.Sample.table Lb.Sample.vips Lb.Sample.pool Lb.Sample.lomac
              dl read_json System.Sample.sort (merge_sort_Permutation System.Sample.before)
              (Sorted_merge_sort System.Sample.before) nic2 all_maps no_regions
              ∅ story fresh (kernel ∅) "b" acl2 [Services.Sample.other_rule] manager_fine
              (nothing_config _ fw_loads fw_scheduler_here) (fw_fits _ (map_Forall_empty _) nothing_ids) fw_story
              fw_fresh_running eq_refl)
    as (d' & o & table & os & fd & k' & m & a & rest & Hup & _ & Ho & Hm & _ & _ & _ & _ & _ & _ & _ & Hrun).
  - vm_compute. reflexivity.
  - reflexivity.
  - exact balanced_leads.
  - split; try reflexivity; discriminate.
  - split; [vm_compute; reflexivity | vm_compute; lia | vm_compute; discriminate].
  - reflexivity.
  - exists d', table, m, a. split; [exact Hup |]. split; [exact (ex_intro _ o (conj Ho Hm)) |].
    assert (Hacl : own_program no_regions acl2 = 3) by (vm_compute; reflexivity).
    assert (Hs : sched no_regions XDP_GENERIC = 5) by (vm_compute; reflexivity).
    rewrite Hacl, Hs in Hrun.
    etransitivity; [exact (Hrun (programs table) tcp_to_443 eq_refl eq_refl ltac:(refine (bool_decide_unpack _ _); vm_compute; exact Logic.I)) |].
    assert (Hdeny : match Policy.seen tcp_to_443 with Some pkt => Policy.denied [Services.Sample.other_rule] pkt | None => false end = true)
      by (vm_compute; reflexivity).
    destruct (Policy.seen tcp_to_443) as [pkt |]; [| discriminate Hdeny].
    destruct (Policy.denied [Services.Sample.other_rule] pkt); [reflexivity | discriminate Hdeny].
Defined.

Lemma balanced_firewall :
  firewall_table Lb.Sample.parse_v4 Acl.Sample.table Lb.Sample.vips dl read_json nic2 balanced acl2 lb_with_file
    [Services.Sample.other_rule] [Lb.Sample.rb].
Proof.
  split; try reflexivity; try discriminate.
  - exists "b", "c". split; [vm_compute; reflexivity |]. split; [vm_compute; reflexivity | exact balanced_only].
  - split; try reflexivity; discriminate.
  - split; [vm_compute; reflexivity | vm_compute; lia | vm_compute; discriminate].
  - split; [vm_compute; reflexivity | split; vm_compute; reflexivity].
  - split; [eexists; vm_compute; reflexivity | exact Packet.Sample.lb_room].
Qed.

(** the connection to port 80 is balanced, with the tables the daemon's objects
    and chains have *)
Definition port_80_balanced (d : Daemon machine) : Prop :=
  exists o table b groups backends mac k m a,
    getService System.Sample.acl_lib (loader_ d) = Some (SAcl o) /\ Services.maps o = Some table /\
    getService System.Sample.lb_lib (loader_ d) = Some (SLb b) /\
    Services.maps b = mkLbSkel (Some groups) (Some backends) (Some mac) /\
    snd <$> chain_mgr_ (loader_ d) = Some k /\ hashes k !! 11 = Some m /\ arrays k !! 10 = Some a /\
    (run_packet Datatypes.id (xdp_programs table groups backends mac) MAX_TAIL_CALL_CNT m a 2 5 Packet.Sample.other).1 = XDP_TX.

Lemma balanced_port_80 d :
  files_decide Datatypes.id Lb.Sample.parse_v4 nic2 all_maps no_regions d
    acl2 lb_with_file [Services.Sample.other_rule] [Lb.Sample.rb] -> port_80_balanced d.
Proof.
  intros (o & table & b & groups & backends & mac & k & m & a & Ho & Hot & Hb & Hbt & Hk & Hm & Ha & Hrun).
  exists o, table, b, groups, backends, mac, k, m, a. do 7 (split; [done |]).
  assert (Hacl : own_program no_regions acl2 = 3) by (vm_compute; reflexivity).
  assert (Hlb : own_program no_regions lb_with_file = 7) by (vm_compute; reflexivity).
  assert (Hs : sched no_regions XDP_GENERIC = 5) by (vm_compute; reflexivity).
  rewrite Hacl, Hlb, Hs in Hrun.
  destruct (Hrun (xdp_programs table groups backends mac) Packet.Sample.other eq_refl eq_refl eq_refl Packet.Sample.other_frame
              Lb.Sample.rb _ ltac:(left) ltac:(vm_compute; reflexivity) ltac:(discriminate) Packet.Sample.other_for_rb) as (be & _ & Hbe).
  etransitivity; [exact (f_equal fst Hbe) | reflexivity].
Qed.

Lemma files_decide_after_updates_witness :
  exists d', updates dl null read_json System.Sample.sort story fresh = (Ok tt, d') /\ port_80_balanced d'.
Proof.
  destruct (files_decide_after_updates Datatypes.id prog_of_fd Services.Sample.willing Services.Sample.willing_ok
              Lb.Sample.parse_v4 Lb.Sample.garbage null Acl.Sample.table Lb.Sample.vips Lb.Sample.pool Lb.Sample.lomac
              dl read_json System.Sample.sort (merge_sort_Permutation System.Sample.before)
              (Sorted_merge_sort System.Sample.before) nic2 all_maps no_regions
              ∅ story fresh (kernel ∅) acl2 lb_with_file [Services.Sample.other_rule] [Lb.Sample.rb] manager_fine
              (nothing_config _ fw_loads fw_scheduler_here) (fw_fits _ (map_Forall_empty _) nothing_ids) fw_story
              fw_fresh_running eq_refl eq_refl balanced_firewall)
    as (d' & Hup & _ & Hdecide).
  exists d'. split; [exact Hup | exact (balanced_port_80 d' Hdecide)].
Defined.

End Sample.
