(* ===== verification/ConfigWatcher.v ===== *)
(** * Publishing the daemon's configuration

    [ConfigWatcher] ([src/daemon/config_watcher.cc]): it watches the
    configuration file, parses it again when it changes and tells its
    subscribers (the daemon, the monitor and the debug server). *)

From S2P Require Import Prelude Configs.

#[local] Open Scope string_scope.
#[local] Open Scope list_scope.

(** [std::string::find(..) != npos] *)
Fixpoint contains (s sub : string) : bool :=
  String.prefix sub s || match s with EmptyString => false | String _ r => contains r sub end.

Section Watcher.
(** [W]: the rest of the program.  A subscriber is named by a number; [alive]
    says whether its weak pointer can be locked, [deliver] is its [update]. *)
Context {W : Type} (alive : nat -> W -> bool) (deliver : nat -> Configs.t -> ST W unit).
(** the watcher of files: whether its weak pointer can be locked, and its
    [watchConfig] (with the callback below) and [goodbyeConfig] *)
Context (manager_alive : W -> bool) (watch : string -> ST W bool) (goodbye : string -> ST W bool).
Context {node : Type} `{YamlLib node}.
Context (files : W -> FileSystem node) `{BuildMode}.

(* src/daemon/config_watcher.h:17-44 ConfigWatcher *)
Record ConfigWatcher : Type := mkWatcher {
  config_path_ : string;
  last_config_ : Configs.t;
  subscribers_ : list nat;
  world : W
}.

(* src/daemon/config_watcher.cc:17-18 ConfigWatcher::ConfigWatcher *)
Definition newWatcher (w : W) : ConfigWatcher := mkWatcher "" Configs.default [] w.

Definition set_path (p : string) (c : ConfigWatcher) : ConfigWatcher :=
  mkWatcher p (last_config_ c) (subscribers_ c) (world c).
Definition set_last (cfg : Configs.t) (c : ConfigWatcher) : ConfigWatcher :=
  mkWatcher (config_path_ c) cfg (subscribers_ c) (world c).
Definition set_subscribers (l : list nat) (c : ConfigWatcher) : ConfigWatcher :=
  mkWatcher (config_path_ c) (last_config_ c) l (world c).
Definition set_world (w : W) (c : ConfigWatcher) : ConfigWatcher :=
  mkWatcher (config_path_ c) (last_config_ c) (subscribers_ c) w.

Definition on_world {A} (m : ST W A) : ST ConfigWatcher A := fun c =>
  let '(r, w) := m (world c) in (r, set_world w c).

(** [None]: a null subscriber; the expired pointer it leaves in the list is
    never called and is left out here *)
(* src/daemon/config_watcher.cc:22-40 ConfigWatcher::attach *)
Definition attach (subscriber : option nat) : ST ConfigWatcher unit :=
  _ ← modify (fun c => match subscriber with
                       | Some i => set_subscribers (subscribers_ c ++ [i]) c
                       | None => c
                       end);
  c ← get;
  if (config_path_ c =? "")%string then mret tt
  else match subscriber with Some i => on_world (deliver i (last_config_ c)) | None => mret tt end.

(** expired subscribers are dropped too *)
(* src/daemon/config_watcher.cc:42-59 ConfigWatcher::detach *)
Definition detach (subscriber : nat) : ST ConfigWatcher unit :=
  modify (fun c =>
    set_subscribers (filter (fun i => Is_true (alive i (world c) && negb (i =? subscriber)%nat)) (subscribers_ c)) c).

(* src/daemon/config_watcher.cc:61-83 ConfigWatcher::notify *)
Definition notify : ST ConfigWatcher unit :=
  c ← get;
  let active := filter (fun i => Is_true (alive i (world c))) (subscribers_ c) in
  let current := last_config_ c in
  on_world (for_each (fun i => deliver i current) active).

(** the body of the [try] block *)
(* src/daemon/config_watcher.cc:124-139 ConfigWatcher::loadConfig *)
Definition load_and_notify : ST ConfigWatcher unit :=
  c ← get;
  cfg ← lift (loadFromConfig (files (world c)) (config_path_ c));
  if Configs.neqb cfg (last_config_ c) then _ ← modify (set_last cfg); notify
  else mret tt.

(* src/daemon/config_watcher.cc:119-140 ConfigWatcher::loadConfig *)
Definition loadConfig : ST ConfigWatcher unit := catch load_and_notify (mret tt).

(** the callback registered with the file watcher *)
(* src/daemon/config_watcher.cc:104-110 ConfigWatcher::startWatching *)
Definition on_file_event (name : string) : ST ConfigWatcher unit :=
  c ← get;
  if contains (config_path_ c) name then loadConfig else mret tt.

(* src/daemon/config_watcher.cc:85-117 ConfigWatcher::startWatching *)
Definition startWatching (config : string) : ST ConfigWatcher unit :=
  c ← get;
  if (config_path_ c =? config)%string then mret tt
  else
    _ ← modify (set_path config);
    if manager_alive (world c) then
      watched ← on_world (watch config);
      if watched : bool then loadConfig else throw (EXCEPT "Inotify add watch failed")
    else throw (EXCEPT "Inotify is invalid").

(* src/daemon/config_watcher.cc:142-166 ConfigWatcher::clear *)
Definition clear : ST ConfigWatcher unit :=
  c ← get;
  _ ← lift (ASSERT (manager_alive (world c)));
  catch (if manager_alive (world c) then _ ← on_world (goodbye (config_path_ c)); mret tt else mret tt) (mret tt).

End Watcher.
Arguments ConfigWatcher : clear implicits.

(** ** Telling the subscribers *)

Section WatcherFacts.
Context {W : Type} (alive : nat -> W -> bool) (deliver : nat -> Configs.t -> ST W unit).
Context {node : Type} `{YamlLib node}.
Context (files : W -> FileSystem node).

Abbreviation loadConfig := (loadConfig alive deliver files).

Definition active (c : ConfigWatcher W) : list nat := filter (fun i => Is_true (alive i (world c))) (subscribers_ c).

Lemma neqb_refl cfg : Configs.neqb cfg cfg = false.
Proof. unfold Configs.neqb. by rewrite (proj2 (configs_eqb_spec cfg cfg) eq_refl). Qed.

Lemma neqb_ne a b : a ≠ b -> Configs.neqb a b = true.
Proof. intros Hne. unfold Configs.neqb. rewrite negb_true_iff. apply not_true_iff_false. by rewrite configs_eqb_spec. Qed.

Lemma load_unchanged (c : ConfigWatcher W) :
  loadFromConfig (files (world c)) (config_path_ c) = Ok (last_config_ c) -> loadConfig c = (Ok tt, c).
Proof.
  intros Hf. unfold ConfigWatcher.loadConfig, catch, load_and_notify. cbv [mbind st_bind get lift].
  by rewrite Hf, neqb_refl.
Qed.

Lemma load_changed (c : ConfigWatcher W) (cfg : Configs.t) :
  loadFromConfig (files (world c)) (config_path_ c) = Ok cfg -> cfg ≠ last_config_ c ->
  loadConfig c = catch (on_world (for_each (fun i => deliver i cfg) (active c))) (mret tt) (set_last cfg c).
Proof.
  intros Hf Hne. unfold ConfigWatcher.loadConfig, catch, load_and_notify. cbv [mbind st_bind get lift].
  by rewrite Hf, neqb_ne.
Qed.

Lemma for_each_throws (f : nat -> ST W unit) before i after w w1 w2 e :
  for_each f before w = (Ok tt, w1) -> f i w1 = (Err e, w2) -> for_each f (before ++ i :: after) w = (Err e, w2).
Proof.
  revert w. induction before as [| j before IH]; intros w; cbn [app for_each].
  - intros [= ->] Hi. cbv [mbind st_bind]. by rewrite Hi.
  - cbv [mbind st_bind]. destruct (f j w) as [[[] |] w']; [| done]. by apply IH.
Qed.

(** C34: a change of the configuration file is told to every live subscriber
    once: when none of them throws, loadConfig delivers the parsed
    configuration to each in the order of attachment, remembers it, and
    loading the same file again tells nobody. *)
Theorem config_change_told_once (c : ConfigWatcher W) (cfg : Configs.t) (w' : W)
  (Hfile : loadFromConfig (files (world c)) (config_path_ c) = Ok cfg) (Hnew : cfg ≠ last_config_ c)
  (Htold : for_each (fun i => deliver i cfg) (active c) (world c) = (Ok tt, w'))
  (Hsame : loadFromConfig (files w') (config_path_ c) = Ok cfg) :
  exists c', loadConfig c = (Ok tt, c') /\ world c' = w' /\ last_config_ c' = cfg /\
    subscribers_ c' = subscribers_ c /\ loadConfig c' = (Ok tt, c').
Proof.
  exists (set_world w' (set_last cfg c)). split; [| split; [done | split; [done | split; [done |]]]].
  - rewrite (load_changed c cfg) by done. unfold catch, on_world. cbn [world set_last]. by rewrite Htold.
  - by apply load_unchanged.
Qed.

(** when a subscriber throws from its update, the subscribers after it are
    never told: the watcher has recorded the configuration before telling
    anybody, swallows the exception, and loading the same file again, now or
    after it is saved unchanged, is not a change. *)
Theorem failed_update_not_retried (c : ConfigWatcher W) (cfg : Configs.t) (before after : list nat) (i : nat)
    (what : string) (w1 w2 : W)
  (Hfile : loadFromConfig (files (world c)) (config_path_ c) = Ok cfg) (Hnew : cfg ≠ last_config_ c)
  (Hactive : active c = before ++ i :: after)
  (Htold : for_each (fun i => deliver i cfg) before (world c) = (Ok tt, w1))
  (Hthrow : deliver i cfg w1 = (Err (EXCEPT what), w2))
  (Hsame : loadFromConfig (files w2) (config_path_ c) = Ok cfg) :
  exists c', loadConfig c = (Ok tt, c') /\ world c' = w2 /\ loadConfig c' = (Ok tt, c').
Proof.
  exists (set_world w2 (set_last cfg c)). split; [| split; [done |]].
  - rewrite (load_changed c cfg) by done. unfold catch, on_world. cbn [world set_last].
    rewrite Hactive. erewrite for_each_throws by done. done.
  - by apply load_unchanged.
Qed.

(** When the file cannot be watched the path is remembered all the same, and
    asking again for it reports success without watching anything. *)
Lemma failed_watch_sticks (manager_alive : W -> bool) (watch : string -> ST W bool) (c : ConfigWatcher W) (path : string) (w' : W) :
  config_path_ c ≠ path -> manager_alive (world c) = true -> watch path (world c) = (Ok false, w') ->
  exists c' what, startWatching alive deliver manager_alive watch files path c = (Err (EXCEPT what), c') /\
    startWatching alive deliver manager_alive watch files path c' = (Ok tt, c').
Proof.
  intros Hne Halive Hw. apply String.eqb_neq in Hne. unfold startWatching, on_world. cbv [mbind st_bind get modify].
  rewrite Hne, Halive. cbn [world set_path]. rewrite Hw. eexists _, _. split; [done |]. cbn. by rewrite String.eqb_refl.
Qed.

End WatcherFacts.

(** ** Concrete runs *)

Module Sample.

(** the subscribers write down what they are told; number 9 throws *)
Definition notes : Type := list (nat * string).
Definition heard (i : nat) (cfg : Configs.t) : ST notes unit := fun w =>
  (if (i =? 9)%nat then Err (EXCEPT "no") else Ok tt, w ++ [(i, Configs.getPrometheusListen cfg)]).
Definition everyone (i : nat) (w : notes) : bool := true.

Definition file : notes -> FileSystem RefYaml.node := fun _ =>
  {| is_regular_file := fun _ => Ok true; is_empty := fun _ => Ok false; LoadFile := fun _ => Ok (encode sample_configs) |}.
Definition watcher (l : list nat) : ConfigWatcher notes := mkWatcher "hebpf.yaml" Configs.default l [].

Lemma sample_parses w : loadFromConfig (file w) "hebpf.yaml" = Ok sample_configs.
Proof. vm_compute. reflexivity. Qed.

Lemma sample_is_new l : sample_configs ≠ last_config_ (watcher l).
Proof. intros Heq. discriminate (f_equal Configs.prometheus_enabled_ Heq). Qed.

Lemma config_change_told_once_witness :
  exists c', loadConfig everyone heard file (watcher [1; 2]%nat) = (Ok tt, c') /\
    world c' = [(1, "0.0.0.0:9100"); (2, "0.0.0.0:9100")]%nat /\
    loadConfig everyone heard file c' = (Ok tt, c').
Proof.
  destruct (config_change_told_once everyone heard file (watcher [1; 2]%nat) sample_configs
    [(1, "0.0.0.0:9100"); (2, "0.0.0.0:9100")]%nat) as (c' & Hload & Hworld & _ & _ & Hagain).
  - apply sample_parses.
  - apply sample_is_new.
  - vm_compute. reflexivity.
  - apply sample_parses.
  - exists c'. split; [exact Hload | split; [exact Hworld | exact Hagain]].
Defined.

Lemma failed_update_not_retried_witness :
  exists c', loadConfig everyone heard file (watcher [1; 9; 2]%nat) = (Ok tt, c') /\
    world c' = [(1, "0.0.0.0:9100"); (9, "0.0.0.0:9100")]%nat /\
    loadConfig everyone heard file c' = (Ok tt, c').
Proof.
  apply (failed_update_not_retried everyone heard file (watcher [1; 9; 2]%nat) sample_configs [1%nat] [2%nat] 9%nat
    "no" [(1, "0.0.0.0:9100")]%nat [(1, "0.0.0.0:9100"); (9, "0.0.0.0:9100")]%nat).
  - apply sample_parses.
  - apply sample_is_new.
  - vm_compute. reflexivity.
  - vm_compute. reflexivity.
  - vm_compute. reflexivity.
  - apply sample_parses.
Defined.

End Sample.
