(* ===== verification/Live.v ===== *)
(** * From the saved file to the packets

    The configuration watcher ([ConfigWatcher.v]) with the daemon as its first
    subscriber, the way [main] attaches them: the file is saved again and again,
    the file watcher reports events, and the chains ([Reconfig.v]) follow,
    whatever the other subscribers do; with the real service objects
    ([Firewall.v]) the rule files the saved configuration names decide about the
    packets. *)

From stdpp Require Import sorting.
From S2P Require Import Prelude Configs Names BpfMap Json Net ProgMap Acl Lb Packet Loader Services Daemon System Reconfig Firewall ConfigWatcher.
From S2P Require NetHook.

#[local] Open Scope string_scope.
#[local] Open Scope Z_scope.
#[local] Open Scope list_scope.

Section Live.
Context {I J IM M A P node R : Type} `{!YamlLib node} `{!EbpfIf I J, !EbpfLaws I J} `{!InotifyManagerIf IM, !InotifyManagerLaws IM}.
Context `{!BpfHash M Z Z, !BpfHashLaws M Z Z} `{!BpfProgArray A P}.
Context (prog_id : P -> Z) (prog_of_fd : Z -> option P) `{!BpfProgArrayLaws A P prog_of_fd MAX_CHAIN_PROGS}.
Context `{!UMapOrder string, !UMapOrder Z, !UMapOrder HookType}.
#[local] Existing Instance release_build.
Context (dl : string -> library I) (json_null : J) (read_json : string -> J).
Context (std_sort : list order_entry -> list order_entry) (std_sort_perm : forall l, std_sort l ≡ₚ l)
  (std_sort_sorted : forall l, Sorted (fun e1 e2 : order_entry => e1.1.1 <= e2.1.1) (std_sort l)).
Context (nic : HookType -> Z) (hmaps : HookType -> HookMaps) (p0 : PinnedProgMap).

Abbreviation loader := (Loader I IM (chain (M := M) (A := A))).
#[local] Instance live_loader : LoaderIf loader I := the_loader dl json_null read_json.
#[local] Instance live_laws : LoaderLaws loader I := the_loader_laws dl json_null read_json.

(** ** The world of the watcher *)

(** the daemon, the files, and everything the other subscribers have *)
Record World : Type := mkWorld { w_daemon : Daemon loader; w_files : FileSystem node; w_rest : R }.

(** the other subscribers, which may do what they like with their own state *)
Context (others : nat -> Configs.t -> ST R unit) (lives : nat -> R -> bool).

Definition daemon : nat := 0%nat.
Definition alive (i : nat) (w : World) : bool := if (i =? daemon)%nat then true else lives i (w_rest w).
Definition deliver (i : nat) (config : Configs.t) : ST World unit := fun w =>
  if (i =? daemon)%nat then
    let '(r, d) := Daemon.update std_sort config (w_daemon w) in (r, mkWorld d (w_files w) (w_rest w))
  else
    let '(r, s) := others i config (w_rest w) in (r, mkWorld (w_daemon w) (w_files w) s).

(** the file is saved, or the file watcher reports a change of a name *)
Inductive file_step : Type := Save (fs : FileSystem node) | Event (name : string).

Definition live_exec (c : ConfigWatcher World) (step : file_step) : ConfigWatcher World :=
  match step with
  | Save fs => set_world (mkWorld (w_daemon (world c)) fs (w_rest (world c))) c
  | Event name => (on_file_event alive deliver w_files name c).2
  end.

(** the configurations the subscribers are told, read off the steps: at each
    event for the file, what it then holds, if this decodes and is new *)
Fixpoint told (path : string) (fs : FileSystem node) (last : Configs.t) (steps : list file_step) : list Configs.t :=
  match steps with
  | [] => []
  | Save fs :: steps => told path fs last steps
  | Event name :: steps =>
      match loadFromConfig fs path with
      | Ok cfg => if contains path name && Configs.neqb cfg last then cfg :: told path fs cfg steps else told path fs last steps
      | Err _ => told path fs last steps
      end
  end.

(** ** One event *)

Lemma deliver_other i config w : i <> daemon ->
  deliver i config w = ((others i config (w_rest w)).1, mkWorld (w_daemon w) (w_files w) (others i config (w_rest w)).2).
Proof. intros Hi%Nat.eqb_neq. unfold deliver. rewrite Hi. by destruct (others i config (w_rest w)). Qed.

Lemma others_keep l config w :
  daemon ∉ l ->
  w_daemon (for_each (fun i => deliver i config) l w).2 = w_daemon w /\
  w_files (for_each (fun i => deliver i config) l w).2 = w_files w.
Proof.
  revert w. induction l as [| i l IH]; intros w Hl; [done |]. apply not_elem_of_cons in Hl as [Hi Hl].
  cbn [for_each]. cbv [mbind st_bind]. rewrite deliver_other by done.
  destruct (others i config (w_rest w)) as [[[] | x] s]; cbn [fst snd]; [| done].
  by destruct (IH (mkWorld (w_daemon w) (w_files w) s) Hl) as [-> ->].
Qed.

(** the watcher's own state *)
Definition watching (path : string) (last : Configs.t) (c : ConfigWatcher World) : Prop :=
  config_path_ c = path /\ last_config_ c = last /\ exists l, subscribers_ c = daemon :: l /\ daemon ∉ l.

Lemma active_daemon path last c : watching path last c -> exists l, active alive c = daemon :: l /\ daemon ∉ l.
Proof.
  intros (_ & _ & l & Hl & Hnot). unfold active. rewrite Hl, filter_cons_True by done. eexists. split; [done |].
  intros Hin. by apply list_elem_of_filter in Hin as [_ ?].
Qed.

(** a new configuration: the daemon gets it, whatever happens after that *)
Lemma event_delivers path last c name config d' :
  watching path last c -> contains path name = true -> loadFromConfig (w_files (world c)) path = Ok config -> config <> last ->
  Daemon.update std_sort config (w_daemon (world c)) = (Ok tt, d') ->
  let c' := live_exec c (Event name) in
  watching path config c' /\ w_daemon (world c') = d' /\ w_files (world c') = w_files (world c).
Proof.
  intros Hw Hname Hload Hne Hup. destruct (active_daemon path last c Hw) as (act & Hact & Hnot). pose proof Hw as (Hpath & Hlast & Hsub).
  cbn zeta. cbn [live_exec]. unfold on_file_event. cbv [mbind st_bind get]. rewrite Hpath, Hname.
  rewrite (load_changed alive deliver w_files c config) by (rewrite ?Hpath, ?Hlast; done). rewrite Hact.
  unfold catch, on_world. cbn [world set_last for_each]. cbv [mbind st_bind].
  assert (Hfirst : deliver daemon config (world c) = (Ok tt, mkWorld d' (w_files (world c)) (w_rest (world c)))).
  { unfold deliver. cbn [daemon Nat.eqb]. by rewrite Hup. }
  rewrite Hfirst.
  destruct (others_keep act config (mkWorld d' (w_files (world c)) (w_rest (world c))) Hnot) as [Hd Hf].
  destruct (for_each _ act _) as [[[] | []] w']; cbn [fst snd] in *; cbn; (split; [by split | by split]).
Qed.

(** nothing new: nobody is told *)
Lemma event_ignored path last c name :
  watching path last c ->
  match loadFromConfig (w_files (world c)) path with
  | Ok config => contains path name && Configs.neqb config last = false
  | Err _ => True
  end ->
  live_exec c (Event name) = c.
Proof.
  intros (Hpath & Hlast & _) Hnothing. cbn [live_exec]. unfold on_file_event. cbv [mbind st_bind get]. rewrite Hpath.
  destruct (contains path name); [| done]. unfold loadConfig, catch, load_and_notify. cbv [mbind st_bind get lift]. rewrite Hpath.
  destruct (loadFromConfig (w_files (world c)) path) as [config | x]; [| by destruct x].
  rewrite Hlast. cbn [andb] in Hnothing. by rewrite Hnothing.
Qed.

(** ** Any sequence of saves and events *)

Abbreviation runs := (running_as prog_id dl json_null read_json std_sort nic hmaps p0).
Abbreviation fit := (chains_fit prog_id prog_of_fd dl json_null read_json std_sort nic hmaps p0).
Abbreviation reconfigurations := (configurations prog_id prog_of_fd dl json_null read_json std_sort nic hmaps p0).

(** the daemon runs [base], and this fits; [base] is the table of the
    configuration the watcher has told last, or nothing was told yet *)
Record follows (Q : string -> service_view -> I -> Prop) (path : string) (last : Configs.t) (base : EbpfMap)
  (c : ConfigWatcher World) (k : Kernel M A) : Prop := {
  fl_watching : watching path last c;
  fl_runs : runs Q base (w_daemon (world c)) k;
  fl_fit : fit base;
  fl_ok : config_ok (li_loadable (L := loader)) base
}.

(** what was told last, and runs, since [last] and [base] *)
Definition moved_on (last : Configs.t) (base : EbpfMap) (last' : Configs.t) (base' : EbpfMap) : Prop :=
  (last' = last /\ base' = base) \/ base' = Configs.getEbpfs last'.

Lemma moved_on_trans last base last1 base1 last2 base2 :
  moved_on last base last1 base1 -> moved_on last1 base1 last2 base2 -> moved_on last base last2 base2.
Proof. unfold moved_on. intros [[-> ->] | ->] [[-> ->] | ->]; tauto. Qed.

Context (Q : string -> service_view -> I -> Prop) (HQ : object_claim dl json_null read_json Q) (Hman : manager_ok nic hmaps p0).

Lemma event_followed path last base c k name steps :
  follows Q path last base c k -> reconfigurations base (told path (w_files (world c)) last (Event name :: steps)) ->
  exists last' base' k', let c' := live_exec c (Event name) in
    follows Q path last' base' c' k' /\ moved_on last base last' base' /\ w_files (world c') = w_files (world c) /\
    reconfigurations base' (told path (w_files (world c)) last' steps) /\
    (forall config, contains path name = true -> loadFromConfig (w_files (world c)) path = Ok config -> last' = config).
Proof.
  intros [Hw Hd Hfit Hok] Hl. cbn [told] in Hl. pose proof (event_ignored path last c name Hw) as Hignored.
  destruct (loadFromConfig (w_files (world c)) path) as [config | x] eqn:Hload.
  2: { exists last, base, k. cbn zeta. rewrite (Hignored Logic.I). split_and!; try done. by left. }
  destruct (contains path name && Configs.neqb config last) eqn:Hnew.
  - apply andb_prop in Hnew as [Hname Hneq]. destruct Hl as [Hnext Hl]. exists config, (Configs.getEbpfs config).
    assert (Hne : config <> last) by (intros ->; by rewrite neqb_refl in Hneq).
    destruct (update_runs prog_id prog_of_fd dl json_null read_json std_sort std_sort_perm std_sort_sorted nic hmaps p0 Q
                base config (w_daemon (world c)) k HQ Hman Hok Hnext Hd) as (d' & k' & Hup & Hd').
    destruct (event_delivers path last c name config d' Hw Hname Hload Hne Hup) as (Hw' & Hdd & Hf).
    exists k'. cbn zeta. split_and!; [| by right | done | done |].
    + split; [done | by rewrite Hdd | apply Hnext | apply Hnext].
    + intros config' _ [= <-]. done.
  - exists last, base, k. cbn zeta. rewrite (Hignored eq_refl). split_and!; [done | by left | done | done |].
    intros config' Hname [= <-]. rewrite Hname in Hnew. cbn in Hnew. unfold Configs.neqb in Hnew.
    apply negb_false_iff, configs_eqb_spec in Hnew. done.
Qed.

Lemma steps_followed path steps : forall rest last base c k,
  follows Q path last base c k -> reconfigurations base (told path (w_files (world c)) last (steps ++ rest)) ->
  exists last' base' k', let c' := foldl live_exec c steps in
    follows Q path last' base' c' k' /\ moved_on last base last' base' /\
    reconfigurations base' (told path (w_files (world c')) last' rest).
Proof.
  induction steps as [| [fs | name] steps IH]; intros rest last base c k Hc Hl; cbn [foldl app] in *.
  - exists last, base, k. split_and!; [done | by left | done].
  - apply (IH rest last base (live_exec c (Save fs)) k); [| exact Hl]. destruct Hc as [Hw Hd Hfit Hok]. by split.
  - destruct (event_followed path last base c k name (steps ++ rest) Hc Hl) as (last1 & base1 & k1 & Hc1 & Hmove & Hf & Hl1 & _).
    destruct (IH rest last1 base1 (live_exec c (Event name)) k1 Hc1) as (last' & base' & k' & Hc' & Hmove' & Hl').
    { by rewrite Hf. }
    exists last', base', k'. split_and!; [done | by eapply moved_on_trans | done].
Qed.

(** once the last save has been reported, the daemon runs what the file says *)
Lemma saved_file_followed path last base c k steps fs name config :
  follows Q path last base c k -> base = Configs.getEbpfs last \/ config <> last ->
  reconfigurations base (told path (w_files (world c)) last (steps ++ [Save fs; Event name])) ->
  contains path name = true -> loadFromConfig fs path = Ok config ->
  exists k', follows Q path config (Configs.getEbpfs config) (foldl live_exec c (steps ++ [Save fs; Event name])) k'.
Proof.
  intros Hc Hbegin Hl Hname Hfile.
  destruct (steps_followed path steps [Save fs; Event name] last base c k Hc Hl) as (last1 & base1 & k1 & Hc1 & Hmove1 & Hl1).
  rewrite foldl_app. cbn [foldl]. set (c1 := foldl live_exec c steps) in *.
  assert (Hc2 : follows Q path last1 base1 (live_exec c1 (Save fs)) k1) by (destruct Hc1 as [Hw Hd Hfit Hok]; by split).
  destruct (event_followed path last1 base1 (live_exec c1 (Save fs)) k1 name [] Hc2 Hl1) as (last' & base' & k' & Hc' & Hmove & _ & _ & Hlast).
  assert (last' = config) as -> by (by apply Hlast).
  destruct (moved_on_trans _ _ _ _ _ _ Hmove1 Hmove) as [[Heq ->] | ->]; [| by exists k'].
  destruct Hbegin as [-> | Hne]; [| done]. subst. by exists k'.
Qed.

(** C3: What is in the file is what the packets meet. The watcher has the
    daemon as its first subscriber. The file is saved any number of times,
    also with texts that do not decode, and events come in between, also for
    other files. The configurations this amounts to are such that each has,
    per hook, entries on one interface only, that of the hook's first region;
    every library can be loaded, has a known program and is in one entry; a
    library in use goes to an entry of another name only when its old entry
    goes; no chain outgrows the program array or gets shorter, and no program
    that stays moves; at first nothing is behind the chains. Then once the
    last save has been reported, the daemon runs what the file says, and the
    packets of each hook's interface meet exactly the hook's programs, in the
    order of their numbers, whatever the monitor and the debug server do. The
    daemon may be new, with nothing loaded, if the file then differs from the
    configuration the watcher began with. *)
Theorem saved_file_reaches_packets (path : string) (last : Configs.t) (base : EbpfMap) (c : ConfigWatcher World) (k : Kernel M A)
  (steps : list file_step) (fs : FileSystem node) (name : string) (config : Configs.t)
  (Hc : follows Q path last base c k) (Hbegin : base = Configs.getEbpfs last \/ config <> last)
  (Hl : reconfigurations base (told path (w_files (world c)) last (steps ++ [Save fs; Event name])))
  (Hname : contains path name = true) (Hfile : loadFromConfig fs path = Ok config) :
  let c' := foldl live_exec c (steps ++ [Save fs; Event name]) in
  exists k', last_config_ c' = config /\ daemon_ok (Configs.getEbpfs config) (w_daemon (world c')) /\
    (exists R, chain_mgr_ (loader_ (w_daemon (world c'))) = Some (set_regions R p0, k')) /\
    forall h, prepared hmaps p0 h -> hook_entries h (Configs.getEbpfs config) <> [] ->
      packets_follow prog_id nic hmaps p0 (Configs.getEbpfs config) k' h.
Proof.
  destruct (saved_file_followed path last base c k steps fs name config Hc Hbegin Hl Hname Hfile)
    as (k' & [(_ & Hcfg & _) [Hd (Rg & HR & _) Hrun _ Hfree] Hfit _]).
  cbn zeta. exists k'. split; [done |]. split; [done |]. split; [by exists Rg |]. intros h Hh Hne.
  apply (packets_followed prog_id prog_of_fd dl json_null read_json std_sort std_sort_perm std_sort_sorted); try done; [| by apply Hfree].
  by apply (ids_some std_sort std_sort_perm std_sort_sorted nic).
Qed.

End Live.

(** ** The three files of a firewall *)

Section LiveFirewall.
Context {K V B L json IM M A P node R : Type} `{!YamlLib node}.
Context `{!BpfHash K ipv4_tuple Z, !BpfHashLaws K ipv4_tuple Z} `{!BpfHash V vip_key vip_group, !BpfHashLaws V vip_key vip_group}.
Context `{!BpfArray B backend_info, !BpfArrayLaws B backend_info TOTAL_BACKENDS} `{!BpfArray L (list Z)} `{!JsonLib json}.
Context `{!InotifyManagerIf IM, !InotifyManagerLaws IM}.
Context `{!BpfHash M Z Z, !BpfHashLaws M Z Z} `{!BpfProgArray A P}.
Context (prog_id : P -> Z) (prog_of_fd : Z -> option P) `{!BpfProgArrayLaws A P prog_of_fd MAX_CHAIN_PROGS}.
Context `{!UMapOrder string, !UMapOrder Z, !UMapOrder HookType}.
#[local] Existing Instance release_build.
Context (e : skeleton -> env NetHook.netcall NetHook.netresp) (Haccept : forall sk, NetHook.accepting (e sk)).
Context (make_address_v4 : string -> option Z) (mac_init : list Z) (json_null : json).
Context (krules : K) (vips : V) (pool : B) (lomac : L).
Context (dl : string -> library (service K V B L)) (read_json : string -> json).
Context (std_sort : list order_entry -> list order_entry) (std_sort_perm : forall l, std_sort l ≡ₚ l)
  (std_sort_sorted : forall l, Sorted (fun e1 e2 : order_entry => e1.1.1 <= e2.1.1) (std_sort l)).
Context (nic : HookType -> Z) (hmaps : HookType -> HookMaps) (p0 : PinnedProgMap).
#[local] Instance live_objs : EbpfIf (service K V B L) json :=
  all_services e make_address_v4 mac_init json_null krules vips pool lomac.
#[local] Instance live_objs_laws : EbpfLaws (service K V B L) json :=
  all_laws e make_address_v4 mac_init json_null krules vips pool lomac.

Context (others : nat -> Configs.t -> ST R unit) (lives : nat -> R -> bool).

Abbreviation firewall_world :=
  (World (I := service K V B L) (IM := IM) (M := M) (A := A) (node := node) (R := R)).
Abbreviation fw_exec := (live_exec dl json_null read_json std_sort others lives).
Abbreviation fw_follows := (follows prog_id prog_of_fd dl json_null read_json std_sort nic hmaps p0
  (object_fine e make_address_v4 mac_init json_null krules vips pool lomac dl read_json)).


End LiveFirewall.

(** ** A concrete run *)

Module Sample.

Import ProgMap.Sample System.Sample Reconfig.Sample.
#[local] Existing Instance release_build.
#[local] Existing Instance System.Sample.order_string.
#[local] Existing Instance System.Sample.order_Z.
#[local] Existing Instance System.Sample.order_hook.
#[local] Existing Instance array_ops.
#[local] Existing Instance array_laws.
#[local] Existing Instance Loader.Sample.watcher_if.
#[local] Existing Instance Loader.Sample.watcher_laws.
#[local] Existing Instance System.Sample.service.
#[local] Existing Instance System.Sample.service_laws.
#[local] Existing Instance System.Sample.ops.
#[local] Existing Instance System.Sample.laws.

(** the monitor throws, the debug server counts *)
Definition counting (i : nat) (cfg : Configs.t) : ST nat unit := fun n =>
  if (i =? 1)%nat then (Err (EXCEPT "no"), n) else (Ok tt, S n).
Definition still_there (i : nat) (n : nat) : bool := true.

(** a text that is the configuration of a table, and one that is none *)
Definition text (m : EbpfMap) : FileSystem RefYaml.node :=
  {| is_regular_file := fun _ => Ok true; is_empty := fun _ => Ok false; LoadFile := fun _ => Ok (encode (as_config m)) |}.
Definition garbage : FileSystem RefYaml.node :=
  {| is_regular_file := fun _ => Ok true; is_empty := fun _ => Ok false; LoadFile := fun _ => Err (StdException "bad file") |}.

(** a new daemon, and the watcher as [main] leaves it *)
Definition sample_world : Type :=
  World (I := Z) (IM := Loader.Sample.watchers) (M := RefHash.t Z Z) (A := gmap Z Z) (node := RefYaml.node) (R := nat).
Definition begin_world : sample_world := mkWorld fresh (text only_acl) 0%nat.
Definition begin_watcher : ConfigWatcher sample_world := mkWatcher "hebpf.yaml" Configs.default [0; 1; 2]%nat begin_world.

(** the file is also broken for a while, and other files change *)
Definition edits : list (file_step (node := RefYaml.node)) :=
  [Event "hebpf.yaml"; Save garbage; Event "hebpf.yaml"; Save (text base); Event "notes.txt"; Event "hebpf.yaml";
   Event "hebpf.yaml"; Save (text renamed); Event "hebpf.yaml"].

Definition live_end : ConfigWatcher sample_world :=
  foldl (live_exec System.Sample.dl 0%nat System.Sample.read_json sort counting still_there) begin_watcher
    (edits ++ [Save (text balanced); Event "hebpf.yaml"]).

Lemma edits_tell :
  told "hebpf.yaml" (text only_acl) Configs.default (edits ++ [Save (text balanced); Event "hebpf.yaml"]) = story.
Proof. vm_compute. reflexivity. Qed.

Lemma begin_followed :
  follows Datatypes.id prog_of_fd System.Sample.dl 0%nat System.Sample.read_json sort nic2 all_maps no_regions
    (fun _ _ _ => True) "hebpf.yaml" Configs.default ∅ begin_watcher (kernel ∅).
Proof.
  split.
  - split; [done |]. split; [done |]. exists [1; 2]%nat. split; [done |]. unfold daemon. set_solver.
  - exact fresh_running.
  - exact (sample_fits _ (map_Forall_empty _) nothing_ids).
  - exact (nothing_config _ sample_loads scheduler_here).
Qed.

Lemma no_claim : object_claim System.Sample.dl 0%nat System.Sample.read_json (fun _ _ _ => True).
Proof. done. Qed.

Lemma balanced_is_new : as_config balanced <> Configs.default.
Proof. intros Heq. discriminate (f_equal (fun c => Configs.getEbpfs c !! "c") Heq). Qed.

(** the packets of the interface meet the programs of the last file *)
Lemma saved_file_reaches_packets_witness :
  exists (k' : Kernel (RefHash.t Z Z) (gmap Z Z)) m a cs, last_config_ live_end = as_config balanced /\
    hashes k' !! 11 = Some m /\ arrays k' !! 10 = Some a /\ cs ≡ₚ [lb_with_file; acl2] /\ Sorted by_order cs /\
    forall data, run_packet Datatypes.id Packet.Sample.bodies MAX_TAIL_CALL_CNT m a 2 5 data
      = process Packet.Sample.bodies 5 (own_program no_regions <$> cs) data.
Proof.
  destruct (saved_file_reaches_packets Datatypes.id prog_of_fd System.Sample.dl 0%nat System.Sample.read_json sort
              (merge_sort_Permutation before) (Sorted_merge_sort before) nic2 all_maps no_regions counting still_there
              (fun _ _ _ => True) no_claim manager_fine "hebpf.yaml" Configs.default ∅ begin_watcher (kernel ∅)
              edits (text balanced) "hebpf.yaml" (as_config balanced) begin_followed)
    as (k' & Hlast & _ & _ & Hpackets).
  - right. exact balanced_is_new.
  - change (w_files (world begin_watcher)) with (text only_acl). rewrite edits_tell. exact story_fine.
  - vm_compute. reflexivity.
  - vm_compute. reflexivity.
  - destruct (Hpackets XDP_GENERIC eq_refl) as (m & a & cs & Hm & Ha & Hcs & Hs & Hrun); [vm_compute; discriminate |].
    exists k', m, a, cs. split; [exact Hlast |]. split; [exact Hm |]. split; [exact Ha |]. split; [exact Hcs |].
    split; [exact Hs |]. exact (Hrun Packet.Sample.bodies).
Defined.

End Sample.

(** *** The same edits with the real services *)

Module FirewallSample.

Import ProgMap.Sample Reconfig.Sample Firewall.Sample Sample.
#[local] Existing Instance release_build.
#[local] Existing Instance System.Sample.order_string.
#[local] Existing Instance System.Sample.order_Z.
#[local] Existing Instance System.Sample.order_hook.
#[local] Existing Instance array_ops.
#[local] Existing Instance array_laws.
#[local] Existing Instance Loader.Sample.watcher_if.
#[local] Existing Instance Loader.Sample.watcher_laws.
#[local] Existing Instance Lb.Sample.pool_ops.
#[local] Existing Instance Lb.Sample.pool_laws.
#[local] Existing Instance Lb.Sample.mac_ops.
#[local] Existing Instance System.Sample.before_dec.
#[local] Existing Instance System.Sample.before_total.
#[local] Existing Instance Firewall.Sample.objects.
#[local] Existing Instance Firewall.Sample.object_laws.
#[local] Existing Instance Firewall.Sample.ops.
#[local] Existing Instance Firewall.Sample.laws.

Definition fw_world : Type :=
  World (I := service K V B L) (IM := Loader.Sample.watchers) (M := RefHash.t Z Z) (A := gmap Z Z) (node := RefYaml.node) (R := nat).
Definition fw_begin : ConfigWatcher fw_world :=
  mkWatcher "hebpf.yaml" Configs.default [0; 1; 2]%nat (mkWorld Firewall.Sample.fresh (text only_acl) 0%nat).
Definition fw_end : ConfigWatcher fw_world :=
  foldl (live_exec Firewall.Sample.dl null Firewall.Sample.read_json System.Sample.sort counting still_there) fw_begin
    (edits ++ [Save (text balanced); Event "hebpf.yaml"]).

Lemma fw_begin_followed :
  follows Datatypes.id prog_of_fd Firewall.Sample.dl null Firewall.Sample.read_json System.Sample.sort nic2 all_maps System.Sample.no_regions
    (object_fine Services.Sample.willing Lb.Sample.parse_v4 Lb.Sample.garbage null Acl.Sample.table Lb.Sample.vips
       Lb.Sample.pool Lb.Sample.lomac Firewall.Sample.dl Firewall.Sample.read_json)
    "hebpf.yaml" Configs.default ∅ fw_begin (kernel ∅).
Proof.
  split.
  - split; [done |]. split; [done |]. exists [1; 2]%nat. split; [done |]. unfold daemon. set_solver.
  - exact fw_fresh_running.
  - exact (fw_fits _ (map_Forall_empty _) nothing_ids).
  - exact (nothing_config _ fw_loads fw_scheduler_here).
Qed.


End FirewallSample.
