(* ===== verification/DebugServer.v ===== *)
(** * The debug server

    [DebugServer] ([src/debug_server/debug_server.cc]): the life of the HTTP
    acceptor, its subscribers, and the connections with their requests and
    answers.  The sockets of Boost.Asio are an input: what opening, binding and
    listening on an address gives, and in which order the completions of the
    outstanding operations arrive. *)

From S2P Require Import Prelude Configs.

#[local] Open Scope string_scope.
#[local] Open Scope Z_scope.
#[local] Open Scope list_scope.

(** ** State *)

(** what [make_address], [open], [set_option], [bind] and [listen] give *)
Inductive listen_outcome : Type := BadAddress | Refused | Accepting.

(** an acceptor object: its number (each [make_unique] makes a new one), and
    the address it listens on *)
Record acceptor : Type := mkAcceptor { serial : nat; listening : option (string * Z) }.

(** what [sendResponse] puts on the wire *)
Record response : Type := mkResponse { status : Z; server_header : string; content_type : string; body : string }.

(** the one outstanding operation of a connection, or how it ended *)
Inductive connection : Type := Reading | Writing (r : response) | Answered (r : response) | Dropped.

(** Subscribers are compared by pointer and named by numbers.  [waiting] are
    the acceptors with an outstanding [async_accept], one entry for each;
    [connections] are all connections accepted so far. *)
(* src/debug_server/debug_server.h:22-51 DebugServer *)
Record DebugServer : Type := mkServer {
  acceptor_ : option acceptor;
  address_ : string;
  port_ : Z;
  running_ : bool;
  subscriber_list_ : list nat;
  made : nat;
  waiting : list nat;
  connections : list connection
}.

(* src/debug_server/debug_server.cc:19-22 DebugServer::DebugServer *)
Definition newServer : DebugServer := mkServer None "" 0 false [] 0 [] [].

Definition set_acceptor (a : option acceptor) (s : DebugServer) : DebugServer :=
  mkServer a (address_ s) (port_ s) (running_ s) (subscriber_list_ s) (made s) (waiting s) (connections s).
Definition set_listen (address : string) (port : Z) (s : DebugServer) : DebugServer :=
  mkServer (acceptor_ s) address port (running_ s) (subscriber_list_ s) (made s) (waiting s) (connections s).
Definition set_subscribers (l : list nat) (s : DebugServer) : DebugServer :=
  mkServer (acceptor_ s) (address_ s) (port_ s) (running_ s) l (made s) (waiting s) (connections s).
Definition set_waiting (w : list nat) (s : DebugServer) : DebugServer :=
  mkServer (acceptor_ s) (address_ s) (port_ s) (running_ s) (subscriber_list_ s) (made s) w (connections s).
Definition set_connections (cs : list connection) (s : DebugServer) : DebugServer :=
  mkServer (acceptor_ s) (address_ s) (port_ s) (running_ s) (subscriber_list_ s) (made s) (waiting s) cs.
(** [make_unique<tcp::acceptor>] *)
Definition new_acceptor (s : DebugServer) : DebugServer :=
  mkServer (Some (mkAcceptor (made s) None)) (address_ s) (port_ s) (running_ s) (subscriber_list_ s) (S (made s))
    (waiting s) (connections s).
Definition with_listening (l : option (string * Z)) (s : DebugServer) : DebugServer :=
  set_acceptor ((fun a => mkAcceptor (serial a) l) <$> acceptor_ s) s.

(** what the weak pointer to the io context is found to point to: nothing any
    more, an object of another class, or an [Io] *)
Inductive io_pointer : Type := IoGone | IoOther | IoObject.

Section Server.
Context `{BuildMode}.
(** the io context and the sockets *)
Context (ioctx : io_pointer) (sockets : string -> Z -> listen_outcome).

(* src/debug_server/debug_server.cc:202-213 DebugServer::setListen *)
Definition setListen (addr : string) (port : Z) : ST DebugServer unit :=
  _ ← lift (ASSERT (negb (addr =? "")%string));
  _ ← lift (ASSERT (0 <? port));
  modify (set_listen addr port).

(** the next connection is waited for; what happens then is [on_accept] *)
(* src/debug_server/debug_server.cc:219-257 DebugServer::doAccept *)
Definition doAccept : ST DebugServer unit :=
  s ← get;
  _ ← lift (ASSERT (bool_decide (is_Some (acceptor_ s))));
  match acceptor_ s with
  | None => throw SEGV
  | Some a => modify (set_waiting (serial a :: waiting s))
  end.

(** the new acceptor replaces the old one, which closes its socket *)
(* src/debug_server/debug_server.cc:24-75 DebugServer::start *)
Definition start (address : string) (port : Z) : ST DebugServer bool :=
  _ ← setListen address port;
  match ioctx with
  | IoGone => throw (EXCEPT "IO context is invalid")
  | IoOther => throw (EXCEPT "IO context is not io::Io")
  | IoObject =>
      _ ← modify new_acceptor;
      s ← get;
      match sockets (address_ s) (port_ s) with
      | BadAddress => throw (StdException "make_address")
      | Refused => mret false
      | Accepting =>
          _ ← modify (with_listening (Some (address_ s, port_ s)));
          _ ← doAccept;
          mret true
      end
  end.

(* src/debug_server/debug_server.cc:77-93 DebugServer::stop *)
Definition stop (s : DebugServer) : DebugServer :=
  if negb (running_ s) then s
  else
    let s := mkServer (acceptor_ s) "" 0 false (subscriber_list_ s) (made s) (waiting s) (connections s) in
    with_listening None s.

(** a subscriber is in the list at most once; the null pointer is ignored *)
(* src/debug_server/debug_server.cc:95-118 DebugServer::attach *)
Definition attach (subscriber : option nat) (s : DebugServer) : DebugServer :=
  match subscriber with
  | None => s
  | Some i =>
      if bool_decide (i ∈ subscriber_list_ s) then s else set_subscribers (subscriber_list_ s ++ [i]) s
  end.

(* src/debug_server/debug_server.cc:120-142 DebugServer::detach *)
Definition detach (subscriber : option nat) (s : DebugServer) : DebugServer :=
  match subscriber with
  | None => s
  | Some i => set_subscribers (filter (fun j => j ≠ i) (subscriber_list_ s)) s
  end.

(** every subscriber writes its part into the report *)
(* src/debug_server/debug_server.cc:144-165 DebugServer::notify *)
Definition notify {J} (root : J) (update : nat -> J -> J) (s : DebugServer) : J :=
  foldl (fun root i => update i root) root (subscriber_list_ s).

(* src/debug_server/debug_server.cc:167-200 DebugServer::update *)
Definition update (config : Configs.t) : ST DebugServer unit :=
  s ← get;
  let current_enabled := Configs.getDebugServerEnabled config in
  let current_addr := Configs.getDebugServerAddr config in
  let current_port := Configs.getDebugServerPort config in
  if running_ s then
    if current_enabled then
      if negb (current_addr =? address_ s)%string || negb (current_port =? port_ s) then
        _ ← modify stop; _ ← start current_addr current_port; mret tt
      else mret tt
    else modify stop
  else if current_enabled then _ ← start current_addr current_port; mret tt
  else mret tt.

(** the body [{"error":"Not found"}] *)
Definition not_found : string :=
  let q := String (ascii_of_nat 34) "" in
  "{" +:+ q +:+ "error" +:+ q +:+ ":" +:+ q +:+ "Not found" +:+ q +:+ "}".

(** version, headers and body; [prepare_payload] adds the length *)
(* src/debug_server/debug_server.cc:266-283 DebugServer::sendResponse *)
Definition sendResponse (c : nat) (st : Z) (text : string) (s : DebugServer) : DebugServer :=
  set_connections (<[c := Writing (mkResponse st "hebpf-debug" "application/json" text)]> (connections s)) s.

(** After an error the next connection is waited for only while running. *)
(* src/debug_server/debug_server.cc:222-251 DebugServer::doAccept *)
Definition on_accept (ec : bool) : ST DebugServer unit :=
  s ← get;
  if ec then if running_ s then doAccept else mret tt
  else
    _ ← modify (set_connections (connections s ++ [Reading]));
    doAccept.

Section Requests.
(** the report without subscribers, what a subscriber adds to it, and its text,
    which throws for a string that is not UTF-8 *)
Context {J : Type} (root : J) (tell : nat -> J -> J) (dump : J -> result exn string).

(** the socket is closed with the handler that owns it *)
(* src/debug_server/debug_server.cc:235-247 DebugServer::doAccept *)
Definition on_read (c : nat) (ec is_get : bool) (target : string) : ST DebugServer unit :=
  s ← get;
  if ec then modify (set_connections (<[c := Dropped]> (connections s)))
  else if is_get && (target =? "/api/debug")%string then
    match dump (notify root tell s) with
    | Ok text => modify (sendResponse c 200 text)
    | Err x => _ ← modify (set_connections (<[c := Dropped]> (connections s))); throw x
    end
  else modify (sendResponse c 404 not_found).

(* src/debug_server/debug_server.cc:275-281 DebugServer::sendResponse *)
Definition on_write (c : nat) (ec : bool) (r : response) (s : DebugServer) : DebugServer :=
  set_connections (<[c := if ec then Dropped else Answered r]> (connections s)) s.

End Requests.

End Server.

(** ** What can happen to a server *)

Section ServerFacts.
Context `{BuildMode}.

(** the calls of [main] and of the configuration watcher; each brings its own
    answers of the outside world *)
Inductive server_op : Type :=
| OpStart (ioctx : io_pointer) (sockets : string -> Z -> listen_outcome) (address : string) (port : Z)
| OpStop
| OpUpdate (ioctx : io_pointer) (sockets : string -> Z -> listen_outcome) (config : Configs.t)
| OpAttach (subscriber : option nat)
| OpDetach (subscriber : option nat).

Definition server_call (op : server_op) : ST DebugServer unit :=
  match op with
  | OpStart ioctx sockets address port => _ ← start ioctx sockets address port; mret tt
  | OpStop => modify stop
  | OpUpdate ioctx sockets config => update ioctx sockets config
  | OpAttach subscriber => modify (attach subscriber)
  | OpDetach subscriber => modify (detach subscriber)
  end.

(** the server after a call, whether it returns or throws *)
Definition server_exec (s : DebugServer) (op : server_op) : DebugServer := (server_call op s).2.

Lemma server_exec_start s ioctx sockets address port :
  server_exec s (OpStart ioctx sockets address port) = (start ioctx sockets address port s).2.
Proof. unfold server_exec, server_call. cbv [mbind st_bind mret st_ret]. by destruct (start _ _ _ _ s) as [[] ?]. Qed.

Lemma start_frame ioctx sockets address port s :
  let s' := (start ioctx sockets address port s).2 in
  running_ s' = running_ s /\ subscriber_list_ s' = subscriber_list_ s.
Proof.
  unfold start, setListen, doAccept, ASSERT. cbv [mbind st_bind lift modify get throw mret st_ret].
  repeat (case_match; simplify_eq/=); done.
Qed.

Lemma update_frame ioctx sockets config s :
  running_ s = false ->
  let s' := (update ioctx sockets config s).2 in
  running_ s' = false /\ subscriber_list_ s' = subscriber_list_ s.
Proof.
  intros Hr. unfold update. cbv [mbind st_bind get]. rewrite Hr.
  destruct (Configs.getDebugServerEnabled config); [| done].
  pose proof (start_frame ioctx sockets (Configs.getDebugServerAddr config) (Configs.getDebugServerPort config) s) as Hf.
  destruct (start _ _ _ _ s) as [[b | e] s']; cbn in *; destruct Hf as [Hr' Hl]; by rewrite Hr', Hr.
Qed.

Lemma never_running ops s : running_ s = false -> running_ (foldl server_exec s ops) = false.
Proof.
  revert s. induction ops as [| op ops IH]; intros s Hr; [done |]. cbn [foldl]. apply IH.
  destruct op as [| | | [i |] | [i |]]; [rewrite server_exec_start | unfold server_exec, server_call, modify, attach, detach; cbn [fst snd] ..].
  - by rewrite (proj1 (start_frame _ _ _ _ s)).
  - unfold stop. by rewrite Hr.
  - by apply update_frame.
  - by case_bool_decide.
  - done.
  - done.
  - done.
Qed.

(** running_ is never set, so the debug server cannot be stopped: in every
    reachable state stop() changes nothing, and an update with a configuration
    that disables the server leaves its acceptor listening. *)
Theorem debug_server_cannot_be_stopped (ops : list server_op) (ioctx : io_pointer) (sockets : string -> Z -> listen_outcome)
    (config : Configs.t) :
  let s := foldl server_exec newServer ops in
  stop s = s /\ (Configs.getDebugServerEnabled config = false -> update ioctx sockets config s = (Ok tt, s)).
Proof.
  cbn. assert (Hr := never_running ops newServer eq_refl). split.
  - unfold stop. by rewrite Hr.
  - intros Hoff. unfold update. cbv [mbind st_bind get]. by rewrite Hr, Hoff.
Qed.

(** every configuration update restarts an enabled server, also when
    neither address nor port changed: the acceptor is replaced, and when the
    address is refused this time the server that was listening is gone. *)
Theorem debug_server_restarts_every_time (ops : list server_op) (sockets : string -> Z -> listen_outcome)
    (config : Configs.t)
  (Hon : Configs.getDebugServerEnabled config = true) (Haddr : Configs.getDebugServerAddr config ≠ "")
  (Hport : 0 < Configs.getDebugServerPort config) :
  let s := foldl server_exec newServer ops in
  let addr := Configs.getDebugServerAddr config in
  let port := Configs.getDebugServerPort config in
  exists s', (update IoObject sockets config s).2 = s' /\ made s' = S (made s) /\
    acceptor_ s' = Some (mkAcceptor (made s) (match sockets addr port with Accepting => Some (addr, port) | _ => None end)).
Proof.
  cbn. assert (Hr := never_running ops newServer eq_refl). set (s := foldl server_exec newServer ops) in *.
  eexists. split; [done |]. unfold update. cbv [mbind st_bind get]. rewrite Hr, Hon.
  unfold start, setListen. apply String.eqb_neq in Haddr. apply Z.ltb_lt in Hport.
  cbv [mbind st_bind lift modify get throw mret st_ret]. rewrite Haddr, Hport. cbn.
  by destruct (sockets _ _).
Qed.

Lemma server_exec_connections s op : connections (server_exec s op) = connections s.
Proof.
  destruct op as [io so ad po | | io so cf | [i |] | [i |]]; [rewrite server_exec_start | unfold server_exec, server_call, modify, attach, detach; cbn [fst snd] ..]; try done.
  - unfold start, setListen, doAccept, ASSERT. cbv [mbind st_bind lift modify get throw mret st_ret].
    repeat (case_match; simplify_eq/=); done.
  - unfold stop. by case_match.
  - unfold update, stop, start, setListen, doAccept, ASSERT. cbv [mbind st_bind lift modify get throw mret st_ret].
    repeat (case_match; simplify_eq/=); done.
  - by case_bool_decide.
Qed.

(** *** Subscribers *)

Definition table_op (t : gset nat) (op : server_op) : gset nat :=
  match op with
  | OpAttach (Some i) => {[ i ]} ∪ t
  | OpDetach (Some i) => t ∖ {[ i ]}
  | _ => t
  end.

Definition subscribers_ok (s : DebugServer) (t : gset nat) : Prop :=
  NoDup (subscriber_list_ s) /\ list_to_set (subscriber_list_ s) = t.

Lemma server_exec_subscribers s t op :
  running_ s = false -> subscribers_ok s t -> subscribers_ok (server_exec s op) (table_op t op).
Proof.
  intros Hr [Hnd Ht]. destruct op as [io so ad po | | io so cf | [i |] | [i |]]; [rewrite server_exec_start | unfold server_exec, server_call, modify, attach, detach; cbn [fst snd] ..]; try done.
  - split; rewrite (proj2 (start_frame io so ad po s)); done.
  - unfold stop. rewrite Hr. done.
  - split; rewrite (proj2 (update_frame io so cf s Hr)); done.
  - case_bool_decide as Hi.
    + split; [done |]. rewrite Ht. set_solver.
    + unfold subscribers_ok, set_subscribers. cbn. split.
      * apply NoDup_app. split; [done |]. split; [set_solver | apply NoDup_singleton].
      * rewrite list_to_set_app_L, Ht. set_solver.
  - unfold subscribers_ok, set_subscribers. cbn. split; [by apply NoDup_filter |].
    apply set_eq. intros j. rewrite elem_of_list_to_set, list_elem_of_filter. set_solver.
Qed.

(** the subscriber list is a set: after any sequence of operations the
    report is written exactly once by each subscriber whose last registration
    call was attach, and by nobody else. *)
Theorem debug_subscribers_once (ops : list server_op) :
  subscribers_ok (foldl server_exec newServer ops) (foldl table_op ∅ ops) /\
  (notify [] (fun i root => root ++ [i]) (foldl server_exec newServer ops)) = subscriber_list_ (foldl server_exec newServer ops).
Proof.
  split.
  - assert (Hgen : forall s t, running_ s = false -> subscribers_ok s t ->
      subscribers_ok (foldl server_exec s ops) (foldl table_op t ops)).
    { induction ops as [| op ops' IH]; intros s t Hr Hok; [done |]. cbn. apply IH.
      - exact (never_running [op] s Hr).
      - by apply server_exec_subscribers. }
    apply Hgen; [done |]. split; [apply NoDup_nil_2 | done].
  - unfold notify. set (l := subscriber_list_ _). clearbody l.
    assert (Hl : forall acc, foldl (fun root i => root ++ [i]) acc l = acc ++ l).
    { induction l as [| i l IH]; intros acc; cbn; [by rewrite app_nil_r |]. by rewrite IH, <- app_assoc. }
    apply Hl.
Qed.

(** *** Connections *)

(** one occurrence less *)
Fixpoint take_one (k : nat) (l : list nat) : option (list nat) :=
  match l with
  | [] => None
  | j :: l => if decide (j = k) then Some l else cons j <$> take_one k l
  end.

Lemma take_one_perm k l rest : take_one k l = Some rest -> l ≡ₚ k :: rest.
Proof.
  revert rest. induction l as [| j l IH]; intros rest; cbn; [done |]. case_decide as Hj; [by intros [= <-]; subst |].
  destruct (take_one k l) as [r |]; [| done]. intros [= <-]. rewrite (IH r) by done. apply Permutation_swap.
Qed.

Lemma take_one_in k l : k ∈ l -> is_Some (take_one k l).
Proof.
  induction l as [| j l IH]; [by intros ?%not_elem_of_nil |]. cbn. intros Hk. case_decide as Hj; [by eexists |].
  destruct IH as [rest ->]; [set_solver | by eexists].
Qed.

Context {J : Type} (dump : J -> result exn string).

(** The server and the thread of the IO context, on which its handlers run: an
    exception that leaves a handler leaves [io_context::run], and the thread
    ends ([io.cc], lines 71 to 79). *)
Record Http : Type := mkHttp { server : DebugServer; io_runs : bool }.

(** Besides the calls, whose exceptions [ConfigWatcher::loadConfig] and [main]
    catch: the end of an [async_accept] of acceptor [k], of reading the request
    of connection [c], when the report starts with [root] and the subscribers
    write what [tell] says, and of writing its answer; and a handler of another
    component that throws.  The end of an operation nobody started is no
    event. *)
Inductive event : Type :=
| EvCall (op : server_op)
| EvAccept (k : nat) (ec : bool)
| EvRead (c : nat) (ec is_get : bool) (target : string) (root : J) (tell : nat -> J -> J)
| EvWrite (c : nat) (ec : bool)
| EvOtherThrows.

(** what a handler leaves behind *)
Definition handled (r : result exn unit * DebugServer) : Http := mkHttp r.2 (is_ok r.1).

(** the handlers, on a thread that runs *)
Definition on_thread (s : DebugServer) (ev : event) : Http :=
  match ev with
  | EvCall op => mkHttp (server_exec s op) true
  | EvAccept k ec =>
      match take_one k (waiting s) with
      | Some rest => handled (on_accept ec (set_waiting rest s))
      | None => mkHttp s true
      end
  | EvRead c ec is_get target root tell =>
      match connections s !! c with
      | Some Reading => handled (on_read root tell dump c ec is_get target s)
      | _ => mkHttp s true
      end
  | EvWrite c ec =>
      match connections s !! c with
      | Some (Writing r) => mkHttp (on_write c ec r s) true
      | _ => mkHttp s true
      end
  | EvOtherThrows => mkHttp s false
  end.

(* src/io/io.cc:71-79 Io::IoContext::IoContext *)
Definition http_exec (h : Http) (ev : event) : Http :=
  if io_runs h then on_thread (server h) ev
  else match ev with EvCall op => mkHttp (server_exec (server h) op) false | _ => h end.

Lemma exec_running h ev : io_runs h = true -> http_exec h ev = on_thread (server h) ev.
Proof. unfold http_exec. by intros ->. Qed.

Definition idle_server : Http := mkHttp newServer true.
Abbreviation http_run := (foldl http_exec idle_server).

Lemma http_running evs : running_ (server (http_run evs)) = false.
Proof.
  assert (Hgen : forall h, running_ (server h) = false -> running_ (server (foldl http_exec h evs)) = false); [| by apply Hgen].
  induction evs as [| ev evs IH]; intros [s alive] Hr; cbn [foldl]; [done |]. apply IH. cbn [server] in Hr. unfold http_exec. cbn [io_runs server].
  assert (Hcall : forall op, running_ (server_exec s op) = false) by (intros op; by apply (never_running [op])).
  destruct alive; [| destruct ev as [op | k ec | c ec g t root tell | c ec |]; try done; apply Hcall].
  destruct ev as [op | k ec | c ec g t root tell | c ec |]; cbn.
  - apply Hcall.
  - destruct (take_one _ _) as [rest |]; [| done]. unfold on_accept, doAccept, ASSERT.
    cbv [mbind st_bind lift modify get throw mret st_ret]. cbn. rewrite Hr. repeat (case_match; simplify_eq/=); done.
  - destruct (connections s !! c) as [[] |]; try done. unfold on_read, sendResponse.
    cbv [mbind st_bind lift modify get throw mret st_ret]. repeat (case_match; simplify_eq/=); done.
  - by destruct (connections s !! c) as [[] |].
  - done.
Qed.

(** a connection only changes at the end of its own operation *)
Lemma connection_kept h ev c x :
  connections (server h) !! c = Some x ->
  (forall ec g t r w, ev = EvRead c ec g t r w -> x <> Reading) -> (forall ec r, ev = EvWrite c ec -> x <> Writing r) ->
  connections (server (http_exec h ev)) !! c = Some x.
Proof.
  destruct h as [s alive]. intros Hc Hread Hwrite. cbn [server] in Hc. unfold http_exec. cbn [io_runs server].
  assert (Hcall : forall op, connections (server_exec s op) !! c = Some x) by (intros op; by rewrite server_exec_connections).
  destruct alive; [| destruct ev as [op | k ec | c' ec g t root tell | c' ec |]; try done; apply Hcall].
  destruct ev as [op | k ec | c' ec g t root tell | c' ec |]; cbn.
  - apply Hcall.
  - destruct (take_one _ _) as [rest |]; [| done]. unfold on_accept, doAccept, ASSERT.
    cbv [mbind st_bind lift modify get throw mret st_ret].
    repeat (case_match; simplify_eq/=); (done || by apply lookup_app_l_Some).
  - destruct (connections s !! c') as [[] |] eqn:Hc'; try done.
    assert (c' <> c) by (intros ->; rewrite Hc in Hc'; simplify_eq; by eapply Hread).
    unfold on_read, sendResponse. cbv [mbind st_bind lift modify get throw mret st_ret].
    repeat (case_match; simplify_eq/=); by rewrite list_lookup_insert_ne.
  - destruct (connections s !! c') as [[| r | |] |] eqn:Hc'; try done.
    assert (c' <> c) by (intros ->; rewrite Hc in Hc'; simplify_eq; by eapply (Hwrite _ r)).
    cbn. by rewrite list_lookup_insert_ne.
  - done.
Qed.

Lemma connection_kept_all evs h c x :
  connections (server h) !! c = Some x ->
  (forall ec g t r w, EvRead c ec g t r w ∈ evs -> x <> Reading) -> (forall ec r, EvWrite c ec ∈ evs -> x <> Writing r) ->
  connections (server (foldl http_exec h evs)) !! c = Some x.
Proof.
  revert h. induction evs as [| ev evs IH]; intros h Hc Hread Hwrite; [done |]. cbn [foldl]. apply IH.
  - apply connection_kept; [done | |]; intros ? **; subst; [eapply Hread | eapply Hwrite]; left.
  - intros ec g t r w Hin. apply (Hread ec g t r w). by right.
  - intros ec r Hin. apply (Hwrite ec r). by right.
Qed.

(** the request is the one that a report answers *)
Definition asks_report (is_get : bool) (target : string) : bool := is_get && (target =? "/api/debug")%string.

(** status and body of the answer; the exception when the report has no text *)
Definition answer (is_get : bool) (target : string) (report : result exn string) : result exn response :=
  if asks_report is_get target then text ← report; Ok (mkResponse 200 "hebpf-debug" "application/json" text)
  else Ok (mkResponse 404 "hebpf-debug" "application/json" not_found).

Lemma request_read h c is_get target root tell :
  io_runs h = true -> connections (server h) !! c = Some Reading ->
  let h' := http_exec h (EvRead c false is_get target root tell) in
  match answer is_get target (dump (notify root tell (server h))) with
  | Ok r => connections (server h') !! c = Some (Writing r) /\ io_runs h' = true
  | Err _ => connections (server h') = <[c := Dropped]> (connections (server h)) /\ io_runs h' = false
  end.
Proof.
  destruct h as [s alive]. cbn [io_runs server]. intros -> Hread. unfold http_exec. cbn [io_runs server on_thread]. rewrite Hread.
  unfold on_read, sendResponse, answer, asks_report. cbv [mbind st_bind get modify]. apply lookup_lt_Some in Hread.
  destruct (is_get && (target =? "/api/debug")%string).
  - destruct (dump (notify root tell s)); cbn; [| done]. split; [by apply list_lookup_insert_eq | done].
  - cbn. split; [by apply list_lookup_insert_eq | done].
Qed.

Lemma answer_waits h c r evs :
  connections (server h) !! c = Some (Writing r) -> (forall ec, EvWrite c ec ∉ evs) ->
  connections (server (foldl http_exec h evs)) !! c = Some (Writing r).
Proof. intros Hs Hw. apply connection_kept_all; [done | done |]. by intros ec r' Hin; destruct (Hw ec). Qed.

Lemma answer_sent h c r later :
  io_runs h = true -> connections (server h) !! c = Some (Writing r) ->
  connections (server (foldl http_exec h (EvWrite c false :: later))) !! c = Some (Answered r).
Proof.
  intros Hrun Hs. cbn [foldl]. apply connection_kept_all; [| done | done]. unfold http_exec. rewrite Hrun. cbn [on_thread]. rewrite Hs.
  apply list_lookup_insert_eq. by apply lookup_lt_Some in Hs.
Qed.

(** on a thread that has ended nothing is accepted, read or written *)
Lemma ended_thread h evs : io_runs h = false ->
  connections (server (foldl http_exec h evs)) = connections (server h) /\ io_runs (foldl http_exec h evs) = false.
Proof.
  revert h. induction evs as [| ev evs IH]; intros h Hend; [done |]. cbn [foldl].
  assert (Hstep : io_runs (http_exec h ev) = false /\ connections (server (http_exec h ev)) = connections (server h)).
  { unfold http_exec. rewrite Hend. destruct ev as [op | | | |]; try done. split; [done |]. apply server_exec_connections. }
  destruct Hstep as [Hend' Hc]. rewrite <- Hc. by apply IH.
Qed.

(** C31: A request that has been read completely, on an IO thread that runs, is
    answered once: a GET of /api/debug with status 200 and the report of the
    subscribers as they were when it was read, provided the report can be
    dumped; any other request with status 404.  Whatever other connections,
    errors and reconfigurations happen in between, the answer goes out when the
    thread still runs by then, and nothing changes it afterwards.  When the
    report cannot be dumped (a string in it is not UTF-8), the exception
    leaves the handler and ends the IO thread: the connection is dropped, and
    no connection is accepted, read or answered any more. *)
Theorem debug_request_answered (before between later : list event) (c : nat) (is_get : bool) (target : string)
  (root : J) (tell : nat -> J -> J)
  (Hruns : io_runs (http_run before) = true) (Hread : connections (server (http_run before)) !! c = Some Reading)
  (Hwrite : forall ec, EvWrite c ec ∉ between) :
  let asked := before ++ EvRead c false is_get target root tell :: between in
  match answer is_get target (dump (notify root tell (server (http_run before)))) with
  | Ok r =>
      connections (server (http_run asked)) !! c = Some (Writing r) /\
      (io_runs (http_run asked) = true ->
       connections (server (http_run (asked ++ EvWrite c false :: later))) !! c = Some (Answered r))
  | Err _ =>
      connections (server (http_run asked)) = <[c := Dropped]> (connections (server (http_run before))) /\
      io_runs (http_run asked) = false
  end.
Proof.
  cbv zeta. pose proof (request_read _ c is_get target root tell Hruns Hread) as Hanswer. cbv zeta in Hanswer.
  rewrite (foldl_app _ before). cbn [foldl]. destruct (answer _ _ _) as [r | x].
  - destruct Hanswer as [Hw _]. assert (Hs := answer_waits _ c r between Hw Hwrite). split; [exact Hs |]. intros Hstill.
    rewrite foldl_app. rewrite (foldl_app _ before). by apply answer_sent.
  - destruct Hanswer as [Hc Hend]. rewrite <- Hc. by apply ended_thread.
Qed.

(** an acceptor that listens is waited for *)
Definition served (s : DebugServer) : Prop :=
  forall k addr, acceptor_ s = Some (mkAcceptor k (Some addr)) -> k ∈ waiting s.

Lemma start_served ioctx sockets address port s : served s -> served (start ioctx sockets address port s).2.
Proof.
  intros Hs. unfold start, setListen, doAccept, ASSERT. cbv [mbind st_bind lift modify get throw mret st_ret].
  repeat (case_match; simplify_eq/=); try done; intros k addr; cbn; intros [= <- <-]; left.
Qed.

Lemma accept_served s k ec :
  running_ s = false -> served s -> (ec = true -> exists a, acceptor_ s = Some a /\ serial a <> k) ->
  served (server (on_thread s (EvAccept k ec))).
Proof.
  intros Hr Hs Hec. cbn. destruct (take_one k (waiting s)) as [rest |] eqn:Hrest; [| done]. apply take_one_perm in Hrest.
  unfold on_accept, doAccept, ASSERT. cbv [mbind st_bind lift modify get throw mret st_ret]. cbn. rewrite Hr.
  destruct ec; cbn.
  - destruct Hec as (a & Ha & Hk); [done |]. intros k' addr Ha'. cbn in *. specialize (Hs _ _ Ha').
    rewrite Ha in Ha'. simplify_eq. rewrite Hrest in Hs. cbn in Hk. set_solver.
  - destruct (acceptor_ s) as [a |] eqn:Ha; repeat (case_match; simplify_eq/=); intros k' addr Ha'; cbn in *; simplify_eq.
    all: try left; congruence.
Qed.

Lemma call_served s op : running_ s = false -> served s -> served (server_exec s op).
Proof.
  intros Hr Hs. destruct op as [io so ad po | | io so cf | [i |] | [i |]]; [rewrite server_exec_start | unfold server_exec, server_call, modify, attach, detach; cbn [fst snd] ..]; try done.
  - by apply start_served.
  - unfold stop. by rewrite Hr.
  - unfold update. cbv [mbind st_bind get]. rewrite Hr.
    destruct (Configs.getDebugServerEnabled cf); [| done].
    pose proof (start_served io so (Configs.getDebugServerAddr cf) (Configs.getDebugServerPort cf) _ Hs) as Hst.
    by destruct (start _ _ _ _ _) as [[] ?].
  - by case_bool_decide.
Qed.

(** no accept operation of the acceptor of the time fails *)
Definition accepts_fine (evs : list event) : Prop :=
  forall i j, evs !! i = Some (EvAccept j true) -> exists a, acceptor_ (server (http_run (take i evs))) = Some a /\ serial a <> j.

(** no handler throws: every report that was asked for can be dumped, and no
    handler of another component throws *)
Definition returns_after (evs : list event) (ev : event) : Prop :=
  let s := server (http_run evs) in
  match ev with
  | EvRead c false is_get target root tell => asks_report is_get target = true -> is_ok (dump (notify root tell s)) = true
  | EvOtherThrows => False
  | _ => True
  end.
Definition calm (evs : list event) : Prop := forall i ev, evs !! i = Some ev -> returns_after (take i evs) ev.

(** what holds of every event and those before it, for one event more *)
Lemma snoc_prefix {A} (P : list A -> A -> Prop) (evs : list A) (ev : A) :
  (forall i x, (evs ++ [ev]) !! i = Some x -> P (take i (evs ++ [ev])) x) ->
  (forall i x, evs !! i = Some x -> P (take i evs) x) /\ P evs ev.
Proof.
  intros Hall. split.
  - intros i x Hi. assert (Hlt := lookup_lt_Some _ _ _ Hi). rewrite <- (take_app_le evs [ev]) by lia.
    apply Hall. by apply lookup_app_l_Some.
  - specialize (Hall (length evs) ev). rewrite take_app_length in Hall. apply Hall. by rewrite list_lookup_middle.
Qed.

(** an acceptor that is waited for has been made *)
Definition has_acceptor (s : DebugServer) : Prop := acceptor_ s = None -> waiting s = [].

Lemma call_acceptor s op : has_acceptor s -> has_acceptor (server_exec s op).
Proof.
  intros Hs. destruct op as [io so ad po | | io so cf | [i |] | [i |]]; [rewrite server_exec_start | unfold server_exec, server_call, modify, attach, detach; cbn [fst snd] ..]; try done.
  - unfold start, setListen, doAccept, ASSERT. cbv [mbind st_bind lift modify get throw mret st_ret].
    repeat (case_match; simplify_eq/=); done.
  - unfold stop, has_acceptor in *. case_match; [done |]. cbn. by destruct (acceptor_ s).
  - unfold update, start, stop, setListen, doAccept, ASSERT. cbv [mbind st_bind lift modify get throw mret st_ret].
    repeat (case_match; simplify_eq/=); try done; unfold has_acceptor in *; cbn; by destruct (acceptor_ s).
  - by case_bool_decide.
Qed.

Lemma http_served evs : accepts_fine evs -> calm evs ->
  served (server (http_run evs)) /\ has_acceptor (server (http_run evs)) /\ io_runs (http_run evs) = true.
Proof.
  intros Hok Hcalm. induction evs as [| ev evs IH] using rev_ind; [done |]. rewrite foldl_app. cbn [foldl].
  apply (snoc_prefix returns_after) in Hcalm as [Hcalm Hev]. unfold returns_after in Hev.
  assert (Hok' : accepts_fine evs /\ forall j, ev = EvAccept j true -> exists a, acceptor_ (server (http_run evs)) = Some a /\ serial a <> j).
  { pose proof (snoc_prefix (fun l x => forall j, x = EvAccept j true -> exists a, acceptor_ (server (http_run l)) = Some a /\ serial a <> j) evs ev) as Hs.
    destruct Hs as [H1 H2]; [intros i x Hi j ->; by apply Hok |]. split; [| done]. intros i j Hi. by apply (H1 i _ Hi). }
  destruct Hok' as [Hok' Haccept]. destruct (IH Hok' Hcalm) as (Hs & Ha & Hrun).
  assert (Hr := http_running evs). rewrite (exec_running _ _ Hrun).
  set (s := server (http_run evs)) in *. destruct ev as [op | j ec | c ec g t root tell | c ec |].
  - split; [by apply call_served | split; [by apply call_acceptor | done]].
  - split; [apply accept_served; [done | done | intros ->; by apply Haccept] |]. cbn.
    destruct (take_one j (waiting s)) as [rest |] eqn:Hrest; [| done]. apply take_one_perm in Hrest.
    destruct (acceptor_ s) as [a |] eqn:Eacc; [| rewrite (Ha Eacc) in Hrest; by apply Permutation_nil_cons in Hrest].
    unfold on_accept, doAccept, ASSERT. cbv [mbind st_bind lift modify get throw mret st_ret]. cbn. rewrite Hr.
    destruct ec; cbn; [split; [intros Hn; cbn in Hn; congruence | done] |]. rewrite Eacc. cbn.
    split; [intros Hn; cbn in Hn; congruence | done].
  - cbn. destruct (connections s !! c) as [[] |]; try done. unfold on_read, sendResponse.
    cbv [mbind st_bind lift modify get throw mret st_ret]. destruct ec; cbn; [done |]. cbn in Hev. unfold asks_report in Hev.
    destruct (g && (t =? "/api/debug")%string); cbn; [| done]. specialize (Hev eq_refl). by destruct (dump _).
  - cbn. by destruct (connections s !! c) as [[] |].
  - done.
Qed.

(** C33: the server keeps serving, as long as no handler throws on the IO thread
    (every report asked for can be dumped, and the handlers of other components
    return) and no accept operation of the current acceptor fails: a listening acceptor is
    always waited for, and the next connection is taken and the one after it
    waited for, whatever calls, requests and errors of replaced acceptors came
    before. *)
Theorem debug_server_keeps_serving (evs : list event) (k : nat) (addr : string * Z)
  (Hok : accepts_fine evs) (Hcalm : calm evs)
  (Hlisten : acceptor_ (server (http_run evs)) = Some (mkAcceptor k (Some addr))) :
  io_runs (http_run evs) = true /\ k ∈ waiting (server (http_run evs)) /\
  connections (server (http_run (evs ++ [EvAccept k false]))) = connections (server (http_run evs)) ++ [Reading] /\
  k ∈ waiting (server (http_run (evs ++ [EvAccept k false]))).
Proof.
  destruct (http_served evs Hok Hcalm) as (Hs & _ & Hrun). specialize (Hs k addr Hlisten). do 2 (split; [done |]).
  rewrite !foldl_app. cbn [foldl]. rewrite (exec_running _ _ Hrun). cbn [on_thread].
  destruct (take_one_in _ _ Hs) as [rest Hrest]. rewrite Hrest. unfold on_accept, doAccept, ASSERT.
  cbv [mbind st_bind lift modify get throw mret st_ret]. cbn. rewrite Hlisten.
  rewrite bool_decide_true by (by eexists). cbn. split; [done | left].
Qed.

(** one failed accept makes the server deaf: running_ is never set, so the
    handler does not wait again; the acceptor still listens, and until the next
    start no event adds a connection. *)
Theorem debug_accept_error_deafens (evs later : list event) (k : nat)
  (Hruns : io_runs (http_run evs) = true) (Hwait : waiting (server (http_run evs)) = [k])
  (Hlater : forall op, EvCall op ∈ later ->
    match op with OpStart _ _ _ _ | OpUpdate _ _ _ => False | _ => True end) :
  let s := server (http_run (evs ++ EvAccept k true :: later)) in
  waiting s = [] /\ acceptor_ s = acceptor_ (server (http_run evs)) /\
  length (connections s) = length (connections (server (http_run evs))).
Proof.
  cbn zeta. induction later as [| ev later IH] using rev_ind.
  - rewrite foldl_app. cbn [foldl]. rewrite (exec_running _ _ Hruns). cbn [on_thread]. rewrite Hwait. cbn. rewrite decide_True by done.
    unfold on_accept. cbv [mbind st_bind get mret st_ret]. cbn. by rewrite http_running.
  - change (EvAccept k true :: later ++ [ev]) with ((EvAccept k true :: later) ++ [ev]). rewrite app_assoc, foldl_app.
    destruct IH as (Hw & Ha & Hc); [intros op Hin; apply (Hlater op); set_solver |]. rewrite <- Ha, <- Hc. cbn [foldl].
    assert (Hr := http_running (evs ++ EvAccept k true :: later)).
    destruct (http_run (evs ++ EvAccept k true :: later)) as [s alive]. cbn [server] in *. clear Ha Hc.
    assert (Hcall : forall op, ev = EvCall op -> waiting (server_exec s op) = [] /\
      acceptor_ (server_exec s op) = acceptor_ s /\ length (connections (server_exec s op)) = length (connections s)).
    { intros op ->. assert (Hop := Hlater op ltac:(set_solver)). destruct op as [| | | [i |] | [i |]]; try done; unfold server_exec; cbn.
      - unfold stop. by rewrite Hr.
      - by case_bool_decide. }
    destruct alive; unfold http_exec; cbn [io_runs server];
      [| destruct ev as [op | | | |]; try done; by apply Hcall].
    destruct ev as [op | j ec | c ec g t root tell | c ec |]; cbn.
    + by apply Hcall.
    + by rewrite Hw.
    + destruct (connections s !! c) as [[] |]; try done. unfold on_read, sendResponse.
      cbv [mbind st_bind lift modify get throw mret st_ret].
      repeat (case_match; simplify_eq/=); by rewrite length_insert.
    + destruct (connections s !! c) as [[] |]; try done. cbn. by rewrite length_insert.
    + done.
Qed.

End ServerFacts.

Module Sample.

#[local] Instance release : BuildMode := true.
Definition free : string -> Z -> listen_outcome := fun _ _ => Accepting.
Definition taken : string -> Z -> listen_outcome := fun _ _ => Refused.
Definition on : Configs.t := Configs.setDebugServerEnabled true Configs.default.

(** two subscribers; a request while the configuration changes *)
Definition tell (i : nat) (root : list nat) : list nat := root ++ [i].
Definition dump (root : list nat) : result exn string := Ok (if decide (root = [1; 2]%nat) then "both" else "").
Definition connected : list (event (J := list nat)) :=
  [EvCall (OpAttach (Some 1%nat)); EvCall (OpAttach (Some 2%nat)); EvCall (OpUpdate IoObject free on); EvAccept 0 false].
Definition meanwhile : list (event (J := list nat)) :=
  [EvCall (OpDetach (Some 2%nat)); EvCall (OpUpdate IoObject free on); EvAccept 0 true; EvAccept 1 false; EvRead 1 true true "" [] tell].
(** the text of a report that is not UTF-8 *)
Definition no_text (root : list nat) : result exn string := Err (StdException "invalid UTF-8 byte").

(** an answer, and a report that has no text *)
Lemma debug_request_answered_witness :
  connections (server (foldl (http_exec dump) idle_server (connected ++ EvRead 0 false true "/api/debug" [] tell :: meanwhile ++ [EvWrite 0 false]))) !! 0%nat
  = Some (Answered (mkResponse 200 "hebpf-debug" "application/json" "both")) /\
  io_runs (foldl (http_exec no_text) idle_server (connected ++ EvRead 0 false true "/api/debug" [] tell :: meanwhile)) = false.
Proof.
  split.
  - refine (proj2 (debug_request_answered dump connected meanwhile [] 0 true "/api/debug" [] tell _ _ _) _).
    + vm_compute. reflexivity.
    + vm_compute. reflexivity.
    + intros ec Hin. repeat (apply elem_of_cons in Hin as [Heq | Hin]; [discriminate Heq |]). by apply not_elem_of_nil in Hin.
    + vm_compute. reflexivity.
  - refine (proj2 (debug_request_answered no_text connected meanwhile [] 0 true "/api/debug" [] tell _ _ _)).
    + vm_compute. reflexivity.
    + vm_compute. reflexivity.
    + intros ec Hin. repeat (apply elem_of_cons in Hin as [Heq | Hin]; [discriminate Heq |]). by apply not_elem_of_nil in Hin.
Defined.

Lemma debug_server_keeps_serving_witness :
  1%nat ∈ waiting (server (foldl (http_exec dump) idle_server (connected ++ meanwhile))).
Proof.
  refine (proj1 (proj2 (debug_server_keeps_serving dump (connected ++ meanwhile) 1 ("127.0.0.1", 9999) _ _ _))).
  - intros i j Hi. do 9 (destruct i as [| i]; [first [discriminate Hi | injection Hi as <-; eexists; split; [vm_compute; reflexivity | discriminate]] |]).
    discriminate Hi.
  - intros i ev Hi. do 9 (destruct i as [| i]; [injection Hi as <-; vm_compute; first [exact Logic.I | reflexivity | discriminate] |]).
    discriminate Hi.
  - vm_compute. reflexivity.
Defined.

Lemma debug_accept_error_deafens_witness :
  waiting (server (foldl (http_exec dump) idle_server (connected ++ [EvAccept 0 true; EvAccept 0 false]))) = [].
Proof.
  refine (proj1 (debug_accept_error_deafens dump connected [EvAccept 0 false] 0 _ _ _)).
  - vm_compute. reflexivity.
  - vm_compute. reflexivity.
  - intros op Hin. apply list_elem_of_singleton in Hin. discriminate Hin.
Defined.

Lemma debug_server_restarts_every_time_witness :
  exists s', (update IoObject taken on (foldl server_exec newServer [OpUpdate IoObject free on])).2 = s' /\
    acceptor_ s' = Some (mkAcceptor 1 None).
Proof.
  destruct (debug_server_restarts_every_time [OpUpdate IoObject free on] taken on) as (s' & Hs & _ & Ha);
    [reflexivity | discriminate | reflexivity |].
  exists s'. split; [exact Hs | exact Ha].
Defined.

Lemma debug_server_cannot_be_stopped_witness :
  update IoObject free Configs.default (foldl server_exec newServer [OpUpdate IoObject free on])
  = (Ok tt, foldl server_exec newServer [OpUpdate IoObject free on]).
Proof. apply (debug_server_cannot_be_stopped [OpUpdate IoObject free on] IoObject free Configs.default). reflexivity. Defined.

End Sample.
