(* ===== verification/Inspect.v ===== *)
(** * What a debug request shows

    The debug server ([DebugServer.v]) with the daemon as its subscriber, the
    way [main] connects them: a request is answered with the report
    ([Report.v]) of a daemon that has been through a sequence of configurations
    ([Reconfig.v]), so that the answer can be compared with the last of them. *)

From stdpp Require Import sorting.
From S2P Require Import Prelude Configs Names BpfMap Json Net ProgMap Acl Lb Packet Queue Loader Services Daemon System Reconfig Report Firewall DebugServer.
From S2P Require NetHook.

#[local] Open Scope string_scope.
#[local] Open Scope Z_scope.
#[local] Open Scope list_scope.

(** ** The only subscriber *)

Section Subscriber.
Context `{BuildMode} {J : Type} (dump : J -> result exn string).

(** [me] has been attached, is not detached, and nobody else was attached *)
Record only_subscriber (me : nat) (evs : list (event (J := J))) : Prop := {
  os_attached : EvCall (OpAttach (Some me)) ∈ evs;
  os_stays : EvCall (OpDetach (Some me)) ∉ evs;
  os_alone : forall other, EvCall (OpAttach (Some other)) ∈ evs -> other = me
}.

Definition subscribers_after (op : server_op) (l : list nat) : list nat :=
  match op with
  | OpAttach (Some i) => if bool_decide (i ∈ l) then l else l ++ [i]
  | OpDetach (Some i) => filter (fun j => j ≠ i) l
  | _ => l
  end.

Lemma event_subscribers h ev :
  running_ (server h) = false ->
  subscriber_list_ (server (http_exec dump h ev)) =
    match ev with
    | EvCall op => subscribers_after op (subscriber_list_ (server h))
    | _ => subscriber_list_ (server h)
    end.
Proof.
  destruct h as [s alive]. cbn [server io_runs]. intros Hr.
  assert (Hcall : forall op, subscriber_list_ (server_exec s op) = subscribers_after op (subscriber_list_ s)).
  { intros [io so ad po | | io so cf | [i |] | [i |]]; [rewrite server_exec_start | unfold server_exec; cbn ..]; try done.
    - apply start_frame.
    - unfold stop. by rewrite Hr.
    - by apply update_frame.
    - by case_bool_decide. }
  unfold http_exec. cbn [io_runs server].
  destruct alive; [| destruct ev as [op | | | |]; try done; apply Hcall].
  destruct ev as [op | k ec | c ec g t root tell | c ec |]; cbn.
  - apply Hcall.
  - destruct (take_one _ _) as [rest |]; [| done]. unfold on_accept, doAccept, ASSERT.
    cbv [mbind st_bind lift modify get throw mret st_ret]. repeat (case_match; simplify_eq/=); done.
  - destruct (connections s !! c) as [[] |]; try done. unfold on_read, sendResponse.
    cbv [mbind st_bind lift modify get throw mret st_ret]. repeat (case_match; simplify_eq/=); done.
  - by destruct (connections s !! c) as [[] |].
  - done.
Qed.

(** until its attachment the list is empty; then it holds it alone *)
Lemma subscribed_alone me evs :
  EvCall (OpDetach (Some me)) ∉ evs -> (forall other, EvCall (OpAttach (Some other)) ∈ evs -> other = me) ->
  let l := subscriber_list_ (server (foldl (http_exec dump) idle_server evs)) in
  (l = [] \/ l = [me]) /\ (EvCall (OpAttach (Some me)) ∈ evs -> l = [me]).
Proof.
  induction evs as [| ev evs IH] using rev_ind; intros Hstay Halone; cbn zeta.
  { split; [by left | by intros ?%not_elem_of_nil]. }
  destruct IH as [IH1 IH2]; [set_solver | intros other Hin; apply Halone; set_solver |].
  rewrite foldl_app. cbn [foldl]. rewrite event_subscribers by apply http_running.
  set (h := foldl (http_exec dump) idle_server evs) in *. set (l := subscriber_list_ (server h)) in *.
  assert (Hother : EvCall (OpAttach (Some me)) ∈ evs ++ [ev] -> EvCall (OpAttach (Some me)) <> ev -> l = [me]) by set_solver.
  destruct ev as [op | | | |]; try by (split; [done | intros Hin; apply Hother]).
  destruct op as [| | | [i |] | [i |]]; cbn [subscribers_after]; try by (split; [done | intros Hin; apply Hother]).
  - assert (i = me) as -> by (apply Halone; set_solver). destruct IH1 as [-> | ->]; cbn.
    + rewrite bool_decide_eq_false_2 by apply not_elem_of_nil. auto.
    + rewrite bool_decide_eq_true_2 by set_solver. auto.
  - assert (i <> me) by (intros ->; apply Hstay; set_solver). split.
    + destruct IH1 as [-> | ->]; [by left | right]. by rewrite filter_cons_True.
    + intros Hin. rewrite (Hother Hin) by done. by rewrite filter_cons_True.
Qed.

Lemma only_one_tells me evs root (tell : nat -> J -> J) :
  only_subscriber me evs -> notify root tell (server (foldl (http_exec dump) idle_server evs)) = tell me root.
Proof. intros [Hin Hstay Halone]. unfold notify. by rewrite (proj2 (subscribed_alone me evs Hstay Halone) Hin). Qed.

End Subscriber.

(** ** The answer and the configuration *)

Section Inspect.
Context {I json IM M A P : Type} `{!JsonLib json, !JsonLaws json} `{!EbpfIf I json, !EbpfLaws I json}.
Context `{!InotifyManagerIf IM, !InotifyManagerLaws IM}.
Context `{!BpfHash M Z Z, !BpfHashLaws M Z Z} `{!BpfProgArray A P}.
Context (prog_id : P -> Z) (prog_of_fd : Z -> option P) `{!BpfProgArrayLaws A P prog_of_fd MAX_CHAIN_PROGS}.
Context `{!UMapOrder string, !UMapOrder Z, !UMapOrder HookType}.
#[local] Existing Instance release_build.
Context (dl : string -> library I) (json_null : json) (read_json : string -> json).
Context (std_sort : list order_entry -> list order_entry) (std_sort_perm : forall l, std_sort l ≡ₚ l)
  (std_sort_sorted : forall l, Sorted (fun e1 e2 : order_entry => e1.1.1 <= e2.1.1) (std_sort l)).
Context (nic : HookType -> Z) (hmaps : HookType -> HookMaps) (p0 : PinnedProgMap).
(** [fmt]'s [{:#x}] and the JSON values [JsonLib] does not have *)
Context (fmt_hex : Z -> string) (jnull : json) (jbool : bool -> json).

Abbreviation loader := (Loader I IM (chain (M := M) (A := A))).
#[local] Instance inspect_loader : LoaderIf loader I := the_loader dl json_null read_json.
#[local] Instance inspect_laws : LoaderLaws loader I := the_loader_laws dl json_null read_json.

Abbreviation report_of := (daemon_status prog_id fmt_hex jnull jbool).

(** an entry of the service list is about this entry of the configuration *)
Definition entry_shown (svc : json) (c : ConfigEbpf.t) (o : I) : Prop :=
  jget svc "so_path" = Some (jstring (ConfigEbpf.getLib c)) /\ jget svc "config_path" = Some (jstring (ConfigEbpf.getConfig c)) /\
  jget svc "hook" = Some (jstring (enumName (ConfigEbpf.getHook c))) /\
  jget svc "ifindex" = Some (jnumber (ConfigEbpf.getIfindex c)) /\ jget svc "status" = Some (Loader.getDebugStatus o).

(** the maps of a hook show its programs: their positions in the id hash, and
    in the program array these and what is in the slot of the scheduler *)
Definition hook_shown (chains : json) (final : EbpfMap) (k : Kernel M A) (h : HookType) : Prop :=
  exists elems ids cs,
    jget chains (pin_path_id_to_index (hmaps h)) = Some (hash_to_json (mkEbpfHash elems)) /\
    jget chains (pin_path_prog_array (hmaps h)) = Some (array_to_json (mkEbpfArray ids)) /\
    cs ≡ₚ hook_entries h final /\ Sorted by_order cs /\
    (forall n c, cs !! n = Some c ->
      mkHashElem (fmt_hex (CHAIN_KEY (nic h) (own_program p0 c))) (Z.of_nat (S n)) ∈ elems) /\
    forall id, id ∈ ids <-> id <> 0 /\ (id ∈ own_program p0 <$> cs \/ prog_id <$> slot_at hmaps k h 0 = Some id).

(** [Q]: what is claimed of every loaded object *)
Definition configuration_shown (Q : string -> service_view -> I -> Prop) (final : EbpfMap) (d : Daemon loader)
  (k : Kernel M A) (report : json) : Prop :=
  exists dj (svcs : list json) chains, jget report "Daemon" = Some dj /\ jget dj "running" = Some (jbool (Daemon.running_ d)) /\
    jget dj "Loader" = Some (jarray (svcs ++ [chains])) /\
    (forall x c, final !! x = Some c -> exists svc o, svc ∈ svcs /\ entry_shown svc c o /\
       getService (ConfigEbpf.getLib c) (loader_ d) = Some o /\ Q (ConfigEbpf.getLib c) (entry_view c) o) /\
    (forall svc, svc ∈ svcs -> (exists x c o, final !! x = Some c /\ entry_shown svc c o) \/
       exists so v, is_scheduler so v /\ jget svc "so_path" = Some (jstring so)) /\
    forall h, prepared hmaps p0 h -> hook_entries h final <> [] -> hook_shown chains final k h.

Abbreviation runs := (running_as prog_id dl json_null read_json std_sort nic hmaps p0).

Lemma describes_entry svc (s : ServiceHandle I) c o :
  describes svc (ConfigEbpf.getLib c) s -> view s = entry_view c -> instance s = Some o -> entry_shown svc c o.
Proof.
  intros (Hso & _ & Hconf & Hh & Hi & Hst) Hv Ho. unfold view, entry_view in Hv. injection Hv as Hv1 Hv2 Hv3.
  rewrite Ho in Hst. unfold entry_shown. by rewrite <- Hv1, <- Hv2, <- Hv3.
Qed.

Lemma services_shown Q final (d : Daemon loader) (svcs : list json) :
  daemon_ok final d -> objects_ok Q (loader_ d) ->
  (forall so s, services_ (loader_ d) !! so = Some s -> exists svc, svc ∈ svcs /\ describes svc so s) ->
  (forall svc, svc ∈ svcs -> exists so s, services_ (loader_ d) !! so = Some s /\ describes svc so s) ->
  (forall x c, final !! x = Some c -> exists svc o, svc ∈ svcs /\ entry_shown svc c o /\
     getService (ConfigEbpf.getLib c) (loader_ d) = Some o /\ Q (ConfigEbpf.getLib c) (entry_view c) o) /\
  (forall svc, svc ∈ svcs -> (exists x c o, final !! x = Some c /\ entry_shown svc c o) \/
     exists so v, is_scheduler so v /\ jget svc "so_path" = Some (jstring so)).
Proof.
  intros Hd Hq Hall Honly.
  assert (Hentry : forall x c, final !! x = Some c -> exists s o, services_ (loader_ d) !! ConfigEbpf.getLib c = Some s /\
    view s = entry_view c /\ instance s = Some o /\ Q (ConfigEbpf.getLib c) (entry_view c) o).
  { intros x c Hx. assert (Hl : loaded (loader_ d) !! ConfigEbpf.getLib c = Some (entry_view c)).
    { apply (dk_loaded _ _ Hd x), with_schedulers_spec. by left. }
    destruct (Hq _ _ Hl) as (o & Ho & HQo). unfold loaded in Hl. rewrite lookup_fmap in Hl. unfold getService in Ho.
    destruct (services_ (loader_ d) !! ConfigEbpf.getLib c) as [s |]; [| discriminate Hl]. cbn in Hl, Ho.
    apply (inj Some) in Hl. by exists s, o. }
  split.
  - intros x c Hx. destruct (Hentry x c Hx) as (s & o & Hs & Hv & Ho & HQo). destruct (Hall _ _ Hs) as (svc & Hin & Hsvc).
    exists svc, o. split; [done |]. split; [by apply (describes_entry svc s) |]. unfold getService. by rewrite Hs.
  - intros svc Hin. destruct (Honly svc Hin) as (so & s & Hs & Hsvc). destruct (no_char ";" so) eqn:Hplain.
    + left. destruct (dk_plain _ _ Hd so Hplain) as (x & c & Hx & <-); [by apply loaded_lookup; eexists |].
      destruct (Hentry x c Hx) as (s' & o & Hs' & Hv & Ho & _). rewrite Hs in Hs'. injection Hs' as <-.
      exists x, c, o. split; [done |]. by apply (describes_entry svc s).
    + right. exists so, (view s). split; [| by apply Hsvc]. apply (dk_sched _ _ Hd so _ Hplain). cbn. unfold loaded.
      by rewrite lookup_fmap, Hs.
Qed.

Abbreviation fit := (chains_fit prog_id prog_of_fd dl json_null read_json std_sort nic hmaps p0).

(** the entries of a hook in their order, as the chain has them *)
Lemma sorted_programs h final : exists cs,
  cs ≡ₚ hook_entries h final /\ Sorted by_order cs /\ ids std_sort nic p0 h final = own_program p0 <$> cs.
Proof.
  destruct (chain_of_entries std_sort std_sort_perm std_sort_sorted nic h final) as (cs & Hperm & Hsorted & _ & Hnames).
  exists cs. split; [done |]. split; [done |]. unfold ids. by rewrite Hnames, <- list_fmap_compose.
Qed.

(** the slots behind the first are those of the chain's programs *)
Lemma slots_shown Q final (d : Daemon loader) k h a id :
  fit final -> runs Q final d k -> prepared hmaps p0 h -> arrays k !! prog_array_fd (hmaps h) = Some a ->
  (exists slot, 0 <= slot < MAX_CHAIN_PROGS /\ prog_id <$> pa_lookup a slot = Some id) <->
  id ∈ ids std_sort nic p0 h final \/ prog_id <$> slot_at hmaps k h 0 = Some id.
Proof.
  intros Hfit [_ _ [_ _ Hslots] _ Hfree] Hh Ha. pose proof (cf_fits _ _ _ _ _ _ _ _ _ _ Hfit h Hh) as Hroom.
  assert (Hslot : forall j, pa_lookup a j = slot_at hmaps k h j) by (intros j; unfold slot_at; by rewrite Ha).
  split.
  - intros (slot & Hr & Hid). destruct (decide (slot = 0)) as [-> | Hne]; [right; by rewrite <- Hslot |]. left.
    rewrite Hslot in Hid. destruct (ids std_sort nic p0 h final !! Z.to_nat (slot - 1)) as [id' |] eqn:E.
    + destruct (Hslots h _ _ Hh E) as (q & Hq & Hid').
      replace (Z.of_nat (S (Z.to_nat (slot - 1)))) with slot in Hq by lia. rewrite Hq in Hid. cbn in Hid.
      apply list_elem_of_lookup_2 in E. congruence.
    + apply lookup_ge_None in E. rewrite Hfree in Hid by (done || lia). discriminate Hid.
  - intros [(n & Hn)%list_elem_of_lookup | Hid]; [| exists 0; rewrite Hslot; by split; [chain_consts; lia |]].
    pose proof (lookup_lt_Some _ _ _ Hn) as Hlt. destruct (Hslots h n id Hh Hn) as (q & Hq & Hid).
    exists (Z.of_nat (S n)). split; [lia |]. rewrite Hslot, Hq. cbn. by f_equal.
Qed.

(** what the report says of a daemon that runs a configuration *)
Lemma report_shows {T} Q final (d : Daemon loader) k (queue : Queue.Queue T) root :
  fit final -> runs Q final d k -> NoDup root.*1 -> NoDup (map_to_list (hook_maps_ p0) ≫= paths) ->
  configuration_shown Q final d k (jobject (report_of d queue root)).
Proof.
  intros Hfit Hd Hroot Hpaths. pose proof Hd as [Hdk (R & HR & _) [Htab Hidx _] Hq _].
  destruct (daemon_reported prog_id fmt_hex jnull jbool d queue root (set_regions R p0) k Hroot HR Hpaths)
    as (dj & svcs & chains & Hdj & _ & Hrunning & Hlist & _ & Hall & Honly & Hhooks).
  exists dj, svcs, chains. do 3 (split; [done |]).
  destruct (services_shown Q final d svcs Hdk Hq Hall Honly) as [Hentries Hothers]. split; [done |]. split; [done |].
  intros h Hh Hne. destruct (Htab h Hh) as [(m & Hm & H0 & _) [a Ha]].
  destruct (Hhooks h (hmaps h) m a Hh Hm H0 Ha) as (elems & shown & Hj1 & _ & Helems & Hj2 & Hshown).
  destruct (sorted_programs h final) as (cs & Hperm & Hsorted & Hids). exists elems, shown, cs. do 4 (split; [done |]). split.
  - intros n c Hc. apply Helems. assert (Hnil : ids std_sort nic p0 h final <> []).
    { rewrite Hids. by destruct cs. }
    pose proof (Hidx h Hh Hnil (S n) (own_program p0 c)) as Hn. unfold index_at in Hn. rewrite Hm in Hn. apply Hn.
    trans ((own_program p0 <$> cs) !! n); [by rewrite Hids | by rewrite list_lookup_fmap, Hc].
  - intros id. rewrite Hshown, (slots_shown Q final d k h a id Hfit Hd Hh Ha), Hids. done.
Qed.

(** the next request for the report, and what came before and comes between *)
Abbreviation http_event := (event (J := list (string * json))).
Record debug_request (dump : list (string * json) -> result exn string) (me c : nat) (before between : list http_event) : Prop := {
  dr_subscriber : only_subscriber me before;
  dr_thread : io_runs (foldl (http_exec dump) idle_server before) = true;
  dr_reading : connections (server (foldl (http_exec dump) idle_server before)) !! c = Some Reading;
  dr_unwritten : forall ec, EvWrite c ec ∉ between
}.

(** the report is the answer to it, once it has been dumped and while the
    thread that answers runs *)
Definition report_answered (dump : list (string * json) -> result exn string) (me c : nat) (before between later : list http_event)
  (root : list (string * json)) (tell_me : list (string * json) -> list (string * json)) : Prop :=
  forall tell text, tell me = tell_me -> dump (tell_me root) = Ok text ->
    let asked := before ++ EvRead c false true "/api/debug" root tell :: between in
    io_runs (foldl (http_exec dump) idle_server asked) = true ->
    connections (server (foldl (http_exec dump) idle_server (asked ++ EvWrite c false :: later))) !! c
    = Some (Answered (mkResponse 200 "hebpf-debug" "application/json" text)).

Lemma daemon_answers {T} (d : Daemon loader) (queue : Queue.Queue T) (dump : list (string * json) -> result exn string)
  me c before between later root :
  debug_request dump me c before between -> report_answered dump me c before between later root (report_of d queue).
Proof.
  intros [Hsub Hruns Hread Hwrite] tell text Htell Htext. cbv zeta. rewrite !(foldl_app _ before). cbn [foldl].
  pose proof (request_read dump _ c true "/api/debug" root tell Hruns Hread) as Hanswer. cbv zeta in Hanswer.
  rewrite (only_one_tells dump me before root tell Hsub), Htell, Htext in Hanswer. destruct Hanswer as [Hw _].
  intros Hstill. rewrite foldl_app, (foldl_app _ before). cbn [foldl]. apply answer_sent; [exact Hstill |].
  by apply answer_waits.
Qed.

(** C6: The debug answer shows the configuration. A running daemon, the only
    subscriber of the debug server, has been told a sequence of configurations
    in each of which all entries of a hook are on one interface, that of its
    first region; every library can be loaded, has a known program and is in
    one entry; a library in use goes to an entry of another name only when its
    old entry goes; no chain outgrows its program array or gets shorter, and
    no program that stays moves; at first nothing is behind the chains. Then
    the report lists every program of the last configuration with its library,
    file, hook, interface and the status of its object, and nothing else but
    schedulers; and the maps of each hook show its programs at their
    positions, and no other program but the scheduler's. The next request for
    /api/debug that is read completely is answered with it, with status 200,
    provided the report can be dumped and the IO thread runs until the answer
    is written. *)
Theorem debug_answer_shows_configuration {T} (Q : string -> service_view -> I -> Prop) (base : EbpfMap) (l : list Configs.t)
  (d : Daemon loader) (k : Kernel M A) (queue : Queue.Queue T) (dump : list (string * json) -> result exn string)
  (me c : nat) (before between later : list event) (root : list (string * json))
  (HQ : object_claim dl json_null read_json Q) (Hman : manager_ok nic hmaps p0)
  (Hbase : config_ok (li_loadable (L := loader)) base) (Hfit : fit base)
  (Hl : configurations prog_id prog_of_fd dl json_null read_json std_sort nic hmaps p0 base l) (Hd : runs Q base d k)
  (Hpaths : NoDup (map_to_list (hook_maps_ p0) ≫= paths)) (Hroot : NoDup root.*1)
  (Hrequest : debug_request dump me c before between) :
  exists d' k', updates dl json_null read_json std_sort l d = (Ok tt, d') /\
    configuration_shown Q (final_table base l) d' k' (jobject (report_of d' queue root)) /\
    report_answered dump me c before between later root (report_of d' queue).
Proof.
  destruct (updates_run prog_id prog_of_fd dl json_null read_json std_sort std_sort_perm std_sort_sorted nic hmaps p0
              Q l base d k HQ Hman Hbase Hfit Hl Hd) as (d' & k' & Hups & Hd' & Hfit' & _).
  exists d', k'. split; [done |]. split; [by apply report_shows | by apply daemon_answers].
Qed.

End Inspect.

(** ** The rules in the answer and the rules in force *)

Section Rules.
Context {K V B L json IM M A P : Type} `{!BpfHash K ipv4_tuple Z, !BpfHashLaws K ipv4_tuple Z}.
Context `{!BpfHash V vip_key vip_group, !BpfHashLaws V vip_key vip_group}.
Context `{!BpfArray B backend_info, !BpfArrayLaws B backend_info TOTAL_BACKENDS} `{!BpfArray L (list Z)}.
Context `{!JsonLib json, !JsonLaws json} `{!InotifyManagerIf IM, !InotifyManagerLaws IM}.
Context `{!BpfHash M Z Z, !BpfHashLaws M Z Z} `{!BpfProgArray A P}.
Context (prog_id : P -> Z) (prog_of_fd : Z -> option P) `{!BpfProgArrayLaws A P prog_of_fd MAX_CHAIN_PROGS}.
Context `{!UMapOrder string, !UMapOrder Z, !UMapOrder HookType}.
#[local] Existing Instance release_build.
Context (e : skeleton -> env NetHook.netcall NetHook.netresp) (Haccept : forall sk, NetHook.accepting (e sk)).
Context (make_address_v4 : string -> option Z) (mac_init : list Z) (json_null : json).
Context (krules : K) (vips : V) (pool : B) (lomac : L).
Context (dl : string -> library (service K V B L)) (read_json : string -> json).
Context (std_sort : list order_entry -> list order_entry) (std_sort_perm : forall l, std_sort l ≡ₚ l)
  (std_sort_sorted : forall l, Sorted (fun e1 e2 : order_entry => e1.1.1 <= e2.1.1) (std_sort l)).
Context (nic : HookType -> Z) (hmaps : HookType -> HookMaps) (p0 : PinnedProgMap).
Context (fmt_hex : Z -> string) (jnull : json) (jbool : bool -> json).

#[local] Instance rules_objs : EbpfIf (service K V B L) json :=
  all_services e make_address_v4 mac_init json_null krules vips pool lomac.
#[local] Instance rules_objs_laws : EbpfLaws (service K V B L) json :=
  all_laws e make_address_v4 mac_init json_null krules vips pool lomac.
Abbreviation machine := (Loader (service K V B L) IM (chain (M := M) (A := A))).
#[local] Instance rules_machine : LoaderIf machine (service K V B L) := the_loader dl json_null read_json.
#[local] Instance rules_laws : LoaderLaws machine (service K V B L) := the_loader_laws dl json_null read_json.

Abbreviation every_object := (object_fine e make_address_v4 mac_init json_null krules vips pool lomac dl read_json).

(** dropping the rules that have no effect changes nothing *)
Lemma entries_valid (rs : list AclRulesElem.t) : entries (valid_rules rs) = entries rs.
Proof.
  induction rs as [| r rs IH]; [done |]. rewrite valid_rules_cons, (entries_cons r rs).
  destruct (rule_entry r) as [entry |] eqn:E; [| done]. by rewrite entries_cons, E, IH.
Qed.

Lemma valid_rules_wf rs : Forall elem_wf rs -> Forall elem_wf (valid_rules rs).
Proof. rewrite !Forall_forall. intros Hrs r [_ Hr]%list_elem_of_filter. by apply Hrs. Qed.

Lemma valid_rules_deny rs p :
  Forall elem_wf rs -> Policy.packet_wf p -> Policy.denied (valid_rules rs) p = Policy.denied rs p.
Proof. intros Hrs Hp. rewrite <- !last_of_denied by (done || by apply valid_rules_wf). by rewrite entries_valid. Qed.

(** C5: The debug answer shows the rules that are in force. After a sequence
    of configurations as in [updates_reach_packets] (per hook one interface,
    that of its first region; libraries loadable and used once; chains not
    getting shorter), the last of which has the ACL with a rule file that
    decodes and fits the table: the report lists the ACL with a status from
    which rules can be read, namely those of the file that take effect; and
    the filter in the kernel drops exactly the TCP and UDP packets that these
    rules deny, hands on the others, and passes frames without one. What rules
    deny is said by [Policy], independently of the loader and the filter; UDP
    packets with twelve or more bytes of payload and TCP packets without a
    complete header count as packets from port 0 to port 0. The next request
    for /api/debug, with the daemon as only subscriber, is answered with this
    report, when it can be dumped and the IO thread runs. *)
Theorem debug_answer_shows_enforced_rules {T} (base : EbpfMap) (l : list Configs.t) (d : Daemon machine) (k : Kernel M A)
  (queue : Queue.Queue T) (dump : list (string * json) -> result exn string)
  (me c : nat) (before between later : list event) (root : list (string * json))
  (x : string) (ce : ConfigEbpf.t) (rs : list AclRulesElem.t)
  (Hman : manager_ok nic hmaps p0) (Hbase : config_ok (li_loadable (L := machine)) base)
  (Hfit : chains_fit prog_id prog_of_fd dl json_null read_json std_sort nic hmaps p0 base)
  (Hl : configurations prog_id prog_of_fd dl json_null read_json std_sort nic hmaps p0 base l)
  (Hd : running_as prog_id dl json_null read_json std_sort nic hmaps p0 every_object base d k)
  (Hpaths : NoDup (map_to_list (hook_maps_ p0) ≫= paths)) (Hroot : NoDup root.*1)
  (Hx : final_table base l !! x = Some ce)
  (Hacl : acl_library dl (ConfigEbpf.getLib ce) (ConfigEbpf.getHook ce) (ConfigEbpf.getIfindex ce) (ConfigEbpf.getConfig ce))
  (Hfile : acl_file krules read_json (ConfigEbpf.getConfig ce) rs)
  (Hrequest : debug_request dump me c before between) :
  exists d' o table dj (svcs : list json) chains svc status, updates dl json_null read_json std_sort l d = (Ok tt, d') /\
    getService (ConfigEbpf.getLib ce) (loader_ d') = Some (SAcl o) /\ Services.maps o = Some table /\
    (forall data, Policy.ipv4_frame data ->
      hebpf_acl_xdp_generic table data =
        match Policy.seen data with
        | None => Finish XDP_PASS
        | Some p => if Policy.denied (valid_rules rs) p then Finish XDP_DROP else ChainNext XDP_PASS
        end) /\
    jget (jobject (daemon_status prog_id fmt_hex jnull jbool d' queue root)) "Daemon" = Some dj /\
    jget dj "Loader" = Some (jarray (svcs ++ [chains])) /\ svc ∈ svcs /\ entry_shown svc ce (SAcl o) /\
    jget svc "status" = Some status /\ AclRules.from_json status AclRules.default = Ok (AclRules.mk (valid_rules rs)) /\
    report_answered dump me c before between later root (daemon_status prog_id fmt_hex jnull jbool d' queue).
Proof.
  destruct (updates_run prog_id prog_of_fd dl json_null read_json std_sort std_sort_perm std_sort_sorted nic hmaps p0
              every_object l base d k) as (d' & k' & Hups & Hd' & Hfit' & _); try done.
  { by apply objects_fine. }
  destruct (report_shows prog_id prog_of_fd dl json_null read_json std_sort std_sort_perm std_sort_sorted nic hmaps p0
              fmt_hex jnull jbool every_object _ d' k' queue root Hfit' Hd' Hroot Hpaths)
    as (dj & svcs & chains & Hdj & _ & Hlist & Hall & _).
  destruct (Hall x ce Hx) as (svc & so & Hsvc & Hshown & Hso & _ & Hof & _).
  destruct (Hof (acl_is_service dl _ _ _ _ Hacl)) as (o & table & -> & _ & Hmaps & _ & Hrules).
  destruct (Hrules (al_conf _ _ _ _ _ Hacl) rs Hfile) as [Hfilter Hkept].
  exists d', o, table, dj, svcs, chains, svc, (AclRules.to_json (AclRules.mk (valid_rules rs))).
  pose proof (from_json_wf _ _ (af_json _ _ _ _ Hfile)) as Hwf.
  do 3 (split; [done |]). split.
  { intros data Hframe. rewrite (Hfilter data Hframe). destruct (Policy.seen data) as [p |] eqn:Hp; [| done].
    rewrite valid_rules_deny; [done | exact Hwf |]. eapply seen_wf; [apply Hframe | exact Hp]. }
  do 4 (split; [done |]). split; [| split; [by apply acl_json_roundtrip, valid_rules_wf | by apply daemon_answers]].
  destruct Hshown as (_ & _ & _ & _ & ->). cbn. unfold Acl.getDebugStatus. cbn. by rewrite Hkept.
Qed.

End Rules.

(** ** A concrete request *)

Module Sample.

Import ProgMap.Sample Firewall.Sample Reconfig.Sample.
#[local] Existing Instance release_build.
#[local] Existing Instance System.Sample.order_string.
#[local] Existing Instance System.Sample.order_Z.
#[local] Existing Instance System.Sample.order_hook.
#[local] Existing Instance array_ops.
#[local] Existing Instance array_laws.
#[local] Existing Instance Loader.Sample.watcher_if.
#[local] Existing Instance Loader.Sample.watcher_laws.
#[local] Existing Instance Lb.Sample.pool_ops.
#[local] Existing Instance Lb.Sample.pool_laws.
#[local] Existing Instance Lb.Sample.mac_ops.
#[local] Existing Instance System.Sample.before_dec.
#[local] Existing Instance System.Sample.before_total.
#[local] Existing Instance Firewall.Sample.objects.
#[local] Existing Instance Firewall.Sample.object_laws.

(** a request that comes in two updates of the server's own configuration; the
    text of a report is the list of its keys *)
Definition dump (report : list (string * RefJson.t)) : result exn string := Ok (String.concat " " report.*1).
Definition attached : list (event (J := list (string * RefJson.t))) :=
  [EvCall (OpAttach (Some 1%nat)); EvCall (OpUpdate IoObject DebugServer.Sample.free DebugServer.Sample.on); EvAccept 0 false].
Definition meanwhile : list (event (J := list (string * RefJson.t))) :=
  [EvCall (OpUpdate IoObject DebugServer.Sample.free DebugServer.Sample.on); EvAccept 0 true; EvAccept 1 false].
Definition root : list (string * RefJson.t) := [("version", RefJson.Str "1.0.0"); ("build_time", RefJson.Str "today")].
Definition queue : Queue.Queue nat := Queue.mkQueue None [] 16 false [] [] [].
Definition hex (z : Z) : string := if z =? CHAIN_KEY 2 3 then "0x200000003" else "".
Definition flag (b : bool) : RefJson.t := RefJson.Num (Z.b2z b).
Abbreviation report_of := (daemon_status Datatypes.id hex RefJson.Null flag).

Lemma daemon_alone : only_subscriber 1 attached.
Proof.
  assert (Hin : forall op, EvCall op ∈ attached -> op = OpAttach (Some 1%nat) \/
    op = OpUpdate IoObject DebugServer.Sample.free DebugServer.Sample.on).
  { intros op Hin. repeat (apply elem_of_cons in Hin as [Heq | Hin]; [try discriminate Heq; injection Heq as ->; auto |]). by apply not_elem_of_nil in Hin. }
  split; [left | |].
  - by intros [|]%Hin.
  - intros other [[=] |]%Hin; done.
Qed.

Lemma nobody_writes ec : EvWrite 0 ec ∉ meanwhile.
Proof. intros Hin. repeat (apply elem_of_cons in Hin as [Heq | Hin]; [discriminate Heq |]). by apply not_elem_of_nil in Hin. Qed.

Lemma one_request : debug_request dump 1 0 attached meanwhile.
Proof. split; [exact daemon_alone | vm_compute; reflexivity | vm_compute; reflexivity | exact nobody_writes]. Qed.

Lemma paths_apart : NoDup (map_to_list (hook_maps_ no_regions) ≫= paths).
Proof. refine (bool_decide_unpack _ _). vm_compute. exact Logic.I. Qed.

Abbreviation answered d' := (connections (server (foldl (http_exec dump) idle_server
  ((attached ++ EvRead 0 false true "/api/debug" root (fun _ => report_of d' queue) :: meanwhile) ++ [EvWrite 0 false]))) !! 0%nat
  = Some (Answered (mkResponse 200 "hebpf-debug" "application/json" "version build_time Daemon"))).

(** after the four updates the answer shows the load balancer with its file *)
Lemma debug_answer_shows_configuration_witness :
  exists d' dj (svcs : list RefJson.t) chains svc, updates dl null read_json System.Sample.sort story fresh = (Ok tt, d') /\
    jget (jobject (report_of d' queue root)) "Daemon" = Some dj /\ jget dj "Loader" = Some (jarray (svcs ++ [chains])) /\
    svc ∈ svcs /\ jget svc "config_path" = Some (jstring "/etc/lb.json") /\ answered d'.
Proof.
  destruct (debug_answer_shows_configuration Datatypes.id prog_of_fd dl null read_json System.Sample.sort
              (merge_sort_Permutation System.Sample.before) (Sorted_merge_sort System.Sample.before) nic2 all_maps no_regions
              hex RefJson.Null flag
              (object_fine Services.Sample.willing Lb.Sample.parse_v4 Lb.Sample.garbage null Acl.Sample.table Lb.Sample.vips
                 Lb.Sample.pool Lb.Sample.lomac dl read_json)
              ∅ story fresh (kernel ∅) queue dump 1 0 attached meanwhile [] root
              (objects_fine Services.Sample.willing Services.Sample.willing_ok Lb.Sample.parse_v4 Lb.Sample.garbage null
                 Acl.Sample.table Lb.Sample.vips Lb.Sample.pool Lb.Sample.lomac dl read_json)
              manager_fine (nothing_config _ fw_loads fw_scheduler_here) (fw_fits _ (map_Forall_empty _) nothing_ids)
              fw_story fw_fresh_running paths_apart)
    as (d' & k' & Hups & (dj & svcs & chains & Hdj & _ & Hlist & Hall & _) & Hanswer).
  - refine (bool_decide_unpack _ _). vm_compute. exact Logic.I.
  - exact one_request.
  - destruct (Hall "c" lb_with_file) as (svc & o & Hin & Hshown & _); [vm_compute; reflexivity |].
    exists d', dj, svcs, chains, svc. split; [exact Hups |]. split; [exact Hdj |]. split; [exact Hlist |].
    split; [exact Hin |]. split; [exact (proj1 (proj2 Hshown)) |].
    exact (Hanswer (fun _ => report_of d' queue) _ eq_refl eq_refl eq_refl).
Defined.

(** ... and the rule of the ACL's second file *)
Lemma debug_answer_shows_enforced_rules_witness :
  exists d' status, updates dl null read_json System.Sample.sort story fresh = (Ok tt, d') /\
    AclRules.from_json status AclRules.default = Ok (AclRules.mk [Services.Sample.other_rule]) /\ answered d'.
Proof.
  destruct (debug_answer_shows_enforced_rules Datatypes.id prog_of_fd Services.Sample.willing Services.Sample.willing_ok
              Lb.Sample.parse_v4 Lb.Sample.garbage null Acl.Sample.table Lb.Sample.vips Lb.Sample.pool Lb.Sample.lomac
              dl read_json System.Sample.sort (merge_sort_Permutation System.Sample.before)
              (Sorted_merge_sort System.Sample.before) nic2 all_maps no_regions hex RefJson.Null flag
              ∅ story fresh (kernel ∅) queue dump 1 0 attached meanwhile [] root "b" acl2 [Services.Sample.other_rule]
              manager_fine (nothing_config _ fw_loads fw_scheduler_here) (fw_fits _ (map_Forall_empty _) nothing_ids)
              fw_story fw_fresh_running paths_apart)
    as (d' & o & table & dj & svcs & chains & svc & status & Hups & _ & _ & _ & _ & _ & _ & _ & _ & Hstatus & Hanswer).
  - refine (bool_decide_unpack _ _). vm_compute. exact Logic.I.
  - vm_compute. reflexivity.
  - split; try reflexivity; discriminate.
  - split; [vm_compute; reflexivity | vm_compute; lia | vm_compute; discriminate].
  - exact one_request.
  - exists d', status. split; [exact Hups |]. split; [exact Hstatus |].
    exact (Hanswer (fun _ => report_of d' queue) _ eq_refl eq_refl eq_refl).
Defined.

End Sample.
